(** * Gateway client of agent-forge-streak: a shallow embedding

    The development follows the layout of the repository:
    - [JS]: the fragment of JavaScript data the client manipulates
      (UTF-16 strings, numbers, values, completions of [try]/[catch]);
    - [Regex]: a backtracking matcher for the two patterns of the message
      parser, written in the continuation style of ECMA-262;
    - [Parser]: [parseTaskMessage] and [createDeltaAccumulator];
    - [DeviceIdentity]: [buildDeviceAuthPayload];
    - [Protocol]: [parseFrame];
    - [Store]: [loadState], [saveState], and a small JSON codec to run
      them on;
    - [Gateway]: what the versions of the connection engine share;
    - [Connection]: the connection engine with the signed handshake and
      the pairing state;
    - [RequestEngine]: the connection engine with the pending-request
      table;
    - [Samples]: states and frames the properties are run on;
    - [Text], [SettingsForm], [Encoding], [Url]: string helpers, the
      escaping of the settings form, the hexadecimal and base64url
      encodings of the device identity, and [buildAuthUrl];
    - [StoreApi]: the methods of the store object;
    - [ConnectionApi], [RequestApi]: [sendMessage], [isConnected] and
      the states the engines reach;
    - [RegexSem]: what a match of a pattern is, and the formats of the
      lines the parser reads;
    - [AuthPayload]: the array the signed payload joins;
    - [Frames], [TasksUi]: the listener of the task view;
    - [ConnectionTest]: [testConnection];
    - [Scenarios]: more states to run the properties on.
    The properties follow, component by component. *)

From Stdlib Require Import ZArith NArith QArith Lqa Lia List Bool.
From Stdlib Require Import Strings.String Strings.Ascii.
From Stdlib Require Strings.Byte.
From stdpp Require Import base option list gmap strings pretty.

Set Warnings "-register-all".
Local Open Scope Z_scope.

(* ===================================================================== *)
(** * JavaScript data *)
(* ===================================================================== *)

Module JS.

(** A string is a sequence of UTF-16 code units. *)
Definition char16 := N.
Definition jsstring := list char16.

(** ASCII literals of the source, as code units. *)
Fixpoint lit (s : string) : jsstring :=
  match s with
  | EmptyString => []
  | String a s' => N_of_ascii a :: lit s'
  end.

Definition str_eqb (a b : jsstring) : bool := bool_decide (a = b).

(** [String.prototype.includes] *)
Fixpoint starts_with (needle hay : jsstring) : bool :=
  match needle, hay with
  | [], _ => true
  | _ :: _, [] => false
  | c :: needle', d :: hay' => N.eqb c d && starts_with needle' hay'
  end.

Fixpoint includes (hay needle : jsstring) : bool :=
  starts_with needle hay ||
  match hay with
  | [] => false
  | _ :: hay' => includes hay' needle
  end.

(** [Array.prototype.join] on an array of strings. *)
Fixpoint join (sep : jsstring) (parts : list jsstring) : jsstring :=
  match parts with
  | [] => []
  | [p] => p
  | p :: rest => p ++ sep ++ join sep rest
  end.

(** [String.prototype.split] with a one-unit separator: the result is
    never empty, and an input without separator is returned whole. *)
Fixpoint split_on (sep : char16) (s : jsstring) : list jsstring :=
  match s with
  | [] => [[]]
  | c :: s' =>
      if N.eqb c sep then [] :: split_on sep s'
      else match split_on sep s' with
           | [] => [[c]]
           | l :: ls => (c :: l) :: ls
           end
  end.

(** WhiteSpace and LineTerminator of ECMA-262: the class [\s] of regular
    expressions and the units removed by [trim]. *)
Definition is_space (c : char16) : bool :=
  ((9 <=? c) && (c <=? 13))%N
  || N.eqb c 32 || N.eqb c 160 || N.eqb c 5760
  || ((8192 <=? c) && (c <=? 8202))%N
  || N.eqb c 8232 || N.eqb c 8233 || N.eqb c 8239 || N.eqb c 8287
  || N.eqb c 12288 || N.eqb c 65279.

(** LineTerminator: what [.] does not match. *)
Definition is_line_terminator (c : char16) : bool :=
  N.eqb c 10 || N.eqb c 13 || N.eqb c 8232 || N.eqb c 8233.

Definition is_digit (c : char16) : bool := ((48 <=? c) && (c <=? 57))%N.

Fixpoint trim_start (s : jsstring) : jsstring :=
  match s with
  | c :: s' => if is_space c then trim_start s' else s
  | [] => []
  end.

Definition trim_end (s : jsstring) : jsstring := rev (trim_start (rev s)).
Definition trim (s : jsstring) : jsstring := trim_end (trim_start s).

(** Numbers.  The client only ever holds integers, an infinity and NaN.
    [Num z] is the double whose value is the integer [z]; the two zeros
    are not told apart. *)
Inductive number := Num (z : Z) | Infinity (negative : bool) | NaN.

(** The double nearest to a non-negative integer: up to 2^53 the integer
    itself, beyond that the nearest integer with a significand of 53
    bits, the even significand when two are equally near. *)
Definition nearest_double (n : Z) : Z :=
  if n <? 2 ^ 53 then n
  else
    let k := Z.log2 n - 52 in
    let q := Z.shiftr n k in
    let r := Z.land n (Z.ones k) in
    let half := 2 ^ (k - 1) in
    let q := if (half <? r) || ((r =? half) && Z.odd q) then q + 1 else q in
    Z.shiftl q k.

(** The Number value for an integer: what rounds to 2^1024 or beyond is
    an infinity. *)
Definition to_number (z : Z) : number :=
  let m := nearest_double (Z.abs z) in
  if m <? 2 ^ 1024 then Num (if z <? 0 then - m else m)
  else Infinity (z <? 0).

Definition digit_val (c : char16) : Z := Z.of_N (c - 48).

Fixpoint digits_prefix (s : jsstring) : jsstring :=
  match s with
  | c :: s' => if is_digit c then c :: digits_prefix s' else []
  | [] => []
  end.

Definition digits_value (ds : jsstring) : Z :=
  fold_left (fun acc c => 10 * acc + digit_val c) ds 0.

(** [parseInt(s, 10)]: leading white space is skipped, a sign is read,
    then the longest prefix of digits; no digit gives NaN, and the
    integer the digits spell is returned as a Number.  (Past the 20th
    significant digit an implementation may read the digits as zeros;
    here they are read as they are.) *)
Definition parseInt10 (s : jsstring) : number :=
  let s1 := trim_start s in
  let '(neg, s2) :=
    match s1 with
    | c :: r => if N.eqb c 45 then (true, r)
                else if N.eqb c 43 then (false, r) else (false, s1)
    | [] => (false, s1)
    end in
  match digits_prefix s2 with
  | [] => NaN
  | ds => to_number (if neg then - digits_value ds else digits_value ds)
  end.

(** [String(n)] for a non-negative integer below 10^21: its decimal
    digits. *)
Fixpoint dec_digits (fuel : nat) (n : N) (acc : jsstring) : jsstring :=
  match fuel with
  | O => acc
  | S fuel' =>
      let acc' := (48 + n mod 10)%N :: acc in
      if (n <? 10)%N then acc' else dec_digits fuel' (n / 10)%N acc'
  end.

Definition String_of_N (n : N) : jsstring :=
  dec_digits (S (N.to_nat (N.log2 n))) n [].

(** [s.replace(/c/g, '')] for a one-unit pattern. *)
Definition remove_all (c : char16) (s : jsstring) : jsstring :=
  filter (fun d => d <> c) s.

(** The outcome of evaluating code that may throw. *)
Inductive completion (A : Type) :=
| Return (v : A)
| Throw (e : jsstring).
Arguments Return {A} v.
Arguments Throw {A} e.

(** [try { body } catch { handler }] *)
Definition try_catch {A} (body : completion A) (handler : completion A)
  : completion A :=
  match body with
  | Return v => Return v
  | Throw _ => handler
  end.

(** Values.  Property names are the identifiers of the source. *)
Inductive value :=
| VUndefined
| VNull
| VBool (b : bool)
| VNum (n : number)
| VStr (s : jsstring)
| VArr (elems : list value)
| VObj (props : gmap string value)
| VBinary (bytes : list N).             (* Blob or ArrayBuffer of a message *)

(** ToBoolean *)
Definition truthy (v : value) : bool :=
  match v with
  | VUndefined | VNull => false
  | VBool b => b
  | VNum (Num z) => negb (Z.eqb z 0)
  | VNum (Infinity _) => true
  | VNum NaN => false
  | VStr s => match s with [] => false | _ :: _ => true end
  | VArr _ | VObj _ | VBinary _ => true
  end.

(** The own enumerable properties an object spread [{...v}] copies. *)
Definition indexed {A} (f : A -> value) (l : list A) : gmap string value :=
  list_to_map (imap (fun i x => (pretty i, f x)) l).

Definition own_props (v : value) : gmap string value :=
  match v with
  | VObj props => props
  | VArr elems => indexed id elems
  | VStr s => indexed (fun c => VStr [c]) s
  | _ => ∅
  end.

End JS.
Import JS.

(* ===================================================================== *)
(** * Regular expressions *)
(* ===================================================================== *)

Module Regex.

Inductive regex :=
| RChar (p : char16 -> bool)          (* one code unit: literal, class, [.] *)
| REps
| RSeq (r1 r2 : regex)
| RAlt (r1 r2 : regex)                (* r1|r2, left alternative first *)
| RStar (greedy : bool) (r : regex)   (* r* when greedy, r*? otherwise *)
| RGroup (n : nat) (r : regex)        (* n-th capturing group *)
| RBol                                (* ^ without the m flag *)
| REol.                               (* $ without the m flag *)

Definition RPlus (greedy : bool) (r : regex) : regex :=
  RSeq r (RStar greedy r).
Definition ROpt (r : regex) : regex := RAlt r REps.

(** The state of a match: the input still to read and the captures. *)
Record mstate := MState { rest : jsstring; caps : list (nat * jsstring) }.

Definition continuation := mstate -> option mstate.

Section Matcher.
(** The whole input, which [^] needs. *)
Variable input : jsstring.

Definition consumed (from to : mstate) : jsstring :=
  take (length (rest from) - length (rest to)) (rest from).

(** The matcher of ECMA-262 (22.2.2): [run r k st] tries [r] at [st]
    and hands each way of matching it to the continuation [k], in
    priority order, until one succeeds.  An iteration of a star that
    reads nothing is rejected, as in RepeatMatcher. *)
Fixpoint run (r : regex) (k : continuation) (st : mstate)
  : option mstate :=
  match r with
  | RChar p =>
      match rest st with
      | c :: s' => if p c then k (MState s' (caps st)) else None
      | [] => None
      end
  | REps => k st
  | RSeq r1 r2 => run r1 (run r2 k) st
  | RAlt r1 r2 =>
      match run r1 k st with
      | Some res => Some res
      | None => run r2 k st
      end
  | RStar greedy r1 =>
      (fix loop (fuel : nat) (st : mstate) {struct fuel} : option mstate :=
         match fuel with
         | O => k st
         | S fuel' =>
             let again :=
               run r1 (fun st' =>
                         if (length (rest st') <? length (rest st))%nat
                         then loop fuel' st' else None) st in
             if greedy then
               match again with
               | Some res => Some res
               | None => k st
               end
             else
               match k st with
               | Some res => Some res
               | None => again
               end
         end) (S (length (rest st))) st
  | RGroup n r1 =>
      run r1 (fun st' =>
                k (MState (rest st') ((n, consumed st st') :: caps st'))) st
  | RBol => if (length (rest st) =? length input)%nat then k st else None
  | REol => match rest st with [] => k st | _ :: _ => None end
  end.
End Matcher.

(** The most recent capture of group [n]. *)
Fixpoint capture (n : nat) (cs : list (nat * jsstring)) : option jsstring :=
  match cs with
  | [] => None
  | (m, s) :: cs' => if (m =? n)%nat then Some s else capture n cs'
  end.

(** [String.prototype.match] with a pattern without the g flag: the
    leftmost start position at which the pattern matches. *)
Fixpoint search (input : jsstring) (r : regex) (s : jsstring)
  : option (list (nat * jsstring)) :=
  match run input r Some (MState s []) with
  | Some st => Some (caps st)
  | None =>
      match s with
      | [] => None
      | _ :: s' => search input r s'
      end
  end.

Definition exec (r : regex) (s : jsstring) : option (list (nat * jsstring)) :=
  search s r s.

(** Building blocks. *)
Definition chr (c : char16) : regex := RChar (N.eqb c).

(** Canonicalize for the i flag without the u flag: on the letters of
    the patterns below, which are all ASCII, it is ASCII upper-casing;
    a code unit above 127 never canonicalizes to an ASCII one. *)
Definition ascii_upper (c : char16) : char16 :=
  if ((97 <=? c) && (c <=? 122))%N then (c - 32)%N else c.
Definition chr_i (c : char16) : regex :=
  RChar (fun d => N.eqb (ascii_upper d) (ascii_upper c)).

Fixpoint seq_of (mk : char16 -> regex) (s : jsstring) : regex :=
  match s with
  | [] => REps
  | [c] => mk c
  | c :: s' => RSeq (mk c) (seq_of mk s')
  end.

Definition str (s : string) : regex := seq_of chr (lit s).
Definition str_i (s : string) : regex := seq_of chr_i (lit s).
Definition units (s : jsstring) : regex := seq_of chr s.

Definition space : regex := RChar is_space.                      (* \s *)
Definition digit : regex := RChar is_digit.                      (* \d *)
Definition dot : regex := RChar (fun c => negb (is_line_terminator c)).

Fixpoint seqs (rs : list regex) : regex :=
  match rs with
  | [] => REps
  | [r] => r
  | r :: rs' => RSeq r (seqs rs')
  end.

Fixpoint alts (rs : list regex) : regex :=
  match rs with
  | [] => RChar (fun _ => false)
  | [r] => r
  | r :: rs' => RAlt r (alts rs')
  end.

End Regex.
Import Regex.

(* ===================================================================== *)
(** * The message parser (parser.js) *)
(* ===================================================================== *)

Module Parser.

(** [\s*\|?\s*.*?], the filler between two fields of the stats line. *)
Definition field_gap : regex :=
  seqs [RStar true space; ROpt (chr 124%N); RStar true space; RStar false dot].

(** [[:\s]+] *)
Definition colon_or_space : regex :=
  RPlus true (RChar (fun c => N.eqb c 58%N || is_space c)).

(** [[\d,]+] *)
Definition digits_or_commas : regex :=
  RPlus true (RChar (fun c => is_digit c || N.eqb c 44%N)).

Definition number_group (n : nat) : regex := RGroup n (RPlus true digit).

(** [/Day\s+(\d+)\s*\|?\s*.*?Streak[:\s]+(\d+)\s*\|?\s*.*?Hearts?[:\s]+(\d+)
     \s*\|?\s*.*?XP[:\s]+([\d,]+)\s*\|?\s*.*?Level[:\s]+(\d+)/i] *)
Definition STATS_PATTERN : regex :=
  seqs [ str_i "Day"; RPlus true space; number_group 1; field_gap;
         str_i "Streak"; colon_or_space; number_group 2; field_gap;
         str_i "Heart"; ROpt (chr_i 115%N); colon_or_space; number_group 3;
         field_gap;
         str_i "XP"; colon_or_space; RGroup 4 digits_or_commas; field_gap;
         str_i "Level"; colon_or_space; number_group 5 ].

(** The completion glyphs, code unit by code unit as the pattern of the
    source file spells them. *)
Definition GLYPH_DONE : jsstring := [226; 339; 8230]%N.
Definition GLYPH_TODO : jsstring := [226; 172; 339; 239]%N.
Definition GLYPH_TODO_TAIL : char16 := 184%N.
Definition GLYPH_BALLOT : jsstring := [226; 732; 8216; 239; 184]%N.
Definition GLYPH_BUTTON : jsstring := [287; 376; 8221; 178]%N.
Definition GLYPH_SQUARE : jsstring := [226; 8211; 170; 239; 184]%N.

Definition check_marker : regex :=
  alts [ units GLYPH_DONE;
         RSeq (units GLYPH_TODO) (ROpt (chr GLYPH_TODO_TAIL));
         units GLYPH_BALLOT;
         units GLYPH_BUTTON;
         units GLYPH_SQUARE;
         str "[x]";
         seqs [chr 91%N; ROpt space; chr 93%N] ].

(** [/^\s*(\d+)\.\s*(...)\s*(.+)$/] *)
Definition TASK_LINE_PATTERN : regex :=
  seqs [ RBol; RStar true space; number_group 1; chr 46%N; RStar true space;
         RGroup 2 check_marker; RStar true space;
         RGroup 3 (RPlus true dot); REol ].

Record TaskItem := mkItem {
  id : number;
  text : jsstring;
  completed : bool
}.

Record Stats := mkStats {
  streak : number;
  hearts : number;
  xp : number;
  level : number
}.

(** The object [parseTaskMessage] returns; [None] in [day] and [stats]
    is JavaScript's [null]. *)
Record ParseResult := mkResult {
  day : option number;
  stats : option Stats;
  items : list TaskItem
}.

(** [m[n]] of a match array; a group that took no part is [undefined]. *)
Definition group (n : nat) (m : list (nat * jsstring)) : jsstring :=
  default [] (capture n m).

Definition task_of_line (line : jsstring) : list TaskItem :=
  match exec TASK_LINE_PATTERN line with
  | Some taskMatch =>
      let num := group 1 taskMatch in
      let check := group 2 taskMatch in
      let taskText := group 3 taskMatch in
      let completed :=
        str_eqb check GLYPH_DONE || str_eqb check GLYPH_BALLOT
        || str_eqb check (lit "[x]") in
      [ mkItem (parseInt10 num) (trim taskText) completed ]
  | None => []
  end.

(** [parseTaskMessage] on a string argument; [None] is [null].  (Any
    argument that is not a string returns [null] at the first test.) *)
Definition parseTaskMessage (text : jsstring) : option ParseResult :=
  match text with
  | [] => None
  | _ :: _ =>
      let statsMatch := exec STATS_PATTERN text in
      let lines := split_on 10%N text in
      let items := flat_map task_of_line lines in
      match statsMatch, items with
      | None, [] => None
      | _, _ =>
          Some (mkResult
                  (match statsMatch with
                   | Some m => Some (parseInt10 (group 1 m))
                   | None => None
                   end)
                  (match statsMatch with
                   | Some m =>
                       Some (mkStats (parseInt10 (group 2 m))
                                     (parseInt10 (group 3 m))
                                     (parseInt10 (remove_all 44%N (group 4 m)))
                                     (parseInt10 (group 5 m)))
                   | None => None
                   end)
                  items)
      end
  end.

(** [createDeltaAccumulator]: the closure variable [buffer] is the state;
    every method maps the state before the call to its result and the
    state after it. *)
Record Accumulator := mkAcc { buffer : jsstring }.

Definition createDeltaAccumulator : Accumulator := mkAcc [].

Definition append (delta : jsstring) (acc : Accumulator) : Accumulator :=
  mkAcc (buffer acc ++ delta).

Definition get_text (acc : Accumulator) : jsstring * Accumulator :=
  (buffer acc, acc).

Definition parse (acc : Accumulator) : option ParseResult * Accumulator :=
  (parseTaskMessage (buffer acc), acc).

Definition reset (acc : Accumulator) : Accumulator := mkAcc [].

(** The buffer of the worked example of the specification. *)
Definition example_buffer : jsstring :=
  lit "Day 42 | Streak: 5 | Hearts: 3 | XP: 1,250 | Level: 7" ++ [10%N]
  ++ lit "1. [x] Review PR" ++ [10%N]
  ++ lit "2. [ ] Write tests".

End Parser.

(* ===================================================================== *)
(** * Device identity (device-identity.js) *)
(* ===================================================================== *)

Module DeviceIdentity.

(** The argument object of [buildDeviceAuthPayload].  [token] and [nonce]
    may be [null] or [undefined] ([None]). *)
Record AuthFields := mkAuth {
  deviceId : jsstring;
  clientId : jsstring;
  clientMode : jsstring;
  role : jsstring;
  scopes : list jsstring;
  signedAtMs : N;
  token : option jsstring;
  nonce : option jsstring
}.

(** The test [nonce ? ... : ...]: a nonce is present when it is a
    non-empty string. *)
Definition present (s : option jsstring) : bool :=
  match s with
  | Some (_ :: _) => true
  | _ => false
  end.

Definition buildDeviceAuthPayload (a : AuthFields) : jsstring :=
  let version := if present (nonce a) then lit "v2" else lit "v1" in
  let base :=
    [ version; deviceId a; clientId a; clientMode a; role a;
      join (lit ",") (scopes a); String_of_N (signedAtMs a);
      default [] (token a) ] in
  let base :=
    if str_eqb version (lit "v2") then base ++ [default [] (nonce a)]
    else base in
  join (lit "|") base.

(** The fields every payload starts with after the version, in order. *)
Definition payload_fields (a : AuthFields) : list jsstring :=
  [ deviceId a; clientId a; clientMode a; role a;
    join (lit ",") (scopes a); String_of_N (signedAtMs a);
    default [] (token a) ].

End DeviceIdentity.

(* ===================================================================== *)
(** * Wire codec (protocol.js) *)
(* ===================================================================== *)

Module Protocol.

Section WithJSON.
(** [JSON.parse] is the host's; it returns a value or throws. *)
Variable JSON_parse : jsstring -> completion value.

Definition unknown_frame (data : value) : value :=
  VObj (<["type" := VStr (lit "unknown")]> (<["raw" := data]> ∅)).

Definition parseFrame (data : value) : completion value :=
  try_catch
    (match data with
     | VStr s => JSON_parse s
     | _ => Return data
     end)
    (Return (unknown_frame data)).
End WithJSON.

(** [getSessionKey] of the current protocol. *)
Definition getSessionKey (agentId : jsstring) : jsstring :=
  lit "agent:" ++ agentId ++ lit ":main".

End Protocol.

(* ===================================================================== *)
(** * The persistent store (store.js) *)
(* ===================================================================== *)

Module Store.

Definition STORAGE_KEY : string := "forge_state".
Definition DEVICE_KEY : string := "forge_device_id".

(** [localStorage]: keys to strings; [getItem] of an absent key is [null]. *)
Abbreviation storage := (gmap string jsstring).

(** The application state is a plain object. *)
Abbreviation state := (gmap string value).

Definition obj (props : list (string * value)) : value :=
  VObj (list_to_map props).

(** [getDeviceId]; [uuid] is what [crypto.randomUUID()] would return. *)
Definition getDeviceId (uuid : jsstring) (ls : storage) : jsstring * storage :=
  match ls !! DEVICE_KEY with
  | Some (c :: id) => (c :: id, ls)
  | _ => (uuid, <[DEVICE_KEY := uuid]> ls)
  end.

Definition defaultConnection : gmap string value :=
  list_to_map [ ("state", VStr (lit "DISCONNECTED")); ("error", VNull) ].

Definition defaultState (deviceId : jsstring) : state :=
  list_to_map
    [ ("settings", obj [ ("gatewayUrl", VStr []); ("authToken", VStr []);
                         ("agentId", VStr (lit "agent:main")) ]);
      ("tasks", obj [ ("day", VNull);
                      ("stats", obj [ ("streak", VNum (Num 0));
                                      ("hearts", VNum (Num 0));
                                      ("xp", VNum (Num 0));
                                      ("level", VNum (Num 1)) ]);
                      ("items", VArr []);
                      ("rawMessage", VNull) ]);
      ("connection", VObj defaultConnection);
      ("pendingQueue", VArr []);
      ("deviceId", VStr deviceId) ].

(** [{...a, ...b}]: the properties of [b] win. *)
Definition spread (a b : gmap string value) : gmap string value := b ∪ a.

Section WithJSON.
Variable JSON_stringify : value -> jsstring.
Variable JSON_parse : jsstring -> completion value.

(** [loadState], given the [defaultState] object built when the module was
    loaded.  The body of the [try] returns the merged state, or falls
    through when nothing is saved, or throws; after the [try] the default
    state is returned. *)
Definition loadState (dflt : state) (uuid : jsstring) (ls : storage)
  : state * storage :=
  let attempt : completion (option (state * storage)) :=
    match ls !! STORAGE_KEY with
    | Some (c :: saved) =>
        match JSON_parse (c :: saved) with
        | Return parsed =>
            let '(id, ls') := getDeviceId uuid ls in
            Return (Some
              (<["deviceId" := VStr id]>
                 (<["connection" := VObj (spread ∅ defaultConnection)]>
                    (spread dflt (own_props parsed))),
               ls'))
        | Throw e => Throw e
        end
    | _ => Return None
    end in
  match try_catch attempt (Return None) with
  | Return (Some res) => res
  | _ => (spread ∅ dflt, ls)
  end.

(** [saveState]: [const { connection, ...persistable } = state]. *)
Definition persistable (st : state) : gmap string value :=
  delete "connection" st.

Definition saveState (st : state) (ls : storage) : storage :=
  <[STORAGE_KEY := JSON_stringify (VObj (persistable st))]> ls.

(** [store.set] and [store.update] with a one-segment path, without the
    notification of the listeners. *)
Definition set (partial : gmap string value) (st : state) (ls : storage)
  : state * storage :=
  let st' := spread st partial in (st', saveState st' ls).

Definition update (key : string) (v : value) (st : state) (ls : storage)
  : state * storage :=
  let st' := <[key := v]> (spread ∅ st) in (st', saveState st' ls).

(** Loading the module: [defaultState] is built first (which may create
    the device id), then [state = loadState()]. *)
Definition boot (uuid : jsstring) (ls : storage) : state * storage :=
  let '(id, ls1) := getDeviceId uuid ls in
  loadState (defaultState id) uuid ls1.
End WithJSON.

(** A codec for a fragment of JSON (null, booleans, natural numbers,
    strings without escapes, arrays, objects), to run the store on. *)
Section Codec.
Local Open Scope N_scope.

Definition quote (s : jsstring) : jsstring := [34] ++ s ++ [34].

Fixpoint print (fuel : nat) (v : value) : jsstring :=
  match fuel with
  | O => lit "null"
  | S fuel' =>
      match v with
      | VNull | VUndefined | VBinary _ | VNum NaN | VNum (Infinity _) =>
          lit "null"
      | VBool true => lit "true"
      | VBool false => lit "false"
      | VNum (Num z) => String_of_N (Z.to_N z)
      | VStr s => quote s
      | VArr elems => [91] ++ join [44] (map (print fuel') elems) ++ [93]
      | VObj props =>
          [123]
          ++ join [44] (map (fun kv => quote (lit kv.1) ++ [58] ++ print fuel' kv.2)
                            (map_to_list props))
          ++ [125]
      end
  end.

Fixpoint unlit (s : jsstring) : string :=
  match s with
  | [] => EmptyString
  | c :: s' => String (ascii_of_N c) (unlit s')
  end.

Fixpoint read_string (s : jsstring) : option (jsstring * jsstring) :=
  match s with
  | [] => None
  | c :: s' =>
      if N.eqb c 34 then Some ([], s')
      else match read_string s' with
           | Some (str, r) => Some (c :: str, r)
           | None => None
           end
  end.

Fixpoint drop_digits (s : jsstring) : jsstring :=
  match s with
  | c :: s' => if is_digit c then drop_digits s' else s
  | [] => []
  end.

(** [read fuel s]: a value at the head of [s] and the remaining text. *)
Fixpoint read (fuel : nat) (s : jsstring) : option (value * jsstring) :=
  match fuel with
  | O => None
  | S fuel' =>
      let fix read_elems (n : nat) (s : jsstring) (acc : list value)
        : option (list value * jsstring) :=
        match n with
        | O => None
        | S n' =>
            match read fuel' s with
            | Some (v, c :: r) =>
                if N.eqb c 44 then read_elems n' r (acc ++ [v])
                else if N.eqb c 93 then Some (acc ++ [v], r) else None
            | _ => None
            end
        end in
      let fix read_props (n : nat) (s : jsstring) (acc : gmap string value)
        : option (gmap string value * jsstring) :=
        match n with
        | O => None
        | S n' =>
            match s with
            | q :: s1 =>
                if N.eqb q 34 then
                  match read_string s1 with
                  | Some (k, c :: s2) =>
                      if N.eqb c 58 then
                        match read fuel' s2 with
                        | Some (v, d :: r) =>
                            let acc' := <[unlit k := v]> acc in
                            if N.eqb d 44 then read_props n' r acc'
                            else if N.eqb d 125 then Some (acc', r) else None
                        | _ => None
                        end
                      else None
                  | _ => None
                  end
                else None
            | [] => None
            end
        end in
      match s with
      | [] => None
      | c :: r =>
          if starts_with (lit "null") s then Some (VNull, drop 4 s)
          else if starts_with (lit "true") s then Some (VBool true, drop 4 s)
          else if starts_with (lit "false") s then Some (VBool false, drop 5 s)
          else if is_digit c then
            Some (VNum (to_number (digits_value (digits_prefix s))),
                  drop_digits s)
          else if N.eqb c 34 then
            match read_string r with
            | Some (str, r') => Some (VStr str, r')
            | None => None
            end
          else if N.eqb c 91 then
            match r with
            | d :: r' => if N.eqb d 93 then Some (VArr [], r')
                         else match read_elems (length s) r [] with
                              | Some (l, r2) => Some (VArr l, r2)
                              | None => None
                              end
            | [] => None
            end
          else if N.eqb c 123 then
            match r with
            | d :: r' => if N.eqb d 125 then Some (VObj ∅, r')
                         else match read_props (length s) r ∅ with
                              | Some (m, r2) => Some (VObj m, r2)
                              | None => None
                              end
            | [] => None
            end
          else None
      end
  end.

Definition codec_stringify (v : value) : jsstring := print 16 v.

Definition codec_parse (s : jsstring) : completion value :=
  match read (length s) s with
  | Some (v, []) => Return v
  | _ => Throw (lit "SyntaxError")
  end.
End Codec.

End Store.

(* ===================================================================== *)
(** * What the two connection engines share (connection.js) *)
(* ===================================================================== *)

Module Gateway.

Inductive ConnectionState :=
| DISCONNECTED | CONNECTING | PAIRING | CONNECTED | RECONNECTING.

#[global] Instance ConnectionState_eq_dec : EqDecision ConnectionState.
Proof. solve_decision. Defined.

(** [WebSocket.readyState] *)
Inductive ReadyState := WS_CONNECTING | WS_OPEN | WS_CLOSING | WS_CLOSED.

#[global] Instance ReadyState_eq_dec : EqDecision ReadyState.
Proof. solve_decision. Defined.

Record Settings := mkSettings {
  gatewayUrl : jsstring;
  authToken : jsstring;
  agentId : jsstring
}.

(** The socket the variable [ws] holds, with the [settings] its handlers
    closed over. *)
Record Socket := mkSocket {
  sock_id : nat;
  readyState : ReadyState;
  sock_settings : Settings
}.

Record QueueItem := mkQueueItem {
  taskId : jsstring;
  text : jsstring;
  idempotencyKey : jsstring
}.

(** A decoded inbound frame, as far as the engines look into it, when
    the properties they read are strings where the protocol has strings:
    [type], [event], [id], the nonce, and the code and the message of
    the error.  An absent property is [None]; [fok] is [ok] when it is a
    boolean, [fresult] the truth value of [result] and [ferror] the
    error when it is truthy. *)
Record ErrorObj := mkError {
  code : option jsstring;
  message : option jsstring
}.

Record Frame := mkFrame {
  ftype : option jsstring;
  fid : option jsstring;
  fevent : option jsstring;
  fok : option bool;
  fresult : bool;
  ferror : option ErrorObj;
  fnonce : option jsstring              (* payload?.nonce *)
}.

(** What [parseFrame] can hand to [handleMessage] beyond that.  The text
    [null] parses to [null], which has no properties: reading [frame.type]
    throws.  Any other value has the properties of [Fields] (a number, a
    string or an array has none of them).  [id_null] says that [id] is
    [null], and [fid] is then not looked at; [odd_message], when given,
    is [error.message], a value of any type, and [message] is then not
    looked at. *)
Inductive Inbound :=
| JsonNull
| Fields (frame : Frame) (id_null : bool) (odd_message : option value).

Definition plain (frame : Frame) : Inbound := Fields frame false None.

Coercion plain : Frame >-> Inbound.

(** [errMsg.includes(needle)]: the method of a string or of an array;
    [None] when the call throws, the value having no such method. *)
Definition errMsg_includes (errMsg : value) (needle : jsstring)
  : option bool :=
  match errMsg with
  | VStr s => Some (includes s needle)
  | VArr elems =>
      Some (existsb (fun el => match el with
                               | VStr s => str_eqb s needle
                               | _ => false
                               end) elems)
  | _ => None
  end.

(** What the host answers during one handler: the clock, [Math.random()]
    and the successive results of [crypto.randomUUID()]. *)
Record Host := mkHost {
  now : N;
  random : Q;
  randomUUID : nat -> jsstring
}.

Definition HEARTBEAT_INTERVAL : Z := 30000.
Definition RECONNECT_BASE : Z := 1000.
Definition RECONNECT_CAP : Z := 30000.
Definition CONNECT_SEND_DELAY : Z := 750.

(** [Math.min(RECONNECT_BASE * 2 ** reconnectAttempt, RECONNECT_CAP)] *)
Definition backoff (reconnectAttempt : nat) : Z :=
  Z.min (RECONNECT_BASE * 2 ^ Z.of_nat reconnectAttempt) RECONNECT_CAP.

(** [base + base * 0.3 * Math.random()], over the rationals. *)
Definition jittered (base : Z) (rnd : Q) : Q :=
  (inject_Z base + inject_Z base * (3 # 10) * rnd)%Q.

(** [x || dflt] on a string that may be absent. *)
Definition or_else (x : option jsstring) (dflt : jsstring) : jsstring :=
  match x with
  | Some (c :: s) => c :: s
  | _ => dflt
  end.

(** [x || null], [x || undefined] *)
Definition or_null (x : option jsstring) : option jsstring :=
  match x with
  | Some (c :: s) => Some (c :: s)
  | _ => None
  end.

Definition eq_lit (x : option jsstring) (s : string) : bool :=
  bool_decide (x = Some (lit s)).

(** [store.dequeue] *)
Definition dequeue (key : jsstring) (q : list QueueItem) : list QueueItem :=
  filter (fun i => idempotencyKey i <> key) q.

End Gateway.
Import Gateway.

(* ===================================================================== *)
(** * The connection engine with the signed handshake (connection.js) *)
(* ===================================================================== *)

Module Connection.

Definition CLIENT_ID : jsstring := lit "webchat".
Definition CLIENT_MODE : jsstring := lit "webchat".
Definition ROLE : jsstring := lit "operator".
Definition SCOPES : list jsstring :=
  [lit "operator.read"; lit "operator.write"; lit "operator.admin"].

Record Identity := mkIdentity {
  ident_id : jsstring;
  publicKeyRaw : jsstring;
  privateKey : nat
}.

(** The [device] block of a connect request. *)
Record DeviceBlock := mkDevice {
  dev_id : jsstring;
  dev_publicKey : jsstring;
  dev_signature : jsstring;
  dev_signedAt : N;
  dev_nonce : option jsstring
}.

(** The frames the engine hands to [ws.send]: the connect request of
    [buildConnectRequest] and the [chat.send] request. *)
Inductive Outbound :=
| ConnectRequest (id : jsstring) (token : option jsstring)
                 (device : option DeviceBlock)
| ChatSend (id sessionKey msg key : jsstring).

Inductive TimerKind :=
| T_connect                             (* () => sendConnect() *)
| T_reconnect (s : Settings)            (* () => gateway.connect(settings) *)
| T_heartbeat.                          (* the interval of startHeartbeat *)

Record Timer := mkTimer { kind : TimerKind; delay : Q }.

(** A call of [sendConnect] suspended at [await signPayload(...)]. *)
Record SignJob := mkJob {
  job_identity : Identity;
  job_payload : jsstring;
  job_signedAt : N
}.

(** The module variables, the part of the store the engine reads and
    writes ([connection], [pendingQueue], [settings]), and the host: the
    pending timers, the frames sent so far with the socket they went to,
    the events delivered to listeners and the suspended signatures. *)
#[projections(primitive)]
Record Engine := mkEngine {
  ws : option Socket;
  heartbeatTimer : option nat;
  reconnectTimer : option nat;
  connectTimer : option nat;
  reconnectAttempt : nat;
  authenticated : bool;
  connectSent : bool;
  currentAuthToken : option jsstring;
  connectId : option jsstring;
  challengeNonce : option jsstring;
  deviceIdentity : option Identity;
  lastTick : option N;
  conn_state : ConnectionState;
  conn_error : option value;
  pendingQueue : list QueueItem;
  settings : Settings;
  timers : gmap nat Timer;
  next_timer : nat;
  wire : list (nat * Outbound);
  emitted : list (jsstring * Frame);
  signing : list SignJob
}.

Definition set_ws (v : option Socket) (e : Engine) : Engine :=
  mkEngine v (heartbeatTimer e) (reconnectTimer e) (connectTimer e) (reconnectAttempt e) (authenticated e) (connectSent e) (currentAuthToken e) (connectId e) (challengeNonce e) (deviceIdentity e) (lastTick e) (conn_state e) (conn_error e) (pendingQueue e) (settings e) (timers e) (next_timer e) (wire e) (emitted e) (signing e).
Definition set_heartbeatTimer (v : option nat) (e : Engine) : Engine :=
  mkEngine (ws e) v (reconnectTimer e) (connectTimer e) (reconnectAttempt e) (authenticated e) (connectSent e) (currentAuthToken e) (connectId e) (challengeNonce e) (deviceIdentity e) (lastTick e) (conn_state e) (conn_error e) (pendingQueue e) (settings e) (timers e) (next_timer e) (wire e) (emitted e) (signing e).
Definition set_reconnectTimer (v : option nat) (e : Engine) : Engine :=
  mkEngine (ws e) (heartbeatTimer e) v (connectTimer e) (reconnectAttempt e) (authenticated e) (connectSent e) (currentAuthToken e) (connectId e) (challengeNonce e) (deviceIdentity e) (lastTick e) (conn_state e) (conn_error e) (pendingQueue e) (settings e) (timers e) (next_timer e) (wire e) (emitted e) (signing e).
Definition set_connectTimer (v : option nat) (e : Engine) : Engine :=
  mkEngine (ws e) (heartbeatTimer e) (reconnectTimer e) v (reconnectAttempt e) (authenticated e) (connectSent e) (currentAuthToken e) (connectId e) (challengeNonce e) (deviceIdentity e) (lastTick e) (conn_state e) (conn_error e) (pendingQueue e) (settings e) (timers e) (next_timer e) (wire e) (emitted e) (signing e).
Definition set_reconnectAttempt (v : nat) (e : Engine) : Engine :=
  mkEngine (ws e) (heartbeatTimer e) (reconnectTimer e) (connectTimer e) v (authenticated e) (connectSent e) (currentAuthToken e) (connectId e) (challengeNonce e) (deviceIdentity e) (lastTick e) (conn_state e) (conn_error e) (pendingQueue e) (settings e) (timers e) (next_timer e) (wire e) (emitted e) (signing e).
Definition set_authenticated (v : bool) (e : Engine) : Engine :=
  mkEngine (ws e) (heartbeatTimer e) (reconnectTimer e) (connectTimer e) (reconnectAttempt e) v (connectSent e) (currentAuthToken e) (connectId e) (challengeNonce e) (deviceIdentity e) (lastTick e) (conn_state e) (conn_error e) (pendingQueue e) (settings e) (timers e) (next_timer e) (wire e) (emitted e) (signing e).
Definition set_connectSent (v : bool) (e : Engine) : Engine :=
  mkEngine (ws e) (heartbeatTimer e) (reconnectTimer e) (connectTimer e) (reconnectAttempt e) (authenticated e) v (currentAuthToken e) (connectId e) (challengeNonce e) (deviceIdentity e) (lastTick e) (conn_state e) (conn_error e) (pendingQueue e) (settings e) (timers e) (next_timer e) (wire e) (emitted e) (signing e).
Definition set_currentAuthToken (v : option jsstring) (e : Engine) : Engine :=
  mkEngine (ws e) (heartbeatTimer e) (reconnectTimer e) (connectTimer e) (reconnectAttempt e) (authenticated e) (connectSent e) v (connectId e) (challengeNonce e) (deviceIdentity e) (lastTick e) (conn_state e) (conn_error e) (pendingQueue e) (settings e) (timers e) (next_timer e) (wire e) (emitted e) (signing e).
Definition set_connectId (v : option jsstring) (e : Engine) : Engine :=
  mkEngine (ws e) (heartbeatTimer e) (reconnectTimer e) (connectTimer e) (reconnectAttempt e) (authenticated e) (connectSent e) (currentAuthToken e) v (challengeNonce e) (deviceIdentity e) (lastTick e) (conn_state e) (conn_error e) (pendingQueue e) (settings e) (timers e) (next_timer e) (wire e) (emitted e) (signing e).
Definition set_challengeNonce (v : option jsstring) (e : Engine) : Engine :=
  mkEngine (ws e) (heartbeatTimer e) (reconnectTimer e) (connectTimer e) (reconnectAttempt e) (authenticated e) (connectSent e) (currentAuthToken e) (connectId e) v (deviceIdentity e) (lastTick e) (conn_state e) (conn_error e) (pendingQueue e) (settings e) (timers e) (next_timer e) (wire e) (emitted e) (signing e).
Definition set_deviceIdentity (v : option Identity) (e : Engine) : Engine :=
  mkEngine (ws e) (heartbeatTimer e) (reconnectTimer e) (connectTimer e) (reconnectAttempt e) (authenticated e) (connectSent e) (currentAuthToken e) (connectId e) (challengeNonce e) v (lastTick e) (conn_state e) (conn_error e) (pendingQueue e) (settings e) (timers e) (next_timer e) (wire e) (emitted e) (signing e).
Definition set_lastTick (v : option N) (e : Engine) : Engine :=
  mkEngine (ws e) (heartbeatTimer e) (reconnectTimer e) (connectTimer e) (reconnectAttempt e) (authenticated e) (connectSent e) (currentAuthToken e) (connectId e) (challengeNonce e) (deviceIdentity e) v (conn_state e) (conn_error e) (pendingQueue e) (settings e) (timers e) (next_timer e) (wire e) (emitted e) (signing e).
Definition set_conn_state (v : ConnectionState) (e : Engine) : Engine :=
  mkEngine (ws e) (heartbeatTimer e) (reconnectTimer e) (connectTimer e) (reconnectAttempt e) (authenticated e) (connectSent e) (currentAuthToken e) (connectId e) (challengeNonce e) (deviceIdentity e) (lastTick e) v (conn_error e) (pendingQueue e) (settings e) (timers e) (next_timer e) (wire e) (emitted e) (signing e).
Definition set_conn_error (v : option value) (e : Engine) : Engine :=
  mkEngine (ws e) (heartbeatTimer e) (reconnectTimer e) (connectTimer e) (reconnectAttempt e) (authenticated e) (connectSent e) (currentAuthToken e) (connectId e) (challengeNonce e) (deviceIdentity e) (lastTick e) (conn_state e) v (pendingQueue e) (settings e) (timers e) (next_timer e) (wire e) (emitted e) (signing e).
Definition set_pendingQueue (v : list QueueItem) (e : Engine) : Engine :=
  mkEngine (ws e) (heartbeatTimer e) (reconnectTimer e) (connectTimer e) (reconnectAttempt e) (authenticated e) (connectSent e) (currentAuthToken e) (connectId e) (challengeNonce e) (deviceIdentity e) (lastTick e) (conn_state e) (conn_error e) v (settings e) (timers e) (next_timer e) (wire e) (emitted e) (signing e).
Definition set_settings (v : Settings) (e : Engine) : Engine :=
  mkEngine (ws e) (heartbeatTimer e) (reconnectTimer e) (connectTimer e) (reconnectAttempt e) (authenticated e) (connectSent e) (currentAuthToken e) (connectId e) (challengeNonce e) (deviceIdentity e) (lastTick e) (conn_state e) (conn_error e) (pendingQueue e) v (timers e) (next_timer e) (wire e) (emitted e) (signing e).
Definition set_timers (v : gmap nat Timer) (e : Engine) : Engine :=
  mkEngine (ws e) (heartbeatTimer e) (reconnectTimer e) (connectTimer e) (reconnectAttempt e) (authenticated e) (connectSent e) (currentAuthToken e) (connectId e) (challengeNonce e) (deviceIdentity e) (lastTick e) (conn_state e) (conn_error e) (pendingQueue e) (settings e) v (next_timer e) (wire e) (emitted e) (signing e).
Definition set_next_timer (v : nat) (e : Engine) : Engine :=
  mkEngine (ws e) (heartbeatTimer e) (reconnectTimer e) (connectTimer e) (reconnectAttempt e) (authenticated e) (connectSent e) (currentAuthToken e) (connectId e) (challengeNonce e) (deviceIdentity e) (lastTick e) (conn_state e) (conn_error e) (pendingQueue e) (settings e) (timers e) v (wire e) (emitted e) (signing e).
Definition set_wire (v : list (nat * Outbound)) (e : Engine) : Engine :=
  mkEngine (ws e) (heartbeatTimer e) (reconnectTimer e) (connectTimer e) (reconnectAttempt e) (authenticated e) (connectSent e) (currentAuthToken e) (connectId e) (challengeNonce e) (deviceIdentity e) (lastTick e) (conn_state e) (conn_error e) (pendingQueue e) (settings e) (timers e) (next_timer e) v (emitted e) (signing e).
Definition set_emitted (v : list (jsstring * Frame)) (e : Engine) : Engine :=
  mkEngine (ws e) (heartbeatTimer e) (reconnectTimer e) (connectTimer e) (reconnectAttempt e) (authenticated e) (connectSent e) (currentAuthToken e) (connectId e) (challengeNonce e) (deviceIdentity e) (lastTick e) (conn_state e) (conn_error e) (pendingQueue e) (settings e) (timers e) (next_timer e) (wire e) v (signing e).
Definition set_signing (v : list SignJob) (e : Engine) : Engine :=
  mkEngine (ws e) (heartbeatTimer e) (reconnectTimer e) (connectTimer e) (reconnectAttempt e) (authenticated e) (connectSent e) (currentAuthToken e) (connectId e) (challengeNonce e) (deviceIdentity e) (lastTick e) (conn_state e) (conn_error e) (pendingQueue e) (settings e) (timers e) (next_timer e) (wire e) (emitted e) v.

Definition initial (s : Settings) : Engine :=
  mkEngine None None None None 0 false false None None None None None
           DISCONNECTED None [] s ∅ 1 [] [] [].

Definition setState (st : ConnectionState) (err : option value)
  (e : Engine) : Engine :=
  set_conn_error err (set_conn_state st e).

Definition getReconnectDelay (h : Host) (e : Engine) : Q :=
  jittered (backoff (reconnectAttempt e)) (random h).

(** [setTimeout] and [setInterval] return a fresh handle; handles are
    positive numbers, so a variable holding one is truthy. *)
Definition setTimer (k : TimerKind) (d : Q) (e : Engine) : nat * Engine :=
  let t := next_timer e in
  (t, set_next_timer (S t) (set_timers (<[t := mkTimer k d]> (timers e)) e)).

Definition clearTimer (t : nat) (e : Engine) : Engine :=
  set_timers (delete t (timers e)) e.

Definition stopHeartbeat (e : Engine) : Engine :=
  match heartbeatTimer e with
  | Some t => set_heartbeatTimer None (clearTimer t e)
  | None => e
  end.

Definition send (f : Outbound) (e : Engine) : bool * Engine :=
  match ws e with
  | Some sock =>
      match readyState sock with
      | WS_OPEN => (true, set_wire (wire e ++ [(sock_id sock, f)]) e)
      | _ => (false, e)
      end
  | None => (false, e)
  end.

(** [emit]: the frame goes to the listeners of the event and to the
    wildcard listeners; the listener [startHeartbeat] registers on
    ['tick'] records the time. *)
Definition emit (event : jsstring) (f : Frame) (h : Host) (e : Engine)
  : Engine :=
  let e := set_emitted (emitted e ++ [(event, f)]) e in
  if str_eqb event (lit "tick") then
    match lastTick e with
    | Some _ => set_lastTick (Some (now h)) e
    | None => e
    end
  else e.

Definition cleanup (e : Engine) : Engine :=
  let e := stopHeartbeat e in
  let e := set_authenticated false e in
  let e := set_connectSent false e in
  let e := set_currentAuthToken None e in
  let e := set_connectId None e in
  let e := set_challengeNonce None e in
  let e := match reconnectTimer e with
           | Some t => set_reconnectTimer None (clearTimer t e)
           | None => e
           end in
  let e := match connectTimer e with
           | Some t => set_connectTimer None (clearTimer t e)
           | None => e
           end in
  set_ws None e.

Definition scheduleReconnect (s : Settings) (h : Host) (e : Engine) : Engine :=
  let d := getReconnectDelay h e in
  let e := set_reconnectAttempt (S (reconnectAttempt e)) e in
  let e := setState RECONNECTING None e in
  let '(t, e) := setTimer (T_reconnect s) d e in
  set_reconnectTimer (Some t) e.

Definition startHeartbeat (h : Host) (e : Engine) : Engine :=
  let e := stopHeartbeat e in
  let e := set_lastTick (Some (now h)) e in
  let '(t, e) := setTimer T_heartbeat (inject_Z HEARTBEAT_INTERVAL) e in
  set_heartbeatTimer (Some t) e.

(** The loop of [flushQueue] over the array read at its start; [n] counts
    the calls of [crypto.randomUUID()] made so far in the handler. *)
Fixpoint flush_items (sessionKey : jsstring) (h : Host) (n : nat)
  (items : list QueueItem) (e : Engine) : Engine :=
  match items with
  | [] => e
  | item :: items' =>
      let payload :=
        ChatSend (randomUUID h n) sessionKey (text item) (idempotencyKey item) in
      let '(sent, e) := send payload e in
      let e := if sent
               then set_pendingQueue (dequeue (idempotencyKey item) (pendingQueue e)) e
               else e in
      flush_items sessionKey h (S n) items' e
  end.

Definition flushQueue (s : Settings) (h : Host) (e : Engine) : Engine :=
  match pendingQueue e with
  | [] => e
  | q => flush_items (Protocol.getSessionKey (agentId s)) h 0 q e
  end.

(** The end of [sendConnect]: build the request and send it. *)
Definition finishConnect (device : option DeviceBlock) (h : Host)
  (e : Engine) : Engine :=
  let frame := ConnectRequest (randomUUID h 0) (currentAuthToken e) device in
  let e := set_connectId (Some (randomUUID h 0)) e in
  snd (send frame e).

(** [sendConnect] up to its [await]: without a device identity it runs to
    its end, with one it is suspended until the signature arrives. *)
Definition sendConnect (h : Host) (e : Engine) : Engine :=
  if connectSent e then e
  else
    let e := set_connectSent true e in
    let e := match connectTimer e with
             | Some t => set_connectTimer None (clearTimer t e)
             | None => e
             end in
    match deviceIdentity e with
    | Some ident =>
        let payload :=
          DeviceIdentity.buildDeviceAuthPayload
            (DeviceIdentity.mkAuth (ident_id ident) CLIENT_ID CLIENT_MODE ROLE
               SCOPES (now h) (currentAuthToken e)
               (or_null (challengeNonce e))) in
        set_signing (signing e ++ [mkJob ident payload (now h)]) e
    | None => finishConnect None h e
    end.

(** [sendConnect] after its [await], when [signPayload] has resolved to
    [signature].  The call kept [signedAtMs]; [deviceIdentity] and
    [challengeNonce] are the variables, read again: when [deviceIdentity]
    is [null] by then, reading [deviceIdentity.id] throws. *)
Definition resumeConnect (signature : jsstring) (h : Host) (e : Engine)
  : Engine :=
  match signing e with
  | [] => e
  | job :: jobs =>
      let e := set_signing jobs e in
      match deviceIdentity e with
      | Some ident =>
          let device :=
            mkDevice (ident_id ident) (publicKeyRaw ident) signature
                     (job_signedAt job) (or_null (challengeNonce e)) in
          finishConnect (Some device) h e
      | None => e
      end
  end.

Definition NOT_PAIRED : jsstring := lit "NOT_PAIRED".

(** [frame.id === connectId] *)
Definition same_id (frame : Frame) (id_null : bool)
  (connectId : option jsstring) : bool :=
  if id_null then bool_decide (connectId = None)
  else bool_decide (is_Some (fid frame) ∧ fid frame = connectId).

(** [frame.error?.message || 'Connect rejected'] *)
Definition error_message (frame : Frame) (odd_message : option value)
  : value :=
  match ferror frame, odd_message with
  | Some _, Some v => if truthy v then v else VStr (lit "Connect rejected")
  | _, _ => VStr (or_else (ferror frame ≫= message) (lit "Connect rejected"))
  end.

(** [handleMessage] on what [parseFrame] returned.  A throw ends the
    handler where it occurs; nothing was assigned before it. *)
Definition handleMessage (frame : Inbound) (s : Settings) (h : Host)
  (e : Engine) : Engine :=
  match frame with
  | JsonNull => e
  | Fields frame id_null odd_message =>
  if eq_lit (ftype frame) "event" && eq_lit (fevent frame) "connect.challenge" then
    let e := set_challengeNonce (or_null (fnonce frame)) e in
    sendConnect h e
  else if eq_lit (ftype frame) "res" && same_id frame id_null (connectId e) then
    if negb (bool_decide (fok frame = Some false))
       && negb (bool_decide (is_Some (ferror frame))) then
      let e := set_authenticated true e in
      let e := set_reconnectAttempt 0 e in
      let e := setState CONNECTED None e in
      let e := startHeartbeat h e in
      let e := flushQueue s h e in
      emit (lit "connected") frame h e
    else
      let errCode := or_else (ferror frame ≫= code) [] in
      let errMsg := error_message frame odd_message in
      if str_eqb errCode NOT_PAIRED then
        setState PAIRING (VStr <$> or_null (ident_id <$> deviceIdentity e)) e
      else
        match errMsg_includes errMsg NOT_PAIRED with
        | Some true =>
            setState PAIRING (VStr <$> or_null (ident_id <$> deviceIdentity e)) e
        | Some false => cleanup (setState DISCONNECTED (Some errMsg) e)
        | None => e
        end
  else
    let e := emit (or_else (ftype frame) (lit "message")) frame h e in
    match or_null (fevent frame) with
    | Some ev => emit ev frame h e
    | None => e
    end
  end.

(** [gateway.connect], taken in one piece: [ident] is what awaiting
    [getOrCreateDeviceIdentity()] gave ([None] when it failed) and [sock]
    what [new WebSocket(url)] did.  This is a call during whose [await]
    no other handler runs and whose [buildAuthUrl] returns (it throws on
    a token with a lone surrogate, and the call then ends in
    CONNECTING). *)
Definition connect (s : Settings) (ident : option Identity)
  (sock : completion nat) (e : Engine) : Engine :=
  let e := cleanup e in
  let e := setState CONNECTING None e in
  let e := set_currentAuthToken (Some (authToken s)) e in
  let e := set_deviceIdentity ident e in
  match sock with
  | Return n => set_ws (Some (mkSocket n WS_CONNECTING s)) e
  | Throw msg => setState DISCONNECTED (Some (VStr msg)) e
  end.

Definition disconnect (e : Engine) : Engine :=
  setState DISCONNECTED None (cleanup e).

(** The handlers set on [ws]; [cleanup] detaches them, so they run only
    for the socket [ws] still holds. *)
Definition onopen (e : Engine) : Engine :=
  match ws e with
  | Some sock =>
      let e := set_ws (Some (mkSocket (sock_id sock) WS_OPEN (sock_settings sock))) e in
      let '(t, e) := setTimer T_connect (inject_Z CONNECT_SEND_DELAY) e in
      set_connectTimer (Some t) e
  | None => e
  end.

Definition onmessage (frame : Inbound) (h : Host) (e : Engine) : Engine :=
  match ws e with
  | Some sock => handleMessage frame (sock_settings sock) h e
  | None => e
  end.

Definition onclose (h : Host) (e : Engine) : Engine :=
  match ws e with
  | Some sock =>
      let prevState := conn_state e in
      let e := set_ws (Some (mkSocket (sock_id sock) WS_CLOSED (sock_settings sock))) e in
      let e := cleanup e in
      match prevState with
      | CONNECTED | CONNECTING | PAIRING => scheduleReconnect (sock_settings sock) h e
      | _ => setState DISCONNECTED None e
      end
  | None => e
  end.

(** A timer the host fires: a timeout leaves the table, then its callback
    runs; a cleared timer never fires. *)
Definition fire (t : nat) (ident : option Identity) (sock : completion nat)
  (h : Host) (e : Engine) : Engine :=
  match timers e !! t with
  | None => e
  | Some tm =>
      match kind tm with
      | T_connect => sendConnect h (clearTimer t e)
      | T_reconnect s => connect s ident sock (clearTimer t e)
      | T_heartbeat =>
          match lastTick e with
          | Some tick =>
              if (Z.of_N (now h) - Z.of_N tick >? HEARTBEAT_INTERVAL * 3)%Z
              then scheduleReconnect (settings e) h (cleanup e)
              else e
          | None => e
          end
      end
  end.

(** What can happen to the engine. *)
Inductive Event :=
| EConnect (s : Settings) (ident : option Identity) (sock : completion nat)
| EDisconnect
| EOpen
| EMessage (f : Inbound)
| EClose
| ETimer (t : nat) (ident : option Identity) (sock : completion nat)
| ESigned (signature : jsstring).

Definition step (h : Host) (ev : Event) (e : Engine) : Engine :=
  match ev with
  | EConnect s ident sock => connect s ident sock e
  | EDisconnect => disconnect e
  | EOpen => onopen e
  | EMessage f => onmessage f h e
  | EClose => onclose h e
  | ETimer t ident sock => fire t ident sock h e
  | ESigned sig => resumeConnect sig h e
  end.

Fixpoint run (evs : list (Host * Event)) (e : Engine) : Engine :=
  match evs with
  | [] => e
  | (h, ev) :: evs' => run evs' (step h ev e)
  end.

(** The challenge event carrying [nonce]. *)
Definition challenge (nonce : option jsstring) : Frame :=
  mkFrame (Some (lit "event")) None (Some (lit "connect.challenge")) None
          false None nonce.

Definition is_connect_request (f : nat * Outbound) : bool :=
  match f.2 with
  | ConnectRequest _ _ _ => true
  | ChatSend _ _ _ _ => false
  end.

(** The connect requests among the frames sent after the first [n]. *)
Definition connect_requests_since (n : nat) (e : Engine)
  : list (nat * Outbound) :=
  filter (fun f => is_connect_request f = true) (drop n (wire e)).

(** The events of one handshake: the challenge, the send-delay timer
    [t0] coming due, and the signature [sendConnect] awaits. *)
Inductive Handshake :=
| Challenge (nonce : option jsstring)
| DelayElapsed
| Signature (sig : jsstring).

Definition handshake_event (t0 : nat) (ev : Handshake) : Event :=
  match ev with
  | Challenge n => EMessage (challenge n)
  | DelayElapsed => ETimer t0 None (Throw [])
  | Signature sig => ESigned sig
  end.

Definition is_trigger (ev : Handshake) : bool :=
  match ev with
  | Challenge _ | DelayElapsed => true
  | Signature _ => false
  end.

Definition handshake (t0 : nat) (trace : list (Host * Handshake))
  (e : Engine) : Engine :=
  run (map (fun hev => (hev.1, handshake_event t0 hev.2)) trace) e.

(** The state of an attempt whose socket [sockid] is open and which sent
    [new] since the frames [w0]: either nothing was sent and the timer
    [t0] is the one [connectTimer] holds, or the guard is set, the timer
    is gone, and the request is being signed or is the one frame sent. *)
Record attempt_inv (sockid : nat) (s : Settings) (t0 : nat)
  (w0 : list (nat * Outbound)) (e : Engine) : Prop := mkAttemptInv {
  inv_ws : ws e = Some (mkSocket sockid WS_OPEN s);
  inv_wire : exists new, wire e = w0 ++ new /\
    ((connectSent e = false /\ connectTimer e = Some t0
      /\ (exists d, timers e !! t0 = Some (mkTimer T_connect d))
      /\ signing e = [] /\ new = [])
     \/ (connectSent e = true /\ timers e !! t0 = None /\
         ((exists job, signing e = [job] /\ is_Some (deviceIdentity e)
                       /\ new = [])
          \/ (signing e = [] /\
              exists id tok dev, new = [(sockid, ConnectRequest id tok dev)]))))
}.

(** The delays of consecutive reconnects, each scheduled with what the
    host answered then. *)
Fixpoint reconnect_delays (s : Settings) (hs : list Host) (e : Engine)
  : list Q :=
  match hs with
  | [] => []
  | h :: hs' =>
      getReconnectDelay h e :: reconnect_delays s hs' (scheduleReconnect s h e)
  end.

(** The claim that an item leaves the queue only once acknowledged, for a
    flush: no inbound frame is handled during [flushQueue], so every item
    queued before it would still be queued after it. *)
Definition kept_until_acknowledged : Prop :=
  forall (s : Settings) (h : Host) (e : Engine) (item : QueueItem),
    item ∈ pendingQueue e -> item ∈ pendingQueue (flushQueue s h e).

Definition chat_of (sessionKey : jsstring) (h : Host) (sockid : nat)
  (n : nat) (item : QueueItem) : nat * Outbound :=
  (sockid,
   ChatSend (randomUUID h n) sessionKey (text item) (idempotencyKey item)).

(** What a step may do to the backoff and to the queue.  [same_backoff]:
    the attempt counter and the connection state are as before. *)
Definition same_backoff (e e' : Engine) : Prop :=
  reconnectAttempt e' = reconnectAttempt e /\ conn_state e' = conn_state e.

Definition untouched (e e' : Engine) : Prop :=
  same_backoff e e' /\ pendingQueue e' = pendingQueue e.

(** The counter and the queue are as before, and the state is as before
    or one of DISCONNECTED, CONNECTING, PAIRING. *)
Definition quiet (e e' : Engine) : Prop :=
  reconnectAttempt e' = reconnectAttempt e
  /\ (conn_state e' = conn_state e \/ conn_state e' = DISCONNECTED
      \/ conn_state e' = CONNECTING \/ conn_state e' = PAIRING)
  /\ pendingQueue e' = pendingQueue e.

(** A reconnect was scheduled: the counter grew by one and a timer with
    the delay computed from the old counter is pending. *)
Definition rescheduled (h : Host) (e e' : Engine) : Prop :=
  reconnectAttempt e' = S (reconnectAttempt e)
  /\ conn_state e' = RECONNECTING
  /\ pendingQueue e' = pendingQueue e
  /\ exists t s,
       reconnectTimer e' = Some t
       /\ timers e' !! t
          = Some (mkTimer (T_reconnect s)
                    (jittered (backoff (reconnectAttempt e)) (random h))).

(** The connect request was accepted: the counter is zero, the state is
    CONNECTED, and the queue was flushed on the socket as it was. *)
Definition connected (h : Host) (e e' : Engine) : Prop :=
  reconnectAttempt e' = 0%nat /\ conn_state e' = CONNECTED
  /\ exists s e1,
       ws e1 = ws e /\ wire e1 = wire e /\ pendingQueue e1 = pendingQueue e
       /\ pendingQueue e' = pendingQueue (flushQueue s h e1)
       /\ wire e' = wire (flushQueue s h e1).

End Connection.

(* ===================================================================== *)
(** * The connection engine with the pending-request table (connection.js) *)
(* ===================================================================== *)

Module RequestEngine.

Inductive Params :=
| P_connect (token : jsstring)
| P_chat (sessionKey msg key : jsstring)
| P_none.

(** [{ type: 'req', id, method, params }] *)
Inductive Outbound := Req (id method : jsstring) (params : Params).

(** The callbacks of an entry of [pendingRequests]: those of the promise
    [request] returns, or those [onopen] sets for the connect request. *)
Inductive Waiter :=
| W_promise (p : nat)
| W_connect (s : Settings).

Record Pending := mkPending { waiter : Waiter; timeout : nat }.

Inductive PromiseState :=
| Waiting
| Resolved (f : Frame)
| Rejected (msg : jsstring).

Inductive TimerKind :=
| T_request (id method : jsstring) (p : nat)   (* the timeout of request *)
| T_handshake (connectId : jsstring)           (* the timeout set in onopen *)
| T_reconnect (s : Settings)
| T_heartbeat.

Record Timer := mkTimer { kind : TimerKind; delay : Q }.

(** The module variables, the part of the store the engine uses, and the
    host: pending timers, promises with the [then] reaction [flushQueue]
    attaches (the key to dequeue), frames sent, events delivered. *)
#[projections(primitive)]
Record Engine := mkEngine {
  ws : option Socket;
  heartbeatTimer : option nat;
  reconnectTimer : option nat;
  reconnectAttempt : nat;
  pendingRequests : gmap jsstring Pending;
  conn_state : ConnectionState;
  conn_error : option jsstring;
  pendingQueue : list QueueItem;
  settings : Settings;
  timers : gmap nat Timer;
  next_timer : nat;
  promises : gmap nat PromiseState;
  reactions : gmap nat jsstring;
  next_promise : nat;
  wire : list (nat * Outbound);
  emitted : list (jsstring * Frame)
}.

Definition set_ws (v : option Socket) (e : Engine) : Engine :=
  mkEngine v (heartbeatTimer e) (reconnectTimer e) (reconnectAttempt e) (pendingRequests e) (conn_state e) (conn_error e) (pendingQueue e) (settings e) (timers e) (next_timer e) (promises e) (reactions e) (next_promise e) (wire e) (emitted e).
Definition set_heartbeatTimer (v : option nat) (e : Engine) : Engine :=
  mkEngine (ws e) v (reconnectTimer e) (reconnectAttempt e) (pendingRequests e) (conn_state e) (conn_error e) (pendingQueue e) (settings e) (timers e) (next_timer e) (promises e) (reactions e) (next_promise e) (wire e) (emitted e).
Definition set_reconnectTimer (v : option nat) (e : Engine) : Engine :=
  mkEngine (ws e) (heartbeatTimer e) v (reconnectAttempt e) (pendingRequests e) (conn_state e) (conn_error e) (pendingQueue e) (settings e) (timers e) (next_timer e) (promises e) (reactions e) (next_promise e) (wire e) (emitted e).
Definition set_reconnectAttempt (v : nat) (e : Engine) : Engine :=
  mkEngine (ws e) (heartbeatTimer e) (reconnectTimer e) v (pendingRequests e) (conn_state e) (conn_error e) (pendingQueue e) (settings e) (timers e) (next_timer e) (promises e) (reactions e) (next_promise e) (wire e) (emitted e).
Definition set_pendingRequests (v : gmap jsstring Pending) (e : Engine) : Engine :=
  mkEngine (ws e) (heartbeatTimer e) (reconnectTimer e) (reconnectAttempt e) v (conn_state e) (conn_error e) (pendingQueue e) (settings e) (timers e) (next_timer e) (promises e) (reactions e) (next_promise e) (wire e) (emitted e).
Definition set_conn_state (v : ConnectionState) (e : Engine) : Engine :=
  mkEngine (ws e) (heartbeatTimer e) (reconnectTimer e) (reconnectAttempt e) (pendingRequests e) v (conn_error e) (pendingQueue e) (settings e) (timers e) (next_timer e) (promises e) (reactions e) (next_promise e) (wire e) (emitted e).
Definition set_conn_error (v : option jsstring) (e : Engine) : Engine :=
  mkEngine (ws e) (heartbeatTimer e) (reconnectTimer e) (reconnectAttempt e) (pendingRequests e) (conn_state e) v (pendingQueue e) (settings e) (timers e) (next_timer e) (promises e) (reactions e) (next_promise e) (wire e) (emitted e).
Definition set_pendingQueue (v : list QueueItem) (e : Engine) : Engine :=
  mkEngine (ws e) (heartbeatTimer e) (reconnectTimer e) (reconnectAttempt e) (pendingRequests e) (conn_state e) (conn_error e) v (settings e) (timers e) (next_timer e) (promises e) (reactions e) (next_promise e) (wire e) (emitted e).
Definition set_settings (v : Settings) (e : Engine) : Engine :=
  mkEngine (ws e) (heartbeatTimer e) (reconnectTimer e) (reconnectAttempt e) (pendingRequests e) (conn_state e) (conn_error e) (pendingQueue e) v (timers e) (next_timer e) (promises e) (reactions e) (next_promise e) (wire e) (emitted e).
Definition set_timers (v : gmap nat Timer) (e : Engine) : Engine :=
  mkEngine (ws e) (heartbeatTimer e) (reconnectTimer e) (reconnectAttempt e) (pendingRequests e) (conn_state e) (conn_error e) (pendingQueue e) (settings e) v (next_timer e) (promises e) (reactions e) (next_promise e) (wire e) (emitted e).
Definition set_next_timer (v : nat) (e : Engine) : Engine :=
  mkEngine (ws e) (heartbeatTimer e) (reconnectTimer e) (reconnectAttempt e) (pendingRequests e) (conn_state e) (conn_error e) (pendingQueue e) (settings e) (timers e) v (promises e) (reactions e) (next_promise e) (wire e) (emitted e).
Definition set_promises (v : gmap nat PromiseState) (e : Engine) : Engine :=
  mkEngine (ws e) (heartbeatTimer e) (reconnectTimer e) (reconnectAttempt e) (pendingRequests e) (conn_state e) (conn_error e) (pendingQueue e) (settings e) (timers e) (next_timer e) v (reactions e) (next_promise e) (wire e) (emitted e).
Definition set_reactions (v : gmap nat jsstring) (e : Engine) : Engine :=
  mkEngine (ws e) (heartbeatTimer e) (reconnectTimer e) (reconnectAttempt e) (pendingRequests e) (conn_state e) (conn_error e) (pendingQueue e) (settings e) (timers e) (next_timer e) (promises e) v (next_promise e) (wire e) (emitted e).
Definition set_next_promise (v : nat) (e : Engine) : Engine :=
  mkEngine (ws e) (heartbeatTimer e) (reconnectTimer e) (reconnectAttempt e) (pendingRequests e) (conn_state e) (conn_error e) (pendingQueue e) (settings e) (timers e) (next_timer e) (promises e) (reactions e) v (wire e) (emitted e).
Definition set_wire (v : list (nat * Outbound)) (e : Engine) : Engine :=
  mkEngine (ws e) (heartbeatTimer e) (reconnectTimer e) (reconnectAttempt e) (pendingRequests e) (conn_state e) (conn_error e) (pendingQueue e) (settings e) (timers e) (next_timer e) (promises e) (reactions e) (next_promise e) v (emitted e).
Definition set_emitted (v : list (jsstring * Frame)) (e : Engine) : Engine :=
  mkEngine (ws e) (heartbeatTimer e) (reconnectTimer e) (reconnectAttempt e) (pendingRequests e) (conn_state e) (conn_error e) (pendingQueue e) (settings e) (timers e) (next_timer e) (promises e) (reactions e) (next_promise e) (wire e) v.

Definition initial (s : Settings) : Engine :=
  mkEngine None None None 0 ∅ DISCONNECTED None [] s ∅ 1 ∅ ∅ 0 [] [].

Definition REQUEST_TIMEOUT : Z := 15000.
Definition HANDSHAKE_TIMEOUT : Z := 10000.

Definition getSessionKey (agentId : jsstring) : jsstring :=
  agentId ++ lit ":webchat:dm:forge-pwa".

Definition setState (st : ConnectionState) (err : option jsstring)
  (e : Engine) : Engine :=
  set_conn_error err (set_conn_state st e).

Definition getReconnectDelay (h : Host) (e : Engine) : Q :=
  jittered (backoff (reconnectAttempt e)) (random h).

Definition setTimer (k : TimerKind) (d : Q) (e : Engine) : nat * Engine :=
  let t := next_timer e in
  (t, set_next_timer (S t) (set_timers (<[t := mkTimer k d]> (timers e)) e)).

Definition clearTimer (t : nat) (e : Engine) : Engine :=
  set_timers (delete t (timers e)) e.

Definition stopHeartbeat (e : Engine) : Engine :=
  match heartbeatTimer e with
  | Some t => set_heartbeatTimer None (clearTimer t e)
  | None => e
  end.

Definition startHeartbeat (e : Engine) : Engine :=
  let e := stopHeartbeat e in
  let '(t, e) := setTimer T_heartbeat (inject_Z HEARTBEAT_INTERVAL) e in
  set_heartbeatTimer (Some t) e.

Definition send (f : Outbound) (e : Engine) : bool * Engine :=
  match ws e with
  | Some sock =>
      match readyState sock with
      | WS_OPEN => (true, set_wire (wire e ++ [(sock_id sock, f)]) e)
      | _ => (false, e)
      end
  | None => (false, e)
  end.

(** Settling a promise runs the reaction attached to it; a promise is
    settled once. *)
Definition resolve (p : nat) (f : Frame) (e : Engine) : Engine :=
  match promises e !! p with
  | Some Waiting =>
      let e := set_promises (<[p := Resolved f]> (promises e)) e in
      match reactions e !! p with
      | Some key => set_pendingQueue (dequeue key (pendingQueue e)) e
      | None => e
      end
  | _ => e
  end.

Definition reject (p : nat) (msg : jsstring) (e : Engine) : Engine :=
  match promises e !! p with
  | Some Waiting => set_promises (<[p := Rejected msg]> (promises e)) e
  | _ => e
  end.

(** [request(method, params)]: the promise it returns and the state after
    its executor ran; [n] is the number of uuids drawn so far. *)
Definition request (method : jsstring) (params : Params) (h : Host) (n : nat)
  (e : Engine) : nat * Engine :=
  let p := next_promise e in
  let e := set_next_promise (S p) (set_promises (<[p := Waiting]> (promises e)) e) in
  let id := randomUUID h n in
  let '(t, e) := setTimer (T_request id method p) (inject_Z REQUEST_TIMEOUT) e in
  let e := set_pendingRequests (<[id := mkPending (W_promise p) t]> (pendingRequests e)) e in
  let '(sent, e) := send (Req id method params) e in
  if sent then (p, e)
  else
    let e := clearTimer t e in
    let e := set_pendingRequests (delete id (pendingRequests e)) e in
    (p, reject p (lit "Not connected") e).

(** The callback [cleanup] runs on every entry of [pendingRequests]. *)
Definition reject_entry (entry : Pending) (e : Engine) : Engine :=
  let e := clearTimer (timeout entry) e in
  match waiter entry with
  | W_promise p => reject p (lit "Connection closed") e
  | W_connect _ => setState DISCONNECTED (Some (lit "Handshake timeout")) e
  end.

Definition cleanup (e : Engine) : Engine :=
  let e := stopHeartbeat e in
  let e := match reconnectTimer e with
           | Some t => set_reconnectTimer None (clearTimer t e)
           | None => e
           end in
  let e := foldr (fun kv => reject_entry kv.2) e
                 (map_to_list (pendingRequests e)) in
  let e := set_pendingRequests ∅ e in
  set_ws None e.

Definition scheduleReconnect (s : Settings) (h : Host) (e : Engine) : Engine :=
  let d := getReconnectDelay h e in
  let e := set_reconnectAttempt (S (reconnectAttempt e)) e in
  let e := setState RECONNECTING None e in
  let '(t, e) := setTimer (T_reconnect s) d e in
  set_reconnectTimer (Some t) e.

(** The loop of [flushQueue]: each item is sent through [request]; the
    item is dequeued when the promise is fulfilled, and a rejection is
    ignored. *)
Fixpoint flush_items (sessionKey : jsstring) (h : Host) (n : nat)
  (items : list QueueItem) (e : Engine) : Engine :=
  match items with
  | [] => e
  | item :: items' =>
      let '(p, e) :=
        request (lit "chat.send")
                (P_chat sessionKey (text item) (idempotencyKey item)) h n e in
      let e := set_reactions (<[p := idempotencyKey item]> (reactions e)) e in
      flush_items sessionKey h (S n) items' e
  end.

Definition flushQueue (s : Settings) (h : Host) (e : Engine) : Engine :=
  match pendingQueue e with
  | [] => e
  | q => flush_items (getSessionKey (agentId s)) h 0 q e
  end.

Definition emit (event : jsstring) (f : Frame) (e : Engine) : Engine :=
  set_emitted (emitted e ++ [(event, f)]) e.

(** The [resolve] callback of the connect request. *)
Definition connect_resolved (s : Settings) (frame : Frame) (h : Host)
  (e : Engine) : Engine :=
  if fresult frame && negb (bool_decide (is_Some (ferror frame))) then
    let e := set_reconnectAttempt 0 e in
    let e := setState CONNECTED None e in
    let e := startHeartbeat e in
    let e := flushQueue s h e in
    emit (lit "connected") frame e
  else
    let err := or_else (ferror frame ≫= message) (lit "Handshake rejected") in
    cleanup (setState DISCONNECTED (Some err) e).

Definition handleMessage (frame : Frame) (h : Host) (e : Engine) : Engine :=
  match (if eq_lit (ftype frame) "res" then fid frame else None)
          ≫= (fun id => (fun entry => (id, entry)) <$> pendingRequests e !! id)
  with
  | Some (id, entry) =>
      let e := clearTimer (timeout entry) e in
      let e := set_pendingRequests (delete id (pendingRequests e)) e in
      match waiter entry with
      | W_promise p => resolve p frame e
      | W_connect s => connect_resolved s frame h e
      end
  | None =>
      if eq_lit (ftype frame) "event" then
        emit (default [] (fevent frame)) frame e
      else e
  end.

Definition connect (s : Settings) (sock : completion nat) (e : Engine)
  : Engine :=
  let e := cleanup e in
  let e := setState CONNECTING None e in
  match sock with
  | Return n => set_ws (Some (mkSocket n WS_CONNECTING s)) e
  | Throw msg => setState DISCONNECTED (Some msg) e
  end.

Definition disconnect (e : Engine) : Engine :=
  setState DISCONNECTED None (cleanup e).

Definition sendMessage (msg : jsstring) (h : Host) (e : Engine)
  : nat * Engine :=
  request (lit "chat.send")
          (P_chat (getSessionKey (agentId (settings e))) msg (randomUUID h 0))
          h 1 e.

Definition onopen (h : Host) (e : Engine) : Engine :=
  match ws e with
  | Some sock =>
      let s := sock_settings sock in
      let e := set_ws (Some (mkSocket (sock_id sock) WS_OPEN s)) e in
      let connectId := randomUUID h 0 in
      let '(t, e) := setTimer (T_handshake connectId) (inject_Z HANDSHAKE_TIMEOUT) e in
      let e := set_pendingRequests
                 (<[connectId := mkPending (W_connect s) t]> (pendingRequests e)) e in
      snd (send (Req connectId (lit "connect") (P_connect (authToken s))) e)
  | None => e
  end.

Definition onmessage (frame : Frame) (h : Host) (e : Engine) : Engine :=
  match ws e with
  | Some _ => handleMessage frame h e
  | None => e
  end.

Definition onclose (h : Host) (e : Engine) : Engine :=
  match ws e with
  | Some sock =>
      let wasConnected := bool_decide (conn_state e = CONNECTED) in
      let e := set_ws (Some (mkSocket (sock_id sock) WS_CLOSED (sock_settings sock))) e in
      let e := cleanup e in
      if wasConnected || bool_decide (conn_state e = CONNECTING)
      then scheduleReconnect (sock_settings sock) h e
      else setState DISCONNECTED None e
  | None => e
  end.

Definition CLOSED : jsstring := lit "Connection closed".

Definition timed_out (method : jsstring) : jsstring :=
  lit "Request " ++ method ++ lit " timed out".

Definition fire (t : nat) (sock : completion nat) (h : Host) (e : Engine)
  : Engine :=
  match timers e !! t with
  | None => e
  | Some tm =>
      match kind tm with
      | T_request id method p =>
          let e := clearTimer t e in
          let e := set_pendingRequests (delete id (pendingRequests e)) e in
          reject p (timed_out method) e
      | T_handshake connectId =>
          let e := clearTimer t e in
          let e := set_pendingRequests (delete connectId (pendingRequests e)) e in
          cleanup (setState DISCONNECTED (Some (lit "Handshake timeout")) e)
      | T_reconnect s => connect s sock (clearTimer t e)
      | T_heartbeat => snd (send (Req (randomUUID h 0) (lit "ping") P_none) e)
      end
  end.

Inductive Event :=
| EConnect (s : Settings) (sock : completion nat)
| EDisconnect
| ESendMessage (msg : jsstring)
| EOpen
| EMessage (f : Frame)
| EClose
| ETimer (t : nat) (sock : completion nat).

Definition step (h : Host) (ev : Event) (e : Engine) : Engine :=
  match ev with
  | EConnect s sock => connect s sock e
  | EDisconnect => disconnect e
  | ESendMessage msg => snd (sendMessage msg h e)
  | EOpen => onopen h e
  | EMessage f => onmessage f h e
  | EClose => onclose h e
  | ETimer t sock => fire t sock h e
  end.

(** [crypto.randomUUID()] does not repeat itself: the ids drawn in one
    handler differ from each other and from every id still pending. *)
Definition fresh_uuids (h : Host) (e : Engine) : Prop :=
  (forall i j, randomUUID h i = randomUUID h j -> i = j) /\
  (forall i, pendingRequests e !! randomUUID h i = None).

(** The states the engine reaches from its initial state. *)
Inductive reachable (s0 : Settings) : Engine -> Prop :=
| reach_initial : reachable s0 (initial s0)
| reach_step h ev e :
    reachable s0 e -> fresh_uuids h e -> reachable s0 (step h ev e).

(** Well-formed states: every pending timer is held by the variable or by
    the entry its callback works on; the promise of an entry is still
    waiting, was created before, and belongs to that entry alone. *)
Definition held (e : Engine) (t : nat) (tm : Timer) : Prop :=
  match kind tm with
  | T_heartbeat => heartbeatTimer e = Some t
  | T_reconnect _ => reconnectTimer e = Some t
  | T_request id _ p =>
      pendingRequests e !! id = Some (mkPending (W_promise p) t)
  | T_handshake id =>
      exists s, pendingRequests e !! id = Some (mkPending (W_connect s) t)
  end.

Record wf (e : Engine) : Prop := mkWf {
  wf_timers : forall t tm, timers e !! t = Some tm -> held e t tm;
  wf_promises : forall id p t,
    pendingRequests e !! id = Some (mkPending (W_promise p) t) ->
    promises e !! p = Some Waiting /\ (p < next_promise e)%nat;
  wf_unique : forall id1 id2 p t1 t2,
    pendingRequests e !! id1 = Some (mkPending (W_promise p) t1) ->
    pendingRequests e !! id2 = Some (mkPending (W_promise p) t2) ->
    id1 = id2
}.

End RequestEngine.

(* ===================================================================== *)
(** * Sample data *)
(* ===================================================================== *)

Module Samples.

Definition example_auth (nonce : option jsstring) : DeviceIdentity.AuthFields :=
  DeviceIdentity.mkAuth (lit "ab12") Connection.CLIENT_ID Connection.CLIENT_MODE
         Connection.ROLE Connection.SCOPES 1700000000123%N (Some (lit "tok"))
         nonce.

Definition demo_state : gmap string value :=
  list_to_map
    [ ("connection", Store.obj [("state", VStr (lit "CONNECTED")); ("error", VNull)]);
      ("pendingQueue", VArr [Store.obj [("taskId", VNum (Num 3)); ("text", VStr (lit "done 3")); ("idempotencyKey", VStr (lit "k1"))]]);
      ("settings", Store.obj [("gatewayUrl", VStr (lit "wss://gw")); ("authToken", VStr (lit "t")); ("agentId", VStr (lit "a"))]);
      ("tasks", Store.obj [("day", VNum (Num 4)); ("items", VArr [])]);
      ("deviceId", VStr (lit "dev-1")) ].

(** A host whose uuids are the single code units [base], [base + 1], ... *)
Definition host_at (base : N) : Host :=
  mkHost 1700000000000%N (1 # 2) (fun n => [(base + N.of_nat n)%N]).

Definition sample_settings : Settings :=
  mkSettings (lit "wss://gw") (lit "tok") (lit "main").

Definition sample_item : QueueItem :=
  mkQueueItem (lit "3") (lit "done 3") (lit "key-3").

Definition sample_identity : Connection.Identity :=
  Connection.mkIdentity (lit "ab12") (lit "pk") 1.

(** The current engine with an open socket and one queued item. *)
Definition online_engine : Connection.Engine :=
  Connection.set_pendingQueue [sample_item]
    (Connection.onopen
       (Connection.connect sample_settings None (Return 7%nat)
          (Connection.initial sample_settings))).

(** The same engine after the challenge made it send its connect request. *)
Definition handshaking_engine : Connection.Engine :=
  Connection.onmessage (Connection.challenge (Some (lit "n-1")))
    (host_at 65) online_engine.


Definition handshake_trace : list (Host * Connection.Handshake) :=
  [ (host_at 65, Connection.Challenge (Some (lit "n-1")));
    (host_at 66, Connection.DelayElapsed);
    (host_at 67, Connection.Signature (lit "sig")) ].

(** Two attempts with a device identity.  The challenge of the first
    makes [sendConnect] wait for [signPayload]; [connect] is called again
    before the signature is there, the second socket opens and its
    challenge makes [sendConnect] wait for a second signature; then the
    two signatures arrive. *)
Definition stale_signature_run : list (Host * Connection.Event) :=
  [ (host_at 65, Connection.EConnect sample_settings (Some sample_identity)
                   (Return 7%nat));
    (host_at 65, Connection.EOpen);
    (host_at 66, Connection.EMessage (Connection.challenge (Some (lit "n-1"))));
    (host_at 67, Connection.EConnect sample_settings (Some sample_identity)
                   (Return 8%nat));
    (host_at 67, Connection.EOpen);
    (host_at 68, Connection.EMessage (Connection.challenge (Some (lit "n-2"))));
    (host_at 69, Connection.ESigned (lit "sig-1"));
    (host_at 70, Connection.ESigned (lit "sig-2")) ].

(** The request engine with an open socket and a [chat.send] request
    outstanding. *)
Definition connecting_requests : RequestEngine.Engine :=
  RequestEngine.step (host_at 65)
    (RequestEngine.EConnect sample_settings (Return 7%nat))
    (RequestEngine.initial sample_settings).

Definition opened_requests : RequestEngine.Engine :=
  RequestEngine.step (host_at 65) RequestEngine.EOpen connecting_requests.

Definition waiting_requests : RequestEngine.Engine :=
  RequestEngine.step (host_at 70) (RequestEngine.ESendMessage (lit "hi"))
    opened_requests.

End Samples.
Import Samples.

(* ===================================================================== *)
(** * More of the string library *)
(* ===================================================================== *)

Module Text.

(** [s.replace(/c/g, by)] for a one-unit pattern [c] and a replacement
    text without [$]. *)
Definition replace_unit (c : char16) (by_ : jsstring) (s : jsstring)
  : jsstring :=
  flat_map (fun d => if N.eqb d c then by_ else [d]) s.

Fixpoint drop_run (c : char16) (s : jsstring) : jsstring :=
  match s with
  | d :: s' => if N.eqb d c then drop_run c s' else s
  | [] => []
  end.

(** [s.replace(/c+$/, '')]: the run of [c] the text ends with is removed. *)
Definition strip_trailing (c : char16) (s : jsstring) : jsstring :=
  rev (drop_run c (rev s)).

(** [s.padStart(len, fill)] with a one-unit filler. *)
Definition padStart (len : nat) (fill : char16) (s : jsstring) : jsstring :=
  replicate (len - length s) fill ++ s.

Definition hex_lower (d : N) : char16 :=
  if (d <? 10)%N then (48 + d)%N else (87 + d)%N.

Definition hex_upper (d : N) : char16 :=
  if (d <? 10)%N then (48 + d)%N else (55 + d)%N.

(** [n.toString(16)] for a non-negative integer. *)
Fixpoint radix16 (fuel : nat) (n : N) (acc : jsstring) : jsstring :=
  match fuel with
  | O => acc
  | S fuel' =>
      let acc' := hex_lower (n mod 16) :: acc in
      if (n <? 16)%N then acc' else radix16 fuel' (n / 16)%N acc'
  end.

Definition toString16 (n : N) : jsstring :=
  radix16 (S (N.to_nat (N.log2 n))) n [].

Definition is_alpha (c : char16) : bool :=
  ((65 <=? c) && (c <=? 90))%N || ((97 <=? c) && (c <=? 122))%N.

End Text.
Import Text.

(* ===================================================================== *)
(** * The settings form (ui/settings.js) *)
(* ===================================================================== *)

Module SettingsForm.


End SettingsForm.

(* ===================================================================== *)
(** * Encoding helpers of the device identity (device-identity.js) *)
(* ===================================================================== *)

Module Encoding.

(** The 64 characters of base64, by their index. *)
Definition b64_char (n : N) : char16 :=
  if (n <? 26)%N then (65 + n)%N
  else if (n <? 52)%N then (97 + (n - 26))%N
  else if (n <? 62)%N then (48 + (n - 52))%N
  else if (n =? 62)%N then 43%N else 47%N.

(** Three octets give four characters; a last group of one or two octets
    is padded with [=]. *)
Fixpoint b64_groups (s : list N) : jsstring :=
  match s with
  | a :: b :: c :: rest =>
      [ b64_char (N.shiftr a 2);
        b64_char (N.lor (N.shiftl (N.land a 3) 4) (N.shiftr b 4));
        b64_char (N.lor (N.shiftl (N.land b 15) 2) (N.shiftr c 6));
        b64_char (N.land c 63) ] ++ b64_groups rest
  | [a; b] =>
      [ b64_char (N.shiftr a 2);
        b64_char (N.lor (N.shiftl (N.land a 3) 4) (N.shiftr b 4));
        b64_char (N.shiftl (N.land b 15) 2);
        61%N ]
  | [a] =>
      [ b64_char (N.shiftr a 2);
        b64_char (N.shiftl (N.land a 3) 4);
        61%N; 61%N ]
  | [] => []
  end.

(** [btoa]: the argument is a binary string; a code unit above 255 makes
    it throw. *)
Definition btoa (s : jsstring) : completion jsstring :=
  if forallb (fun c => (c <=? 255)%N) s then Return (b64_groups s)
  else Throw (lit "InvalidCharacterError").

(** [bufToBase64Url]: [binary] has one code unit per byte of the buffer. *)
Definition bufToBase64Url (buf : list Byte.byte) : completion jsstring :=
  let binary := map Byte.to_N buf in
  match btoa binary with
  | Return s =>
      Return (strip_trailing 61%N
                (replace_unit 47%N (lit "_") (replace_unit 43%N (lit "-") s)))
  | Throw e => Throw e
  end.

(** [bufToHex] *)
Definition bufToHex (buf : list Byte.byte) : jsstring :=
  concat (map (fun b => padStart 2 48%N (toString16 (Byte.to_N b))) buf).

(** [exportPublicKeyRaw], after the key was exported: the SPKI encoding
    without its first 12 bytes. *)
Definition spki_raw (spki : list Byte.byte) : list Byte.byte := drop 12 spki.

(** The characters of base64, and the number of [=] that pad a text of
    [n] octets. *)
Definition is_b64std (c : char16) : bool :=
  is_alpha c || is_digit c || N.eqb c 43 || N.eqb c 47.

Definition b64_padding (n : nat) : nat :=
  match n mod 3 with
  | 0 => 0
  | 1 => 2
  | _ => 1
  end%nat.

(** The characters of base64url. *)
Definition is_b64url (c : char16) : bool :=
  is_alpha c || is_digit c || N.eqb c 45 || N.eqb c 95.

Definition is_hex_lower (c : char16) : bool :=
  is_digit c || ((97 <=? c) && (c <=? 102))%N.

(** Reading two hexadecimal digits back. *)
Definition hex_val (c : char16) : N :=
  if is_digit c then (c - 48)%N else (c - 87)%N.

Fixpoint hexToBuf (s : jsstring) : list Byte.byte :=
  match s with
  | c1 :: c2 :: s' =>
      default Byte.x00 (Byte.of_N (16 * hex_val c1 + hex_val c2)) :: hexToBuf s'
  | _ => []
  end.

End Encoding.

(* ===================================================================== *)
(** * The gateway URL (protocol.js) *)
(* ===================================================================== *)

Module Url.

(** uriUnescaped of ECMA-262: letters, digits and [-_.!~*'()]. *)
Definition is_unreserved (c : char16) : bool :=
  is_alpha c || is_digit c
  || N.eqb c 45 || N.eqb c 95 || N.eqb c 46 || N.eqb c 33 || N.eqb c 126
  || N.eqb c 42 || N.eqb c 39 || N.eqb c 40 || N.eqb c 41.

Definition is_high_surrogate (c : char16) : bool :=
  ((55296 <=? c) && (c <=? 56319))%N.
Definition is_low_surrogate (c : char16) : bool :=
  ((56320 <=? c) && (c <=? 57343))%N.

(** The octets of the UTF-8 encoding of a code point. *)
Definition utf8 (cp : N) : list N :=
  if (cp <? 128)%N then [cp]
  else if (cp <? 2048)%N then
    [ (192 + N.shiftr cp 6)%N; (128 + N.land cp 63)%N ]
  else if (cp <? 65536)%N then
    [ (224 + N.shiftr cp 12)%N; (128 + N.land (N.shiftr cp 6) 63)%N;
      (128 + N.land cp 63)%N ]
  else
    [ (240 + N.shiftr cp 18)%N; (128 + N.land (N.shiftr cp 12) 63)%N;
      (128 + N.land (N.shiftr cp 6) 63)%N; (128 + N.land cp 63)%N ].

(** [%XX] *)
Definition percent (octet : N) : jsstring :=
  [ 37%N; hex_upper (N.shiftr octet 4); hex_upper (N.land octet 15) ].

Definition URIError : jsstring := lit "URIError".

Definition prepend (pre : jsstring) (r : completion jsstring)
  : completion jsstring :=
  match r with
  | Return s => Return (pre ++ s)
  | Throw e => Throw e
  end.

(** [encodeURIComponent]: an unreserved unit is copied, any other code
    point is written as the escaped octets of its UTF-8 encoding, and a
    surrogate without its partner throws. *)
Fixpoint encodeURIComponent (s : jsstring) : completion jsstring :=
  match s with
  | [] => Return []
  | c :: s' =>
      if is_unreserved c then prepend [c] (encodeURIComponent s')
      else if is_low_surrogate c then Throw URIError
      else if is_high_surrogate c then
        match s' with
        | d :: s'' =>
            if is_low_surrogate d then
              let cp := (65536 + (c - 55296) * 1024 + (d - 56320))%N in
              prepend (flat_map percent (utf8 cp)) (encodeURIComponent s'')
            else Throw URIError
        | [] => Throw URIError
        end
      else prepend (flat_map percent (utf8 c)) (encodeURIComponent s')
  end.

(** [String.prototype.isWellFormed]: no surrogate without its partner. *)
Fixpoint isWellFormed (s : jsstring) : bool :=
  match s with
  | [] => true
  | c :: s' =>
      if is_low_surrogate c then false
      else if is_high_surrogate c then
        match s' with
        | d :: s'' => is_low_surrogate d && isWellFormed s''
        | [] => false
        end
      else isWellFormed s'
  end.

(** [buildAuthUrl] *)
Definition buildAuthUrl (gatewayUrl authToken : jsstring)
  : completion jsstring :=
  let sep := if includes gatewayUrl (lit "?") then lit "&" else lit "?" in
  prepend (gatewayUrl ++ sep ++ lit "token=") (encodeURIComponent authToken).

(** The characters an encoded component is made of: the unreserved ones,
    [%] and the digits of an escape. *)
Definition is_component_char (c : char16) : bool :=
  is_unreserved c || N.eqb c 37.

End Url.

(* ===================================================================== *)
(** * The store object (store.js) *)
(* ===================================================================== *)

Module StoreApi.
Import Store.

(** [path.split('.')] on a property path. *)
Fixpoint split_path (path : string) : list string :=
  match path with
  | EmptyString => [EmptyString]
  | String c path' =>
      if Ascii.eqb c "."%char then EmptyString :: split_path path'
      else match split_path path' with
           | [] => [String c EmptyString]
           | k :: ks => String c k :: ks
           end
  end.

(** An assignment [obj[k] = ...] that does not make a property of [obj]:
    the key is [__proto__] and [obj] has no property of its own with
    this name, so the assignment goes to the setter that
    [Object.prototype] has for it. *)
Definition sets_prototype (k : string) (o : gmap string value) : bool :=
  String.eqb k "__proto__" && bool_decide (o !! k = None).

(** The loop of [store.update], as far as the properties the objects
    have of their own go (a map holds the enumerable properties an
    object has of its own, not what it inherits): every object on the
    way to the last key is replaced by a copy of its own properties
    ([{ ...obj[key] }], which is the empty object when there is nothing
    to copy), and the last key is assigned in the innermost copy.  Where
    an assignment goes to the prototype, the properties of the object
    stay as they are; what is assigned from there on is inherited and
    not held here. *)
Fixpoint assign_path (keys : list string) (v : value)
  (o : gmap string value) : gmap string value :=
  match keys with
  | [] => o
  | [k] => if sets_prototype k o then o else <[k := v]> o
  | k :: ks =>
      if sets_prototype k o then o
      else <[k := VObj (assign_path ks v
                          (own_props (default VUndefined (o !! k))))]> o
  end.

(** The property at the end of the chain [o.k1.k2...] when every
    property on the way is an enumerable property of its object's own,
    as a spread copies them; [None] when there is none.  (An inherited
    property and the [length] of an array or a string are not among
    them.) *)
Fixpoint lookup_path (keys : list string) (o : gmap string value)
  : option value :=
  match keys with
  | [] => None
  | [k] => o !! k
  | k :: ks => lookup_path ks (own_props (default VUndefined (o !! k)))
  end.

(** Two paths part ways: they agree up to some key and differ there. *)
Fixpoint diverge (a b : list string) : Prop :=
  match a, b with
  | x :: a', y :: b' => x <> y \/ (x = y /\ diverge a' b')
  | _, _ => False
  end.


Definition TypeError : jsstring := lit "TypeError".


(** [i.idempotencyKey === key] for a string [key]. *)
Definition has_key (key : jsstring) (i : value) : bool :=
  match i with
  | VObj props =>
      match props !! "idempotencyKey" with
      | Some (VStr k) => str_eqb k key
      | _ => false
      end
  | _ => false
  end.

(** [queue.filter((i) => i.idempotencyKey !== key)]: reading a property
    of [null] or [undefined] throws. *)
Fixpoint filter_keys (key : jsstring) (queue : list value)
  : completion (list value) :=
  match queue with
  | [] => Return []
  | i :: queue' =>
      match i with
      | VUndefined | VNull => Throw TypeError
      | _ =>
          match filter_keys key queue' with
          | Return rest => Return (if has_key key i then rest else i :: rest)
          | Throw e => Throw e
          end
      end
  end.

(** The module variables [state] and [listeners] (a Set, in insertion
    order), [localStorage], and the calls made to the listeners. *)
Record Store := mkStore {
  state : gmap string value;
  listeners : list nat;
  storage : gmap string jsstring;
  notified : list (nat * gmap string value)
}.

Section WithJSON.
Variable JSON_stringify : value -> jsstring.

(** What every method that changes the state ends with:
    [state = ...; saveState(state); listeners.forEach((fn) => fn(state))]. *)
Definition commit (st' : gmap string value) (s : Store) : Store :=
  mkStore st' (listeners s)
          (saveState JSON_stringify st' (storage s))
          (notified s ++ map (fun fn => (fn, st')) (listeners s)).

Definition get (s : Store) : gmap string value := state s.

Definition set (partial : gmap string value) (s : Store) : Store :=
  commit (spread (state s) partial) s.

Definition update (path : string) (v : value) (s : Store) : Store :=
  commit (assign_path (split_path path) v (spread ∅ (state s))) s.

(** [subscribe] adds the listener and returns the function that deletes
    it again, here [unsubscribe fn]. *)
Definition subscribe (fn : nat) (s : Store) : Store :=
  if bool_decide (fn ∈ listeners s) then s
  else mkStore (state s) (listeners s ++ [fn]) (storage s) (notified s).

Definition unsubscribe (fn : nat) (s : Store) : Store :=
  mkStore (state s) (filter (fun g => g <> fn) (listeners s)) (storage s)
          (notified s).


Definition dequeue (idempotencyKey : jsstring) (s : Store) : completion Store :=
  match state s !! "pendingQueue" with
  | Some (VArr elems) =>
      match filter_keys idempotencyKey elems with
      | Return kept =>
          Return (commit (spread (state s) {[ "pendingQueue" := VArr kept ]}) s)
      | Throw e => Throw e
      end
  | _ => Throw TypeError
  end.


End WithJSON.

(** The calls made to listener [fn]. *)
Definition calls_of (fn : nat) (log : list (nat * gmap string value))
  : list (gmap string value) :=
  map snd (filter (fun call => call.1 = fn) log).

End StoreApi.

(* ===================================================================== *)
(** * The public face of the connection engine (connection.js) *)
(* ===================================================================== *)

Module ConnectionApi.
Import Connection.

(** [gateway.sendMessage]: the promise it returns is settled when it
    returns, fulfilled with the payload or rejected with the message of
    the error. *)
Definition sendMessage (msg : jsstring) (h : Host) (e : Engine)
  : completion Outbound * Engine :=
  if negb (authenticated e) then (Throw (lit "Not authenticated"), e)
  else
    let sessionKey := Protocol.getSessionKey (agentId (settings e)) in
    let payload := ChatSend (randomUUID h 0) sessionKey msg (randomUUID h 1) in
    let '(sent, e) := send payload e in
    if sent then (Return payload, e) else (Throw (lit "Not connected"), e).

(** [gateway.isConnected] and [gateway.deviceId] *)
Definition isConnected (e : Engine) : bool :=
  authenticated e && bool_decide (conn_state e = CONNECTED).

Definition deviceId (e : Engine) : option jsstring :=
  or_null (ident_id <$> deviceIdentity e).

(** Every pending timer is the one its variable holds, handles are not
    reused, and a socket that is still connecting has no send-delay
    timer yet.  The handlers keep this as long as no second [connect]
    begins while one is waiting for the device identity. *)
Definition held (e : Engine) (t : nat) (tm : Timer) : Prop :=
  match kind tm with
  | T_connect => connectTimer e = Some t
  | T_reconnect _ => reconnectTimer e = Some t
  | T_heartbeat => heartbeatTimer e = Some t
  end.

Record tidy (e : Engine) : Prop := mkTidy {
  tidy_held : forall t tm, timers e !! t = Some tm -> held e t tm;
  tidy_fresh : forall t tm, timers e !! t = Some tm -> (t < next_timer e)%nat;
  tidy_connecting : forall sock t tm,
    ws e = Some sock -> readyState sock = WS_CONNECTING ->
    timers e !! t = Some tm -> kind tm <> T_connect
}.

(** What a step that sets or clears no timer and keeps the socket leaves
    as it was. *)
Definition same_timers (e e' : Engine) : Prop :=
  timers e' = timers e /\ next_timer e' = next_timer e /\ ws e' = ws e
  /\ heartbeatTimer e' = heartbeatTimer e
  /\ reconnectTimer e' = reconnectTimer e
  /\ connectTimer e' = connectTimer e.

(** A step that did nothing but send frames and remove items from the
    queue: every other variable is as it was. *)
Definition only_sends (e e' : Engine) : Prop :=
  e' = set_pendingQueue (pendingQueue e') (set_wire (wire e') e).

(** A step that did nothing but call listeners. *)
Definition only_emits (e e' : Engine) : Prop :=
  e' = set_lastTick (lastTick e') (set_emitted (emitted e') e).

(** [HEARTBEAT_INTERVAL * 3] *)
Definition HEARTBEAT_TIMEOUT : Z := HEARTBEAT_INTERVAL * 3.


(** The answer that accepts the connect request [id]. *)
Definition hello_ok (id : jsstring) : Frame :=
  mkFrame (Some (lit "res")) (Some id) None (Some true) true None None.

(** The two tests of [handleMessage]; reading [frame.type] of [null]
    throws before either is made. *)
Definition is_challenge (frame : Inbound) : bool :=
  match frame with
  | JsonNull => false
  | Fields f _ _ =>
      eq_lit (ftype f) "event" && eq_lit (fevent f) "connect.challenge"
  end.

Definition is_connect_response (frame : Inbound) (e : Engine) : bool :=
  match frame with
  | JsonNull => false
  | Fields f id_null _ =>
      eq_lit (ftype f) "res" && same_id f id_null (connectId e)
  end.

End ConnectionApi.

(* ===================================================================== *)
(** * More of the engine with the pending-request table (connection.js) *)
(* ===================================================================== *)

Module RequestApi.
Import RequestEngine.

(** [gateway.isConnected] *)
Definition isConnected (e : Engine) : bool :=
  bool_decide (conn_state e = CONNECTED).

(** No connect request is waiting for its answer. *)
Definition no_connect_pending (e : Engine) : Prop :=
  forall id s t, pendingRequests e !! id <> Some (mkPending (W_connect s) t).

Definition connect_pending (e : Engine) : Prop :=
  exists id s t, pendingRequests e !! id = Some (mkPending (W_connect s) t).

(** A step that did nothing but make requests: it may have created
    promises, timers and entries and sent frames, and every other
    variable is as it was. *)
Definition only_requests (e e' : Engine) : Prop :=
  e' = set_reactions (reactions e')
         (set_wire (wire e')
            (set_pendingRequests (pendingRequests e')
               (set_promises (promises e')
                  (set_next_promise (next_promise e')
                     (set_timers (timers e')
                        (set_next_timer (next_timer e') e)))))).


Definition HANDSHAKE_TIMED_OUT : jsstring := lit "Handshake timeout".

End RequestApi.

(* ===================================================================== *)
(** * What a match is *)
(* ===================================================================== *)

Module RegexSem.

(** [matches input r st st']: the expression [r] can read the input from
    the state [st] to the state [st'], whatever comes after it.  An
    iteration of a star reads at least one unit. *)
Inductive matches (input : jsstring) : regex -> mstate -> mstate -> Prop :=
| M_char p c s st :
    rest st = c :: s -> p c = true ->
    matches input (RChar p) st (MState s (caps st))
| M_eps st : matches input REps st st
| M_seq r1 r2 st1 st2 st3 :
    matches input r1 st1 st2 -> matches input r2 st2 st3 ->
    matches input (RSeq r1 r2) st1 st3
| M_alt_l r1 r2 st st' :
    matches input r1 st st' -> matches input (RAlt r1 r2) st st'
| M_alt_r r1 r2 st st' :
    matches input r2 st st' -> matches input (RAlt r1 r2) st st'
| M_star_stop g r st : matches input (RStar g r) st st
| M_star_more g r st1 st2 st3 :
    matches input r st1 st2 ->
    (length (rest st2) < length (rest st1))%nat ->
    matches input (RStar g r) st2 st3 ->
    matches input (RStar g r) st1 st3
| M_group n r st st' :
    matches input r st st' ->
    matches input (RGroup n r) st
      (MState (rest st') ((n, consumed st st') :: caps st'))
| M_bol st :
    length (rest st) = length input -> matches input RBol st st
| M_eol st : rest st = [] -> matches input REol st st.

(** The loop [run] makes for a star, by its name. *)
Definition star_loop (input : jsstring) (r1 : regex) (greedy : bool)
  (k : continuation) : nat -> mstate -> option mstate :=
  fix loop (fuel : nat) (st : mstate) {struct fuel} : option mstate :=
    match fuel with
    | O => k st
    | S fuel' =>
        let again :=
          run input r1 (fun st' =>
                          if (length (rest st') <? length (rest st))%nat
                          then loop fuel' st' else None) st in
        if greedy then
          match again with
          | Some res => Some res
          | None => k st
          end
        else
          match k st with
          | Some res => Some res
          | None => again
          end
    end.

(** An expression without capturing group. *)
Fixpoint capture_free (r : regex) : bool :=
  match r with
  | RChar _ | REps | RBol | REol => true
  | RSeq r1 r2 | RAlt r1 r2 => capture_free r1 && capture_free r2
  | RStar _ r1 => capture_free r1
  | RGroup _ _ => false
  end.

(** A non-empty text of decimal digits. *)
Definition is_number_text (s : jsstring) : Prop :=
  s <> [] /\ Forall (fun c => is_digit c = true) s.

Definition ends_with_line_terminator (s : jsstring) : Prop :=
  exists s' c, s = s' ++ [c] /\ is_line_terminator c = true.

(** A number that is neither NaN nor negative: a non-negative integer
    or the positive infinity. *)
Definition non_negative (x : number) : Prop :=
  x = Infinity false \/ exists n, x = Num n /\ 0 <= n.

(** 2^53: below it every integer is a double. *)
Definition EXACT_BELOW : Z := 9007199254740992.

(** A run of white space, possibly empty. *)
Definition blank (s : jsstring) : Prop :=
  Forall (fun c => is_space c = true) s.

(** Where a greedy run of the class [p] stops: at the end of the input or
    in front of a unit outside the class. *)
Definition stops (p : char16 -> bool) (s : jsstring) : Prop :=
  match s with
  | [] => True
  | c :: _ => p c = false
  end.

(** The texts the marker group of the task pattern reads, and the three
    of them that stand for a completed task. *)
Definition markers : list jsstring :=
  [ Parser.GLYPH_DONE; Parser.GLYPH_TODO;
    Parser.GLYPH_TODO ++ [Parser.GLYPH_TODO_TAIL];
    Parser.GLYPH_BALLOT; Parser.GLYPH_BUTTON; Parser.GLYPH_SQUARE;
    lit "[x]"; lit "[]"; lit "[ ]" ].

Definition is_done_marker (m : jsstring) : bool :=
  str_eqb m Parser.GLYPH_DONE || str_eqb m Parser.GLYPH_BALLOT
  || str_eqb m (lit "[x]").

(** Digits grouped by commas, with one digit at least. *)
Definition is_grouped_number (x : jsstring) : Prop :=
  Forall (fun c => is_digit c = true \/ c = 44%N) x
  /\ Exists (fun c => is_digit c = true) x.

(** The stats line in the format the parser documents:
    [Day d | Streak: s | Hearts: h | XP: x | Level: l]. *)
Definition stats_line (d s h x l : jsstring) : jsstring :=
  lit "Day " ++ d ++ lit " | Streak: " ++ s ++ lit " | Hearts: " ++ h
  ++ lit " | XP: " ++ x ++ lit " | Level: " ++ l.

(** A task line: number, dot, marker and text, with white space around
    the number and the marker. *)
Definition task_line (ws1 ds ws2 m ws3 text : jsstring) : jsstring :=
  ws1 ++ ds ++ [46%N] ++ ws2 ++ m ++ ws3 ++ text.

End RegexSem.

(* ===================================================================== *)
(** * Reading a signed payload back (device-identity.js) *)
(* ===================================================================== *)

Module AuthPayload.
Import DeviceIdentity.

(** A text without the separator of the payload. *)
Definition bar_free (s : jsstring) : Prop := Forall (fun c => c <> 124%N) s.

(** No field of the payload holds the separator. *)
Definition fields_bar_free (a : AuthFields) : Prop :=
  bar_free (deviceId a) /\ bar_free (clientId a) /\ bar_free (clientMode a)
  /\ bar_free (role a) /\ Forall bar_free (scopes a)
  /\ bar_free (default [] (token a)) /\ bar_free (default [] (nonce a)).

(** The array [base] that [buildDeviceAuthPayload] joins. *)
Definition payload_array (a : AuthFields) : list jsstring :=
  (if present (nonce a) then lit "v2" else lit "v1")
  :: payload_fields a
  ++ (if present (nonce a) then [default [] (nonce a)] else []).

End AuthPayload.

(* ===================================================================== *)
(** * Reading the properties of a frame *)
(* ===================================================================== *)

Module Frames.

(** [o.k] on a plain object. *)
Definition prop (o : gmap string value) (k : string) : value :=
  default VUndefined (o !! k).

(** [v?.k], for the names the handlers read ([text], [delta], [nonce],
    [code], [message]), none of which is a property of a string, an
    array, a number or a boolean; [host_member] gives the properties of a
    Blob or an ArrayBuffer, which are the host's. *)
Definition opt_member (host_member : list N -> string -> value)
  (v : value) (k : string) : value :=
  match v with
  | VObj props => prop props k
  | VBinary bytes => host_member bytes k
  | _ => VUndefined
  end.

(** [a || b] *)
Definition or_value (a b : value) : value := if truthy a then a else b.

(** [v === 's'] *)
Definition is_text (v : value) (s : string) : bool :=
  match v with
  | VStr t => str_eqb t (lit s)
  | _ => false
  end.

End Frames.

(* ===================================================================== *)
(** * The task view (ui/tasks.js): what it does with a frame *)
(* ===================================================================== *)

Module TasksUi.
Import Store Parser Frames.

(** The objects [parseTaskMessage] returns, as values of the store. *)
Definition item_value (i : TaskItem) : value :=
  obj [ ("id", VNum (id i)); ("text", VStr (text i));
        ("completed", VBool (completed i)) ].

Definition stats_props (s : Stats) : gmap string value :=
  list_to_map [ ("streak", VNum (streak s)); ("hearts", VNum (hearts s));
                ("xp", VNum (xp s)); ("level", VNum (level s)) ].

(** The module variable [accumulator], the store, and the states
    [renderFromState] was called on. *)
Record Ui := mkUi {
  accumulator : Accumulator;
  store : StoreApi.Store;
  rendered : list (gmap string value)
}.

Section WithHost.
Variable JSON_stringify : value -> jsstring.
(** The string [buffer += delta] appends when [delta] is no string. *)
Variable ToString : value -> jsstring.
Variable host_member : list N -> string -> value.
(** [renderFromState] writes the document; it returns ([true]) or
    throws ([false]). *)
Variable renderFromState : gmap string value -> bool.

(** [frame.text || frame.message?.text || frame.data?.text
     || frame.content || frame.data?.delta || frame.delta] *)
Definition frame_text (frame : gmap string value) : value :=
  or_value (prop frame "text")
    (or_value (opt_member host_member (prop frame "message") "text")
       (or_value (opt_member host_member (prop frame "data") "text")
          (or_value (prop frame "content")
             (or_value (opt_member host_member (prop frame "data") "delta")
                (prop frame "delta"))))).

(** [frame.type === 'done' || frame.type === 'complete'
     || frame.done === true || frame.status === 'complete'] *)
Definition frame_done (frame : gmap string value) : bool :=
  is_text (prop frame "type") "done" || is_text (prop frame "type") "complete"
  || match prop frame "done" with VBool true => true | _ => false end
  || is_text (prop frame "status") "complete".

Definition append_value (delta : value) (acc : Accumulator) : Accumulator :=
  append (match delta with VStr s => s | _ => ToString delta end) acc.

(** A call of [renderFromState]; [None] when it throws. *)
Definition render (u : Ui) : option Ui :=
  if renderFromState (StoreApi.get (store u))
  then Some (mkUi (accumulator u) (store u)
               (rendered u ++ [StoreApi.get (store u)]))
  else None.

Definition applyParsedTasks (parsed : ParseResult) (u : Ui) : option Ui :=
  let tasks := prop (StoreApi.get (store u)) "tasks" in
  let update := own_props tasks in
  let update :=
    match day parsed with
    | Some d => <["day" := VNum d]> update
    | None => update
    end in
  let update :=
    match stats parsed with
    | Some s =>
        <["stats" := VObj (spread (own_props (prop update "stats"))
                             (stats_props s))]> update
    | None => update
    end in
  let update :=
    match items parsed with
    | [] => update
    | its => <["items" := VArr (map item_value its)]> update
    end in
  let update := <["rawMessage" := VNull]> update in
  render (mkUi (accumulator u)
            (StoreApi.update JSON_stringify "tasks" (VObj update) (store u))
            (rendered u)).

Definition reset_accumulator (u : Ui) : Ui :=
  mkUi (reset (accumulator u)) (store u) (rendered u).

(** The end of the listener: [if (isDone && accumulator.text) ...]. *)
Definition on_done (frame : gmap string value) (u : Ui) : option Ui :=
  if frame_done frame
     && match buffer (accumulator u) with [] => false | _ :: _ => true end
  then
    match (parse (accumulator u)).1 with
    | Some parsed => reset_accumulator <$> applyParsedTasks parsed u
    | None =>
        let tasks := prop (StoreApi.get (store u)) "tasks" in
        reset_accumulator <$>
          render (mkUi (accumulator u)
                    (StoreApi.update JSON_stringify "tasks"
                       (VObj (<["rawMessage" := VStr (buffer (accumulator u))]>
                                (own_props tasks)))
                       (store u))
                    (rendered u))
    end
  else Some u.

(** The listener of ['*'] that [setupEventListener] installs, on a frame
    that is a plain object; [None] when an exception leaves it. *)
Definition on_frame (frame : gmap string value) (u : Ui) : option Ui :=
  let text := frame_text frame in
  if truthy text then
    let u1 := mkUi (append_value text (accumulator u)) (store u) (rendered u) in
    match (parse (accumulator u1)).1 with
    | Some parsed =>
        match items parsed with
        | _ :: _ => reset_accumulator <$> applyParsedTasks parsed u1
        | [] => on_done frame u1
        end
    | None => on_done frame u1
    end
  else on_done frame u.

(** The last lines of [handleMessage], which a frame that is neither the
    challenge nor the answer to the connect request reaches: the calls
    of [emit], with the event name and the frame. *)
Definition forwarded (frame : gmap string value)
  : list (value * gmap string value) :=
  (or_value (prop frame "type") (VStr (lit "message")), frame)
  :: (if truthy (prop frame "event") then [(prop frame "event", frame)]
      else []).

(** [emit] runs the listeners of the name and then the listeners of
    ['*']: a listener of ['*'] is called once on every call, and twice
    when the name is ['*'] itself. *)
Definition wildcard_calls (emits : list (value * gmap string value))
  : list (gmap string value) :=
  flat_map (fun call => if is_text call.1 "*" then [call.2; call.2]
                        else [call.2]) emits.

Definition deliver (frames : list (gmap string value)) (u : Ui)
  : option Ui :=
  foldl (fun acc frame => acc ≫= on_frame frame) (Some u) frames.

End WithHost.

(** A text that holds no task line. *)
Definition no_items (s : jsstring) : Prop :=
  flat_map task_of_line (split_on 10%N s) = [].

(** The items the store holds. *)
Definition stored_items (u : Ui) : option value :=
  StoreApi.lookup_path ["tasks"; "items"] (StoreApi.get (store u)).

End TasksUi.

(* ===================================================================== *)
(** * The connection test (connection.js, testConnection) *)
(* ===================================================================== *)

Module ConnectionTest.
Import Frames Connection.

(** What the promise of [testConnection] is resolved with. *)
Inductive Verdict :=
| Passed                                        (* { ok: true } *)
| Failed (error : value)                        (* { ok: false, error } *)
| NotPaired (deviceId : option jsstring).       (* ..., deviceId: identity?.id *)

(** The [device] block of the test's connect request; [VUndefined] is no
    nonce. *)
Record TestDevice := mkTestDevice {
  td_id : jsstring;
  td_publicKey : jsstring;
  td_signature : jsstring;
  td_signedAt : N;
  td_nonce : value
}.

Record TestRequest := mkTestRequest {
  tr_id : jsstring;
  tr_token : jsstring;
  tr_device : option TestDevice
}.

(** A call of [doSendConnect] suspended at [await signPayload(...)]: the
    time and the nonce that went into the payload being signed. *)
Record TestJob := mkTestJob {
  tj_signedAt : N;
  tj_nonce : value
}.

(** The variables of the promise executor, the state of the socket, and
    what the host holds: the pending timers, the frames sent, the calls
    of [close] and of [resolve] (the promise keeps the first). *)
Record Test := mkTest {
  identity : option Identity;
  token : jsstring;
  timer : bool;                    (* the 5 s timeout is pending *)
  socket : option ReadyState;       (* [testWs], when it was created *)
  sendTimer : option bool;         (* a handle, and whether it is pending *)
  sent : bool;
  testNonce : value;
  testConnectId : option jsstring; (* [None] is undefined *)
  jobs : list TestJob;
  wire : list TestRequest;
  closes : nat;
  verdicts : list Verdict
}.

Definition set_timer (v : bool) (t : Test) : Test :=
  mkTest (identity t) (token t) v (socket t) (sendTimer t) (sent t)
         (testNonce t) (testConnectId t) (jobs t) (wire t) (closes t)
         (verdicts t).
Definition set_socket (v : option ReadyState) (t : Test) : Test :=
  mkTest (identity t) (token t) (timer t) v (sendTimer t) (sent t)
         (testNonce t) (testConnectId t) (jobs t) (wire t) (closes t)
         (verdicts t).
Definition set_sendTimer (v : option bool) (t : Test) : Test :=
  mkTest (identity t) (token t) (timer t) (socket t) v (sent t)
         (testNonce t) (testConnectId t) (jobs t) (wire t) (closes t)
         (verdicts t).
Definition set_sent (v : bool) (t : Test) : Test :=
  mkTest (identity t) (token t) (timer t) (socket t) (sendTimer t) v
         (testNonce t) (testConnectId t) (jobs t) (wire t) (closes t)
         (verdicts t).
Definition set_testNonce (v : value) (t : Test) : Test :=
  mkTest (identity t) (token t) (timer t) (socket t) (sendTimer t) (sent t)
         v (testConnectId t) (jobs t) (wire t) (closes t) (verdicts t).
Definition set_testConnectId (v : option jsstring) (t : Test) : Test :=
  mkTest (identity t) (token t) (timer t) (socket t) (sendTimer t) (sent t)
         (testNonce t) v (jobs t) (wire t) (closes t) (verdicts t).
Definition set_jobs (v : list TestJob) (t : Test) : Test :=
  mkTest (identity t) (token t) (timer t) (socket t) (sendTimer t) (sent t)
         (testNonce t) (testConnectId t) v (wire t) (closes t) (verdicts t).
Definition set_wire (v : list TestRequest) (t : Test) : Test :=
  mkTest (identity t) (token t) (timer t) (socket t) (sendTimer t) (sent t)
         (testNonce t) (testConnectId t) (jobs t) v (closes t) (verdicts t).

(** [resolve(v)] *)
Definition resolve (v : Verdict) (t : Test) : Test :=
  mkTest (identity t) (token t) (timer t) (socket t) (sendTimer t) (sent t)
         (testNonce t) (testConnectId t) (jobs t) (wire t) (closes t)
         (verdicts t ++ [v]).

(** [testWs?.close()] *)
Definition close (t : Test) : Test :=
  match socket t with
  | Some rs =>
      mkTest (identity t) (token t) (timer t)
             (Some (match rs with
                    | WS_CONNECTING | WS_OPEN => WS_CLOSING
                    | _ => rs
                    end))
             (sendTimer t) (sent t) (testNonce t) (testConnectId t) (jobs t)
             (wire t) (S (closes t)) (verdicts t)
  | None => t
  end.

(** What the promise settles with. *)
Definition outcome (t : Test) : option Verdict := head (verdicts t).

(** The 5 s timer is pending or the promise is settled. *)
Definition alive (t : Test) : Prop := timer t = true \/ verdicts t <> [].

Definition TIMEOUT_MESSAGE : value := VStr (lit "Connection timeout (5s)").
Definition FAILED_MESSAGE : value :=
  VStr (lit "Connection failed - check URL and network").

(** The executor of the promise: [identity] is what awaiting
    [getOrCreateDeviceIdentity()] gave ([None] when it failed), [sock]
    what [new WebSocket(buildAuthUrl(url, token))] did (the message of
    the error when it threw). *)
Definition start (ident : option Identity) (token : jsstring)
  (sock : completion unit) : Test :=
  let t := mkTest ident token true None None false VNull None [] [] 0 [] in
  match sock with
  | Return _ => set_socket (Some WS_CONNECTING) t
  | Throw msg => resolve (Failed (VStr msg)) (set_timer false t)
  end.

(** [testNonce || undefined] *)
Definition nonce_or_undefined (t : Test) : value :=
  or_value (testNonce t) VUndefined.

(** The end of [doSendConnect], and the assignment
    [testConnectId = await doSendConnect()] of its caller: [send] throws
    while the socket is connecting, and does nothing once it is closing
    or closed. *)
Definition finish (device : option TestDevice) (h : Host) (t : Test) : Test :=
  let frame := mkTestRequest (randomUUID h 0) (token t) device in
  match socket t with
  | Some WS_OPEN =>
      set_testConnectId (Some (tr_id frame)) (set_wire (wire t ++ [frame]) t)
  | Some WS_CLOSING | Some WS_CLOSED =>
      set_testConnectId (Some (tr_id frame)) t
  | Some WS_CONNECTING | None => t
  end.

(** [testConnectId = await doSendConnect()], up to the [await] inside
    [doSendConnect]: a second call returns undefined at once. *)
Definition call_doSendConnect (h : Host) (t : Test) : Test :=
  if sent t then set_testConnectId None t
  else
    let t := set_sent true t in
    match identity t with
    | Some _ =>
        set_jobs (jobs t ++ [mkTestJob (now h) (nonce_or_undefined t)]) t
    | None => finish None h t
    end.

(** [doSendConnect] after its [await]: [signPayload] resolved to a
    signature or was rejected. *)
Definition resume (result : completion jsstring) (h : Host) (t : Test)
  : Test :=
  match jobs t with
  | [] => t
  | job :: rest =>
      let t := set_jobs rest t in
      match result, identity t with
      | Return signature, Some ident =>
          finish (Some (mkTestDevice (ident_id ident) (publicKeyRaw ident)
                          signature (tj_signedAt job) (nonce_or_undefined t)))
                 h t
      | _, _ => t
      end
  end.

Section WithHost.
Variable host_member : list N -> string -> value.

(** [frame.id === testConnectId] *)
Definition id_matches (v : value) (testConnectId : option jsstring) : bool :=
  match v, testConnectId with
  | VUndefined, None => true
  | VStr s, Some id => str_eqb s id
  | _, _ => false
  end.

(** [errMsg.includes('NOT_PAIRED')]; [None] when the call throws, the
    value being neither a string nor an array. *)
Definition includes_method (v : value) (needle : string) : option bool :=
  match v with
  | VStr s => Some (includes s (lit needle))
  | VArr elems => Some (existsb (fun el => is_text el needle) elems)
  | _ => None
  end.

Definition error_code (frame : gmap string value) : value :=
  or_value (opt_member host_member (prop frame "error") "code") (VStr []).

Definition error_message (frame : gmap string value) : value :=
  or_value (opt_member host_member (prop frame "error") "message")
           (VStr (lit "Auth rejected")).

(** [testWs.onmessage], on a frame that is a plain object. *)
Definition onmessage (frame : gmap string value) (h : Host) (t : Test)
  : Test :=
  if is_text (prop frame "event") "connect.challenge" then
    let t := match sendTimer t with
             | Some _ => set_sendTimer (Some false) t
             | None => t
             end in
    let t := set_testNonce
               (or_value (opt_member host_member (prop frame "payload") "nonce")
                         VNull) t in
    call_doSendConnect h t
  else if is_text (prop frame "type") "res"
          && id_matches (prop frame "id") (testConnectId t) then
    let t := close (set_timer false t) in
    if negb (match prop frame "ok" with VBool false => true | _ => false end)
       && negb (truthy (prop frame "error"))
    then resolve Passed t
    else
      let errCode := error_code frame in
      let errMsg := error_message frame in
      if is_text errCode "NOT_PAIRED" then
        resolve (NotPaired (ident_id <$> identity t)) t
      else
        match includes_method errMsg "NOT_PAIRED" with
        | Some true => resolve (NotPaired (ident_id <$> identity t)) t
        | Some false => resolve (Failed errMsg) t
        | None => t
        end
  else t.

Inductive Event :=
| TOpen
| TDelay                              (* the send delay elapsed *)
| TMessage (frame : gmap string value)
| TSigned (result : completion jsstring)
| TError
| TTimeout                            (* the 5 s elapsed *)
| TClosed.                            (* the connection was closed *)

(** The host fires a timer that is pending, opens a socket once, and
    calls the handlers of a socket that exists. *)
Definition step (h : Host) (ev : Event) (t : Test) : Test :=
  match ev with
  | TOpen =>
      match socket t with
      | Some WS_CONNECTING =>
          set_sendTimer (Some true) (set_socket (Some WS_OPEN) t)
      | _ => t
      end
  | TDelay =>
      match sendTimer t with
      | Some true => call_doSendConnect h (set_sendTimer (Some false) t)
      | _ => t
      end
  | TMessage frame =>
      match socket t with
      | Some _ => onmessage frame h t
      | None => t
      end
  | TSigned result => resume result h t
  | TError =>
      match socket t with
      | Some _ => resolve (Failed FAILED_MESSAGE) (set_timer false t)
      | None => t
      end
  | TTimeout =>
      if timer t
      then resolve (Failed TIMEOUT_MESSAGE) (close (set_timer false t))
      else t
  | TClosed =>
      match socket t with
      | Some _ => set_socket (Some WS_CLOSED) t
      | None => t
      end
  end.

Fixpoint run (evs : list (Host * Event)) (t : Test) : Test :=
  match evs with
  | [] => t
  | (h, ev) :: evs' => run evs' (step h ev t)
  end.

(** A frame whose error message, when it has one, is a string. *)
Definition plain_error (frame : gmap string value) : Prop :=
  exists s, error_message frame = VStr s.

Definition frame_of (ev : Event) : option (gmap string value) :=
  match ev with
  | TMessage frame => Some frame
  | _ => None
  end.

End WithHost.

(** The challenge and an answer to the request [id], as objects. *)
Definition challenge_frame (nonce : jsstring) : gmap string value :=
  {[ "type" := VStr (lit "event");
     "event" := VStr (lit "connect.challenge");
     "payload" := VObj {[ "nonce" := VStr nonce ]} ]}.

Definition answer_frame (id : jsstring) : gmap string value :=
  {[ "type" := VStr (lit "res"); "id" := VStr id; "ok" := VBool true ]}.

End ConnectionTest.

(* ===================================================================== *)
(** * More sample data *)
(* ===================================================================== *)

Module Scenarios.

(** An entry of the offline queue as the store holds it. *)
Definition queued (taskId : Z) (text key : string) : value :=
  Store.obj [ ("taskId", VNum (Num taskId)); ("text", VStr (lit text));
              ("idempotencyKey", VStr (lit key)) ].

(** A store with one queued item and one listener. *)
Definition sample_store : StoreApi.Store :=
  StoreApi.mkStore
    (<["pendingQueue" := VArr [queued 1 "Task 1 completed: a" "k1"]]>
       (Store.defaultState (lit "dev-1")))
    [7%nat] ∅ [].

(** The current engine after [connect], and after its socket opened. *)
Definition dialing : Connection.Engine :=
  Connection.step (host_at 65)
    (Connection.EConnect sample_settings None (Return 7%nat))
    (Connection.initial sample_settings).

Definition opened : Connection.Engine :=
  Connection.step (host_at 65) Connection.EOpen dialing.

(** The engine of [handshaking_engine] after its connect request was
    accepted, and a host whose clock is 100 s further. *)
Definition accepted_engine : Connection.Engine :=
  Connection.onmessage (ConnectionApi.hello_ok [65%N]) (host_at 70)
    handshaking_engine.

Definition late_host : Host :=
  mkHost 1700000100000%N (1 # 4) (fun n => [(90 + N.of_nat n)%N]).

End Scenarios.
Import Scenarios.

(* ===================================================================== *)
(** * Properties of the parser and the accumulator *)
(* ===================================================================== *)

Section ParserFacts.
Import Parser.

Lemma append_append (a b : jsstring) (acc : Accumulator) :
  append b (append a acc) = append (a ++ b) acc.
Proof. unfold append; simpl. by rewrite app_assoc. Qed.

Lemma parse_keeps_buffer (acc : Accumulator) : (parse acc).2 = acc.
Proof. reflexivity. Qed.

Lemma parse_iter (n : nat) (acc : Accumulator) :
  Nat.iter n (fun x => (parse x).2) acc = acc.
Proof. induction n as [|n IH]; [done|]. by rewrite Nat.iter_succ, IH. Qed.

Lemma no_task_lines (lines : list jsstring) :
  Forall (fun line => exec TASK_LINE_PATTERN line = None) lines ->
  flat_map task_of_line lines = [].
Proof.
  induction 1 as [|line lines Hline _ IH]; simpl; [done|].
  unfold task_of_line at 1. by rewrite Hline, IH.
Qed.

Lemma parseTaskMessage_no_data (text : jsstring) :
  exec STATS_PATTERN text = None ->
  Forall (fun line => exec TASK_LINE_PATTERN line = None) (split_on 10%N text) ->
  parseTaskMessage text = None.
Proof.
  intros Hstats Hlines. unfold parseTaskMessage.
  destruct text as [|c text]; [done|].
  by rewrite Hstats, (no_task_lines _ Hlines).
Qed.

(** C6: [parse()] on the buffer holding the stats line
    "Day 42 | Streak: 5 | Hearts: 3 | XP: 1,250 | Level: 7" followed by
    the task lines "1. [x] Review PR" and "2. [ ] Write tests" returns day
    42, stats 5/3/1250/7 and the two items (the first completed, the
    second not); the fourth group captured "1,250", whose comma is removed
    before [parseInt], which would otherwise stop at the comma. *)
Theorem parse_worked_example :
  (parse (append example_buffer createDeltaAccumulator)).1 =
    Some (mkResult (Some (Num 42))
            (Some (mkStats (Num 5) (Num 3) (Num 1250) (Num 7)))
            [ mkItem (Num 1) (lit "Review PR") true;
              mkItem (Num 2) (lit "Write tests") false ])
  /\ (group 4 <$> exec STATS_PATTERN example_buffer) = Some (lit "1,250")
  /\ parseInt10 (remove_all 44%N (lit "1,250")) = Num 1250
  /\ parseInt10 (lit "1,250") = Num 1.
Proof. vm_compute. repeat split; reflexivity. Qed.

(** C7: appending [a] and then [b] leaves the accumulator in the state
    appending [a ++ b] does, so [parse()] answers the same; [parse()]
    leaves the buffer as it was, however often it is called, and answers
    the same each time; and it returns [null] when the buffer matches
    neither the stats pattern nor, on any line, the task pattern. *)
Theorem accumulator_reassembly (a b : jsstring) (acc : Accumulator) :
  parse (append b (append a acc)) = parse (append (a ++ b) acc)
  /\ (parse acc).2 = acc
  /\ parse (parse acc).2 = parse acc
  /\ (forall n, Nat.iter n (fun x => (parse x).2) acc = acc)
  /\ (exec STATS_PATTERN (buffer acc) = None ->
      Forall (fun line => exec TASK_LINE_PATTERN line = None)
             (split_on 10%N (buffer acc)) ->
      (parse acc).1 = None).
Proof.
  split; [by rewrite append_append|].
  split; [done|]. split; [done|].
  split; [intros n; apply parse_iter|].
  intros Hstats Hlines. simpl. by apply parseTaskMessage_no_data.
Qed.

Lemma accumulator_reassembly_witness :
  parse (append (lit "2 | Str") (append (lit "Day 4") createDeltaAccumulator))
  = parse (append (lit "Day 42 | Str") createDeltaAccumulator)
  /\ (parse (mkAcc (lit "Day 42 | Str"))).1 = None.
Proof.
  split.
  - exact (proj1 (accumulator_reassembly (lit "Day 4") (lit "2 | Str")
                    createDeltaAccumulator)).
  - apply (proj2 (proj2 (proj2 (proj2
             (accumulator_reassembly [] [] (mkAcc (lit "Day 42 | Str"))))))).
    + vm_compute. reflexivity.
    + vm_compute. repeat constructor.
Defined.

End ParserFacts.

(* ===================================================================== *)
(** * Properties of the codec and of the auth payload *)
(* ===================================================================== *)

Section CodecFacts.
Import Protocol DeviceIdentity.

(** C8: whatever [JSON.parse] does, [parseFrame] returns a value and never
    throws: a string that [JSON.parse] rejects decodes to the frame whose
    [type] is "unknown" and whose [raw] is the input itself; a string it
    accepts decodes to the parsed value; any other input is returned as
    it is. *)
Theorem parseFrame_never_throws
  (JSON_parse : jsstring -> completion value) (data : value) :
  (exists v, parseFrame JSON_parse data = Return v)
  /\ (forall s e, data = VStr s -> JSON_parse s = Throw e ->
        parseFrame JSON_parse data = Return (unknown_frame data))
  /\ own_props (unknown_frame data) !! "type" = Some (VStr (lit "unknown"))
  /\ own_props (unknown_frame data) !! "raw" = Some data
  /\ (forall s v, data = VStr s -> JSON_parse s = Return v ->
        parseFrame JSON_parse data = Return v)
  /\ ((forall s, data <> VStr s) -> parseFrame JSON_parse data = Return data).
Proof.
  repeat split.
  - unfold parseFrame. destruct data; simpl; eauto.
    destruct (JSON_parse s); simpl; eauto.
  - intros s e -> Hthrow. unfold parseFrame. by rewrite Hthrow.
  - intros s v -> Hok. unfold parseFrame. by rewrite Hok.
  - intros Hother. destruct data; try done. by destruct (Hother s).
Qed.

Lemma parseFrame_never_throws_witness :
  parseFrame Store.codec_parse (VStr (lit "{oops"))
  = Return (unknown_frame (VStr (lit "{oops")))
  /\ parseFrame Store.codec_parse (VStr (lit "[1,true]"))
     = Return (VArr [VNum (Num 1); VBool true])
  /\ parseFrame Store.codec_parse (VBinary [0%N; 255%N])
     = Return (VBinary [0%N; 255%N]).
Proof.
  pose proof (parseFrame_never_throws Store.codec_parse (VStr (lit "{oops")))
    as (_ & Hbad & _).
  pose proof (parseFrame_never_throws Store.codec_parse (VStr (lit "[1,true]")))
    as (_ & _ & _ & _ & Hgood & _).
  pose proof (parseFrame_never_throws Store.codec_parse (VBinary [0%N; 255%N]))
    as (_ & _ & _ & _ & _ & Hother).
  split; [|split].
  - apply (Hbad (lit "{oops") (lit "SyntaxError")); reflexivity.
  - apply (Hgood (lit "[1,true]")); reflexivity.
  - apply Hother. intros s. discriminate.
Defined.

(** C9: the payload is the fields joined by "|" in the order version,
    device id, client id, client mode, role, scopes (joined by ","),
    signing time, token; there are two forms, "v1" with these eight
    fields when no nonce is present and "v2" with the nonce as ninth and
    last field when one is present (a non-empty string, as the code tests
    it); which form is produced depends on the nonce alone; and two calls
    whose fields agree give the same payload. *)
Theorem buildDeviceAuthPayload_forms (a : AuthFields) :
  buildDeviceAuthPayload a =
    (if present (nonce a)
     then join (lit "|") (lit "v2" :: payload_fields a ++ [default [] (nonce a)])
     else join (lit "|") (lit "v1" :: payload_fields a))
  /\ (forall n, nonce a = Some n -> n <> [] ->
        buildDeviceAuthPayload a
        = join (lit "|") (lit "v2" :: payload_fields a ++ [n]))
  /\ (nonce a = None ->
        buildDeviceAuthPayload a = join (lit "|") (lit "v1" :: payload_fields a))
  /\ (forall b, deviceId b = deviceId a -> clientId b = clientId a ->
        clientMode b = clientMode a -> role b = role a ->
        scopes b = scopes a -> signedAtMs b = signedAtMs a ->
        token b = token a -> nonce b = nonce a ->
        buildDeviceAuthPayload b = buildDeviceAuthPayload a).
Proof.
  assert (Hform : buildDeviceAuthPayload a =
    (if present (nonce a)
     then join (lit "|") (lit "v2" :: payload_fields a ++ [default [] (nonce a)])
     else join (lit "|") (lit "v1" :: payload_fields a))).
  { unfold buildDeviceAuthPayload. destruct (present (nonce a)); reflexivity. }
  split; [exact Hform|]. split; [|split].
  - intros n Hn Hne. rewrite Hform, Hn. destruct n; [done|]. reflexivity.
  - intros Hn. rewrite Hform, Hn. reflexivity.
  - intros b. destruct a, b; simpl. by intros -> -> -> -> -> -> -> ->.
Qed.

Lemma buildDeviceAuthPayload_forms_witness :
  buildDeviceAuthPayload (example_auth (Some (lit "n-1")))
  = lit "v2|ab12|webchat|webchat|operator|operator.read,operator.write,operator.admin|1700000000123|tok|n-1"
  /\ buildDeviceAuthPayload (example_auth None)
  = lit "v1|ab12|webchat|webchat|operator|operator.read,operator.write,operator.admin|1700000000123|tok".
Proof.
  split.
  - rewrite (proj1 (proj2 (buildDeviceAuthPayload_forms
                             (example_auth (Some (lit "n-1")))))
               (lit "n-1")); [reflexivity | reflexivity | discriminate].
  - rewrite (proj1 (proj2 (proj2 (buildDeviceAuthPayload_forms
                                    (example_auth None))))); reflexivity.
Defined.

End CodecFacts.

(* ===================================================================== *)
(** * Properties of the store *)
(* ===================================================================== *)

Section StoreFacts.
Import Store.

Variable JSON_parse : jsstring -> completion value.

Lemma getDeviceId_keeps_state (uuid : jsstring) (ls : gmap string jsstring) :
  (getDeviceId uuid ls).2 !! STORAGE_KEY = ls !! STORAGE_KEY.
Proof.
  unfold getDeviceId.
  destruct (ls !! DEVICE_KEY) as [[|c id]|]; simpl; try done;
    by rewrite lookup_insert_ne.
Qed.

Lemma defaultState_connection (id : jsstring) :
  defaultState id !! "connection" = Some (VObj defaultConnection).
Proof. reflexivity. Qed.

Lemma loadState_connection (dflt : gmap string value) (uuid : jsstring)
  (ls : gmap string jsstring) :
  dflt !! "connection" = Some (VObj defaultConnection) ->
  (loadState JSON_parse dflt uuid ls).1 !! "connection"
  = Some (VObj defaultConnection).
Proof.
  intros Hd. unfold loadState, spread.
  destruct (ls !! STORAGE_KEY) as [[|c saved]|]; simpl;
    try (by rewrite (right_id_L ∅ (∪))).
  destruct (JSON_parse (c :: saved)) as [parsed|err]; simpl;
    [|by rewrite (right_id_L ∅ (∪))].
  destruct (getDeviceId uuid ls) as [id ls']; simpl.
  rewrite lookup_insert_ne by done. rewrite lookup_insert_eq.
  by rewrite (right_id_L ∅ (∪)).
Qed.

Lemma loadState_restores (dflt : gmap string value) (uuid : jsstring)
  (ls : gmap string jsstring) (c : char16) (saved : jsstring)
  (parsed : gmap string value) (k : string) (v : value) :
  ls !! STORAGE_KEY = Some (c :: saved) ->
  JSON_parse (c :: saved) = Return (VObj parsed) ->
  k <> "connection" -> k <> "deviceId" ->
  parsed !! k = Some v ->
  (loadState JSON_parse dflt uuid ls).1 !! k = Some v.
Proof.
  intros Hls Hparse Hk1 Hk2 Hv. unfold loadState, spread.
  rewrite Hls, Hparse; simpl.
  destruct (getDeviceId uuid ls) as [id ls']; simpl.
  rewrite !lookup_insert_ne by done.
  by apply lookup_union_Some_l.
Qed.

End StoreFacts.

(** C10: [saveState] writes the state without its [connection] property
    (every other property is written as it is), and whatever the storage
    holds, the state a restart loads has the default connection, state
    "DISCONNECTED" and error [null]; when the saved text parses back to
    the object that was written, every other property that was saved
    ([settings], [tasks], [pendingQueue]) is restored with the value it
    had, whatever the connection was at shutdown. *)
Theorem connection_never_persisted
  (JSON_stringify : value -> jsstring)
  (JSON_parse : jsstring -> completion value)
  (st : gmap string value) (ls : gmap string jsstring) (uuid : jsstring) :
  let written := JSON_stringify (VObj (Store.persistable st)) in
  let ls' := Store.saveState JSON_stringify st ls in
  ls' !! Store.STORAGE_KEY = Some written
  /\ Store.persistable st !! "connection" = None
  /\ (forall k, k <> "connection" -> Store.persistable st !! k = st !! k)
  /\ (forall ls0 : gmap string jsstring,
        (Store.boot JSON_parse uuid ls0).1 !! "connection"
        = Some (VObj Store.defaultConnection))
  /\ Store.defaultConnection !! "state" = Some (VStr (lit "DISCONNECTED"))
  /\ Store.defaultConnection !! "error" = Some VNull
  /\ (written <> [] ->
      JSON_parse written = Return (VObj (Store.persistable st)) ->
      forall k v, k <> "connection" -> k <> "deviceId" ->
        st !! k = Some v ->
        (Store.boot JSON_parse uuid ls').1 !! k = Some v).
Proof.
  intros written ls'.
  split; [|split; [|split; [|split; [|split; [|split]]]]].
  - unfold ls', Store.saveState. by rewrite lookup_insert_eq.
  - unfold Store.persistable. by rewrite lookup_delete_eq.
  - intros k Hk. unfold Store.persistable. by rewrite lookup_delete_ne.
  - intros ls0. unfold Store.boot.
    destruct (Store.getDeviceId uuid ls0) as [id ls1].
    apply loadState_connection, defaultState_connection.
  - reflexivity.
  - reflexivity.
  - intros Hne Hparse k v Hk1 Hk2 Hv. unfold Store.boot.
    destruct (Store.getDeviceId uuid ls') as [id ls1] eqn:Hid.
    assert (Hsaved : ls1 !! Store.STORAGE_KEY = Some written).
    { change ls1 with (id, ls1).2. rewrite <- Hid.
      rewrite getDeviceId_keeps_state.
      unfold ls', Store.saveState. by rewrite lookup_insert_eq. }
    destruct written as [|c saved] eqn:Hw; [done|].
    eapply loadState_restores; eauto.
    unfold Store.persistable. by rewrite lookup_delete_ne.
Qed.

Lemma connection_never_persisted_witness :
  let ls' := Store.saveState Store.codec_stringify demo_state ∅ in
  let st' := (Store.boot Store.codec_parse (lit "uuid-1") ls').1 in
  demo_state !! "connection"
  = Some (Store.obj [("state", VStr (lit "CONNECTED")); ("error", VNull)])
  /\ st' !! "connection" = Some (VObj Store.defaultConnection)
  /\ st' !! "settings" = demo_state !! "settings"
  /\ st' !! "tasks" = demo_state !! "tasks"
  /\ st' !! "pendingQueue" = demo_state !! "pendingQueue".
Proof.
  pose proof (connection_never_persisted Store.codec_stringify
                Store.codec_parse demo_state ∅ (lit "uuid-1"))
    as (_ & _ & _ & Hconn & _ & _ & Hrest).
  assert (Hne : Store.codec_stringify (VObj (Store.persistable demo_state)) <> [])
    by (vm_compute; discriminate).
  assert (Hrt : Store.codec_parse
                  (Store.codec_stringify (VObj (Store.persistable demo_state)))
                = Return (VObj (Store.persistable demo_state)))
    by (vm_compute; reflexivity).
  intros ls' st'. split; [reflexivity|]. split; [apply Hconn|].
  split; [|split].
  - exact (Hrest Hne Hrt "settings" _ ltac:(discriminate) ltac:(discriminate)
                 eq_refl).
  - exact (Hrest Hne Hrt "tasks" _ ltac:(discriminate) ltac:(discriminate)
                 eq_refl).
  - exact (Hrest Hne Hrt "pendingQueue" _ ltac:(discriminate)
                 ltac:(discriminate) eq_refl).
Defined.

(* ===================================================================== *)
(** * Properties of the reconnection backoff *)
(* ===================================================================== *)

Section BackoffFacts.
Local Open Scope Z_scope.

Lemma backoff_range (n : nat) : RECONNECT_BASE <= backoff n <= RECONNECT_CAP.
Proof.
  unfold backoff, RECONNECT_BASE, RECONNECT_CAP.
  assert (1 <= 2 ^ Z.of_nat n) by (apply Z.pow_le_mono_r with (b := 0); lia).
  lia.
Qed.

Lemma backoff_zero : backoff 0 = RECONNECT_BASE.
Proof. reflexivity. Qed.

Lemma pow2_succ (n : nat) : 2 ^ Z.of_nat (S n) = 2 * 2 ^ Z.of_nat n.
Proof. rewrite Nat2Z.inj_succ, Z.pow_succ_r; lia. Qed.

Lemma backoff_mono (n : nat) : backoff n <= backoff (S n).
Proof.
  unfold backoff. rewrite pow2_succ.
  assert (0 < 2 ^ Z.of_nat n) by (apply Z.pow_pos_nonneg; lia).
  unfold RECONNECT_BASE, RECONNECT_CAP. lia.
Qed.

(** Below the cap a delay is at most 16000, and 1.3 times it does not
    exceed the next backoff. *)
Lemma backoff_below_cap (n : nat) :
  backoff n < RECONNECT_CAP -> 13 * backoff n <= 10 * backoff (S n).
Proof.
  unfold backoff. rewrite pow2_succ.
  unfold RECONNECT_BASE, RECONNECT_CAP. intros Hlt.
  destruct (le_lt_dec n 4) as [Hn|Hn].
  - do 5 (destruct n as [|n]; [simpl; lia|]). lia.
  - assert (2 ^ 5 <= 2 ^ Z.of_nat n) by (apply Z.pow_le_mono_r; lia).
    change (2 ^ 5) with 32 in *. lia.
Qed.

Lemma jittered_bounds (base : Z) (r : Q) :
  0 <= base -> (0 <= r)%Q -> (r < 1)%Q ->
  (inject_Z base <= jittered base r)%Q
  /\ (jittered base r <= inject_Z base + (3 # 10) * inject_Z base)%Q.
Proof.
  intros Hb Hr0 Hr1. unfold jittered.
  assert (Hq : (0 <= inject_Z base)%Q).
  { change 0%Q with (inject_Z 0). by rewrite <- Zle_Qle. }
  split; nra.
Qed.

Lemma jittered_step (n : nat) (r1 r2 : Q) :
  backoff n < RECONNECT_CAP ->
  (0 <= r1)%Q -> (r1 < 1)%Q -> (0 <= r2)%Q -> (r2 < 1)%Q ->
  (jittered (backoff n) r1 <= jittered (backoff (S n)) r2)%Q.
Proof.
  intros Hlt H1 H1' H2 H2'.
  pose proof (backoff_range n) as [Hn _].
  pose proof (backoff_range (S n)) as [Hs _].
  unfold RECONNECT_BASE in *.
  destruct (jittered_bounds (backoff n) r1) as [_ Hup]; [lia | done | done |].
  destruct (jittered_bounds (backoff (S n)) r2) as [Hlow _]; [lia | done | done |].
  pose proof (backoff_below_cap n Hlt) as Hz.
  assert (Hq : (inject_Z 13 * inject_Z (backoff n)
                <= inject_Z 10 * inject_Z (backoff (S n)))%Q).
  { rewrite <- !inject_Z_mult. by rewrite <- Zle_Qle. }
  change (inject_Z 13) with 13%Q in Hq. change (inject_Z 10) with 10%Q in Hq.
  lra.
Qed.

(** Once the cap is reached only the jitter varies: the sixth delay can
    be 34500 and the seventh 30000. *)
Lemma jittered_at_cap :
  (jittered (backoff 6) 0 < jittered (backoff 5) (1 # 2))%Q.
Proof. reflexivity. Qed.

End BackoffFacts.

(* ===================================================================== *)
(** * Properties of the connection engine *)
(* ===================================================================== *)

Lemma eq_lit_Some (x : jsstring) (s : string) :
  eq_lit (Some x) s = str_eqb x (lit s).
Proof.
  unfold eq_lit, str_eqb. apply bool_decide_ext. split; congruence.
Qed.

Section ConnectionFacts.
Import Connection.

(** Reading a field of a state built by the setters. *)
Tactic Notation "fields" :=
  cbn beta iota zeta delta
    [
      ws heartbeatTimer reconnectTimer connectTimer reconnectAttempt
      authenticated connectSent currentAuthToken connectId
      challengeNonce deviceIdentity lastTick conn_state conn_error
      pendingQueue settings timers next_timer wire emitted signing
      set_ws set_heartbeatTimer set_reconnectTimer set_connectTimer
      set_reconnectAttempt set_authenticated set_connectSent
      set_currentAuthToken set_connectId set_challengeNonce
      set_deviceIdentity set_lastTick set_conn_state set_conn_error
      set_pendingQueue set_settings set_timers set_next_timer set_wire
      set_emitted set_signing
      setState setTimer clearTimer fst snd ].
Tactic Notation "fields" "in" hyp(H) :=
  cbn beta iota zeta delta
    [
      ws heartbeatTimer reconnectTimer connectTimer reconnectAttempt
      authenticated connectSent currentAuthToken connectId
      challengeNonce deviceIdentity lastTick conn_state conn_error
      pendingQueue settings timers next_timer wire emitted signing
      set_ws set_heartbeatTimer set_reconnectTimer set_connectTimer
      set_reconnectAttempt set_authenticated set_connectSent
      set_currentAuthToken set_connectId set_challengeNonce
      set_deviceIdentity set_lastTick set_conn_state set_conn_error
      set_pendingQueue set_settings set_timers set_next_timer set_wire
      set_emitted set_signing
      setState setTimer clearTimer fst snd ] in H.

(** What [cleanup] resets and what it leaves alone. *)
Lemma cleanup_fields (e : Engine) :
  let e' := cleanup e in
  ws e' = None /\ heartbeatTimer e' = None /\ reconnectTimer e' = None
  /\ connectTimer e' = None /\ authenticated e' = false
  /\ connectSent e' = false /\ connectId e' = None
  /\ reconnectAttempt e' = reconnectAttempt e
  /\ conn_state e' = conn_state e /\ conn_error e' = conn_error e
  /\ pendingQueue e' = pendingQueue e /\ settings e' = settings e
  /\ deviceIdentity e' = deviceIdentity e /\ next_timer e' = next_timer e
  /\ wire e' = wire e /\ signing e' = signing e.
Proof.
  destruct e as [w hb rc ct]. unfold cleanup, stopHeartbeat.
  destruct hb, rc, ct; simpl; repeat split; reflexivity.
Qed.

Lemma handle_challenge (n : option jsstring) (s : Settings) (h : Host)
  (e : Engine) :
  handleMessage (challenge n) s h e
  = sendConnect h (set_challengeNonce (or_null n) e).
Proof. reflexivity. Qed.

Lemma sendConnect_sent (h : Host) (e : Engine) :
  connectSent e = true -> sendConnect h e = e.
Proof. intros Hs. unfold sendConnect. by rewrite Hs. Qed.

Section Attempt.
Variables (sockid : nat) (s : Settings) (t0 : nat).
Variable w0 : list (nat * Outbound).

Lemma inv_waiting (e : Engine) (d : Q) :
  ws e = Some (mkSocket sockid WS_OPEN s) -> wire e = w0 ->
  connectSent e = false -> connectTimer e = Some t0 ->
  timers e !! t0 = Some (mkTimer T_connect d) -> signing e = [] ->
  attempt_inv sockid s t0 w0 e.
Proof.
  intros Hws Hw Hs Ht Htm Hsig. split; [exact Hws|].
  exists []. split; [by rewrite Hw, app_nil_r|].
  left. repeat split; try assumption. by exists d.
Qed.

Lemma inv_signing (e : Engine) (job : SignJob) :
  ws e = Some (mkSocket sockid WS_OPEN s) -> wire e = w0 ->
  connectSent e = true -> timers e !! t0 = None -> signing e = [job] ->
  is_Some (deviceIdentity e) ->
  attempt_inv sockid s t0 w0 e.
Proof.
  intros Hws Hw Hs Htm Hsig Hid. split; [exact Hws|].
  exists []. split; [by rewrite Hw, app_nil_r|].
  right. repeat split; try assumption. left. by exists job.
Qed.

Lemma inv_sent (e : Engine) (id : jsstring) (tok : option jsstring)
  (dev : option DeviceBlock) :
  ws e = Some (mkSocket sockid WS_OPEN s) ->
  wire e = w0 ++ [(sockid, ConnectRequest id tok dev)] ->
  connectSent e = true -> timers e !! t0 = None -> signing e = [] ->
  attempt_inv sockid s t0 w0 e.
Proof.
  intros Hws Hw Hs Htm Hsig. split; [exact Hws|].
  exists [(sockid, ConnectRequest id tok dev)]. split; [exact Hw|].
  right. repeat split; try assumption. right. split; [assumption|].
  by exists id, tok, dev.
Qed.

(** The first call of [sendConnect] in an attempt. *)
Lemma sendConnect_first (h : Host) (e : Engine) :
  ws e = Some (mkSocket sockid WS_OPEN s) -> wire e = w0 ->
  connectSent e = false -> connectTimer e = Some t0 -> signing e = [] ->
  attempt_inv sockid s t0 w0 (sendConnect h e)
  /\ connectSent (sendConnect h e) = true.
Proof.
  intros Hws Hw Hs Ht Hsig. unfold sendConnect.
  rewrite Hs. simpl. rewrite Ht. simpl.
  destruct (deviceIdentity e) as [ident|] eqn:Hid; simpl.
  - split; [|reflexivity].
    eapply inv_signing; simpl; try eassumption; try reflexivity.
    + apply lookup_delete_eq.
    + by rewrite Hsig.
    + by rewrite Hid.
  - unfold finishConnect, send; simpl. rewrite Hws; simpl.
    split; [|reflexivity].
    eapply inv_sent; simpl; try eassumption; try reflexivity.
    + by rewrite Hw.
    + apply lookup_delete_eq.
Qed.

Lemma sendConnect_inv (h : Host) (e : Engine) :
  attempt_inv sockid s t0 w0 e ->
  attempt_inv sockid s t0 w0 (sendConnect h e)
  /\ connectSent (sendConnect h e) = true.
Proof.
  intros Hinv. destruct (connectSent e) eqn:Hs.
  - by rewrite (sendConnect_sent h e Hs).
  - destruct Hinv as [Hws (new & Hw & Hc)].
    destruct Hc as [(_ & Ht & _ & Hsig & ->) | (Hs' & _)]; [|congruence].
    rewrite app_nil_r in Hw. by apply sendConnect_first.
Qed.

Lemma resumeConnect_inv (sig : jsstring) (h : Host) (e : Engine) :
  attempt_inv sockid s t0 w0 e ->
  attempt_inv sockid s t0 w0 (resumeConnect sig h e)
  /\ connectSent (resumeConnect sig h e) = connectSent e.
Proof.
  intros Hinv. pose proof Hinv as [Hws (new & Hw & Hc)]. unfold resumeConnect.
  destruct Hc as [(Hs & Ht & Htm & Hsig & ->)
                 | (Hs & Ht & [(job & Hsig & [ident Hid] & ->) | (Hsig & Hnew)])];
    rewrite Hsig; [by split | | by split].
  simpl. rewrite Hid.
  unfold finishConnect, send; simpl. rewrite Hws; simpl.
  split; [|reflexivity].
  eapply inv_sent; simpl; try eassumption; try reflexivity.
  by rewrite Hw, app_nil_r.
Qed.

Lemma handshake_step_inv (h : Host) (ev : Handshake) (e : Engine) :
  attempt_inv sockid s t0 w0 e ->
  attempt_inv sockid s t0 w0 (step h (handshake_event t0 ev) e)
  /\ (connectSent e = true \/ is_trigger ev = true ->
      connectSent (step h (handshake_event t0 ev) e) = true).
Proof.
  intros Hinv. destruct ev as [n | | sig]; simpl.
  - unfold onmessage. rewrite (inv_ws _ _ _ _ _ Hinv), handle_challenge.
    assert (Hinv' : attempt_inv sockid s t0 w0
                      (set_challengeNonce (or_null n) e)).
    { destruct Hinv as [Hws Hw]. by split. }
    destruct (sendConnect_inv h _ Hinv') as [H1 H2]. by split.
  - unfold fire. pose proof Hinv as [Hws (new & Hw & Hc)].
    destruct Hc as [(Hs & Ht & [d Htm] & Hsig & ->) | (Hs & Ht & Hrest)].
    + rewrite app_nil_r in Hw. rewrite Htm. simpl.
      destruct (sendConnect_first h (clearTimer t0 e)) as [H1 H2];
        try assumption.
      by split.
    + rewrite Ht. by split.
  - destruct (resumeConnect_inv sig h _ Hinv) as [H1 H2].
    split; [exact H1|]. intros [H|H]; [by rewrite H2 | discriminate].
Qed.

Lemma handshake_inv (trace : list (Host * Handshake)) (e : Engine) :
  attempt_inv sockid s t0 w0 e ->
  attempt_inv sockid s t0 w0 (handshake t0 trace e)
  /\ (connectSent e = true \/ (exists hev, hev ∈ trace /\ is_trigger hev.2 = true) ->
      connectSent (handshake t0 trace e) = true).
Proof.
  revert e. induction trace as [|[h ev] trace IH]; intros e Hinv.
  - split; [exact Hinv|]. intros [H|(hev & Hin & _)]; [exact H|].
    by apply elem_of_nil in Hin.
  - unfold handshake. simpl.
    destruct (handshake_step_inv h ev e Hinv) as [Hinv' Hsent].
    destruct (IH _ Hinv') as [Hfinal Hsent'].
    split; [exact Hfinal|]. intros Hor. apply Hsent'.
    destruct Hor as [H|(hev & Hin & Htrig)].
    + left. apply Hsent. by left.
    + apply elem_of_cons in Hin as [->|Hin].
      * left. apply Hsent. by right.
      * right. by exists hev.
Qed.

End Attempt.

Lemma connect_created (s : Settings) (ident : option Identity) (n : nat)
  (e : Engine) :
  connect s ident (Return n) e
  = set_ws (Some (mkSocket n WS_CONNECTING s))
      (set_deviceIdentity ident
         (set_currentAuthToken (Some (authToken s))
            (setState CONNECTING None (cleanup e)))).
Proof. reflexivity. Qed.

(** The state [onopen] leaves after [connect] created the socket. *)
Lemma opened_inv (e0 : Engine) (s : Settings) (ident : option Identity)
  (sockid : nat) :
  signing e0 = [] ->
  attempt_inv sockid s
    (next_timer e0) (wire e0)
    (onopen (connect s ident (Return sockid) e0)).
Proof.
  intros Hsig. rewrite connect_created.
  pose proof (cleanup_fields e0) as
    (_ & _ & _ & _ & _ & Hs & _ & _ & _ & _ & _ & _ & _ & Hn & Hw & Hg).
  cbv zeta in Hs, Hn, Hw, Hg. rewrite <- Hn, <- Hw.
  set (c := cleanup e0) in *. clearbody c.
  eapply inv_waiting; unfold onopen; fields.
  - reflexivity.
  - reflexivity.
  - exact Hs.
  - reflexivity.
  - apply lookup_insert_eq.
  - exact (eq_trans Hg Hsig).
Qed.

Lemma requests_since_app (w0 new : list (nat * Outbound)) (e : Engine) :
  wire e = w0 ++ new ->
  drop (length w0) (wire e) = new.
Proof. intros ->. by rewrite drop_app_length. Qed.

(** X29: in an attempt that starts when the socket opens, whatever the
    challenge events, the firing of the send-delay timer and the
    completions of the signature do and in whatever order, at most one
    frame is sent on the socket; and as soon as the challenge arrived or
    the delay elapsed, and the signature the request waits for (if a
    device identity is used) has arrived, exactly one frame was sent, and
    it is a connect request on the socket of the attempt.  The attempt
    is on its own: no signature of an earlier attempt is still pending
    at its start, and no other [connect] begins while it lasts. *)
Theorem one_connect_request (e0 : Engine) (s : Settings)
  (ident : option Identity) (sockid : nat)
  (trace : list (Host * Handshake)) :
  signing e0 = [] ->
  let opened := onopen (connect s ident (Return sockid) e0) in
  let t0 := next_timer e0 in
  let final := handshake t0 trace opened in
  let sent := drop (length (wire e0)) (wire final) in
  connectTimer opened = Some t0
  /\ (length sent <= 1)%nat
  /\ connect_requests_since (length (wire e0)) final = sent
  /\ ((exists hev, hev ∈ trace /\ is_trigger hev.2 = true) ->
      signing final = [] ->
      exists id tok dev, sent = [(sockid, ConnectRequest id tok dev)]).
Proof.
  intros Hsig opened t0 final sent.
  pose proof (opened_inv e0 s ident sockid Hsig) as Hopen.
  fold opened t0 in Hopen.
  destruct (handshake_inv sockid s t0 (wire e0) trace opened Hopen)
    as [Hfinal Hsent].
  fold final in Hfinal, Hsent.
  destruct Hopen as [_ (new0 & _ & Hc0)].
  destruct Hfinal as [_ (new & Hw & Hc)].
  assert (Hnew : sent = new) by (by apply requests_since_app).
  unfold connect_requests_since. fold sent. rewrite Hnew. clear Hnew sent Hw.
  split.
  { destruct Hc0 as [(_ & Ht & _) | (Hs & _)]; [exact Ht|].
    exfalso. revert Hs. unfold opened. rewrite connect_created.
    pose proof (cleanup_fields e0) as (_ & _ & _ & _ & _ & Hs & _).
    cbv zeta in Hs. set (c := cleanup e0) in *. clearbody c.
    unfold onopen. fields. fields in Hs. intros Hs'. rewrite Hs in Hs'. discriminate. }
  destruct Hc as [(Hs & _ & _ & _ & ->)
                 | (Hs & _ & [(job & Hjob & _ & ->)
                             | (_ & id & tok & dev & ->)])].
  - repeat split; [simpl; lia|]. intros Htrig _.
    rewrite Hsent in Hs by (by right). discriminate.
  - repeat split; [simpl; lia|]. intros _ Hdone.
    rewrite Hjob in Hdone. discriminate.
  - repeat split; [simpl; lia|]. intros _ _. by exists id, tok, dev.
Qed.

(** C1: the guard [connectSent] does not keep an attempt to one connect
    request when [sendConnect] of an earlier attempt is still waiting for
    its signature.  [cleanup] resets the guard but the waiting call goes
    on: in [stale_signature_run] the second attempt runs [sendConnect]
    itself, and both calls send their request on the second socket.  The
    first socket carried none. *)
Theorem stale_signature_sends_twice :
  let final := run stale_signature_run (initial sample_settings) in
  ws final = Some (mkSocket 8 WS_OPEN sample_settings)
  /\ signing final = []
  /\ connect_requests_since 0 final = wire final
  /\ wire final
     = [ (8%nat, ConnectRequest [69%N] (Some (lit "tok"))
                   (Some (mkDevice (lit "ab12") (lit "pk") (lit "sig-1")
                            1700000000000%N (Some (lit "n-2")))));
         (8%nat, ConnectRequest [70%N] (Some (lit "tok"))
                   (Some (mkDevice (lit "ab12") (lit "pk") (lit "sig-2")
                            1700000000000%N (Some (lit "n-2"))))) ].
Proof. vm_compute. repeat split; reflexivity. Qed.

(** ** The backoff and the queue along the steps *)

Lemma same_backoff_trans (e1 e2 e3 : Engine) :
  same_backoff e1 e2 -> same_backoff e2 e3 -> same_backoff e1 e3.
Proof. intros [H1 H2] [H3 H4]. split; congruence. Qed.

Lemma untouched_trans (e1 e2 e3 : Engine) :
  untouched e1 e2 -> untouched e2 e3 -> untouched e1 e3.
Proof.
  intros [H1 H2] [H3 H4].
  split; [by eapply same_backoff_trans | congruence].
Qed.

Lemma send_untouched (f : Outbound) (e : Engine) : untouched e (send f e).2.
Proof.
  unfold send. destruct (ws e) as [sock|]; [|done].
  by destruct (readyState sock).
Qed.

Lemma finishConnect_untouched (d : option DeviceBlock) (h : Host)
  (e : Engine) :
  untouched e (finishConnect d h e).
Proof.
  unfold finishConnect.
  exact (send_untouched _ (set_connectId (Some (randomUUID h 0)) e)).
Qed.

Lemma sendConnect_untouched (h : Host) (e : Engine) :
  untouched e (sendConnect h e).
Proof.
  unfold sendConnect. destruct (connectSent e); [done|]. simpl.
  destruct (connectTimer e) as [t|]; simpl;
    destruct (deviceIdentity e) as [i|]; try done.
  - exact (finishConnect_untouched None h
             (set_connectTimer None (clearTimer t (set_connectSent true e)))).
  - exact (finishConnect_untouched None h (set_connectSent true e)).
Qed.

Lemma resumeConnect_untouched (sig : jsstring) (h : Host) (e : Engine) :
  untouched e (resumeConnect sig h e).
Proof.
  unfold resumeConnect. destruct (signing e) as [|job jobs]; [done|].
  destruct (deviceIdentity (set_signing jobs e)) as [ident|]; [|done].
  exact (finishConnect_untouched _ h (set_signing jobs e)).
Qed.

Lemma emit_untouched (ev : jsstring) (f : Frame) (h : Host) (e : Engine) :
  untouched e (emit ev f h e) /\ wire (emit ev f h e) = wire e.
Proof.
  unfold emit. destruct (str_eqb ev (lit "tick")); [|done].
  by destruct (lastTick _).
Qed.

Lemma stopHeartbeat_untouched (e : Engine) :
  untouched e (stopHeartbeat e)
  /\ ws (stopHeartbeat e) = ws e /\ wire (stopHeartbeat e) = wire e.
Proof. unfold stopHeartbeat. by destruct (heartbeatTimer e). Qed.

Lemma startHeartbeat_untouched (h : Host) (e : Engine) :
  untouched e (startHeartbeat h e)
  /\ ws (startHeartbeat h e) = ws e /\ wire (startHeartbeat h e) = wire e.
Proof.
  unfold startHeartbeat.
  pose proof (stopHeartbeat_untouched e) as ([[H1 H2] H3] & H4 & H5).
  set (c := stopHeartbeat e) in *. clearbody c. done.
Qed.

Lemma cleanup_untouched (e : Engine) : untouched e (cleanup e).
Proof.
  pose proof (cleanup_fields e) as (_&_&_&_&_&_&_& H1 & H2 &_& H3 &_).
  done.
Qed.

Lemma flush_items_same (k : jsstring) (h : Host) (items : list QueueItem)
  (n : nat) (e : Engine) :
  same_backoff e (flush_items k h n items e).
Proof.
  revert n e. induction items as [|i items IH]; intros n e; simpl; [done|].
  pose proof (send_untouched (ChatSend (randomUUID h n) k (text i)
                                (idempotencyKey i)) e) as [Hs _].
  destruct (send _ e) as [sent e']. simpl in Hs.
  eapply same_backoff_trans; [|apply IH].
  destruct sent; [|exact Hs]. destruct Hs. by split.
Qed.

Lemma flushQueue_same (s : Settings) (h : Host) (e : Engine) :
  same_backoff e (flushQueue s h e).
Proof.
  unfold flushQueue. destruct (pendingQueue e); [done|].
  apply flush_items_same.
Qed.

(** What [scheduleReconnect] leaves behind. *)
Lemma scheduleReconnect_fields (s : Settings) (h : Host) (e : Engine) :
  let e' := scheduleReconnect s h e in
  conn_state e' = RECONNECTING /\ conn_error e' = None
  /\ reconnectAttempt e' = S (reconnectAttempt e)
  /\ reconnectTimer e' = Some (next_timer e)
  /\ timers e' !! next_timer e
     = Some (mkTimer (T_reconnect s)
               (jittered (backoff (reconnectAttempt e)) (random h)))
  /\ ws e' = ws e /\ pendingQueue e' = pendingQueue e.
Proof.
  unfold scheduleReconnect, getReconnectDelay. fields.
  repeat split. apply lookup_insert_eq.
Qed.

Lemma untouched_quiet (e e' : Engine) : untouched e e' -> quiet e e'.
Proof. intros [[H1 H2] H3]. split; [done|]. split; [by left|done]. Qed.

Lemma connect_quiet (s : Settings) (ident : option Identity)
  (sock : completion nat) (e : Engine) :
  quiet e (connect s ident sock e).
Proof.
  unfold connect. pose proof (cleanup_untouched e) as [[H1 H2] H3].
  set (c := cleanup e) in *. clearbody c.
  destruct sock; fields; (split; [exact H1|]); (split; [auto|exact H3]).
Qed.

Lemma scheduleReconnect_after_cleanup (s : Settings) (h : Host)
  (e c : Engine) :
  untouched e c -> rescheduled h e (scheduleReconnect s h c).
Proof.
  intros [[Hc _] Hq].
  pose proof (scheduleReconnect_fields s h c)
    as (H1 & _ & H3 & H4 & H5 & _ & H7).
  cbv zeta in *. rewrite Hc in H3, H5. rewrite Hq in H7.
  split; [exact H3|]. split; [exact H1|]. split; [exact H7|].
  by exists (next_timer c), s.
Qed.

Lemma handleMessage_backoff (frame : Inbound) (s : Settings) (h : Host)
  (e : Engine) :
  quiet e (handleMessage frame s h e)
  \/ connected h e (handleMessage frame s h e).
Proof.
  destruct frame as [|f id_null odd]; [left; by apply untouched_quiet|].
  unfold handleMessage.
  destruct (eq_lit (ftype f) "event" && eq_lit (fevent f) "connect.challenge").
  { left. apply untouched_quiet.
    exact (sendConnect_untouched h
             (set_challengeNonce (or_null (fnonce f)) e)). }
  destruct (eq_lit (ftype f) "res" && _).
  - destruct (negb _ && negb _).
    + right.
      set (e1 := setState CONNECTED None
                   (set_reconnectAttempt 0 (set_authenticated true e))).
      pose proof (startHeartbeat_untouched h e1) as ([[H2a H2b] H2c] & Hw & Hwi).
      pose proof (flushQueue_same s h (startHeartbeat h e1)) as [H3a H3b].
      pose proof (emit_untouched (lit "connected") f h
                    (flushQueue s h (startHeartbeat h e1)))
        as ([[H4a H4b] H4c] & H4w).
      split; [rewrite H4a, H3a, H2a; reflexivity|].
      split; [rewrite H4b, H3b, H2b; reflexivity|].
      exists s, (startHeartbeat h e1). by rewrite Hw, Hwi, H2c.
    + left. cbv zeta. set (errMsg := error_message f odd). clearbody errMsg.
      destruct (str_eqb _ _).
      { split; [done|]. split; [by right; right; right|done]. }
      destruct (errMsg_includes errMsg NOT_PAIRED) as [[|]|].
      * split; [done|]. split; [by right; right; right|done].
      * pose proof (cleanup_untouched
                      (setState DISCONNECTED (Some errMsg) e))
          as [[H1 H2] H3].
        split; [exact H1|]. split; [right; left; exact H2|exact H3].
      * by apply untouched_quiet.
  - left. apply untouched_quiet.
    pose proof (emit_untouched (or_else (ftype f) (lit "message")) f h e)
      as [H1 _].
    destruct (or_null (fevent f)) as [ev|]; [|exact H1].
    eapply untouched_trans; [exact H1|apply emit_untouched].
Qed.

(** One step of the engine does one of three things to the backoff. *)
Lemma step_backoff (h : Host) (ev : Event) (e : Engine) :
  quiet e (step h ev e) \/ rescheduled h e (step h ev e)
  \/ connected h e (step h ev e).
Proof.
  destruct ev as [s ident sock | | | f | | t ident sock | sig]; simpl.
  - left. apply connect_quiet.
  - left. unfold disconnect. pose proof (cleanup_untouched e) as [[H1 H2] H3].
    split; [exact H1|]. split; [by right; left|exact H3].
  - left. apply untouched_quiet. unfold onopen. by destruct (ws e).
  - unfold onmessage. destruct (ws e) as [sock|].
    + destruct (handleMessage_backoff f (sock_settings sock) h e); auto.
    + left. by apply untouched_quiet.
  - unfold onclose. destruct (ws e) as [sock|];
      [|left; by apply untouched_quiet].
    pose proof (cleanup_untouched
                  (set_ws (Some (mkSocket (sock_id sock) WS_CLOSED
                                   (sock_settings sock))) e)) as Hc.
    set (c := cleanup _) in *. clearbody c.
    destruct (conn_state e);
      try (right; left; by apply scheduleReconnect_after_cleanup);
      left; destruct Hc as [[H1 H2] H3];
      (split; [exact H1|]); (split; [by right; left|exact H3]).
  - unfold fire. destruct (timers e !! t) as [tm|];
      [|left; by apply untouched_quiet].
    destruct (kind tm) as [|s|].
    + left. apply untouched_quiet.
      exact (sendConnect_untouched h (clearTimer t e)).
    + left. exact (connect_quiet s ident sock (clearTimer t e)).
    + destruct (lastTick e) as [tick|]; [|left; by apply untouched_quiet].
      destruct (_ >? _); [|left; by apply untouched_quiet].
      right; left. apply scheduleReconnect_after_cleanup.
      apply cleanup_untouched.
  - left. apply untouched_quiet. apply resumeConnect_untouched.
Qed.





Lemma filter_all {A} (P : A -> Prop) `{forall x, Decision (P x)}
  (l : list A) :
  (forall x, x ∈ l -> P x) -> filter P l = l.
Proof.
  induction l as [|x l IH]; intros Hall; [done|].
  rewrite filter_cons_True by (apply Hall; left).
  f_equal. apply IH. intros y Hy. apply Hall. by right.
Qed.

Lemma filter_none {A} (P : A -> Prop) `{forall x, Decision (P x)}
  (l : list A) :
  (forall x, x ∈ l -> ~ P x) -> filter P l = [].
Proof.
  induction l as [|x l IH]; intros Hall; [done|].
  rewrite filter_cons_False by (apply Hall; left).
  apply IH. intros y Hy. apply Hall. by right.
Qed.

(** [flush_items] on an open socket sends every item and removes from
    the queue every item that has the key of an item it sent. *)
Lemma flush_items_open (k : jsstring) (h : Host) (sock : Socket)
  (items : list QueueItem) (n : nat) (e : Engine) :
  ws e = Some sock -> readyState sock = WS_OPEN ->
  let e' := flush_items k h n items e in
  wire e' = wire e ++ imap (fun i => chat_of k h (sock_id sock) (n + i)) items
  /\ pendingQueue e'
     = filter (fun q => idempotencyKey q ∉ idempotencyKey <$> items)
              (pendingQueue e).
Proof.
  intros Hws Hopen. revert n e Hws.
  induction items as [|item items IH]; intros n e Hws; simpl.
  - split; [by rewrite app_nil_r|].
    symmetry. apply filter_all. intros q _. apply not_elem_of_nil.
  - unfold send. rewrite Hws, Hopen. simpl.
    set (e1 := set_pendingQueue _ _).
    destruct (IH (S n) e1 Hws) as [Hw Hq]. cbv zeta in Hw, Hq.
    rewrite Hw, Hq. unfold e1. fields. split.
    + rewrite <- app_assoc. f_equal. simpl.
      rewrite Nat.add_0_r. f_equal. apply imap_ext. intros i x _. simpl.
      by rewrite Nat.add_succ_r.
    + unfold dequeue. rewrite list_filter_filter. apply list_filter_iff.
      intros q. rewrite not_elem_of_cons. tauto.
Qed.

Lemma flush_items_closed (k : jsstring) (h : Host) (items : list QueueItem)
  (n : nat) (e : Engine) :
  (forall sock, ws e = Some sock -> readyState sock <> WS_OPEN) ->
  flush_items k h n items e = e.
Proof.
  intros Hclosed. revert n.
  induction items as [|item items IH]; intros n; simpl; [done|].
  unfold send. destruct (ws e) as [sock|] eqn:Hws; [|apply IH].
  destruct (readyState sock) eqn:Hr; try apply IH.
  by destruct (Hclosed sock).
Qed.

Lemma filter_own_keys (q : list QueueItem) :
  filter (fun i => idempotencyKey i ∉ idempotencyKey <$> q) q = [].
Proof.
  apply filter_none. intros i Hin Hnot.
  apply Hnot. by apply list_elem_of_fmap_2.
Qed.

Lemma flushQueue_open (s : Settings) (h : Host) (sock : Socket) (e : Engine) :
  ws e = Some sock -> readyState sock = WS_OPEN ->
  pendingQueue (flushQueue s h e) = []
  /\ wire (flushQueue s h e)
     = wire e ++ imap (chat_of (Protocol.getSessionKey (agentId s)) h
                               (sock_id sock)) (pendingQueue e).
Proof.
  intros Hws Hopen. unfold flushQueue.
  destruct (pendingQueue e) as [|item items] eqn:Hq.
  - by rewrite Hq, app_nil_r.
  - destruct (flush_items_open (Protocol.getSessionKey (agentId s)) h sock
                (item :: items) 0 e Hws Hopen) as [Hw Hp].
    cbv zeta in Hw, Hp. rewrite Hw, Hp, Hq. split; [apply filter_own_keys|].
    done.
Qed.

Lemma flushQueue_closed (s : Settings) (h : Host) (e : Engine) :
  (forall sock, ws e = Some sock -> readyState sock <> WS_OPEN) ->
  flushQueue s h e = e.
Proof.
  intros Hclosed. unfold flushQueue. destruct (pendingQueue e); [done|].
  by apply flush_items_closed.
Qed.

(** An item that leaves the queue in a step was sent in that step. *)
Lemma removed_was_sent (h : Host) (ev : Event) (e : Engine)
  (item : QueueItem) :
  item ∈ pendingQueue e -> item ∉ pendingQueue (step h ev e) ->
  exists sockid id sessionKey,
    (sockid, ChatSend id sessionKey (text item) (idempotencyKey item))
    ∈ drop (length (wire e)) (wire (step h ev e)).
Proof.
  intros Hin Hout.
  destruct (step_backoff h ev e)
    as [(_ & _ & Hq) | [(_ & _ & Hq & _) | (_ & _ & s & e1 & H)]];
    [by rewrite Hq in Hout | by rewrite Hq in Hout |].
  destruct H as (Hws & Hwire & Hq1 & Hq & Hw).
  rewrite Hq in Hout. rewrite Hw. clear Hq Hw.
  destruct (ws e1) as [sock|] eqn:Hsock.
  - destruct (decide (readyState sock = WS_OPEN)) as [Hopen|Hclosed].
    + destruct (flushQueue_open s h sock e1 Hsock Hopen) as [_ Hsent].
      rewrite Hsent, <- Hwire, drop_app_length, Hq1.
      apply list_elem_of_lookup in Hin as [i Hi].
      exists (sock_id sock), (randomUUID h i),
             (Protocol.getSessionKey (agentId s)).
      by apply (elem_of_lookup_imap_2
                  (chat_of (Protocol.getSessionKey (agentId s)) h
                           (sock_id sock)) _ item i).
    + rewrite flushQueue_closed, Hq1 in Hout; [done|].
      intros sock' Hs'. rewrite Hsock in Hs'. by injection Hs' as <-.
  - rewrite flushQueue_closed, Hq1 in Hout; [done|].
    intros sock' Hs'. by rewrite Hsock in Hs'.
Qed.

Lemma reconnect_delays_from (s : Settings) (hs : list Host) (e : Engine) :
  reconnect_delays s hs e
  = imap (fun i h => jittered (backoff (reconnectAttempt e + i)) (random h)) hs.
Proof.
  revert e. induction hs as [|h hs IH]; intros e; [done|].
  pose proof (scheduleReconnect_fields s h e) as (_ & _ & Hn & _).
  cbv zeta in Hn.
  cbn [reconnect_delays]. rewrite imap_cons, IH, Hn, Nat.add_0_r.
  f_equal. apply imap_ext. intros i h' _. unfold compose.
  f_equal. f_equal. lia.
Qed.

(** C2: the delay of a reconnect is min(1000 * 2^n, 30000) for the
    attempt counter n, plus a jitter between 0 and 30% of that value (the
    random number being in [0, 1)); every step of the engine leaves the
    counter alone, or schedules a reconnect with that delay and adds one
    to the counter, or enters CONNECTED and sets the counter to zero, and
    the state becomes CONNECTED or RECONNECTING in no other way; the
    un-jittered delay never decreases from one attempt to the next and
    never exceeds the cap, the jittered delay does not decrease as long as
    the cap is not reached, and with the counter at zero consecutive
    reconnects are delayed by 1000, 2000, 4000, ... each with its jitter,
    the first one by at least 1000 and less than 1300. *)
Theorem reconnect_backoff (e : Engine) (s : Settings) (h : Host) :
  (0 <= random h)%Q -> (random h < 1)%Q ->
  let n := reconnectAttempt e in
  let d := getReconnectDelay h e in
  backoff n = Z.min (1000 * 2 ^ Z.of_nat n) 30000
  /\ (exists jitter : Q,
        d = (inject_Z (backoff n) + jitter)%Q
        /\ (0 <= jitter)%Q /\ (jitter <= (3 # 10) * inject_Z (backoff n))%Q)
  /\ (forall h' ev,
        quiet e (step h' ev e) \/ rescheduled h' e (step h' ev e)
        \/ connected h' e (step h' ev e))
  /\ (forall h' ev,
        conn_state e <> CONNECTED -> conn_state (step h' ev e) = CONNECTED ->
        reconnectAttempt (step h' ev e) = 0%nat)
  /\ (forall h' ev,
        conn_state e <> RECONNECTING ->
        conn_state (step h' ev e) = RECONNECTING ->
        reconnectAttempt (step h' ev e) = S n)
  /\ reconnectAttempt (scheduleReconnect s h e) = S n
  /\ backoff n <= backoff (S n) <= RECONNECT_CAP
  /\ (backoff n < RECONNECT_CAP ->
      forall h2, (0 <= random h2)%Q -> (random h2 < 1)%Q ->
        (d <= getReconnectDelay h2 (scheduleReconnect s h e))%Q)
  /\ (forall hs,
        reconnect_delays s hs e
        = imap (fun i h' => jittered (backoff (n + i)) (random h')) hs)
  /\ (n = 0%nat ->
      backoff n = RECONNECT_BASE
      /\ (inject_Z RECONNECT_BASE <= d)%Q /\ (d < 1300)%Q).
Proof.
  intros Hr0 Hr1 n d.
  pose proof (backoff_range n) as [Hlo Hhi].
  pose proof (scheduleReconnect_fields s h e) as (_ & _ & Hn & _).
  cbv zeta in Hn. fold n in Hn.
  assert (Hb : (0 <= inject_Z (backoff n))%Q).
  { change 0%Q with (inject_Z 0). rewrite <- Zle_Qle.
    unfold RECONNECT_BASE in Hlo. lia. }
  split; [reflexivity|]. split.
  { exists (inject_Z (backoff n) * (3 # 10) * random h)%Q.
    split; [reflexivity|]. split; nra. }
  split; [intros h' ev; apply step_backoff|]. split; [|split].
  - intros h' ev Hne Hc.
    destruct (step_backoff h' ev e)
      as [(_ & Hst & _) | [(_ & Hst & _) | (Hz & _)]]; [| congruence | exact Hz].
    destruct Hst as [Hst | [Hst | [Hst | Hst]]]; congruence.
  - intros h' ev Hne Hc.
    destruct (step_backoff h' ev e)
      as [(_ & Hst & _) | [(Hs & _) | (_ & Hst & _)]];
      [| exact Hs | congruence].
    destruct Hst as [Hst | [Hst | [Hst | Hst]]]; congruence.
  - split; [exact Hn|]. split.
    { split; [apply backoff_mono | apply backoff_range]. }
    split.
    { intros Hlt h2 H0 H1. unfold d, getReconnectDelay. rewrite Hn.
      by apply jittered_step. }
    split; [intros hs; apply reconnect_delays_from|].
    intros Hz. unfold d, getReconnectDelay. fold n. rewrite Hz.
    rewrite backoff_zero. split; [reflexivity|].
    unfold jittered, RECONNECT_BASE. split; [|].
    + change (inject_Z 1000) with 1000%Q. nra.
    + change (inject_Z 1000) with 1000%Q. nra.
Qed.

Lemma reconnect_backoff_witness :
  let d := getReconnectDelay (host_at 65) (initial sample_settings) in
  (inject_Z RECONNECT_BASE <= d)%Q /\ (d < 1300)%Q
  /\ reconnect_delays sample_settings [host_at 65; host_at 66; host_at 67]
       (initial sample_settings)
     = [jittered 1000 (1 # 2); jittered 2000 (1 # 2); jittered 4000 (1 # 2)].
Proof.
  pose proof (reconnect_backoff (initial sample_settings) sample_settings
                (host_at 65) ltac:(discriminate) ltac:(reflexivity))
    as (_ & _ & _ & _ & _ & _ & _ & _ & Hseq & Hbase).
  destruct (Hbase eq_refl) as (_ & Hlo & Hhi).
  intros d. split; [exact Hlo|]. split; [exact Hhi|].
  rewrite Hseq. reflexivity.
Defined.


Lemma one_connect_request_witness :
  let opened :=
    onopen (connect sample_settings (Some sample_identity) (Return 7%nat)
              (initial sample_settings)) in
  exists id tok dev,
    drop 0 (wire (handshake 1 handshake_trace opened))
    = [(7%nat, ConnectRequest id tok dev)].
Proof.
  intros opened.
  pose proof (one_connect_request (initial sample_settings) sample_settings
                (Some sample_identity) 7 handshake_trace eq_refl)
    as (_ & _ & _ & Hone).
  apply Hone.
  - exists (host_at 65, Challenge (Some (lit "n-1"))).
    split; [left | reflexivity].
  - vm_compute. reflexivity.
Defined.

End ConnectionFacts.

(* ===================================================================== *)
(** * Properties of the pending-request table *)
(* ===================================================================== *)

Section RequestFacts.
Import RequestEngine.

Tactic Notation "rfields" :=
  cbn beta iota zeta delta
    [
      ws heartbeatTimer reconnectTimer reconnectAttempt pendingRequests
      conn_state conn_error pendingQueue settings timers next_timer
      promises reactions next_promise wire emitted
      set_ws set_heartbeatTimer set_reconnectTimer set_reconnectAttempt
      set_pendingRequests set_conn_state set_conn_error set_pendingQueue
      set_settings set_timers set_next_timer set_promises set_reactions
      set_next_promise set_wire set_emitted
      setState setTimer clearTimer fst snd ].
Tactic Notation "rfields" "in" hyp(H) :=
  cbn beta iota zeta delta
    [
      ws heartbeatTimer reconnectTimer reconnectAttempt pendingRequests
      conn_state conn_error pendingQueue settings timers next_timer
      promises reactions next_promise wire emitted
      set_ws set_heartbeatTimer set_reconnectTimer set_reconnectAttempt
      set_pendingRequests set_conn_state set_conn_error set_pendingQueue
      set_settings set_timers set_next_timer set_promises set_reactions
      set_next_promise set_wire set_emitted
      setState setTimer clearTimer fst snd ] in H.

(** The fields well-formedness reads. *)
Lemma wf_ext (e e' : Engine) :
  timers e' = timers e -> pendingRequests e' = pendingRequests e ->
  heartbeatTimer e' = heartbeatTimer e ->
  reconnectTimer e' = reconnectTimer e ->
  promises e' = promises e -> next_promise e' = next_promise e ->
  wf e -> wf e'.
Proof.
  intros Ht Hp Hh Hr Hpr Hn [W1 W2 W3]. split.
  - intros t tm. rewrite Ht. intros Htm. specialize (W1 t tm Htm).
    unfold held in *. destruct (kind tm); by rewrite ?Hp, ?Hh, ?Hr.
  - intros id p t. rewrite Hp, Hpr, Hn. apply W2.
  - intros id1 id2 p t1 t2. rewrite Hp. apply W3.
Qed.

Lemma wf_blank (e : Engine) :
  timers e = ∅ -> pendingRequests e = ∅ -> wf e.
Proof.
  intros Ht Hp. split.
  - intros t tm. by rewrite Ht, lookup_empty.
  - intros id p t. by rewrite Hp, lookup_empty.
  - intros id1 id2 p t1 t2. by rewrite Hp, lookup_empty.
Qed.

Lemma wf_initial (s : Settings) : wf (initial s).
Proof. by apply wf_blank. Qed.

(** Removing a timer never breaks well-formedness. *)
Lemma wf_clearTimer (t : nat) (e : Engine) : wf e -> wf (clearTimer t e).
Proof.
  intros [W1 W2 W3]. split; [|exact W2|exact W3].
  intros t' tm. unfold clearTimer. rfields. intros Htm.
  apply lookup_delete_Some in Htm as [_ Htm]. exact (W1 t' tm Htm).
Qed.

(** Removing an entry together with its timer. *)
Lemma wf_remove (id : jsstring) (entry : Pending) (e : Engine) :
  wf e -> pendingRequests e !! id = Some entry ->
  wf (set_pendingRequests (delete id (pendingRequests e))
        (clearTimer (timeout entry) e)).
Proof.
  intros [W1 W2 W3] Hid. split.
  - intros t tm. rfields. intros Htm.
    apply lookup_delete_Some in Htm as [Hne Htm].
    specialize (W1 t tm Htm). unfold held in *. rfields.
    destruct (kind tm) as [id' m p | id' | s |]; try exact W1.
    + rewrite lookup_delete_ne; [exact W1|].
      intros ->. rewrite Hid in W1. injection W1 as ->. done.
    + destruct W1 as [s W1]. exists s. rewrite lookup_delete_ne; [exact W1|].
      intros ->. rewrite Hid in W1. injection W1 as ->. done.
  - intros id' p t. rfields. intros Hp.
    apply lookup_delete_Some in Hp as [_ Hp]. exact (W2 id' p t Hp).
  - intros id1 id2 p t1 t2. rfields. intros H1 H2.
    apply lookup_delete_Some in H1 as [_ H1].
    apply lookup_delete_Some in H2 as [_ H2]. exact (W3 _ _ _ _ _ H1 H2).
Qed.

(** Settling a promise no entry waits for. *)
Lemma wf_settle (p : nat) (e e' : Engine) :
  wf e ->
  (forall id t, pendingRequests e !! id <> Some (mkPending (W_promise p) t)) ->
  timers e' = timers e -> pendingRequests e' = pendingRequests e ->
  heartbeatTimer e' = heartbeatTimer e ->
  reconnectTimer e' = reconnectTimer e ->
  next_promise e' = next_promise e ->
  (forall q, q <> p -> promises e' !! q = promises e !! q) ->
  wf e'.
Proof.
  intros [W1 W2 W3] Hfree Ht Hp Hh Hr Hn Hpr. split.
  - intros t tm. rewrite Ht. intros Htm. specialize (W1 t tm Htm).
    unfold held in *. destruct (kind tm); by rewrite ?Hp, ?Hh, ?Hr.
  - intros id q t. rewrite Hp, Hn. intros Hq.
    rewrite Hpr; [by apply (W2 id q t)|].
    intros ->. by apply (Hfree id t).
  - intros id1 id2 q t1 t2. rewrite Hp. apply W3.
Qed.

Lemma wf_resolve (p : nat) (f : Frame) (e : Engine) :
  wf e ->
  (forall id t, pendingRequests e !! id <> Some (mkPending (W_promise p) t)) ->
  wf (resolve p f e).
Proof.
  intros Hwf Hfree. unfold resolve.
  destruct (promises e !! p) as [[| |]|] eqn:Hp; try exact Hwf.
  rfields. destruct (reactions e !! p);
    (eapply (wf_settle p e); [exact Hwf | exact Hfree | done..|]);
    intros q Hq; rfields; by rewrite lookup_insert_ne.
Qed.

Lemma wf_reject (p : nat) (msg : jsstring) (e : Engine) :
  wf e ->
  (forall id t, pendingRequests e !! id <> Some (mkPending (W_promise p) t)) ->
  wf (reject p msg e).
Proof.
  intros Hwf Hfree. unfold reject.
  destruct (promises e !! p) as [[| |]|] eqn:Hp; try exact Hwf.
  eapply (wf_settle p e); [exact Hwf | exact Hfree | done..|].
  intros q Hq; rfields; by rewrite lookup_insert_ne.
Qed.

(** After an entry was removed, no entry waits for its promise. *)
Lemma removed_promise_free (id : jsstring) (p t : nat) (e : Engine) :
  wf e -> pendingRequests e !! id = Some (mkPending (W_promise p) t) ->
  forall id' t',
    delete id (pendingRequests e) !! id' <> Some (mkPending (W_promise p) t').
Proof.
  intros [_ _ W3] Hid id' t' H'.
  apply lookup_delete_Some in H' as [Hne H'].
  apply Hne. exact (W3 _ _ _ _ _ Hid H').
Qed.

(** The state [request] reaches when the frame was sent, and when not. *)
Lemma request_sent (method : jsstring) (params : Params) (h : Host)
  (n : nat) (e : Engine) (sock : Socket) :
  ws e = Some sock -> readyState sock = WS_OPEN ->
  request method params h n e
  = (next_promise e,
     set_wire (wire e ++ [(sock_id sock, Req (randomUUID h n) method params)])
       (set_pendingRequests
          (<[randomUUID h n := mkPending (W_promise (next_promise e))
                                 (next_timer e)]> (pendingRequests e))
          (set_next_timer (S (next_timer e))
             (set_timers
                (<[next_timer e :=
                     mkTimer (T_request (randomUUID h n) method
                                (next_promise e))
                       (inject_Z REQUEST_TIMEOUT)]> (timers e))
                (set_next_promise (S (next_promise e))
                   (set_promises (<[next_promise e := Waiting]> (promises e))
                      e)))))).
Proof.
  intros Hws Hopen. unfold request, send. rfields. by rewrite Hws, Hopen.
Qed.

Lemma request_unsent (method : jsstring) (params : Params) (h : Host)
  (n : nat) (e : Engine) :
  (forall sock, ws e = Some sock -> readyState sock <> WS_OPEN) ->
  request method params h n e
  = (next_promise e,
     set_promises (<[next_promise e := Rejected (lit "Not connected")]>
                     (<[next_promise e := Waiting]> (promises e)))
       (set_pendingRequests
          (delete (randomUUID h n)
             (<[randomUUID h n := mkPending (W_promise (next_promise e))
                                    (next_timer e)]> (pendingRequests e)))
          (set_timers
             (delete (next_timer e)
                (<[next_timer e :=
                     mkTimer (T_request (randomUUID h n) method
                                (next_promise e))
                       (inject_Z REQUEST_TIMEOUT)]> (timers e)))
             (set_next_timer (S (next_timer e))
                (set_next_promise (S (next_promise e)) e))))).
Proof.
  intros Hclosed. unfold request, send. rfields.
  assert (Hsend : match ws e with
                  | Some sock => match readyState sock with
                                 | WS_OPEN => true | _ => false end
                  | None => false
                  end = false).
  { destruct (ws e) as [sock|] eqn:Hws; [|done].
    destruct (readyState sock) eqn:Hr; try done. by destruct (Hclosed sock). }
  destruct (ws e) as [sock|]; [destruct (readyState sock)|];
    try discriminate Hsend; unfold reject; rfields;
    by rewrite lookup_insert_eq.
Qed.

Lemma socket_open_dec (e : Engine) :
  (exists sock, ws e = Some sock /\ readyState sock = WS_OPEN)
  \/ (forall sock, ws e = Some sock -> readyState sock <> WS_OPEN).
Proof.
  destruct (ws e) as [sock|]; [|by right].
  destruct (decide (readyState sock = WS_OPEN)) as [H|H].
  - left. by exists sock.
  - right. intros sock' [= <-]. exact H.
Qed.

Lemma wf_request (method : jsstring) (params : Params) (h : Host) (n : nat)
  (e : Engine) :
  wf e -> pendingRequests e !! randomUUID h n = None ->
  wf (request method params h n e).2.
Proof.
  intros Hwf Hfresh. pose proof Hwf as [W1 W2 W3].
  destruct (socket_open_dec e) as [(sock & Hws & Hopen) | Hclosed].
  - rewrite (request_sent _ _ _ _ _ sock Hws Hopen). split; rfields.
    + intros t tm Htm. apply lookup_insert_Some in Htm as [[<- <-] | [Hne Htm]].
      * unfold held. rfields. simpl. apply lookup_insert_eq.
      * specialize (W1 t tm Htm). unfold held in *. rfields.
        destruct (kind tm) as [id' m p | id' | s |]; try exact W1.
        -- rewrite lookup_insert_ne; [exact W1|]. intros <-. congruence.
        -- destruct W1 as [s W1]. exists s.
           rewrite lookup_insert_ne; [exact W1|]. intros <-. congruence.
    + intros id p t Hp.
      apply lookup_insert_Some in Hp as [[<- Heq] | [Hne Hp]].
      * injection Heq as <- <-. split; [apply lookup_insert_eq | lia].
      * destruct (W2 id p t Hp) as [Hw Hlt].
        split; [|lia]. rewrite lookup_insert_ne; [exact Hw | lia].
    + intros id1 id2 p t1 t2 H1 H2.
      apply lookup_insert_Some in H1 as [[<- Heq1] | [Hne1 H1]];
        apply lookup_insert_Some in H2 as [[<- Heq2] | [Hne2 H2]];
        try done.
      * injection Heq1 as <- <-. destruct (W2 id2 _ t2 H2). lia.
      * injection Heq2 as <- <-. destruct (W2 id1 _ t1 H1). lia.
      * exact (W3 _ _ _ _ _ H1 H2).
  - rewrite (request_unsent _ _ _ _ _ Hclosed). split; rfields.
    + intros t tm Htm.
      rewrite delete_insert_eq in Htm.
      apply lookup_delete_Some in Htm as [_ Htm].
      specialize (W1 t tm Htm). unfold held in *. rfields.
      rewrite delete_insert_eq, delete_id by done. exact W1.
    + intros id p t. rewrite delete_insert_eq, delete_id by done. intros Hp.
      destruct (W2 id p t Hp) as [Hw Hlt]. split; [|lia].
      rewrite !lookup_insert_ne by lia. exact Hw.
    + intros id1 id2 p t1 t2.
      rewrite delete_insert_eq, delete_id by done. apply W3.
Qed.

Lemma request_pending_other (method : jsstring) (params : Params) (h : Host)
  (n : nat) (e : Engine) (id : jsstring) :
  id <> randomUUID h n ->
  pendingRequests (request method params h n e).2 !! id
  = pendingRequests e !! id.
Proof.
  intros Hne.
  destruct (socket_open_dec e) as [(sock & Hws & Hopen) | Hclosed].
  - rewrite (request_sent _ _ _ _ _ sock Hws Hopen). rfields.
    by rewrite lookup_insert_ne.
  - rewrite (request_unsent _ _ _ _ _ Hclosed). rfields.
    by rewrite lookup_delete_ne, lookup_insert_ne.
Qed.

Lemma request_queue (method : jsstring) (params : Params) (h : Host)
  (n : nat) (e : Engine) :
  pendingQueue (request method params h n e).2 = pendingQueue e.
Proof.
  destruct (socket_open_dec e) as [(sock & Hws & Hopen) | Hclosed].
  - by rewrite (request_sent _ _ _ _ _ sock Hws Hopen).
  - by rewrite (request_unsent _ _ _ _ _ Hclosed).
Qed.

Lemma reject_waiting (p : nat) (msg : jsstring) (e : Engine) :
  promises e !! p = Some Waiting ->
  promises (reject p msg e) !! p = Some (Rejected msg).
Proof. intros Hp. unfold reject. rewrite Hp. rfields. apply lookup_insert_eq. Qed.

Lemma reject_lookup (p q : nat) (msg : jsstring) (e : Engine) :
  promises (reject p msg e) !! q = promises e !! q
  \/ (q = p /\ promises e !! q = Some Waiting
      /\ promises (reject p msg e) !! q = Some (Rejected msg)).
Proof.
  unfold reject. destruct (promises e !! p) as [[| |]|] eqn:Hp; auto.
  rfields. destruct (decide (q = p)) as [->|Hne].
  - right. by rewrite lookup_insert_eq.
  - left. by rewrite lookup_insert_ne.
Qed.

(** The fields [reject_entry] leaves alone. *)
Lemma reject_entry_frame (entry : Pending) (e : Engine) :
  let e' := reject_entry entry e in
  pendingRequests e' = pendingRequests e
  /\ heartbeatTimer e' = heartbeatTimer e
  /\ reconnectTimer e' = reconnectTimer e /\ ws e' = ws e
  /\ pendingQueue e' = pendingQueue e
  /\ reconnectAttempt e' = reconnectAttempt e /\ wire e' = wire e
  /\ timers e' = delete (timeout entry) (timers e).
Proof.
  unfold reject_entry. destruct (waiter entry) as [p|s]; [|done].
  unfold reject, clearTimer. rfields.
  by destruct (promises e !! p) as [[| |]|].
Qed.

Lemma reject_entry_promise (entry : Pending) (e : Engine) (q : nat) :
  promises (reject_entry entry e) !! q = promises e !! q
  \/ (waiter entry = W_promise q /\ promises e !! q = Some Waiting
      /\ promises (reject_entry entry e) !! q = Some (Rejected CLOSED)).
Proof.
  unfold reject_entry. destruct (waiter entry) as [p|s]; [|by left].
  destruct (reject_lookup p q CLOSED (clearTimer (timeout entry) e))
    as [H | (-> & H1 & H2)]; [by left|]. right. done.
Qed.

(** The loop of [cleanup] over the entries. *)
Lemma reject_entries (l : list (jsstring * Pending)) (e : Engine) :
  let e' := foldr (fun kv => reject_entry kv.2) e l in
  (pendingRequests e' = pendingRequests e
   /\ heartbeatTimer e' = heartbeatTimer e
   /\ reconnectTimer e' = reconnectTimer e /\ ws e' = ws e
   /\ pendingQueue e' = pendingQueue e
   /\ reconnectAttempt e' = reconnectAttempt e /\ wire e' = wire e)
  /\ (forall t tm, timers e' !! t = Some tm ->
        timers e !! t = Some tm /\ forall kv, kv ∈ l -> timeout kv.2 <> t)
  /\ (forall q, promises e !! q = Some Waiting ->
        promises e' !! q = Some Waiting
        \/ promises e' !! q = Some (Rejected CLOSED))
  /\ (forall kv q, kv ∈ l -> waiter kv.2 = W_promise q ->
        promises e !! q = Some Waiting ->
        promises e' !! q = Some (Rejected CLOSED)).
Proof.
  induction l as [|x l IH]; simpl.
  - repeat split; try done.
    + intros kv Hin. by apply elem_of_nil in Hin.
    + by left.
    + intros kv q Hin. by apply elem_of_nil in Hin.
  - destruct IH as (Hf & Ht & Hw & Hr).
    set (e1 := foldr _ e l) in *. clearbody e1.
    pose proof (reject_entry_frame x.2 e1) as (F1 & F2 & F3 & F4 & F5 & F6 & F7 & F8).
    cbv zeta in *. destruct Hf as (G1 & G2 & G3 & G4 & G5 & G6 & G7).
    split; [repeat split; congruence|]. split; [|split].
    + intros t tm. rewrite F8. intros Htm.
      apply lookup_delete_Some in Htm as [Hne Htm].
      destruct (Ht t tm Htm) as [H1 H2]. split; [exact H1|].
      intros kv Hin. apply elem_of_cons in Hin as [->|Hin]; [exact Hne|].
      by apply H2.
    + intros q Hq.
      destruct (reject_entry_promise x.2 e1 q) as [H | (_ & _ & H)];
        [rewrite H; by apply Hw | by right].
    + intros kv q Hin Hkv Hq.
      destruct (reject_entry_promise x.2 e1 q) as [H | (_ & _ & H)];
        [|exact H].
      rewrite H. apply elem_of_cons in Hin as [->|Hin].
      * destruct (Hw q Hq) as [Hq1|Hq1]; [|exact Hq1].
        exfalso. unfold reject_entry in H. rewrite Hkv in H.
        cbn beta iota in H.
        pose proof (reject_waiting q CLOSED (clearTimer (timeout x.2) e1) Hq1)
          as Hrej.
        unfold CLOSED in Hrej. congruence.
      * by apply (Hr kv).
Qed.

Lemma stopHeartbeat_fields (e : Engine) :
  let e' := stopHeartbeat e in
  heartbeatTimer e' = None
  /\ (forall t, heartbeatTimer e = Some t -> timers e' = delete t (timers e))
  /\ (heartbeatTimer e = None -> timers e' = timers e)
  /\ pendingRequests e' = pendingRequests e
  /\ reconnectTimer e' = reconnectTimer e /\ promises e' = promises e
  /\ next_promise e' = next_promise e /\ ws e' = ws e
  /\ pendingQueue e' = pendingQueue e
  /\ reconnectAttempt e' = reconnectAttempt e /\ wire e' = wire e
  /\ conn_state e' = conn_state e.
Proof.
  unfold stopHeartbeat. destruct (heartbeatTimer e) as [t|] eqn:Hh.
  - rfields. repeat split; try done. by intros t' [= <-].
  - by rewrite Hh.
Qed.

(** The loop of [cleanup], run on a state [e2] that differs from a
    well-formed [e] by the timers of the heartbeat and of the reconnect. *)
Lemma reject_all_pending (e e2 : Engine) :
  wf e -> pendingRequests e2 = pendingRequests e ->
  promises e2 = promises e ->
  (forall t tm, timers e2 !! t = Some tm ->
     timers e !! t = Some tm /\ heartbeatTimer e <> Some t
     /\ reconnectTimer e <> Some t) ->
  let e3 := foldr (fun kv => reject_entry kv.2) e2
              (map_to_list (pendingRequests e2)) in
  timers e3 = ∅
  /\ (forall id p t,
        pendingRequests e !! id = Some (mkPending (W_promise p) t) ->
        promises e3 !! p = Some (Rejected CLOSED)).
Proof.
  intros [W1 W2 W3] Hp Hpr Ht e3.
  pose proof (reject_entries (map_to_list (pendingRequests e2)) e2)
    as (_ & Ht3 & _ & Hr3).
  fold e3 in Ht3, Hr3. split.
  - apply map_empty. intros t.
    destruct (timers e3 !! t) as [tm|] eqn:Htm; [exfalso|done].
    destruct (Ht3 t tm Htm) as [Ht2 Hnot].
    destruct (Ht t tm Ht2) as (Hte & Hh & Hr).
    specialize (W1 t tm Hte). unfold held in W1.
    destruct (kind tm) as [id m p | id | s |]; try done.
    + apply (Hnot (id, mkPending (W_promise p) t)); [|done].
      apply elem_of_map_to_list. by rewrite Hp.
    + destruct W1 as [s W1].
      apply (Hnot (id, mkPending (W_connect s) t)); [|done].
      apply elem_of_map_to_list. by rewrite Hp.
  - intros id p t Hid.
    apply (Hr3 (id, mkPending (W_promise p) t) p); [|done|].
    + apply elem_of_map_to_list. by rewrite Hp.
    + rewrite Hpr. by apply (W2 id p t).
Qed.

(** What [cleanup] leaves of a well-formed state: no timer, no entry,
    and every promise an entry waited for rejected. *)
Lemma cleanup_clears (e : Engine) :
  wf e ->
  let e' := cleanup e in
  timers e' = ∅ /\ pendingRequests e' = ∅
  /\ heartbeatTimer e' = None /\ reconnectTimer e' = None /\ ws e' = None
  /\ pendingQueue e' = pendingQueue e
  /\ reconnectAttempt e' = reconnectAttempt e /\ wire e' = wire e
  /\ (forall id p t,
        pendingRequests e !! id = Some (mkPending (W_promise p) t) ->
        promises e' !! p = Some (Rejected CLOSED)).
Proof.
  intros Hwf.
  assert (Hgo : forall e2 l,
    l = map_to_list (pendingRequests e2) ->
    pendingRequests e2 = pendingRequests e -> promises e2 = promises e ->
    (forall t tm, timers e2 !! t = Some tm ->
       timers e !! t = Some tm /\ heartbeatTimer e <> Some t
       /\ reconnectTimer e <> Some t) ->
    heartbeatTimer e2 = None -> reconnectTimer e2 = None ->
    pendingQueue e2 = pendingQueue e ->
    reconnectAttempt e2 = reconnectAttempt e -> wire e2 = wire e ->
    let e' := set_ws None
                (set_pendingRequests ∅
                   (foldr (fun kv => reject_entry kv.2) e2 l)) in
    timers e' = ∅ /\ pendingRequests e' = ∅
    /\ heartbeatTimer e' = None /\ reconnectTimer e' = None /\ ws e' = None
    /\ pendingQueue e' = pendingQueue e
    /\ reconnectAttempt e' = reconnectAttempt e /\ wire e' = wire e
    /\ (forall id p t,
          pendingRequests e !! id = Some (mkPending (W_promise p) t) ->
          promises e' !! p = Some (Rejected CLOSED))).
  { intros e2 l -> Hp Hpr Ht Hh Hr Hq Ha Hw.
    destruct (reject_all_pending e e2 Hwf Hp Hpr Ht) as [Hempty Hrej].
    pose proof (reject_entries (map_to_list (pendingRequests e2)) e2)
      as ((_ & F2 & F3 & _ & F5 & F6 & F7) & _).
    cbv zeta in *. set (e3 := foldr _ e2 _) in *. clearbody e3. rfields.
    repeat split; try congruence. exact Hrej. }
  unfold cleanup, stopHeartbeat.
  destruct (heartbeatTimer e) as [hb|] eqn:Hh; rfields;
    destruct (reconnectTimer e) as [rc|] eqn:Hr; rfields;
    apply Hgo; rfields; try reflexivity; try assumption;
    intros t tm Htm;
    repeat (apply lookup_delete_Some in Htm as [? Htm]);
    (split; [exact Htm|]); split; congruence.
Qed.

Lemma wf_cleanup (e : Engine) : wf e -> wf (cleanup e).
Proof.
  intros Hwf. destruct (cleanup_clears e Hwf) as (Ht & Hp & _).
  by apply wf_blank.
Qed.

Lemma wf_setState (st : ConnectionState) (err : option jsstring)
  (e : Engine) :
  wf e -> wf (setState st err e).
Proof. by apply wf_ext. Qed.

Lemma wf_emit (ev : jsstring) (f : Frame) (e : Engine) :
  wf e -> wf (emit ev f e).
Proof. by apply wf_ext. Qed.

Lemma wf_send (f : Outbound) (e : Engine) : wf e -> wf (send f e).2.
Proof.
  unfold send. destruct (ws e) as [sock|]; [|done].
  destruct (readyState sock); try done. by apply wf_ext.
Qed.

Lemma wf_scheduleReconnect (s : Settings) (h : Host) (e : Engine) :
  timers e = ∅ -> pendingRequests e = ∅ -> wf (scheduleReconnect s h e).
Proof.
  intros Ht Hp. unfold scheduleReconnect. rfields. split; rfields.
  - intros t tm Htm. rewrite Ht in Htm.
    apply lookup_insert_Some in Htm as [[<- <-] | [_ Htm]]; [done|].
    by rewrite lookup_empty in Htm.
  - intros id p t. by rewrite Hp, lookup_empty.
  - intros id1 id2 p t1 t2. by rewrite Hp, lookup_empty.
Qed.

Lemma wf_connect (s : Settings) (sock : completion nat) (e : Engine) :
  wf e -> wf (connect s sock e).
Proof.
  intros Hwf. unfold connect. apply wf_cleanup in Hwf.
  set (c := cleanup e) in *. clearbody c.
  destruct sock; by apply (wf_ext c).
Qed.

Lemma wf_disconnect (e : Engine) : wf e -> wf (disconnect e).
Proof. intros Hwf. unfold disconnect. by apply wf_setState, wf_cleanup. Qed.

Lemma wf_startHeartbeat (e : Engine) : wf e -> wf (startHeartbeat e).
Proof.
  intros [W1 W2 W3]. unfold startHeartbeat.
  pose proof (stopHeartbeat_fields e)
    as (Hh & Ht1 & Ht2 & Hp & Hr & Hpr & Hn & _).
  cbv zeta in *. set (c := stopHeartbeat e) in *. clearbody c.
  rfields. split; rfields.
  - intros t tm Htm.
    apply lookup_insert_Some in Htm as [[<- <-] | [Hne Htm]]; [done|].
    assert (Hold : timers e !! t = Some tm /\ heartbeatTimer e <> Some t).
    { destruct (heartbeatTimer e) as [hb|] eqn:Hhb.
      - rewrite (Ht1 hb eq_refl) in Htm.
        apply lookup_delete_Some in Htm as [Hne' Htm]. split; congruence.
      - rewrite (Ht2 eq_refl) in Htm. done. }
    destruct Hold as [Hold Hnh]. specialize (W1 t tm Hold).
    unfold held in *. rfields.
    destruct (kind tm); rewrite ?Hp, ?Hr; done.
  - intros id p t. rewrite Hp, Hpr, Hn. apply W2.
  - intros id1 id2 p t1 t2. rewrite Hp. apply W3.
Qed.

Lemma wf_set_reactions (r : gmap nat jsstring) (e : Engine) :
  wf e -> wf (set_reactions r e).
Proof. by apply wf_ext. Qed.

Lemma wf_flush_items (k : jsstring) (h : Host) (items : list QueueItem)
  (n : nat) (e : Engine) :
  wf e ->
  (forall i j, randomUUID h i = randomUUID h j -> i = j) ->
  (forall i, (n <= i)%nat -> pendingRequests e !! randomUUID h i = None) ->
  wf (flush_items k h n items e).
Proof.
  intros Hwf Hinj. revert n e Hwf.
  induction items as [|item items IH]; intros n e Hwf Hfresh; simpl; [done|].
  pose proof (wf_request (lit "chat.send")
                (P_chat k (text item) (idempotencyKey item)) h n e Hwf
                (Hfresh n (le_n n))) as Hwf1.
  pose proof (fun id => request_pending_other (lit "chat.send")
                (P_chat k (text item) (idempotencyKey item)) h n e id) as Hp.
  destruct (request _ _ h n e) as [p e1]. simpl in Hwf1, Hp.
  apply IH; [by apply wf_set_reactions|].
  intros i Hi. rfields. rewrite Hp; [apply Hfresh; lia|].
  intros Heq. apply Hinj in Heq. lia.
Qed.

Lemma wf_flushQueue (s : Settings) (h : Host) (e : Engine) :
  wf e -> fresh_uuids h e -> wf (flushQueue s h e).
Proof.
  intros Hwf [Hinj Hfresh]. unfold flushQueue.
  destruct (pendingQueue e); [done|].
  apply wf_flush_items; auto.
Qed.

Lemma wf_connect_resolved (s : Settings) (f : Frame) (h : Host) (e : Engine) :
  wf e -> fresh_uuids h e -> wf (connect_resolved s f h e).
Proof.
  intros Hwf Hfresh. unfold connect_resolved.
  destruct (fresult f && _).
  - apply wf_emit, wf_flushQueue.
    + by apply wf_startHeartbeat, wf_setState, (wf_ext e).
    + pose proof (stopHeartbeat_fields
                    (setState CONNECTED None (set_reconnectAttempt 0 e)))
        as (_ & _ & _ & Hp & _).
      destruct Hfresh as [Hinj Hf]. split; [exact Hinj|].
      intros i. unfold startHeartbeat. cbv zeta in Hp.
      set (c := stopHeartbeat _) in *. clearbody c. rfields.
      rewrite Hp. apply Hf.
  - by apply wf_cleanup, wf_setState.
Qed.

Lemma wf_handleMessage (f : Frame) (h : Host) (e : Engine) :
  wf e -> fresh_uuids h e -> wf (handleMessage f h e).
Proof.
  intros Hwf Hfresh. unfold handleMessage.
  destruct (_ ≫= _) as [[id entry]|] eqn:Hlook.
  - apply bind_Some in Hlook as (id' & _ & Hlook).
    apply fmap_Some in Hlook as (entry' & Hid & [= <- <-]).
    pose proof (wf_remove id entry e Hwf Hid) as Hwf1.
    destruct entry as [[p|s] t]; cbn [waiter timeout] in *.
    + apply (wf_resolve p f _ Hwf1). rfields.
      by apply (removed_promise_free id p t e).
    + apply (wf_connect_resolved s f h _ Hwf1).
      destruct Hfresh as [Hinj Hf]. split; [exact Hinj|].
      intros i. rfields. rewrite lookup_delete_None. right. apply Hf.
  - destruct (eq_lit (ftype f) "event"); [by apply wf_emit | done].
Qed.

Lemma wf_sendMessage (msg : jsstring) (h : Host) (e : Engine) :
  wf e -> fresh_uuids h e -> wf (sendMessage msg h e).2.
Proof.
  intros Hwf [_ Hf]. unfold sendMessage. by apply wf_request.
Qed.

Lemma wf_onopen (h : Host) (e : Engine) :
  wf e -> fresh_uuids h e -> wf (onopen h e).
Proof.
  intros [W1 W2 W3] [_ Hf]. unfold onopen.
  destruct (ws e) as [sock|]; [|done].
  apply wf_send. rfields. split; rfields.
  - intros t tm Htm.
    apply lookup_insert_Some in Htm as [[<- <-] | [Hne Htm]].
    + unfold held. rfields. simpl. exists (sock_settings sock).
      apply lookup_insert_eq.
    + specialize (W1 t tm Htm). unfold held in *. rfields.
      destruct (kind tm) as [id' m p | id' | s' |]; try exact W1.
      * rewrite lookup_insert_ne; [exact W1|]. intros <-.
        by rewrite (Hf 0%nat) in W1.
      * destruct W1 as [s' W1]. exists s'.
        rewrite lookup_insert_ne; [exact W1|]. intros <-.
        by rewrite (Hf 0%nat) in W1.
  - intros id p t Hp.
    apply lookup_insert_Some in Hp as [[_ [=]] | [_ Hp]]. by apply (W2 id p t).
  - intros id1 id2 p t1 t2 H1 H2.
    apply lookup_insert_Some in H1 as [[_ [=]] | [_ H1]].
    apply lookup_insert_Some in H2 as [[_ [=]] | [_ H2]].
    exact (W3 _ _ _ _ _ H1 H2).
Qed.

Lemma wf_onclose (h : Host) (e : Engine) : wf e -> wf (onclose h e).
Proof.
  intros Hwf. unfold onclose. destruct (ws e) as [sock|]; [|done].
  assert (Hwf1 : wf (set_ws (Some (mkSocket (sock_id sock) WS_CLOSED
                                     (sock_settings sock))) e))
    by (by apply (wf_ext e)).
  destruct (cleanup_clears _ Hwf1) as (Ht & Hp & _).
  set (c := cleanup _) in *. clearbody c.
  destruct (_ || _); [by apply wf_scheduleReconnect|].
  by apply wf_setState, wf_blank.
Qed.

Lemma wf_fire (t : nat) (sock : completion nat) (h : Host) (e : Engine) :
  wf e -> wf (fire t sock h e).
Proof.
  intros Hwf. unfold fire. destruct (timers e !! t) as [tm|] eqn:Htm; [|done].
  pose proof (wf_timers e Hwf t tm Htm) as Hheld. unfold held in Hheld.
  destruct (kind tm) as [id m p | id | s |].
  - pose proof (wf_remove id _ e Hwf Hheld) as Hwf1.
    cbn [waiter timeout] in Hwf1.
    refine (wf_reject p _ _ Hwf1 _). rfields.
    by apply (removed_promise_free id p t e).
  - destruct Hheld as [s Hheld].
    pose proof (wf_remove id _ e Hwf Hheld) as Hwf1.
    cbn [waiter timeout] in Hwf1.
    apply wf_cleanup.
    refine (wf_ext _ _ _ _ _ _ _ _ Hwf1); reflexivity.
  - by apply wf_connect, wf_clearTimer.
  - by apply wf_send.
Qed.

Lemma wf_step (h : Host) (ev : Event) (e : Engine) :
  wf e -> fresh_uuids h e -> wf (step h ev e).
Proof.
  intros Hwf Hfresh. destruct ev; simpl.
  - by apply wf_connect.
  - by apply wf_disconnect.
  - by apply wf_sendMessage.
  - by apply wf_onopen.
  - unfold onmessage. destruct (ws e); [by apply wf_handleMessage | done].
  - by apply wf_onclose.
  - by apply wf_fire.
Qed.

Lemma reachable_wf (s0 : Settings) (e : Engine) : reachable s0 e -> wf e.
Proof.
  induction 1 as [|h ev e _ IH Hfresh]; [apply wf_initial|].
  by apply wf_step.
Qed.

(** ** The queue in the request engine *)

Lemma reject_queue (p : nat) (msg : jsstring) (e : Engine) :
  pendingQueue (reject p msg e) = pendingQueue e.
Proof. unfold reject. by destruct (promises e !! p) as [[| |]|]. Qed.

Lemma cleanup_queue (e : Engine) : pendingQueue (cleanup e) = pendingQueue e.
Proof.
  assert (Hloop : forall c,
    pendingQueue
      (set_ws None
         (set_pendingRequests ∅
            (foldr (fun kv => reject_entry kv.2) c
               (map_to_list (pendingRequests c))))) = pendingQueue c).
  { intros c.
    pose proof (reject_entries (map_to_list (pendingRequests c)) c)
      as ((_&_&_&_& H &_) & _).
    cbv zeta in H. set (c3 := foldr _ c _) in *. by clearbody c3. }
  unfold cleanup. cbv zeta. rewrite Hloop.
  pose proof (stopHeartbeat_fields e) as (_&_&_&_&_&_&_&_& Hq &_).
  cbv zeta in Hq. set (c := stopHeartbeat e) in *. clearbody c.
  by destruct (reconnectTimer c).
Qed.

Lemma send_queue (f : Outbound) (e : Engine) :
  pendingQueue (send f e).2 = pendingQueue e.
Proof.
  unfold send. destruct (ws e) as [sock|]; [|done].
  by destruct (readyState sock).
Qed.

Lemma startHeartbeat_queue (e : Engine) :
  pendingQueue (startHeartbeat e) = pendingQueue e.
Proof.
  unfold startHeartbeat.
  pose proof (stopHeartbeat_fields e) as (_&_&_&_&_&_&_&_& Hq &_).
  cbv zeta in Hq. set (c := stopHeartbeat e) in *. by clearbody c.
Qed.

Lemma flush_items_queue (k : jsstring) (h : Host) (items : list QueueItem)
  (n : nat) (e : Engine) :
  pendingQueue (flush_items k h n items e) = pendingQueue e.
Proof.
  revert n e. induction items as [|item items IH]; intros n e; simpl; [done|].
  pose proof (request_queue (lit "chat.send")
                (P_chat k (text item) (idempotencyKey item)) h n e) as Hq.
  destruct (request _ _ h n e) as [p e1]. simpl in Hq.
  by rewrite IH.
Qed.

(** [flushQueue] itself removes nothing from the queue. *)
Lemma flushQueue_queue (s : Settings) (h : Host) (e : Engine) :
  pendingQueue (flushQueue s h e) = pendingQueue e.
Proof.
  unfold flushQueue. destruct (pendingQueue e) eqn:Hq; [done|].
  by rewrite flush_items_queue.
Qed.

Lemma connect_queue (s : Settings) (sock : completion nat) (e : Engine) :
  pendingQueue (connect s sock e) = pendingQueue e.
Proof.
  unfold connect. pose proof (cleanup_queue e) as Hq.
  set (c := cleanup e) in *. clearbody c. by destruct sock.
Qed.

Lemma connect_resolved_queue (s : Settings) (f : Frame) (h : Host)
  (e : Engine) :
  pendingQueue (connect_resolved s f h e) = pendingQueue e.
Proof.
  unfold connect_resolved. destruct (fresult f && _).
  - unfold emit. rfields. by rewrite flushQueue_queue, startHeartbeat_queue.
  - by rewrite cleanup_queue.
Qed.

(** The branches of [handleMessage]. *)
Lemma handleMessage_cases (f : Frame) (h : Host) (e : Engine) :
  (exists id entry,
     ftype f = Some (lit "res") /\ fid f = Some id
     /\ pendingRequests e !! id = Some entry
     /\ handleMessage f h e
        = match waiter entry with
          | W_promise p =>
              resolve p f
                (set_pendingRequests (delete id (pendingRequests e))
                   (clearTimer (timeout entry) e))
          | W_connect s =>
              connect_resolved s f h
                (set_pendingRequests (delete id (pendingRequests e))
                   (clearTimer (timeout entry) e))
          end)
  \/ handleMessage f h e
     = emit (default [] (fevent f)) f e
  \/ handleMessage f h e = e.
Proof.
  unfold handleMessage.
  destruct (eq_lit (ftype f) "res") eqn:Hty;
    [|destruct (eq_lit (ftype f) "event"); auto].
  destruct (fid f) as [id|] eqn:Hid;
    [|destruct (eq_lit (ftype f) "event"); auto].
  cbn [mbind option_bind].
  destruct (pendingRequests e !! id) as [entry|] eqn:Hp;
    cbn [fmap option_fmap option_map];
    [|destruct (eq_lit (ftype f) "event"); auto].
  left. exists id, entry. split; [|done].
  unfold eq_lit in Hty. by apply bool_decide_eq_true_1 in Hty.
Qed.

(** An item leaves the queue of the request engine only when the
    response to the request that carried it arrives. *)
Lemma removed_was_answered (h : Host) (ev : Event) (e : Engine)
  (item : QueueItem) :
  item ∈ pendingQueue e -> item ∉ pendingQueue (step h ev e) ->
  exists f id p t,
    ev = EMessage f /\ ftype f = Some (lit "res") /\ fid f = Some id
    /\ pendingRequests e !! id = Some (mkPending (W_promise p) t)
    /\ reactions e !! p = Some (idempotencyKey item).
Proof.
  intros Hin Hout.
  destruct ev as [s sock | | msg | | f | | t sock]; cbn [step] in Hout.
  - by rewrite connect_queue in Hout.
  - unfold disconnect in Hout. revert Hout. pose proof (cleanup_queue e) as Hq.
    set (c := cleanup e) in *. clearbody c. rfields. by rewrite Hq.
  - unfold sendMessage in Hout. by rewrite request_queue in Hout.
  - exfalso. revert Hout. unfold onopen. destruct (ws e) as [sock|]; [|done].
    rfields. by rewrite send_queue.
  - revert Hout. unfold onmessage. destruct (ws e) as [sock|]; [|done].
    destruct (handleMessage_cases f h e)
      as [(id & entry & Hty & Hid & Hp & ->) | [-> | ->]];
      [|unfold emit; by rfields | done].
    destruct entry as [[p|s] t]; cbn [waiter timeout];
      [|by rewrite connect_resolved_queue].
    intros Hout. exists f, id, p, t. repeat (split; [done|]).
    revert Hout. unfold resolve. rfields.
    destruct (promises e !! p) as [[| |]|];
      try (intros Hout; exfalso; apply Hout; exact Hin).
    rfields.
    destruct (reactions e !! p) as [key|] eqn:Hr;
      [|intros Hout; exfalso; apply Hout; exact Hin].
    rfields. intros Hout. f_equal.
    destruct (decide (idempotencyKey item = key)) as [Heq|Hne]; [done|].
    exfalso. apply Hout. unfold dequeue. by apply list_elem_of_filter.
  - exfalso. revert Hout. unfold onclose. destruct (ws e) as [sock|]; [|done].
    pose proof (cleanup_queue
                  (set_ws (Some (mkSocket (sock_id sock) WS_CLOSED
                                   (sock_settings sock))) e)) as Hq.
    set (c := cleanup _) in *. clearbody c.
    destruct (_ || _); unfold scheduleReconnect; rfields; by rewrite Hq.
  - exfalso. revert Hout. unfold fire.
    destruct (timers e !! t) as [tm|]; [|done].
    destruct (kind tm) as [id m p | id | s |].
    + by rewrite reject_queue.
    + by rewrite cleanup_queue.
    + by rewrite connect_queue.
    + by rewrite send_queue.
Qed.

(** C3: in every state the engine reaches, a request that is sent is
    registered under its id with a timer of 15000 ms and a promise that
    waits; a response with the id of a pending request resolves its
    promise with the frame, removes the entry and cancels its timer; the
    timer coming due rejects the promise ("Request ... timed out") and
    removes the entry; and [disconnect] rejects the promise of every
    pending request ("Connection closed") and leaves no entry and no
    timer at all, neither of a request nor of the heartbeat or the
    reconnect. *)
Theorem pending_requests_lifecycle (s0 : Settings) (e : Engine) (h : Host)
  (method : jsstring) (params : Params) (n : nat) :
  reachable s0 e ->
  (forall sock, ws e = Some sock -> readyState sock = WS_OPEN ->
     let p := (request method params h n e).1 in
     let e1 := (request method params h n e).2 in
     pendingRequests e1 !! randomUUID h n
     = Some (mkPending (W_promise p) (next_timer e))
     /\ timers e1 !! next_timer e
        = Some (mkTimer (T_request (randomUUID h n) method p)
                  (inject_Z 15000))
     /\ promises e1 !! p = Some Waiting
     /\ wire e1 = wire e ++ [(sock_id sock, Req (randomUUID h n) method params)])
  /\ (forall f id p t,
        ftype f = Some (lit "res") -> fid f = Some id ->
        pendingRequests e !! id = Some (mkPending (W_promise p) t) ->
        let e1 := handleMessage f h e in
        promises e1 !! p = Some (Resolved f)
        /\ pendingRequests e1 !! id = None /\ timers e1 !! t = None)
  /\ (forall t id m p d sock,
        timers e !! t = Some (mkTimer (T_request id m p) d) ->
        let e1 := fire t sock h e in
        promises e1 !! p = Some (Rejected (timed_out m))
        /\ pendingRequests e1 !! id = None /\ timers e1 !! t = None)
  /\ (let e1 := disconnect e in
      timers e1 = ∅ /\ pendingRequests e1 = ∅
      /\ heartbeatTimer e1 = None /\ reconnectTimer e1 = None
      /\ conn_state e1 = DISCONNECTED
      /\ forall id p t,
           pendingRequests e !! id = Some (mkPending (W_promise p) t) ->
           promises e1 !! p = Some (Rejected CLOSED)).
Proof.
  intros Hreach. pose proof (reachable_wf s0 e Hreach) as Hwf.
  split; [|split; [|split]].
  - intros sock Hws Hopen. rewrite (request_sent _ _ _ _ _ sock Hws Hopen).
    rfields. repeat split.
    + apply lookup_insert_eq.
    + apply lookup_insert_eq.
    + apply lookup_insert_eq.
  - intros f id p t Hty Hid Hp e1.
    destruct (wf_promises e Hwf id p t Hp) as [Hwait _].
    assert (He1 : e1 = resolve p f
                         (set_pendingRequests (delete id (pendingRequests e))
                            (clearTimer t e))).
    { unfold e1, handleMessage. rewrite Hty, Hid, eq_lit_Some.
      change (str_eqb (lit "res") (lit "res")) with true.
      cbn [mbind option_bind]. by rewrite Hp. }
    rewrite He1. unfold resolve. rfields. rewrite Hwait. rfields.
    destruct (reactions e !! p); rfields;
      (split; [apply lookup_insert_eq|]);
      split; apply lookup_delete_eq.
  - intros t id m p d sock Htm e1.
    pose proof (wf_timers e Hwf t _ Htm) as Hheld.
    unfold held in Hheld. cbn [kind] in Hheld.
    destruct (wf_promises e Hwf id p t Hheld) as [Hwait _].
    unfold e1, fire. rewrite Htm. cbn [kind].
    unfold reject. rfields. rewrite Hwait. rfields.
    split; [apply lookup_insert_eq|]. split; apply lookup_delete_eq.
  - intros e1. unfold e1, disconnect.
    destruct (cleanup_clears e Hwf) as (Ht & Hp & Hh & Hr & _ & _ & _ & _ & Hrej).
    set (c := cleanup e) in *. clearbody c. rfields. done.
Qed.

Lemma fresh_host_at (base : N) (e : Engine) :
  (forall i, pendingRequests e !! randomUUID (host_at base) i = None) ->
  fresh_uuids (host_at base) e.
Proof.
  intros Hfree. split; [|exact Hfree].
  intros i j Heq. simpl in Heq. injection Heq as Heq. lia.
Qed.

Lemma waiting_requests_reachable : reachable sample_settings waiting_requests.
Proof.
  assert (H1 : reachable sample_settings connecting_requests).
  { apply reach_step; [apply reach_initial|].
    apply fresh_host_at. intros i. apply lookup_empty. }
  assert (H2 : reachable sample_settings opened_requests).
  { apply reach_step; [exact H1|]. apply fresh_host_at. intros i.
    assert (Hp : pendingRequests connecting_requests = ∅)
      by (vm_compute; reflexivity).
    rewrite Hp. apply lookup_empty. }
  apply reach_step; [exact H2|]. apply fresh_host_at. intros i.
  assert (Hp : pendingRequests opened_requests
               = {[ [65%N] := mkPending (W_connect sample_settings) 1 ]})
    by (vm_compute; reflexivity).
  rewrite Hp. apply lookup_singleton_ne. simpl. intros [=]. lia.
Qed.

Lemma pending_requests_lifecycle_witness :
  let closed := disconnect waiting_requests in
  pendingRequests waiting_requests !! [71%N] = Some (mkPending (W_promise 0) 2)
  /\ timers closed = ∅ /\ pendingRequests closed = ∅
  /\ promises closed !! 0%nat = Some (Rejected CLOSED).
Proof.
  pose proof (pending_requests_lifecycle sample_settings waiting_requests
                (host_at 80) [] P_none 0 waiting_requests_reachable)
    as (_ & _ & _ & Ht & Hp & _ & _ & _ & Hrej).
  assert (Hpending : pendingRequests waiting_requests !! [71%N]
                     = Some (mkPending (W_promise 0) 2))
    by (vm_compute; reflexivity).
  intros closed. split; [exact Hpending|]. split; [exact Ht|].
  split; [exact Hp|]. exact (Hrej [71%N] 0%nat 2%nat Hpending).
Defined.

End RequestFacts.

(* ===================================================================== *)
(** * The offline queue *)
(* ===================================================================== *)

(** An item queued while the socket is open is gone after the flush,
    its frame sent and nothing received: items do not stay until they are
    acknowledged. *)
Lemma flush_drops_unacknowledged :
  let flushed :=
    Connection.flushQueue sample_settings (host_at 65) online_engine in
  (sample_item ∈ Connection.pendingQueue online_engine)
  /\ Connection.wire flushed
     = [(7%nat, Connection.ChatSend [65%N] (lit "agent:main:main")
                  (text sample_item) (idempotencyKey sample_item))]
  /\ Connection.emitted flushed = []
  /\ (sample_item ∉ Connection.pendingQueue flushed)
  /\ ~ Connection.kept_until_acknowledged.
Proof.
  assert (Hgone : Connection.pendingQueue
                    (Connection.flushQueue sample_settings (host_at 65)
                       online_engine) = []) by (vm_compute; reflexivity).
  split; [left|]. split; [vm_compute; reflexivity|].
  split; [vm_compute; reflexivity|]. split.
  - rewrite Hgone. apply not_elem_of_nil.
  - intros Hkept.
    specialize (Hkept sample_settings (host_at 65) online_engine sample_item).
    rewrite Hgone in Hkept. eapply not_elem_of_nil, Hkept. left.
Qed.

(** C5, amended: the current engine removes an item from the queue when
    [send] accepted its [chat.send] frame, without waiting for an
    acknowledgement: a flush on an open socket sends every item and
    leaves the queue empty, a flush without an open socket changes
    nothing, and in no step does an item leave the queue unless a frame
    with its text and idempotency key was sent in that step.  The engine
    with the pending-request table removes nothing in the flush itself;
    there an item leaves the queue only in the step that handles the
    response to the request that carried it. *)
Theorem flush_removes_what_was_sent (s : Settings) (h : Host)
  (e : Connection.Engine) (r : RequestEngine.Engine) (item : QueueItem) :
  (forall sock, Connection.ws e = Some sock -> readyState sock = WS_OPEN ->
     Connection.pendingQueue (Connection.flushQueue s h e) = []
     /\ Connection.wire (Connection.flushQueue s h e)
        = Connection.wire e
          ++ imap (Connection.chat_of (Protocol.getSessionKey (agentId s)) h
                     (sock_id sock)) (Connection.pendingQueue e))
  /\ ((forall sock, Connection.ws e = Some sock -> readyState sock <> WS_OPEN) ->
      Connection.flushQueue s h e = e)
  /\ (forall ev,
        item ∈ Connection.pendingQueue e ->
        item ∉ Connection.pendingQueue (Connection.step h ev e) ->
        exists sockid id sessionKey,
          (sockid, Connection.ChatSend id sessionKey (text item)
                     (idempotencyKey item))
          ∈ drop (length (Connection.wire e))
                 (Connection.wire (Connection.step h ev e)))
  /\ RequestEngine.pendingQueue (RequestEngine.flushQueue s h r)
     = RequestEngine.pendingQueue r
  /\ (forall ev,
        item ∈ RequestEngine.pendingQueue r ->
        item ∉ RequestEngine.pendingQueue (RequestEngine.step h ev r) ->
        exists f id p t,
          ev = RequestEngine.EMessage f /\ ftype f = Some (lit "res")
          /\ fid f = Some id
          /\ RequestEngine.pendingRequests r !! id
             = Some (RequestEngine.mkPending (RequestEngine.W_promise p) t)
          /\ RequestEngine.reactions r !! p = Some (idempotencyKey item)).
Proof.
  split; [|split; [|split; [|split]]].
  - intros sock Hws Hopen. by apply flushQueue_open.
  - apply flushQueue_closed.
  - intros ev. apply removed_was_sent.
  - apply flushQueue_queue.
  - intros ev. apply removed_was_answered.
Qed.

Lemma flush_removes_what_was_sent_witness :
  Connection.pendingQueue online_engine = [sample_item]
  /\ Connection.pendingQueue
       (Connection.flushQueue sample_settings (host_at 65) online_engine) = []
  /\ Connection.wire
       (Connection.flushQueue sample_settings (host_at 65) online_engine)
     = [(7%nat, Connection.ChatSend [65%N] (lit "agent:main:main")
                  (lit "done 3") (lit "key-3"))].
Proof.
  pose proof (flush_removes_what_was_sent sample_settings (host_at 65)
                online_engine (RequestEngine.initial sample_settings)
                sample_item) as (Hopen & _).
  destruct (Hopen (mkSocket 7 WS_OPEN sample_settings) eq_refl eq_refl)
    as [Hq Hw].
  split; [reflexivity|]. split; [exact Hq|]. rewrite Hw. reflexivity.
Defined.

(* ===================================================================== *)
(** * Properties of the settings form *)
(* ===================================================================== *)

Section SettingsFormFacts.
Import SettingsForm.

Lemma replace_unit_app (c : char16) (by_ a b : jsstring) :
  replace_unit c by_ (a ++ b) = replace_unit c by_ a ++ replace_unit c by_ b.
Proof. unfold replace_unit. by rewrite flat_map_app. Qed.

Lemma replace_unit_absent (c : char16) (by_ s : jsstring) :
  Forall (fun d => d <> c) s -> replace_unit c by_ s = s.
Proof.
  induction 1 as [|d s Hd _ IH]; [done|].
  unfold replace_unit in *. simpl. rewrite IH.
  by destruct (N.eqb_spec d c).
Qed.





End SettingsFormFacts.

(* ===================================================================== *)
(** * Properties of the encoding helpers *)
(* ===================================================================== *)

Section EncodingFacts.
Import Encoding.

Lemma list_ind3 {A} (P : list A -> Prop) :
  P [] -> (forall a, P [a]) -> (forall a b, P [a; b]) ->
  (forall a b c l, P l -> P (a :: b :: c :: l)) ->
  forall l, P l.
Proof.
  intros H0 H1 H2 H3. fix IH 1.
  intros [|a [|b [|c l]]]; [exact H0 | apply H1 | apply H2 | apply H3, IH].
Qed.

(** Checking a property of the numbers below a bound by running it. *)
Lemma below_all (n : nat) (P : N -> bool) :
  forallb P (map N.of_nat (seq 0 n)) = true ->
  forall x, (x < N.of_nat n)%N -> P x = true.
Proof.
  intros Hall x Hx. rewrite forallb_forall in Hall. apply Hall.
  apply in_map_iff. exists (N.to_nat x). split; [lia|].
  apply in_seq. lia.
Qed.

Lemma byte_below (b : Byte.byte) : (Byte.to_N b < N.of_nat 256)%N.
Proof. pose proof (Byte.to_N_bounded b). lia. Qed.

(** ** Hexadecimal *)

Lemma hex_of_byte (b : Byte.byte) :
  padStart 2 48%N (toString16 (Byte.to_N b))
  = [hex_lower (Byte.to_N b / 16); hex_lower (Byte.to_N b mod 16)].
Proof. destruct b; reflexivity. Qed.

Lemma hex_of_byte_digits (b : Byte.byte) :
  is_hex_lower (hex_lower (Byte.to_N b / 16)) = true
  /\ is_hex_lower (hex_lower (Byte.to_N b mod 16)) = true.
Proof. destruct b; split; reflexivity. Qed.

Lemma hex_of_byte_back (b : Byte.byte) :
  default Byte.x00
    (Byte.of_N (16 * hex_val (hex_lower (Byte.to_N b / 16))
                + hex_val (hex_lower (Byte.to_N b mod 16)))) = b.
Proof. destruct b; reflexivity. Qed.

Lemma bufToHex_cons (b : Byte.byte) (buf : list Byte.byte) :
  bufToHex (b :: buf)
  = hex_lower (Byte.to_N b / 16) :: hex_lower (Byte.to_N b mod 16)
    :: bufToHex buf.
Proof. unfold bufToHex. simpl. by rewrite hex_of_byte. Qed.

Lemma hexToBuf_bufToHex (buf : list Byte.byte) : hexToBuf (bufToHex buf) = buf.
Proof.
  induction buf as [|b buf IH]; [done|].
  rewrite bufToHex_cons. cbn [hexToBuf]. by rewrite hex_of_byte_back, IH.
Qed.

(** X2: [bufToHex] writes every byte as two lower-case hexadecimal
    digits, the high one first: the text is twice as long as the buffer,
    holds nothing but the characters 0-9 and a-f, can be read back to the
    buffer, and two different buffers never give the same text. *)
Theorem bufToHex_two_digits_per_byte (buf : list Byte.byte) :
  length (bufToHex buf) = (2 * length buf)%nat
  /\ Forall (fun c => is_hex_lower c = true) (bufToHex buf)
  /\ hexToBuf (bufToHex buf) = buf
  /\ (forall buf', bufToHex buf' = bufToHex buf -> buf' = buf)
  /\ (forall b rest,
        buf = b :: rest ->
        bufToHex buf
        = hex_lower (Byte.to_N b / 16) :: hex_lower (Byte.to_N b mod 16)
          :: bufToHex rest).
Proof.
  split; [|split; [|split; [|split]]].
  - induction buf as [|b buf IH]; [done|].
    rewrite bufToHex_cons. simpl length. rewrite IH. lia.
  - induction buf as [|b buf IH]; [constructor|].
    rewrite bufToHex_cons. destruct (hex_of_byte_digits b) as [H1 H2].
    by repeat constructor.
  - apply hexToBuf_bufToHex.
  - intros buf' Heq.
    by rewrite <- (hexToBuf_bufToHex buf'), Heq, hexToBuf_bufToHex.
  - intros b rest ->. apply bufToHex_cons.
Qed.

(** ** Base64 *)

Lemma b64_first (a : N) :
  (a < 256)%N -> is_b64std (b64_char (N.shiftr a 2)) = true.
Proof.
  apply (below_all 256 (fun a => is_b64std (b64_char (N.shiftr a 2)))).
  vm_compute. reflexivity.
Qed.

Lemma b64_second (a b : N) :
  (a < 256)%N -> (b < 256)%N ->
  is_b64std (b64_char (N.lor (N.shiftl (N.land a 3) 4) (N.shiftr b 4))) = true.
Proof.
  intros Ha. revert b.
  apply (below_all 256
           (fun b => is_b64std
                       (b64_char (N.lor (N.shiftl (N.land a 3) 4)
                                        (N.shiftr b 4))))).
  revert a Ha.
  apply (below_all 256
           (fun a => forallb
                       (fun b => is_b64std
                                   (b64_char (N.lor (N.shiftl (N.land a 3) 4)
                                                    (N.shiftr b 4))))
                       (map N.of_nat (seq 0 256)))).
  vm_compute. reflexivity.
Qed.

Lemma b64_third (b c : N) :
  (b < 256)%N -> (c < 256)%N ->
  is_b64std (b64_char (N.lor (N.shiftl (N.land b 15) 2) (N.shiftr c 6))) = true.
Proof.
  intros Hb. revert c.
  apply (below_all 256
           (fun c => is_b64std
                       (b64_char (N.lor (N.shiftl (N.land b 15) 2)
                                        (N.shiftr c 6))))).
  revert b Hb.
  apply (below_all 256
           (fun b => forallb
                       (fun c => is_b64std
                                   (b64_char (N.lor (N.shiftl (N.land b 15) 2)
                                                    (N.shiftr c 6))))
                       (map N.of_nat (seq 0 256)))).
  vm_compute. reflexivity.
Qed.

Lemma b64_fourth (c : N) :
  (c < 256)%N -> is_b64std (b64_char (N.land c 63)) = true.
Proof.
  apply (below_all 256 (fun c => is_b64std (b64_char (N.land c 63)))).
  vm_compute. reflexivity.
Qed.

Lemma b64_second_last (a : N) :
  (a < 256)%N -> is_b64std (b64_char (N.shiftl (N.land a 3) 4)) = true.
Proof.
  apply (below_all 256 (fun a => is_b64std (b64_char (N.shiftl (N.land a 3) 4)))).
  vm_compute. reflexivity.
Qed.

Lemma b64_third_last (b : N) :
  (b < 256)%N -> is_b64std (b64_char (N.shiftl (N.land b 15) 2)) = true.
Proof.
  apply (below_all 256 (fun b => is_b64std (b64_char (N.shiftl (N.land b 15) 2)))).
  vm_compute. reflexivity.
Qed.

Lemma b64_groups_shape (s : list N) :
  Forall (fun c => (c < 256)%N) s ->
  exists body,
    b64_groups s = body ++ replicate (b64_padding (length s)) 61%N
    /\ Forall (fun c => is_b64std c = true) body
    /\ length body = ((4 * length s + 2) / 3)%nat.
Proof.
  induction s as [|a|a b|a b c s IH] using list_ind3; intros Hs.
  - exists []. by repeat split.
  - apply Forall_cons in Hs as [Ha _].
    exists [b64_char (N.shiftr a 2); b64_char (N.shiftl (N.land a 3) 4)].
    split; [reflexivity|]. split; [|reflexivity].
    repeat constructor; [by apply b64_first | by apply b64_second_last].
  - apply Forall_cons in Hs as [Ha Hs]. apply Forall_cons in Hs as [Hb _].
    exists [b64_char (N.shiftr a 2);
            b64_char (N.lor (N.shiftl (N.land a 3) 4) (N.shiftr b 4));
            b64_char (N.shiftl (N.land b 15) 2)].
    split; [reflexivity|]. split; [|reflexivity].
    repeat constructor;
      [by apply b64_first | by apply b64_second | by apply b64_third_last].
  - apply Forall_cons in Hs as [Ha Hs]. apply Forall_cons in Hs as [Hb Hs].
    apply Forall_cons in Hs as [Hc Hs].
    destruct (IH Hs) as (body & Hbody & Hstd & Hlen).
    exists ([b64_char (N.shiftr a 2);
             b64_char (N.lor (N.shiftl (N.land a 3) 4) (N.shiftr b 4));
             b64_char (N.lor (N.shiftl (N.land b 15) 2) (N.shiftr c 6));
             b64_char (N.land c 63)] ++ body).
    split; [|split].
    + cbn [b64_groups]. rewrite Hbody.
      replace (b64_padding (length (a :: b :: c :: s)))
        with (b64_padding (length s)); [by rewrite <- app_assoc|].
      unfold b64_padding. simpl length.
      replace (S (S (S (length s)))) with (length s + 1 * 3)%nat by lia.
      by rewrite Nat.Div0.mod_add.
    + apply Forall_app. split; [|exact Hstd].
      repeat constructor;
        [by apply b64_first | by apply b64_second | by apply b64_third
         | by apply b64_fourth].
    + cbn [length app]. rewrite Hlen.
      replace (4 * S (S (S (length s))) + 2)%nat
        with ((4 * length s + 2) + 4 * 3)%nat by lia.
      rewrite Nat.div_add by lia. lia.
Qed.

Lemma drop_run_replicate (c : char16) (k : nat) (s : jsstring) :
  drop_run c (replicate k c ++ s) = drop_run c s.
Proof.
  induction k as [|k IH]; [done|]. simpl. by rewrite N.eqb_refl.
Qed.

Lemma drop_run_stops (c : char16) (s : jsstring) :
  Forall (fun d => d <> c) s -> drop_run c s = s.
Proof.
  intros Hs. destruct Hs as [|d s Hd Hs]; [done|]. simpl.
  by destruct (N.eqb_spec d c).
Qed.

Lemma rev_replicate {A} (k : nat) (c : A) :
  rev (replicate k c) = replicate k c.
Proof.
  induction k as [|k IH]; [done|]. simpl. rewrite IH. clear IH.
  induction k as [|k IH]; [done|]. simpl. by rewrite IH.
Qed.

Lemma strip_trailing_run (c : char16) (k : nat) (body : jsstring) :
  Forall (fun d => d <> c) body ->
  strip_trailing c (body ++ replicate k c) = body.
Proof.
  intros Hbody. unfold strip_trailing.
  rewrite rev_app_distr, rev_replicate, drop_run_replicate.
  rewrite drop_run_stops; [apply rev_involutive|].
  by apply Forall_rev.
Qed.

Lemma replace_unit_replicate (c d : char16) (by_ : jsstring) (k : nat) :
  d <> c -> replace_unit c by_ (replicate k d) = replicate k d.
Proof.
  intros Hd. apply replace_unit_absent. by apply Forall_replicate.
Qed.

Lemma b64url_char (c : char16) :
  is_b64std c = true -> c <> 43%N -> c <> 47%N -> is_b64url c = true.
Proof.
  unfold is_b64std, is_b64url. intros H H43 H47.
  destruct (is_alpha c); [done|]. destruct (is_digit c); [done|]. simpl in *.
  destruct (N.eqb_spec c 43); [done|]. destruct (N.eqb_spec c 47); done.
Qed.

Lemma b64url_body (body : jsstring) :
  Forall (fun c => is_b64std c = true) body ->
  Forall (fun c => is_b64url c = true)
    (replace_unit 47%N (lit "_") (replace_unit 43%N (lit "-") body))
  /\ length (replace_unit 47%N (lit "_") (replace_unit 43%N (lit "-") body))
     = length body.
Proof.
  induction 1 as [|c body Hc _ [IH1 IH2]]; [by split|].
  change (c :: body) with ([c] ++ body). rewrite !replace_unit_app.
  rewrite Forall_app, length_app, IH2. split; [split; [|exact IH1]|].
  - unfold replace_unit. simpl.
    destruct (N.eqb_spec c 43) as [->|H43]; [by repeat constructor|]. simpl.
    destruct (N.eqb_spec c 47) as [->|H47]; [by repeat constructor|]. simpl.
    repeat constructor. by apply b64url_char.
  - f_equal. unfold replace_unit. simpl.
    destruct (N.eqb_spec c 43) as [->|H43]; [done|]. simpl.
    by destruct (N.eqb_spec c 47).
Qed.

Lemma b64url_not_pad (c : char16) : is_b64url c = true -> c <> 61%N.
Proof. by intros Hc ->. Qed.

(** X3: [bufToBase64Url] never throws, whatever the buffer; the text it
    returns holds nothing but letters, digits, [-] and [_] (no [+], no
    [/], no padding), and has ceil(4n/3) characters for n bytes: 43 for a
    public key of 32 bytes, 86 for a signature of 64. *)
Theorem bufToBase64Url_alphabet (buf : list Byte.byte) :
  exists s,
    bufToBase64Url buf = Return s
    /\ Forall (fun c => is_b64url c = true) s
    /\ length s = ((4 * length buf + 2) / 3)%nat
    /\ (length buf = 32%nat -> length s = 43%nat)
    /\ (length buf = 64%nat -> length s = 86%nat).
Proof.
  assert (Hbytes : Forall (fun c => (c < 256)%N) (map Byte.to_N buf)).
  { apply Forall_map, Forall_forall. intros b _. apply byte_below. }
  destruct (b64_groups_shape _ Hbytes) as (body & Hshape & Hstd & Hlen).
  rewrite length_map in Hshape, Hlen.
  destruct (b64url_body body Hstd) as [Hurl Hlen'].
  exists (replace_unit 47%N (lit "_") (replace_unit 43%N (lit "-") body)).
  assert (Hok : forallb (fun c => (c <=? 255)%N) (map Byte.to_N buf) = true).
  { apply forallb_forall. intros c Hc. apply in_map_iff in Hc as (b & <- & _).
    apply N.leb_le, Byte.to_N_bounded. }
  split; [|split; [exact Hurl|split; [rewrite Hlen'; exact Hlen|]]].
  - unfold bufToBase64Url, btoa. rewrite Hok, Hshape. f_equal.
    rewrite !replace_unit_app, !replace_unit_replicate by discriminate.
    apply strip_trailing_run.
    eapply Forall_impl; [exact Hurl | apply b64url_not_pad].
  - rewrite Hlen'. split; intros Hb; rewrite Hb in Hlen; exact Hlen.
Qed.

End EncodingFacts.

(* ===================================================================== *)
(** * Properties of the gateway URL *)
(* ===================================================================== *)

Section UrlFacts.
Import Url.

Lemma percent_chars (o : N) :
  (o < 256)%N -> Forall (fun c => is_component_char c = true) (percent o).
Proof.
  intros Ho.
  assert (H : forallb is_component_char (percent o) = true).
  { revert o Ho.
    apply (below_all 256 (fun o => forallb is_component_char (percent o))).
    vm_compute. reflexivity. }
  apply Forall_forall. intros c Hc. rewrite forallb_forall in H.
  apply H. by apply list_elem_of_In.
Qed.

Lemma land_63 (x : N) : (N.land x 63 < 64)%N.
Proof.
  change 63%N with (N.ones 6). rewrite N.land_ones.
  apply N.mod_lt. discriminate.
Qed.

Lemma shiftr_below (x k m : N) :
  (x < m * 2 ^ k)%N -> (N.shiftr x k < m)%N.
Proof.
  intros Hx. rewrite N.shiftr_div_pow2.
  apply N.Div0.div_lt_upper_bound. lia.
Qed.

Lemma utf8_octets (cp : N) :
  (cp < 2097152)%N -> Forall (fun o => (o < 256)%N) (utf8 cp).
Proof.
  intros Hcp. unfold utf8.
  destruct (N.ltb_spec cp 128); [repeat constructor; lia|].
  destruct (N.ltb_spec cp 2048).
  { pose proof (land_63 cp). pose proof (shiftr_below cp 6 32 ltac:(lia)).
    repeat constructor; lia. }
  destruct (N.ltb_spec cp 65536).
  { pose proof (land_63 cp). pose proof (land_63 (N.shiftr cp 6)).
    pose proof (shiftr_below cp 12 16 ltac:(lia)).
    repeat constructor; lia. }
  pose proof (land_63 cp). pose proof (land_63 (N.shiftr cp 6)).
  pose proof (land_63 (N.shiftr cp 12)).
  pose proof (shiftr_below cp 18 8 ltac:(lia)).
  repeat constructor; lia.
Qed.

Lemma escaped_chars (cp : N) :
  (cp < 2097152)%N ->
  Forall (fun c => is_component_char c = true) (flat_map percent (utf8 cp)).
Proof.
  intros Hcp. pose proof (utf8_octets cp Hcp) as Hoct.
  induction Hoct as [|o os Ho _ IH]; [constructor|].
  cbn [flat_map]. apply Forall_app. split; [by apply percent_chars | exact IH].
Qed.

Lemma prepend_Return (pre : jsstring) (r : completion jsstring)
  (out : jsstring) :
  prepend pre r = Return out ->
  exists s, r = Return s /\ out = pre ++ s.
Proof. destruct r as [s|e]; simpl; [|done]. intros [= <-]. by exists s. Qed.

Lemma surrogate_pair_below (c d : N) :
  is_high_surrogate c = true -> is_low_surrogate d = true ->
  (65536 + (c - 55296) * 1024 + (d - 56320) < 2097152)%N.
Proof.
  unfold is_high_surrogate, is_low_surrogate.
  rewrite !andb_true_iff, !N.leb_le. lia.
Qed.

Lemma encodeURIComponent_chars_aux (n : nat) (s enc : jsstring) :
  (length s <= n)%nat ->
  Forall (fun c => (c < 65536)%N) s ->
  encodeURIComponent s = Return enc ->
  Forall (fun c => is_component_char c = true) enc.
Proof.
  revert s enc. induction n as [|n IH]; intros s enc Hlen Hs Henc.
  - destruct s; [|simpl in Hlen; lia]. injection Henc as <-. constructor.
  - destruct s as [|c s]; [injection Henc as <-; constructor|].
    apply Forall_cons in Hs as [Hc Hs]. simpl in Hlen. cbn [encodeURIComponent] in Henc.
    destruct (is_unreserved c) eqn:Hun.
    { apply prepend_Return in Henc as (t & Ht & ->).
      constructor; [unfold is_component_char; by rewrite Hun|].
      apply (IH s); [lia | done | done]. }
    destruct (is_low_surrogate c); [done|].
    destruct (is_high_surrogate c) eqn:Hhi.
    + destruct s as [|d s]; [done|].
      destruct (is_low_surrogate d) eqn:Hlo; [|done].
      apply Forall_cons in Hs as [Hd Hs]. simpl in Hlen.
      apply prepend_Return in Henc as (t & Ht & ->).
      apply Forall_app. split.
      * apply escaped_chars. by apply surrogate_pair_below.
      * apply (IH s); [lia | done | done].
    + apply prepend_Return in Henc as (t & Ht & ->).
      apply Forall_app. split.
      * apply escaped_chars. lia.
      * apply (IH s); [lia | done | done].
Qed.

Lemma encodeURIComponent_chars (s enc : jsstring) :
  Forall (fun c => (c < 65536)%N) s ->
  encodeURIComponent s = Return enc ->
  Forall (fun c => is_component_char c = true) enc.
Proof. apply (encodeURIComponent_chars_aux (length s)). lia. Qed.

Lemma encodeURIComponent_unreserved (s : jsstring) :
  Forall (fun c => is_unreserved c = true) s ->
  encodeURIComponent s = Return s.
Proof.
  induction 1 as [|c s Hc _ IH]; [done|].
  cbn [encodeURIComponent]. by rewrite Hc, IH.
Qed.

Lemma unreserved_not_surrogate (c : char16) :
  is_unreserved c = true ->
  is_low_surrogate c = false /\ is_high_surrogate c = false.
Proof.
  unfold is_unreserved, is_alpha, is_digit, is_low_surrogate, is_high_surrogate.
  rewrite !orb_true_iff, !andb_true_iff, !andb_false_iff, !N.leb_le, !N.leb_gt,
    !N.eqb_eq.
  lia.
Qed.

Lemma encodeURIComponent_wellformed_aux (n : nat) (s : jsstring) :
  (length s <= n)%nat ->
  if isWellFormed s then exists enc, encodeURIComponent s = Return enc
  else encodeURIComponent s = Throw URIError.
Proof.
  revert s. induction n as [|n IH]; intros s Hlen.
  - destruct s; [|simpl in Hlen; lia]. simpl. by exists [].
  - destruct s as [|c s]; [simpl; by exists []|].
    simpl in Hlen. cbn [encodeURIComponent isWellFormed].
    destruct (is_unreserved c) eqn:Hun.
    { destruct (unreserved_not_surrogate c Hun) as [-> ->].
      specialize (IH s ltac:(lia)).
      destruct (isWellFormed s).
      - destruct IH as [enc ->]. by exists (c :: enc).
      - by rewrite IH. }
    destruct (is_low_surrogate c); [done|].
    destruct (is_high_surrogate c).
    + destruct s as [|d s]; [done|].
      destruct (is_low_surrogate d); [|done]. simpl in Hlen. simpl.
      specialize (IH s ltac:(lia)).
      destruct (isWellFormed s).
      * destruct IH as [enc ->]. simpl. eauto.
      * by rewrite IH.
    + specialize (IH s ltac:(lia)).
      destruct (isWellFormed s).
      * destruct IH as [enc ->]. simpl. eauto.
      * by rewrite IH.
Qed.

Lemma component_char_plain (c : char16) :
  is_component_char c = true ->
  c <> 38%N /\ c <> 61%N /\ c <> 63%N /\ c <> 35%N /\ c <> 47%N /\ c <> 32%N.
Proof. intros Hc. repeat split; by intros ->. Qed.

(** X4: [buildAuthUrl] appends the token as the query parameter [token],
    after [?] when the gateway URL has no query yet and after [&] when it
    has one.  A token made of unreserved characters is appended as it is;
    any other token without a lone surrogate is appended escaped, and the
    escaped text holds nothing but unreserved characters and [%], so no
    [&], [=], [?], [#], [/] or space of the token reaches the URL; a
    token with a lone surrogate makes the function throw. *)
Theorem buildAuthUrl_shape (gatewayUrl authToken : jsstring) :
  Forall (fun c => (c < 65536)%N) authToken ->
  let sep := if includes gatewayUrl (lit "?") then lit "&" else lit "?" in
  (Forall (fun c => is_unreserved c = true) authToken ->
   buildAuthUrl gatewayUrl authToken
   = Return (gatewayUrl ++ sep ++ lit "token=" ++ authToken))
  /\ (isWellFormed authToken = true ->
      exists enc,
        encodeURIComponent authToken = Return enc
        /\ buildAuthUrl gatewayUrl authToken
           = Return (gatewayUrl ++ sep ++ lit "token=" ++ enc)
        /\ Forall (fun c => is_component_char c = true) enc
        /\ Forall (fun c => c <> 38%N /\ c <> 61%N /\ c <> 63%N /\ c <> 35%N
                            /\ c <> 47%N /\ c <> 32%N) enc)
  /\ (isWellFormed authToken = false ->
      buildAuthUrl gatewayUrl authToken = Throw URIError).
Proof.
  intros Hunits sep. split; [|split].
  - intros Hun. unfold buildAuthUrl. fold sep.
    rewrite (encodeURIComponent_unreserved _ Hun). simpl.
    by rewrite <- !app_assoc.
  - intros Hwf.
    pose proof (encodeURIComponent_wellformed_aux (length authToken) authToken
                  ltac:(lia)) as Henc.
    rewrite Hwf in Henc. destruct Henc as [enc Henc].
    pose proof (encodeURIComponent_chars _ _ Hunits Henc) as Hchars.
    exists enc. split; [exact Henc|]. split; [|split; [exact Hchars|]].
    + unfold buildAuthUrl. fold sep. rewrite Henc. simpl.
      by rewrite <- !app_assoc.
    + eapply Forall_impl; [exact Hchars | apply component_char_plain].
  - intros Hwf.
    pose proof (encodeURIComponent_wellformed_aux (length authToken) authToken
                  ltac:(lia)) as Henc.
    rewrite Hwf in Henc. unfold buildAuthUrl. by rewrite Henc.
Qed.

Lemma buildAuthUrl_shape_witness :
  buildAuthUrl (lit "wss://gw/ws?v=3") (lit "s3cret-token_1")
  = Return (lit "wss://gw/ws?v=3&token=s3cret-token_1")
  /\ (exists enc,
        encodeURIComponent (lit "a b&c=d") = Return enc
        /\ buildAuthUrl (lit "wss://gw") (lit "a b&c=d")
           = Return (lit "wss://gw?token=" ++ enc)
        /\ enc = lit "a%20b%26c%3Dd")
  /\ buildAuthUrl (lit "wss://gw") [55357%N] = Throw URIError.
Proof.
  split; [|split].
  - apply (buildAuthUrl_shape (lit "wss://gw/ws?v=3") (lit "s3cret-token_1")).
    + repeat constructor.
    + repeat constructor.
  - destruct (buildAuthUrl_shape (lit "wss://gw") (lit "a b&c=d"))
      as (_ & Henc & _); [repeat constructor|].
    destruct (Henc eq_refl) as (enc & H1 & H2 & _).
    exists enc. split; [exact H1|]. split; [exact H2|].
    vm_compute in H1. by injection H1 as <-.
  - apply (buildAuthUrl_shape (lit "wss://gw") [55357%N]).
    + repeat constructor.
    + reflexivity.
Defined.

End UrlFacts.

(* ===================================================================== *)
(** * Properties of the store object *)
(* ===================================================================== *)

Section StoreApiFacts.
Import Store StoreApi.

Variable JSON_stringify : value -> jsstring.
Variable JSON_parse : jsstring -> completion value.

Lemma getDeviceId_cases (uuid : jsstring) (ls : gmap string jsstring) :
  (exists c old, ls !! DEVICE_KEY = Some (c :: old)
                 /\ getDeviceId uuid ls = (c :: old, ls))
  \/ ((ls !! DEVICE_KEY = None \/ ls !! DEVICE_KEY = Some [])
      /\ getDeviceId uuid ls = (uuid, <[DEVICE_KEY := uuid]> ls)).
Proof.
  unfold getDeviceId. destruct (ls !! DEVICE_KEY) as [[|c old]|]; eauto 6.
Qed.

Lemma getDeviceId_again (uuid uuid' : jsstring) (ls : gmap string jsstring) :
  uuid <> [] ->
  getDeviceId uuid' (getDeviceId uuid ls).2 = getDeviceId uuid ls.
Proof.
  intros Hne.
  destruct (getDeviceId_cases uuid ls) as [(c & old & Hls & ->) | [_ ->]].
  - simpl. unfold getDeviceId. by rewrite Hls.
  - simpl. unfold getDeviceId at 1. rewrite lookup_insert_eq.
    destruct uuid; [done|]. reflexivity.
Qed.

(** X5: once [getDeviceId] has run, the device id is fixed: it is not
    empty, [localStorage] holds it, every later call returns it and
    leaves the storage as it is, whatever [crypto.randomUUID()] would
    give then; an id the storage already held is returned unchanged; no
    other key of the storage is touched; and the state a start of the
    application loads carries exactly this id, whatever the saved state
    says. *)
Theorem device_id_is_stable (uuid uuid' : jsstring)
  (ls : gmap string jsstring) :
  uuid <> [] ->
  let id := (getDeviceId uuid ls).1 in
  let ls1 := (getDeviceId uuid ls).2 in
  id <> []
  /\ ls1 !! DEVICE_KEY = Some id
  /\ getDeviceId uuid' ls1 = (id, ls1)
  /\ (forall k, k <> DEVICE_KEY -> ls1 !! k = ls !! k)
  /\ (forall old, ls !! DEVICE_KEY = Some old -> old <> [] ->
        id = old /\ ls1 = ls)
  /\ (boot JSON_parse uuid ls).1 !! "deviceId" = Some (VStr id)
  /\ (boot JSON_parse uuid ls).2 = ls1.
Proof.
  intros Hne id ls1.
  assert (Hagain : forall u, getDeviceId u ls1 = (id, ls1)).
  { intros u. unfold ls1. rewrite getDeviceId_again by done.
    by destruct (getDeviceId uuid ls). }
  assert (Hid : id <> [] /\ ls1 !! DEVICE_KEY = Some id
                /\ (forall k, k <> DEVICE_KEY -> ls1 !! k = ls !! k)
                /\ (forall old, ls !! DEVICE_KEY = Some old -> old <> [] ->
                      id = old /\ ls1 = ls)).
  { unfold id, ls1.
    destruct (getDeviceId_cases uuid ls) as [(c & old & Hls & ->) | [Hls ->]];
      cbn [fst snd].
    - split; [done|]. split; [done|]. split; [done|].
      intros old' Hold _.
      pose proof (eq_trans (eq_sym Hold) Hls) as Heq. by injection Heq as ->.
    - split; [done|]. split; [apply lookup_insert_eq|].
      split; [intros k Hk; by rewrite lookup_insert_ne|].
      intros old Hold Hne'.
      destruct Hls as [Hls|Hls];
        pose proof (eq_trans (eq_sym Hold) Hls) as Heq;
        [done | by injection Heq as ->]. }
  destruct Hid as (H1 & H2 & H3 & H4).
  split; [exact H1|]. split; [exact H2|]. split; [apply Hagain|].
  split; [exact H3|]. split; [exact H4|].
  unfold boot. fold id ls1.
  destruct (getDeviceId uuid ls) as [id0 ls0] eqn:Hg.
  change id0 with id. change ls0 with ls1.
  unfold loadState. rewrite (Hagain uuid).
  destruct (ls1 !! STORAGE_KEY) as [[|c saved]|]; simpl;
    try (split; [|reflexivity]; unfold spread;
         rewrite (right_id_L ∅ (∪)); reflexivity).
  destruct (JSON_parse (c :: saved)) as [parsed|err]; simpl.
  - split; [apply lookup_insert_eq | reflexivity].
  - split; [|reflexivity]. unfold spread.
    rewrite (right_id_L ∅ (∪)). reflexivity.
Qed.

(** ** [store.update] *)

Lemma split_path_nonempty (path : string) : split_path path <> [].
Proof.
  destruct path as [|c path]; [done|]. simpl.
  destruct (Ascii.eqb c "."); [done|]. by destruct (split_path path).
Qed.

Lemma assign_path_cons (k : string) (ks : list string) (v : value)
  (o : gmap string value) :
  ks <> [] ->
  assign_path (k :: ks) v o
  = if sets_prototype k o then o
    else <[k := VObj (assign_path ks v
                        (own_props (default VUndefined (o !! k))))]> o.
Proof. by destruct ks. Qed.

Lemma lookup_path_cons (k : string) (ks : list string)
  (o : gmap string value) :
  ks <> [] ->
  lookup_path (k :: ks) o
  = lookup_path ks (own_props (default VUndefined (o !! k))).
Proof. by destruct ks. Qed.

Lemma assign_path_head (k : string) (ks : list string) (v : value)
  (o : gmap string value) :
  assign_path (k :: ks) v o = o
  \/ exists w, assign_path (k :: ks) v o = <[k := w]> o.
Proof.
  destruct ks; simpl; destruct (sets_prototype k o); eauto.
Qed.

Lemma sets_prototype_other (k : string) (o : gmap string value) :
  k <> "__proto__"%string -> sets_prototype k o = false.
Proof.
  intros Hk. unfold sets_prototype.
  destruct (String.eqb_spec k "__proto__"); [contradiction|reflexivity].
Qed.

Lemma lookup_assign_path (keys : list string) (v : value)
  (o : gmap string value) :
  keys <> [] -> "__proto__"%string ∉ keys ->
  lookup_path keys (assign_path keys v o) = Some v.
Proof.
  revert o. induction keys as [|k ks IH]; intros o Hne Hp; [done|].
  assert (Hk : sets_prototype k o = false).
  { apply sets_prototype_other. intros ->. apply Hp. left. }
  assert (Hks : "__proto__"%string ∉ ks).
  { intros Hin. apply Hp. by right. }
  destruct ks as [|k2 ks].
  { simpl. rewrite Hk. apply lookup_insert_eq. }
  rewrite assign_path_cons, Hk, lookup_path_cons by done.
  rewrite lookup_insert_eq. simpl default. cbn [own_props].
  by apply IH.
Qed.

Lemma diverge_nonempty (a b : list string) : diverge a b -> a <> [] /\ b <> [].
Proof. by destruct a, b. Qed.

Lemma lookup_assign_other (keys other : list string) (v : value)
  (o : gmap string value) :
  diverge keys other ->
  lookup_path other (assign_path keys v o) = lookup_path other o.
Proof.
  revert other o. induction keys as [|x keys IH]; intros other o Hd; [done|].
  destruct other as [|y other]; [done|].
  destruct Hd as [Hne | [<- Hd]].
  - destruct (assign_path_head x keys v o) as [-> | [w ->]]; [done|].
    destruct other as [|y2 other].
    + simpl. by rewrite lookup_insert_ne.
    + rewrite !lookup_path_cons by done. by rewrite lookup_insert_ne.
  - destruct (diverge_nonempty _ _ Hd) as [Hk Ho].
    rewrite assign_path_cons by done.
    destruct (sets_prototype x o); [done|].
    rewrite !lookup_path_cons by done.
    rewrite lookup_insert_eq. simpl default. cbn [own_props].
    by apply IH.
Qed.

(** An assignment to [__proto__] makes no property where the object has
    none of this name. *)
Lemma assign_proto (ks : list string) (v : value) (o : gmap string value) :
  o !! "__proto__" = None -> assign_path ("__proto__"%string :: ks) v o = o.
Proof.
  intros Ho. assert (Hs : sets_prototype "__proto__" o = true).
  { unfold sets_prototype. by rewrite Ho. }
  destruct ks; simpl; by rewrite Hs.
Qed.

(** X6: [store.update(path, value)] assigns at the path.  When no key of
    the path is [__proto__], the new state has the value at the path,
    every property on the way being a property of its object's own; at
    any path that parts ways with it the new state has, as properties of
    its objects' own, what the old state had (an array or a string on
    the way became a plain object with the same elements); an update at
    [__proto__] gives the state no property; the new state is saved
    without its [connection] property, so an update of [connection]
    rewrites the text that was saved for the state before; and every
    listener is called once with the new state, in the order of
    subscription. *)
Theorem update_assigns_path (path : string) (v : value) (s : Store) :
  let keys := split_path path in
  let s' := update JSON_stringify path v s in
  ("__proto__"%string ∉ keys -> lookup_path keys (state s') = Some v)
  /\ (forall other, diverge keys other ->
        lookup_path other (state s') = lookup_path other (state s))
  /\ (hd_error keys = Some "__proto__"%string ->
      state s !! "__proto__" = None -> state s' = state s)
  /\ storage s' !! STORAGE_KEY
     = Some (JSON_stringify (VObj (delete "connection" (state s'))))
  /\ (path = "connection"%string ->
      storage s' !! STORAGE_KEY
      = Some (JSON_stringify (VObj (delete "connection" (state s)))))
  /\ notified s'
     = notified s ++ map (fun fn => (fn, state s')) (listeners s)
  /\ listeners s' = listeners s.
Proof.
  intros keys s'.
  assert (Hst : state s' = assign_path keys v (state s)).
  { unfold s', update, commit, spread. simpl.
    by rewrite (right_id_L ∅ (∪)). }
  split; [|split; [|split; [|split; [|split; [|split]]]]].
  - intros Hp. rewrite Hst. by apply lookup_assign_path, Hp; apply split_path_nonempty.
  - intros other Hd. rewrite Hst. by apply lookup_assign_other.
  - intros Hhd Hno. rewrite Hst. destruct keys as [|k ks]; [done|].
    injection Hhd as ->. by apply assign_proto.
  - unfold s', update, commit, saveState, persistable. simpl.
    by rewrite lookup_insert_eq.
  - intros ->. unfold s', update, commit, saveState, persistable, spread.
    simpl. rewrite lookup_insert_eq, (right_id_L ∅ (∪)).
    change (sets_prototype "connection" (state s)) with false. cbn iota.
    by rewrite delete_insert_eq.
  - reflexivity.
  - reflexivity.
Qed.

(** ** The queue *)



(** ** The listeners *)

Lemma calls_of_app (fn : nat) (l1 l2 : list (nat * gmap string value)) :
  calls_of fn (l1 ++ l2) = calls_of fn l1 ++ calls_of fn l2.
Proof. unfold calls_of. by rewrite filter_app, map_app. Qed.

Lemma calls_of_absent (fn : nat) (st : gmap string value) (l : list nat) :
  fn ∉ l -> calls_of fn (map (fun g => (g, st)) l) = [].
Proof.
  induction l as [|g l IH]; intros Hnot; [done|].
  apply not_elem_of_cons in Hnot as [Hne Hnot].
  unfold calls_of in *. simpl. rewrite filter_cons, decide_False by (simpl; congruence).
  by apply IH.
Qed.

Lemma calls_of_once (fn : nat) (st : gmap string value) (l : list nat) :
  NoDup l -> fn ∈ l -> calls_of fn (map (fun g => (g, st)) l) = [st].
Proof.
  induction 1 as [|g l Hg Hl IH]; intros Hin; [by apply elem_of_nil in Hin|].
  change (g :: l) with ([g] ++ l). rewrite map_app, calls_of_app.
  apply elem_of_cons in Hin as [<- | Hin].
  - rewrite (calls_of_absent fn st l Hg), app_nil_r.
    unfold calls_of. simpl. by rewrite filter_cons, decide_True.
  - rewrite (IH Hin).
    assert (g <> fn) by (intros ->; done).
    unfold calls_of at 1. simpl.
    by rewrite filter_cons, decide_False by (simpl; congruence).
Qed.

Lemma subscribe_listeners (fn : nat) (s : Store) :
  NoDup (listeners s) ->
  NoDup (listeners (subscribe fn s)) /\ fn ∈ listeners (subscribe fn s).
Proof.
  intros Hnd. unfold subscribe.
  destruct (bool_decide_reflect (fn ∈ listeners s)) as [Hin|Hnot]; [done|].
  simpl. split.
  - apply NoDup_app. split; [done|]. split; [|apply NoDup_singleton].
    intros g Hg Hg'. apply list_elem_of_singleton in Hg' as ->. done.
  - apply elem_of_app. right. by left.
Qed.

(** X8: a listener is called once for every change of the state, with
    the new state, however often it was subscribed; after the function
    [subscribe] returned has run it is not called any more; the other
    listeners are not affected by either. *)
Theorem listener_called_once_per_change (fn : nat)
  (partial : gmap string value) (s : Store) :
  NoDup (listeners s) ->
  let s1 := subscribe fn (subscribe fn s) in
  let s2 := set JSON_stringify partial s1 in
  let s3 := set JSON_stringify partial (unsubscribe fn s2) in
  state s2 = spread (state s) partial
  /\ calls_of fn (notified s2) = calls_of fn (notified s) ++ [state s2]
  /\ calls_of fn (notified s3) = calls_of fn (notified s2)
  /\ (forall g, g <> fn -> g ∈ listeners s ->
        calls_of g (notified s3)
        = calls_of g (notified s) ++ [state s2; state s3])
  /\ NoDup (listeners s3).
Proof.
  intros Hnd. cbv zeta.
  destruct (subscribe_listeners fn s Hnd) as [Hnd1 Hin1].
  replace (subscribe fn (subscribe fn s)) with (subscribe fn s)
    by (unfold subscribe at 2; by rewrite bool_decide_eq_true_2).
  assert (Hst1 : state (subscribe fn s) = state s
                 /\ notified (subscribe fn s) = notified s).
  { unfold subscribe. by destruct (bool_decide _). }
  destruct Hst1 as [Hst1 Hno1].
  assert (Hl1 : forall g, g <> fn -> g ∈ listeners s ->
                  g ∈ listeners (subscribe fn s)).
  { intros g Hg Hin. unfold subscribe.
    destruct (bool_decide _); [done|]. simpl. apply elem_of_app. by left. }
  set (s1 := subscribe fn s) in *. clearbody s1.
  split; [unfold set, commit; simpl; by rewrite Hst1|].
  split.
  { unfold set, commit. simpl. rewrite calls_of_app, Hno1.
    by rewrite (calls_of_once fn _ _ Hnd1 Hin1). }
  assert (Hnd3 : NoDup (filter (fun g => g <> fn) (listeners s1)))
    by (by apply NoDup_filter).
  split.
  { unfold set, commit, unsubscribe. simpl. rewrite calls_of_app.
    rewrite (calls_of_absent fn), app_nil_r; [done|].
    intros Hin. apply list_elem_of_filter in Hin as [Hne _]. done. }
  split; [|exact Hnd3].
  intros g Hg Hin. unfold set, commit, unsubscribe. simpl.
  rewrite !calls_of_app, Hno1.
  rewrite (calls_of_once g _ _ Hnd1 (Hl1 g Hg Hin)).
  rewrite (calls_of_once g _ _ Hnd3);
    [by rewrite <- app_assoc|].
  apply list_elem_of_filter. split; [done | by apply Hl1].
Qed.

End StoreApiFacts.

Section StoreApiWitnesses.
Import Store StoreApi.

Lemma device_id_is_stable_witness :
  let saved := codec_stringify (VObj {[ "deviceId" := VStr (lit "other") ]}) in
  (getDeviceId (lit "uuid-2") (getDeviceId (lit "uuid-1") ∅).2).1
  = lit "uuid-1"
  /\ (boot codec_parse (lit "uuid-1") (<[STORAGE_KEY := saved]> ∅)).1
       !! "deviceId"
     = Some (VStr (lit "uuid-1")).
Proof.
  intros saved. split.
  - pose proof (device_id_is_stable codec_parse (lit "uuid-1") (lit "uuid-2") ∅
                  ltac:(discriminate)) as (_ & _ & H & _).
    cbv zeta in H. by rewrite H.
  - pose proof (device_id_is_stable codec_parse (lit "uuid-1") (lit "uuid-2")
                  (<[STORAGE_KEY := saved]> ∅)
                  ltac:(discriminate)) as (_ & _ & _ & _ & _ & H & _).
    cbv zeta in H. exact H.
Defined.


Lemma listener_called_once_per_change_witness :
  let s2 := set codec_stringify {[ "deviceId" := VStr (lit "d") ]}
              (subscribe 7 (subscribe 7 sample_store)) in
  calls_of 7 (notified s2) = [state s2].
Proof.
  intros s2.
  destruct (listener_called_once_per_change codec_stringify 7
              {[ "deviceId" := VStr (lit "d") ]} sample_store)
    as (_ & H & _).
  - apply NoDup_singleton.
  - exact H.
Defined.

End StoreApiWitnesses.

(* ===================================================================== *)
(** * More properties of the connection engine *)
(* ===================================================================== *)

Section ConnectionApiFacts.
Import Connection ConnectionApi.

Tactic Notation "fields" :=
  cbn beta iota zeta delta
    [
      ws heartbeatTimer reconnectTimer connectTimer reconnectAttempt
      authenticated connectSent currentAuthToken connectId
      challengeNonce deviceIdentity lastTick conn_state conn_error
      pendingQueue settings timers next_timer wire emitted signing
      set_ws set_heartbeatTimer set_reconnectTimer set_connectTimer
      set_reconnectAttempt set_authenticated set_connectSent
      set_currentAuthToken set_connectId set_challengeNonce
      set_deviceIdentity set_lastTick set_conn_state set_conn_error
      set_pendingQueue set_settings set_timers set_next_timer set_wire
      set_emitted set_signing
      setState setTimer clearTimer fst snd ].
Tactic Notation "fields" "in" hyp(H) :=
  cbn beta iota zeta delta
    [
      ws heartbeatTimer reconnectTimer connectTimer reconnectAttempt
      authenticated connectSent currentAuthToken connectId
      challengeNonce deviceIdentity lastTick conn_state conn_error
      pendingQueue settings timers next_timer wire emitted signing
      set_ws set_heartbeatTimer set_reconnectTimer set_connectTimer
      set_reconnectAttempt set_authenticated set_connectSent
      set_currentAuthToken set_connectId set_challengeNonce
      set_deviceIdentity set_lastTick set_conn_state set_conn_error
      set_pendingQueue set_settings set_timers set_next_timer set_wire
      set_emitted set_signing
      setState setTimer clearTimer fst snd ] in H.

(** ** Steps that keep the timers *)

Lemma same_timers_refl (e : Engine) : same_timers e e.
Proof. by repeat split. Qed.

Lemma same_timers_trans (e1 e2 e3 : Engine) :
  same_timers e1 e2 -> same_timers e2 e3 -> same_timers e1 e3.
Proof.
  intros (A1 & A2 & A3 & A4 & A5 & A6) (B1 & B2 & B3 & B4 & B5 & B6).
  repeat split; congruence.
Qed.

Lemma send_same (f : Outbound) (e : Engine) : same_timers e (send f e).2.
Proof.
  unfold send. destruct (ws e) as [sock|]; [|apply same_timers_refl].
  destruct (readyState sock); by repeat split.
Qed.

Lemma emit_same (ev : jsstring) (f : Frame) (h : Host) (e : Engine) :
  same_timers e (emit ev f h e).
Proof.
  unfold emit. destruct (str_eqb ev (lit "tick")); [|by repeat split].
  destruct (lastTick _); by repeat split.
Qed.

Lemma finishConnect_same (d : option DeviceBlock) (h : Host) (e : Engine) :
  same_timers e (finishConnect d h e).
Proof.
  unfold finishConnect.
  exact (send_same _ (set_connectId (Some (randomUUID h 0)) e)).
Qed.

Lemma resumeConnect_same (sig : jsstring) (h : Host) (e : Engine) :
  same_timers e (resumeConnect sig h e).
Proof.
  unfold resumeConnect. destruct (signing e) as [|job jobs];
    [apply same_timers_refl|].
  destruct (deviceIdentity (set_signing jobs e)) as [ident|].
  - exact (finishConnect_same _ h (set_signing jobs e)).
  - by repeat split.
Qed.

Lemma flush_items_timers (k : jsstring) (h : Host) (items : list QueueItem)
  (n : nat) (e : Engine) :
  same_timers e (flush_items k h n items e).
Proof.
  revert n e. induction items as [|i items IH]; intros n e;
    [apply same_timers_refl|].
  cbn [flush_items].
  pose proof (send_same (ChatSend (randomUUID h n) k (text i)
                           (idempotencyKey i)) e) as Hs.
  destruct (send _ e) as [sent e']. cbn [snd] in Hs.
  eapply same_timers_trans; [|apply IH].
  destruct sent; [|exact Hs].
  destruct Hs as (A1 & A2 & A3 & A4 & A5 & A6). by repeat split.
Qed.

Lemma flushQueue_timers (s : Settings) (h : Host) (e : Engine) :
  same_timers e (flushQueue s h e).
Proof.
  unfold flushQueue. destruct (pendingQueue e); [apply same_timers_refl|].
  apply flush_items_timers.
Qed.

Lemma sendMessage_same (msg : jsstring) (h : Host) (e : Engine) :
  same_timers e (sendMessage msg h e).2.
Proof.
  unfold sendMessage. destruct (authenticated e); [|apply same_timers_refl].
  cbn [negb].
  pose proof (send_same (ChatSend (randomUUID h 0)
                           (Protocol.getSessionKey (agentId (settings e)))
                           msg (randomUUID h 1)) e) as Hs.
  destruct (send _ e) as [sent e']. by destruct sent.
Qed.

(** ** Tidy states *)

Lemma tidy_blank (e : Engine) : timers e = ∅ -> tidy e.
Proof.
  intros Ht. split.
  - intros t tm. by rewrite Ht, lookup_empty.
  - intros t tm. by rewrite Ht, lookup_empty.
  - intros sock t tm _ _. by rewrite Ht, lookup_empty.
Qed.

Lemma tidy_same (e e' : Engine) : same_timers e e' -> tidy e -> tidy e'.
Proof.
  intros (A1 & A2 & A3 & A4 & A5 & A6) [T1 T2 T3]. split.
  - intros t tm. rewrite A1. intros Htm. specialize (T1 t tm Htm).
    unfold held in *. destruct (kind tm); congruence.
  - intros t tm. rewrite A1, A2. apply T2.
  - intros sock t tm. rewrite A1, A3. apply T3.
Qed.

(** Fewer timers, each still held, and the same socket. *)
Lemma tidy_fewer (e e' : Engine) :
  tidy e ->
  (forall t tm, timers e' !! t = Some tm ->
     timers e !! t = Some tm /\ held e' t tm) ->
  next_timer e' = next_timer e ->
  (forall sock, ws e' = Some sock -> readyState sock = WS_CONNECTING ->
     ws e = Some sock) ->
  tidy e'.
Proof.
  intros [T1 T2 T3] Hsub Hn Hws. split.
  - intros t tm Htm. by apply Hsub.
  - intros t tm Htm. rewrite Hn. apply (T2 t tm). by apply Hsub.
  - intros sock t tm H1 H2 Htm.
    apply (T3 sock t tm (Hws sock H1 H2) H2). by apply Hsub.
Qed.

Lemma cleanup_timers (e : Engine) (t : nat) (tm : Timer) :
  timers (cleanup e) !! t = Some tm ->
  timers e !! t = Some tm /\ heartbeatTimer e <> Some t
  /\ reconnectTimer e <> Some t /\ connectTimer e <> Some t.
Proof.
  destruct e as [w hb rc ct]. unfold cleanup, stopHeartbeat.
  destruct hb as [a|], rc as [b|], ct as [c|]; simpl;
    rewrite ?lookup_delete_Some; intros H; repeat split;
    try tauto; try done; intros [= ->]; tauto.
Qed.

Lemma cleanup_empties (e : Engine) : tidy e -> timers (cleanup e) = ∅.
Proof.
  intros [T1 _ _]. apply map_empty. intros t.
  destruct (timers (cleanup e) !! t) as [tm|] eqn:Htm; [|done].
  apply cleanup_timers in Htm as (Htm & H1 & H2 & H3).
  specialize (T1 t tm Htm). unfold held in T1. by destruct (kind tm).
Qed.

Lemma connect_empties (s : Settings) (ident : option Identity)
  (sock : completion nat) (e : Engine) :
  tidy e -> timers (connect s ident sock e) = ∅.
Proof.
  intros Ht. unfold connect. pose proof (cleanup_empties e Ht) as Hc.
  set (c := cleanup e) in *. clearbody c. by destruct sock.
Qed.

Lemma disconnect_empties (e : Engine) : tidy e -> timers (disconnect e) = ∅.
Proof.
  intros Ht. unfold disconnect. pose proof (cleanup_empties e Ht) as Hc.
  set (c := cleanup e) in *. clearbody c. done.
Qed.

(** A fresh timer of a kind of which none is pending. *)
Lemma tidy_setTimer (k : TimerKind) (d : Q) (e e' : Engine) :
  tidy e ->
  (forall t tm, timers e !! t = Some tm -> kind tm <> k
     /\ forall k', k = T_reconnect k' -> forall k'', kind tm <> T_reconnect k'') ->
  timers e' = <[next_timer e := mkTimer k d]> (timers e) ->
  next_timer e' = S (next_timer e) ->
  held e' (next_timer e) (mkTimer k d) ->
  (forall t tm, timers e !! t = Some tm -> held e t tm -> held e' t tm) ->
  (forall sock, ws e' = Some sock -> readyState sock = WS_CONNECTING ->
     k <> T_connect /\ ws e = Some sock) ->
  tidy e'.
Proof.
  intros [T1 T2 T3] Hnone Ht Hn Hnew Hold Hws. split.
  - intros t tm. rewrite Ht. intros Htm.
    apply lookup_insert_Some in Htm as [[<- <-] | [Hne Htm]]; [exact Hnew|].
    apply Hold; [exact Htm | by apply T1].
  - intros t tm. rewrite Ht, Hn. intros Htm.
    apply lookup_insert_Some in Htm as [[<- <-] | [Hne Htm]]; [lia|].
    specialize (T2 t tm Htm). lia.
  - intros sock t tm H1 H2. rewrite Ht. intros Htm.
    destruct (Hws sock H1 H2) as [Hk Hw].
    apply lookup_insert_Some in Htm as [[<- <-] | [Hne Htm]]; [exact Hk|].
    by apply (T3 sock t tm).
Qed.

Lemma tidy_clearTimer (t : nat) (e : Engine) : tidy e -> tidy (clearTimer t e).
Proof.
  intros Ht. apply (tidy_fewer e); [exact Ht | | done | by intros sock].
  intros t' tm. unfold clearTimer. fields. intros Htm.
  apply lookup_delete_Some in Htm as [_ Htm]. split; [exact Htm|].
  by apply (tidy_held e Ht).
Qed.

Lemma tidy_stopHeartbeat (e : Engine) :
  tidy e ->
  tidy (stopHeartbeat e)
  /\ (forall t tm, timers (stopHeartbeat e) !! t = Some tm ->
        kind tm <> T_heartbeat /\ timers e !! t = Some tm)
  /\ next_timer (stopHeartbeat e) = next_timer e
  /\ ws (stopHeartbeat e) = ws e
  /\ reconnectTimer (stopHeartbeat e) = reconnectTimer e
  /\ connectTimer (stopHeartbeat e) = connectTimer e.
Proof.
  intros Ht. unfold stopHeartbeat.
  destruct (heartbeatTimer e) as [t0|] eqn:Hhb.
  - split; [|split; [|done]].
    + apply (tidy_fewer e); [exact Ht | | done | by intros sock].
      intros t tm. fields. intros Htm.
      apply lookup_delete_Some in Htm as [Hne Htm]. split; [exact Htm|].
      pose proof (tidy_held e Ht t tm Htm) as Hh. unfold held in *. fields.
      destruct (kind tm); [exact Hh | exact Hh | congruence].
    + intros t tm. fields. intros Htm.
      apply lookup_delete_Some in Htm as [Hne Htm]. split; [|exact Htm].
      pose proof (tidy_held e Ht t tm Htm) as Hh. unfold held in Hh.
      destruct (kind tm); [done | done | congruence].
  - split; [exact Ht|]. split; [|done].
    intros t tm Htm. split; [|exact Htm].
    pose proof (tidy_held e Ht t tm Htm) as Hh. unfold held in Hh.
    destruct (kind tm); [done | done | congruence].
Qed.

Lemma tidy_startHeartbeat (h : Host) (e : Engine) :
  tidy e -> tidy (startHeartbeat h e).
Proof.
  intros Ht. unfold startHeartbeat.
  destruct (tidy_stopHeartbeat e Ht) as (Hs & Hnone & Hn & Hws & Hr & Hc).
  set (c := stopHeartbeat e) in *. clearbody c.
  eapply (tidy_setTimer T_heartbeat (inject_Z HEARTBEAT_INTERVAL) c);
    [exact Hs | | reflexivity | reflexivity | reflexivity | | ].
  - intros t tm Htm. split; [exact (proj1 (Hnone t tm Htm)) | done].
  - intros t tm Htm Hh. unfold held in *. fields.
    destruct (kind tm) eqn:Hk; [exact Hh | exact Hh |].
    by destruct (Hnone t tm Htm).
  - intros sock. fields. intros H1 H2. by split.
Qed.

Lemma tidy_scheduleReconnect (s : Settings) (h : Host) (e : Engine) :
  timers e = ∅ -> tidy (scheduleReconnect s h e).
Proof.
  intros Hempty. unfold scheduleReconnect.
  eapply (tidy_setTimer (T_reconnect s) (getReconnectDelay h e) e);
    [by apply tidy_blank | | reflexivity | reflexivity | reflexivity | | ].
  - intros t tm. by rewrite Hempty, lookup_empty.
  - intros t tm. by rewrite Hempty, lookup_empty.
  - intros sock. fields. intros H1 H2. by split.
Qed.

Lemma tidy_sendConnect (h : Host) (e : Engine) :
  tidy e -> tidy (sendConnect h e).
Proof.
  intros Ht. unfold sendConnect. destruct (connectSent e); [exact Ht|].
  assert (H1 : tidy
            match connectTimer (set_connectSent true e) with
            | Some t => set_connectTimer None (clearTimer t (set_connectSent true e))
            | None => set_connectSent true e
            end).
  { fields. destruct (connectTimer e) as [t0|] eqn:Hct.
    - apply (tidy_fewer e); [exact Ht | | done | by intros sock].
      intros t tm. fields. intros Htm.
      apply lookup_delete_Some in Htm as [Hne Htm]. split; [exact Htm|].
      pose proof (tidy_held e Ht t tm Htm) as Hh. unfold held in *. fields.
      destruct (kind tm); [congruence | exact Hh | exact Hh].
    - by apply (tidy_same e). }
  set (e1 := match connectTimer (set_connectSent true e) with
             | Some t => _ | None => _ end) in *.
  clearbody e1. destruct (deviceIdentity e1) as [ident|].
  - by apply (tidy_same e1).
  - apply (tidy_same e1); [apply finishConnect_same | exact H1].
Qed.

Lemma tidy_handleMessage (frame : Inbound) (s : Settings) (h : Host)
  (e : Engine) :
  tidy e -> tidy (handleMessage frame s h e).
Proof.
  intros Ht. destruct frame as [|f id_null odd]; [exact Ht|].
  unfold handleMessage.
  destruct (eq_lit (ftype f) "event" && eq_lit (fevent f) "connect.challenge").
  { apply tidy_sendConnect. by apply (tidy_same e). }
  destruct (eq_lit (ftype f) "res" && _).
  - destruct (negb _ && negb _).
    + apply (tidy_same _ _ (emit_same _ _ _ _)).
      apply (tidy_same _ _ (flushQueue_timers _ _ _)).
      apply tidy_startHeartbeat. by apply (tidy_same e).
    + cbv zeta. set (errMsg := error_message f odd). clearbody errMsg.
      destruct (str_eqb _ _); [by apply (tidy_same e)|].
      destruct (errMsg_includes errMsg NOT_PAIRED) as [[|]|].
      * by apply (tidy_same e).
      * apply tidy_blank, cleanup_empties. by apply (tidy_same e).
      * exact Ht.
  - set (e1 := emit (or_else (ftype f) (lit "message")) f h e).
    assert (H1 : tidy e1) by (apply (tidy_same e); [apply emit_same | done]).
    clearbody e1. destruct (or_null (fevent f)); [|exact H1].
    apply (tidy_same e1); [apply emit_same | done].
Qed.

Lemma tidy_onopen (e : Engine) (sock : Socket) :
  tidy e -> ws e = Some sock -> readyState sock = WS_CONNECTING ->
  tidy (onopen e).
Proof.
  intros Ht Hws Hrs. unfold onopen. rewrite Hws.
  eapply (tidy_setTimer T_connect (inject_Z CONNECT_SEND_DELAY) e);
    [exact Ht | | reflexivity | reflexivity | reflexivity | | ].
  - intros t tm Htm. split; [|done].
    by apply (tidy_connecting e Ht sock t tm).
  - intros t tm Htm Hh. unfold held in *. fields.
    destruct (kind tm) eqn:Hk; [|exact Hh|exact Hh].
    by destruct (tidy_connecting e Ht sock t tm Hws Hrs Htm).
  - intros sock'. fields. intros [= <-]. done.
Qed.

Lemma tidy_set_ws (sock : Socket) (e : Engine) :
  tidy e -> readyState sock <> WS_CONNECTING -> tidy (set_ws (Some sock) e).
Proof.
  intros Ht Hrs. apply (tidy_fewer e); [exact Ht | | done | ].
  - intros t tm Htm. split; [exact Htm|]. by apply (tidy_held e Ht).
  - intros sock'. fields. by intros [= <-].
Qed.

Lemma tidy_onclose (h : Host) (e : Engine) : tidy e -> tidy (onclose h e).
Proof.
  intros Ht. unfold onclose. destruct (ws e) as [sock|] eqn:Hws; [|exact Ht].
  assert (Hc : timers (cleanup (set_ws (Some (mkSocket (sock_id sock) WS_CLOSED
                                                 (sock_settings sock))) e)) = ∅).
  { apply cleanup_empties. by apply tidy_set_ws. }
  set (c := cleanup _) in *. clearbody c.
  destruct (conn_state e); try (by apply tidy_scheduleReconnect);
    by apply tidy_blank.
Qed.

Lemma tidy_fire (t : nat) (ident : option Identity) (sock : completion nat)
  (h : Host) (e : Engine) :
  tidy e -> tidy (fire t ident sock h e).
Proof.
  intros Ht. unfold fire. destruct (timers e !! t) as [tm|]; [|exact Ht].
  destruct (kind tm) as [|s|].
  - by apply tidy_sendConnect, tidy_clearTimer.
  - by apply tidy_blank, connect_empties, tidy_clearTimer.
  - destruct (lastTick e) as [tick|]; [|exact Ht].
    destruct (_ >? _)%Z; [|exact Ht].
    by apply tidy_scheduleReconnect, cleanup_empties.
Qed.

Lemma tidy_onmessage (frame : Inbound) (h : Host) (e : Engine) :
  tidy e -> tidy (onmessage frame h e).
Proof.
  intros Ht. unfold onmessage. destruct (ws e); [|exact Ht].
  by apply tidy_handleMessage.
Qed.

(** Every step keeps the timers tidy; a socket opens once, while it is
    connecting. *)
Lemma step_tidy (h : Host) (ev : Event) (e : Engine) :
  tidy e ->
  (ev = EOpen ->
   exists sock, ws e = Some sock /\ readyState sock = WS_CONNECTING) ->
  tidy (step h ev e).
Proof.
  intros Ht Hopen.
  destruct ev as [s ident sock| | |f| |t ident sock|sig]; cbn [step].
  - by apply tidy_blank, connect_empties.
  - by apply tidy_blank, disconnect_empties.
  - destruct (Hopen eq_refl) as (sock & Hws & Hrs).
    by apply (tidy_onopen e sock).
  - by apply tidy_onmessage.
  - by apply tidy_onclose.
  - by apply tidy_fire.
  - apply (tidy_same e); [apply resumeConnect_same | exact Ht].
Qed.

(** [cleanup] clears the timers the three variables hold, and no
    other. *)
Lemma cleanup_clears_held (e : Engine) (t : nat) (tm : Timer) :
  timers (cleanup e) !! t = Some tm
  <-> timers e !! t = Some tm /\ heartbeatTimer e <> Some t
      /\ reconnectTimer e <> Some t /\ connectTimer e <> Some t.
Proof.
  split; [apply cleanup_timers|].
  destruct e as [w hb rc ct]. unfold cleanup, stopHeartbeat.
  destruct hb as [a|], rc as [b|], ct as [c|]; simpl;
    rewrite ?lookup_delete_Some; intros (H & H1 & H2 & H3);
    repeat split; try exact H; intros ->; congruence.
Qed.

(** ** Steps that only send *)

Lemma only_sends_refl (e : Engine) : only_sends e e.
Proof. reflexivity. Qed.

Lemma only_sends_trans (e1 e2 e3 : Engine) :
  only_sends e1 e2 -> only_sends e2 e3 -> only_sends e1 e3.
Proof.
  unfold only_sends. intros H12 H23.
  etransitivity; [exact H23|].
  etransitivity;
    [exact (f_equal (fun x => set_pendingQueue (pendingQueue e3)
                                (set_wire (wire e3) x)) H12) | reflexivity].
Qed.

Lemma send_only (f : Outbound) (e : Engine) : only_sends e (send f e).2.
Proof.
  unfold send. destruct (ws e) as [sock|]; [|reflexivity].
  destruct (readyState sock); reflexivity.
Qed.

Lemma flush_items_only (k : jsstring) (h : Host) (items : list QueueItem)
  (n : nat) (e : Engine) :
  only_sends e (flush_items k h n items e).
Proof.
  revert n e. induction items as [|i items IH]; intros n e; [reflexivity|].
  cbn [flush_items].
  pose proof (send_only (ChatSend (randomUUID h n) k (text i)
                           (idempotencyKey i)) e) as Hs.
  destruct (send _ e) as [sent e']. cbn [snd] in Hs.
  eapply only_sends_trans; [|apply IH].
  destruct sent; [|exact Hs]. unfold only_sends in *.
  etransitivity; [exact (f_equal (set_pendingQueue _) Hs) | reflexivity].
Qed.

Lemma flushQueue_only (s : Settings) (h : Host) (e : Engine) :
  only_sends e (flushQueue s h e).
Proof.
  unfold flushQueue. destruct (pendingQueue e); [reflexivity|].
  apply flush_items_only.
Qed.

Lemma emit_only (ev : jsstring) (f : Frame) (h : Host) (e : Engine) :
  only_emits e (emit ev f h e)
  /\ emitted (emit ev f h e) = emitted e ++ [(ev, f)]
  /\ lastTick (emit ev f h e)
     = (if str_eqb ev (lit "tick")
        then (match lastTick e with Some _ => Some (now h) | None => None end)
        else lastTick e).
Proof.
  unfold emit. destruct (str_eqb ev (lit "tick")); [|by repeat split].
  by destruct (lastTick e) eqn:Hl; fields; rewrite ?Hl.
Qed.

(** X9: [gateway.sendMessage] sends only on an authenticated engine
    whose socket is open.  Without authentication the promise is rejected
    with "Not authenticated" and nothing is sent; authenticated but
    without an open socket it is rejected with "Not connected"; otherwise
    exactly one [chat.send] request goes out, for the session of the
    configured agent, with a fresh request id and a fresh idempotency
    key, and the promise is fulfilled with it.  In no case is the
    message put in the offline queue or any other variable changed:
    queueing a message that could not be sent is left to the caller. *)
Theorem sendMessage_outcomes (msg : jsstring) (h : Host) (e : Engine) :
  let payload :=
    ChatSend (randomUUID h 0) (Protocol.getSessionKey (agentId (settings e)))
             msg (randomUUID h 1) in
  (authenticated e = false ->
   sendMessage msg h e = (Throw (lit "Not authenticated"), e))
  /\ (authenticated e = true ->
      forall sock, ws e = Some sock -> readyState sock = WS_OPEN ->
        sendMessage msg h e
        = (Return payload, set_wire (wire e ++ [(sock_id sock, payload)]) e))
  /\ (authenticated e = true ->
      (forall sock, ws e = Some sock -> readyState sock <> WS_OPEN) ->
      sendMessage msg h e = (Throw (lit "Not connected"), e))
  /\ only_sends e (sendMessage msg h e).2
  /\ pendingQueue (sendMessage msg h e).2 = pendingQueue e
  /\ (isConnected e = false -> authenticated e = true ->
      conn_state e <> CONNECTED).
Proof.
  intros payload. split; [|split; [|split; [|split; [|split]]]].
  - intros Ha. unfold sendMessage. by rewrite Ha.
  - intros Ha sock Hws Hopen. unfold sendMessage, send.
    by rewrite Ha, Hws, Hopen.
  - intros Ha Hclosed. unfold sendMessage, send. rewrite Ha. cbn [negb].
    destruct (ws e) as [sock|] eqn:Hws; [|done].
    destruct (readyState sock) eqn:Hrs; try done. by destruct (Hclosed sock).
  - unfold sendMessage. destruct (authenticated e); [|reflexivity].
    cbn [negb]. pose proof (send_only payload e) as Hs. fold payload.
    destruct (send payload e) as [sent e']. by destruct sent.
  - unfold sendMessage, send. destruct (authenticated e); [|reflexivity].
    cbn [negb]. destruct (ws e) as [sock|]; [|reflexivity].
    by destruct (readyState sock).
  - unfold isConnected. intros Hc Ha. rewrite Ha in Hc. cbn [andb] in Hc.
    by apply bool_decide_eq_false_1 in Hc.
Qed.

(** ** The heartbeat *)

Lemma startHeartbeat_fields (h : Host) (e : Engine) :
  let e1 := startHeartbeat h e in
  lastTick e1 = Some (now h)
  /\ heartbeatTimer e1 = Some (next_timer e)
  /\ timers e1 !! next_timer e
     = Some (mkTimer T_heartbeat (inject_Z HEARTBEAT_INTERVAL))
  /\ ws e1 = ws e /\ wire e1 = wire e /\ pendingQueue e1 = pendingQueue e
  /\ authenticated e1 = authenticated e /\ conn_state e1 = conn_state e
  /\ conn_error e1 = conn_error e /\ reconnectAttempt e1 = reconnectAttempt e
  /\ emitted e1 = emitted e.
Proof.
  unfold startHeartbeat, stopHeartbeat.
  destruct (heartbeatTimer e) as [t|]; fields; repeat split;
    apply lookup_insert_eq.
Qed.

Lemma cleanup_keeps (e : Engine) :
  let e' := cleanup e in
  lastTick e' = lastTick e /\ emitted e' = emitted e
  /\ currentAuthToken e' = None /\ challengeNonce e' = None.
Proof.
  destruct e as [w hb rc ct]. unfold cleanup, stopHeartbeat.
  destruct hb, rc, ct; simpl; repeat split; reflexivity.
Qed.

(** X10: the heartbeat is a watchdog on the [tick] events of the server.
    [startHeartbeat] notes the time and sets an interval of 30 s; a frame
    that is forwarded as [tick] notes the time again; when the interval
    comes due and the last tick is at most 90 s old nothing happens, and
    when it is older the engine drops the socket, clears the interval and
    schedules a reconnect with the settings of the store and the delay
    of the current attempt. *)
Theorem heartbeat_is_a_watchdog (e : Engine) (h : Host) (t : nat) (d : Q)
  (tick : N) (ident : option Identity) (sock : completion nat) :
  timers e !! t = Some (mkTimer T_heartbeat d) -> lastTick e = Some tick ->
  let e1 := fire t ident sock h e in
  ((Z.of_N (now h) - Z.of_N tick <= 90000)%Z -> e1 = e)
  /\ ((Z.of_N (now h) - Z.of_N tick > 90000)%Z ->
      ws e1 = None /\ authenticated e1 = false /\ heartbeatTimer e1 = None
      /\ conn_state e1 = RECONNECTING
      /\ reconnectAttempt e1 = S (reconnectAttempt e)
      /\ pendingQueue e1 = pendingQueue e /\ wire e1 = wire e
      /\ (exists t',
            reconnectTimer e1 = Some t'
            /\ timers e1 !! t'
               = Some (mkTimer (T_reconnect (settings e))
                         (jittered (backoff (reconnectAttempt e)) (random h))))
      /\ (tidy e -> timers e1 !! t = None))
  /\ (forall h0 e0,
        lastTick (startHeartbeat h0 e0) = Some (now h0)
        /\ exists t0,
             heartbeatTimer (startHeartbeat h0 e0) = Some t0
             /\ timers (startHeartbeat h0 e0) !! t0
                = Some (mkTimer T_heartbeat (inject_Z 30000)))
  /\ (forall h1 s (f : Frame),
        is_challenge f = false -> is_connect_response f e = false ->
        ftype f = Some (lit "tick") \/ fevent f = Some (lit "tick") ->
        lastTick (handleMessage f s h1 e) = Some (now h1)).
Proof.
  intros Htm Htick e1.
  assert (He1 : e1 = if (Z.of_N (now h) - Z.of_N tick >? HEARTBEAT_INTERVAL * 3)%Z
                     then scheduleReconnect (settings e) h (cleanup e) else e).
  { unfold e1, fire. rewrite Htm. cbn [kind]. by rewrite Htick. }
  change (HEARTBEAT_INTERVAL * 3)%Z with 90000%Z in He1.
  split; [|split; [|split]].
  - intros Hle. rewrite He1.
    destruct (Z.gtb_spec (Z.of_N (now h) - Z.of_N tick) 90000); [lia|done].
  - intros Hgt. rewrite He1.
    destruct (Z.gtb_spec (Z.of_N (now h) - Z.of_N tick) 90000); [|lia].
    pose proof (cleanup_fields e)
      as (C1 & C2 & C3 & C4 & C5 & C6 & C7 & C8 & C9 & C10 & C11 & C12 & C13
          & C14 & C15 & C16).
    pose proof (cleanup_empties e) as Hempty.
    cbv zeta in *. set (c := cleanup e) in *. clearbody c.
    pose proof (scheduleReconnect_fields (settings e) h c)
      as (S1 & S2 & S3 & S4 & S5 & S6 & S7).
    cbv zeta in *. rewrite C8 in S3, S5.
    split; [congruence|].
    split; [unfold scheduleReconnect; fields; exact C5|].
    split; [unfold scheduleReconnect; fields; exact C2|].
    split; [exact S1|]. split; [exact S3|]. split; [congruence|].
    split; [unfold scheduleReconnect; fields; exact C15|].
    split; [by exists (next_timer c)|].
    intros Ht. unfold scheduleReconnect. fields.
    rewrite lookup_insert_ne, (Hempty Ht); [done|].
    pose proof (tidy_fresh e Ht t _ Htm). lia.
  - intros h0 e0. pose proof (startHeartbeat_fields h0 e0) as (H1 & H2 & H3 & _).
    cbv zeta in *. split; [exact H1|]. by exists (next_timer e0).
  - intros h1 s f Hch Hres Hty. unfold handleMessage, plain.
    unfold is_challenge, plain in Hch.
    unfold is_connect_response, plain in Hres.
    rewrite Hch, Hres.
    destruct (emit_only (or_else (ftype f) (lit "message")) f h1 e)
      as (_ & _ & Hl1).
    set (e2 := emit (or_else (ftype f) (lit "message")) f h1 e) in *.
    clearbody e2. rewrite Htick in Hl1.
    destruct Hty as [Hty|Hev].
    + rewrite Hty in Hl1. change (str_eqb _ _) with true in Hl1.
      destruct (or_null (fevent f)) as [ev|]; [|exact Hl1].
      destruct (emit_only ev f h1 e2) as (_ & _ & Hl2).
      rewrite Hl2, Hl1. by destruct (str_eqb ev (lit "tick")).
    + rewrite Hev.
      change (or_null (Some (lit "tick"))) with (Some (lit "tick")).
      destruct (emit_only (lit "tick") f h1 e2) as (_ & _ & Hl2).
      rewrite Hl2. change (str_eqb (lit "tick") (lit "tick")) with true.
      rewrite Hl1. by destruct (str_eqb _ _).
Qed.

(** X11: [disconnect] clears the timers the three variables hold and no
    other: a timer is pending afterwards exactly when it was pending
    before and none of the variables held it, so none is pending when
    every timer was held by its variable.  It leaves no socket and no
    authentication, the state DISCONNECTED without error, and the
    attempt counter, the offline queue and the frames sent as they were.
    After it a message is refused, and a signature that was still being
    computed sends nothing when it completes. *)
Theorem disconnect_leaves_nothing (e : Engine) :
  let e1 := disconnect e in
  (forall t tm,
     timers e1 !! t = Some tm
     <-> timers e !! t = Some tm /\ heartbeatTimer e <> Some t
         /\ reconnectTimer e <> Some t /\ connectTimer e <> Some t)
  /\ (tidy e -> timers e1 = ∅)
  /\ ws e1 = None /\ heartbeatTimer e1 = None
  /\ reconnectTimer e1 = None /\ connectTimer e1 = None
  /\ authenticated e1 = false /\ isConnected e1 = false
  /\ conn_state e1 = DISCONNECTED /\ conn_error e1 = None
  /\ reconnectAttempt e1 = reconnectAttempt e
  /\ pendingQueue e1 = pendingQueue e /\ wire e1 = wire e
  /\ (forall msg h,
        sendMessage msg h e1 = (Throw (lit "Not authenticated"), e1))
  /\ (forall sig h,
        wire (resumeConnect sig h e1) = wire e1
        /\ timers (resumeConnect sig h e1) = timers e1).
Proof.
  pose proof (cleanup_fields e)
    as (C1 & C2 & C3 & C4 & C5 & C6 & C7 & C8 & C9 & C10 & C11 & C12 & C13
        & C14 & C15 & C16).
  pose proof (cleanup_clears_held e) as Hclears.
  pose proof (cleanup_empties e) as Hempty.
  cbv zeta in *. unfold disconnect.
  set (c := cleanup e) in *. clearbody c.
  set (e1 := setState DISCONNECTED None c).
  assert (Hws : ws e1 = None) by exact C1.
  assert (Hau : authenticated e1 = false) by exact C5.
  split; [exact Hclears|]. split; [exact Hempty|].
  split; [exact Hws|]. split; [exact C2|].
  split; [exact C3|]. split; [exact C4|]. split; [exact Hau|].
  split; [unfold isConnected; by rewrite Hau|].
  split; [reflexivity|]. split; [reflexivity|]. split; [exact C8|].
  split; [exact C11|]. split; [exact C15|].
  split; [intros msg h; unfold sendMessage; by rewrite Hau|].
  intros sig h. pose proof (resumeConnect_same sig h e1) as (R1 & _).
  split; [|exact R1].
  unfold resumeConnect. destruct (signing e1) as [|job jobs]; [done|].
  destruct (deviceIdentity (set_signing jobs e1)) as [ident|]; [|done].
  unfold finishConnect, send. fields. by rewrite Hws.
Qed.

(** What an accepted answer does, whatever its [id] is. *)
Lemma accepted_answer (e : Engine) (h : Host) (f : Frame) (id_null : bool)
  (odd_message : option value) (sock : Socket) :
  ws e = Some sock -> readyState sock = WS_OPEN ->
  ftype f = Some (lit "res") -> same_id f id_null (connectId e) = true ->
  fok f <> Some false -> ferror f = None ->
  let e1 := onmessage (Fields f id_null odd_message) h e in
  authenticated e1 = true /\ isConnected e1 = true
  /\ conn_state e1 = CONNECTED /\ conn_error e1 = None
  /\ reconnectAttempt e1 = 0%nat
  /\ lastTick e1 = Some (now h)
  /\ heartbeatTimer e1 = Some (next_timer e)
  /\ timers e1 !! next_timer e = Some (mkTimer T_heartbeat (inject_Z 30000))
  /\ pendingQueue e1 = []
  /\ wire e1
     = wire e ++ imap (chat_of (Protocol.getSessionKey
                                  (agentId (sock_settings sock))) h
                               (sock_id sock)) (pendingQueue e)
  /\ emitted e1 = emitted e ++ [(lit "connected", f)]
  /\ ws e1 = Some sock.
Proof.
  intros Hws Hopen Hty Hid Hok Herr e1.
  set (e2 := set_conn_error None (set_conn_state CONNECTED
               (set_reconnectAttempt 0 (set_authenticated true e)))).
  assert (He1 : e1 = emit (lit "connected") f h
                       (flushQueue (sock_settings sock) h
                          (startHeartbeat h e2))).
  { unfold e1, onmessage. rewrite Hws. unfold handleMessage.
    rewrite Hty, Hid, Herr.
    rewrite (bool_decide_eq_false_2 (fok f = Some false)) by done.
    reflexivity. }
  pose proof (startHeartbeat_fields h e2)
    as (H1 & H2 & H3 & H4 & H5 & H6 & H7 & H8 & H9 & H10 & H11).
  cbv zeta in *. set (e3 := startHeartbeat h e2) in *. clearbody e3.
  assert (Hws3 : ws e3 = Some sock) by (rewrite H4; exact Hws).
  destruct (flushQueue_open (sock_settings sock) h sock e3 Hws3 Hopen)
    as [Hq Hw].
  pose proof (flushQueue_only (sock_settings sock) h e3) as Honly.
  set (e4 := flushQueue (sock_settings sock) h e3) in *. clearbody e4.
  destruct (emit_only (lit "connected") f h e4) as (Hem & Hem2 & Hem3).
  change (str_eqb (lit "connected") (lit "tick")) with false in Hem3.
  rewrite <- He1 in *. clearbody e1. unfold only_sends in Honly.
  unfold only_emits in Hem.
  assert (A1 : authenticated e1 = true).
  { transitivity (authenticated e3); [|by rewrite H7].
    rewrite Hem, Honly. reflexivity. }
  assert (A2 : conn_state e1 = CONNECTED).
  { transitivity (conn_state e3); [|by rewrite H8].
    rewrite Hem, Honly. reflexivity. }
  split; [exact A1|]. split; [unfold isConnected; by rewrite A1, A2|].
  split; [exact A2|].
  split. { transitivity (conn_error e3); [|by rewrite H9].
           rewrite Hem, Honly. reflexivity. }
  split. { transitivity (reconnectAttempt e3); [|by rewrite H10].
           rewrite Hem, Honly. reflexivity. }
  split. { rewrite Hem3. transitivity (lastTick e3); [|exact H1].
           rewrite Honly. reflexivity. }
  split. { transitivity (heartbeatTimer e3); [|exact H2].
           rewrite Hem, Honly. reflexivity. }
  split. { transitivity (timers e3 !! next_timer e); [|exact H3].
           rewrite Hem, Honly. reflexivity. }
  split. { transitivity (pendingQueue e4); [|exact Hq].
           rewrite Hem. reflexivity. }
  split. { transitivity (wire e4); [by rewrite Hem|].
           rewrite Hw, H5, H6. reflexivity. }
  split. { rewrite Hem2. f_equal. transitivity (emitted e3); [|exact H11].
           rewrite Honly. reflexivity. }
  transitivity (ws e3); [|exact Hws3]. rewrite Hem, Honly. reflexivity.
Qed.


(** X30: an answer whose [id] is [null] is taken for the answer to the
    connect request as long as no request was sent, [connectId] being
    [null] then: when it carries no error and its [ok] is not [false],
    the engine goes online as it does on the answer to its request,
    although it sent none; the guard [connectSent] and the variable of
    the send-delay timer stay as they were. *)
Theorem null_id_is_taken_for_the_answer (e : Engine) (h : Host) (f : Frame)
  (odd_message : option value) (sock : Socket) :
  ws e = Some sock -> readyState sock = WS_OPEN ->
  ftype f = Some (lit "res") -> connectId e = None ->
  fok f <> Some false -> ferror f = None ->
  let frame := Fields f true odd_message in
  let e1 := onmessage frame h e in
  is_connect_response frame e = true
  /\ authenticated e1 = true /\ isConnected e1 = true
  /\ conn_state e1 = CONNECTED /\ reconnectAttempt e1 = 0%nat
  /\ emitted e1 = emitted e ++ [(lit "connected", f)]
  /\ connectSent e1 = connectSent e /\ connectTimer e1 = connectTimer e.
Proof.
  intros Hws Hopen Hty Hcid Hok Herr frame e1.
  assert (Hid : same_id f true (connectId e) = true).
  { unfold same_id. by apply bool_decide_eq_true_2. }
  destruct (accepted_answer e h f true odd_message sock Hws Hopen Hty Hid
              Hok Herr)
    as (A1 & A2 & A3 & _ & A5 & _ & _ & _ & _ & _ & A11 & _).
  split. { unfold frame, is_connect_response. by rewrite Hty, Hid. }
  split; [exact A1|]. split; [exact A2|]. split; [exact A3|].
  split; [exact A5|]. split; [exact A11|].
  set (e2 := set_conn_error None (set_conn_state CONNECTED
               (set_reconnectAttempt 0 (set_authenticated true e)))).
  assert (He1 : e1 = emit (lit "connected") f h
                       (flushQueue (sock_settings sock) h
                          (startHeartbeat h e2))).
  { unfold e1, frame, onmessage. rewrite Hws. unfold handleMessage.
    rewrite Hty, Hid, Herr.
    rewrite (bool_decide_eq_false_2 (fok f = Some false)) by done.
    reflexivity. }
  assert (Hhb : connectTimer (startHeartbeat h e2) = connectTimer e
                /\ connectSent (startHeartbeat h e2) = connectSent e).
  { assert (Hx : forall x, connectTimer (startHeartbeat h x) = connectTimer x
                           /\ connectSent (startHeartbeat h x) = connectSent x).
    { intros x. unfold startHeartbeat, stopHeartbeat.
      destruct (heartbeatTimer x); fields; by split. }
    exact (Hx e2). }
  destruct Hhb as (Hb2 & Hb3).
  pose proof (flushQueue_timers (sock_settings sock) h (startHeartbeat h e2))
    as (_ & _ & _ & _ & _ & F6).
  pose proof (flushQueue_only (sock_settings sock) h (startHeartbeat h e2))
    as Honly.
  set (e3 := startHeartbeat h e2) in *. clearbody e3.
  set (e4 := flushQueue (sock_settings sock) h e3) in *. clearbody e4.
  destruct (emit_only (lit "connected") f h e4) as (Hem & _ & _).
  destruct (emit_same (lit "connected") f h e4) as (_ & _ & _ & _ & _ & G6).
  rewrite <- He1 in *. clearbody e1.
  unfold only_emits in Hem. unfold only_sends in Honly.
  split; [|by rewrite G6, F6].
  transitivity (connectSent e4); [by rewrite Hem|].
  transitivity (connectSent e3); [by rewrite Honly|]. exact Hb3.
Qed.


Lemma heartbeat_is_a_watchdog_witness :
  let e1 := fire 2 None (Throw []) late_host accepted_engine in
  fire 2 None (Throw []) (host_at 80) accepted_engine = accepted_engine
  /\ ws e1 = None /\ conn_state e1 = RECONNECTING
  /\ reconnectAttempt e1 = 1%nat.
Proof.
  intros e1.
  destruct (heartbeat_is_a_watchdog accepted_engine (host_at 80) 2
              (inject_Z 30000) 1700000000000%N None (Throw []))
    as (Hquiet & _); [reflexivity | reflexivity |].
  destruct (heartbeat_is_a_watchdog accepted_engine late_host 2
              (inject_Z 30000) 1700000000000%N None (Throw []))
    as (_ & Hlate & _); [reflexivity | reflexivity |].
  split; [apply Hquiet; vm_compute; discriminate|].
  destruct Hlate as (H1 & _ & _ & H2 & H3 & _); [vm_compute; reflexivity|].
  split; [exact H1|]. split; [exact H2|]. exact H3.
Defined.

Lemma disconnect_leaves_nothing_witness :
  timers opened !! 1%nat = Some (mkTimer T_connect (inject_Z 750))
  /\ timers (disconnect opened) !! 1%nat = None
  /\ conn_state (disconnect opened) = DISCONNECTED.
Proof.
  destruct (disconnect_leaves_nothing opened)
    as (H1 & _ & _ & _ & _ & _ & _ & _ & H2 & _).
  split; [reflexivity|]. split; [|exact H2].
  destruct (timers (disconnect opened) !! 1%nat) as [tm|] eqn:Htm; [|done].
  apply H1 in Htm as (_ & _ & _ & Hc). by destruct Hc.
Defined.


Lemma null_id_is_taken_for_the_answer_witness :
  let frame :=
    Fields (mkFrame (Some (lit "res")) None None None false None None)
           true None in
  connectId opened = None /\ wire opened = []
  /\ conn_state (onmessage frame (host_at 70) opened) = CONNECTED
  /\ wire (onmessage frame (host_at 70) opened) = [].
Proof.
  destruct (null_id_is_taken_for_the_answer opened (host_at 70)
              (mkFrame (Some (lit "res")) None None None false None None)
              None (mkSocket 7 WS_OPEN sample_settings))
    as (_ & _ & _ & H & _); try reflexivity; try discriminate.
  split; [reflexivity|]. split; [reflexivity|]. split; [exact H|].
  vm_compute. reflexivity.
Defined.


End ConnectionApiFacts.

(* ===================================================================== *)
(** * More properties of the engine with the pending-request table *)
(* ===================================================================== *)

Section RequestApiFacts.
Import RequestEngine RequestApi.

Tactic Notation "rfields" :=
  cbn beta iota zeta delta
    [
      ws heartbeatTimer reconnectTimer reconnectAttempt pendingRequests
      conn_state conn_error pendingQueue settings timers next_timer
      promises reactions next_promise wire emitted
      set_ws set_heartbeatTimer set_reconnectTimer set_reconnectAttempt
      set_pendingRequests set_conn_state set_conn_error set_pendingQueue
      set_settings set_timers set_next_timer set_promises set_reactions
      set_next_promise set_wire set_emitted
      setState setTimer clearTimer fst snd ].
Tactic Notation "rfields" "in" hyp(H) :=
  cbn beta iota zeta delta
    [
      ws heartbeatTimer reconnectTimer reconnectAttempt pendingRequests
      conn_state conn_error pendingQueue settings timers next_timer
      promises reactions next_promise wire emitted
      set_ws set_heartbeatTimer set_reconnectTimer set_reconnectAttempt
      set_pendingRequests set_conn_state set_conn_error set_pendingQueue
      set_settings set_timers set_next_timer set_promises set_reactions
      set_next_promise set_wire set_emitted
      setState setTimer clearTimer fst snd ] in H.

(** ** What [cleanup] does to the connection state *)

Lemma reject_state (p : nat) (msg : jsstring) (e : Engine) :
  conn_state (reject p msg e) = conn_state e
  /\ conn_error (reject p msg e) = conn_error e
  /\ emitted (reject p msg e) = emitted e.
Proof. unfold reject. by destruct (promises e !! p) as [[| |]|]. Qed.

Lemma reject_entries_state (l : list (jsstring * Pending)) (e : Engine) :
  let e' := foldr (fun kv => reject_entry kv.2) e l in
  emitted e' = emitted e
  /\ ((forall kv s, kv ∈ l -> waiter kv.2 <> W_connect s) ->
      conn_state e' = conn_state e /\ conn_error e' = conn_error e)
  /\ ((exists kv s, kv ∈ l /\ waiter kv.2 = W_connect s) ->
      conn_state e' = DISCONNECTED
      /\ conn_error e' = Some HANDSHAKE_TIMED_OUT)
  /\ (conn_state e' = conn_state e \/ conn_state e' = DISCONNECTED).
Proof.
  induction l as [|x l IH]; simpl.
  - split; [done|]. split; [done|]. split; [|by left].
    intros (kv & s & Hin & _). by apply elem_of_nil in Hin.
  - destruct IH as (IHe & IH1 & IH2 & IH3).
    set (e1 := foldr _ e l) in *. clearbody e1.
    unfold reject_entry. destruct (waiter x.2) as [p|s] eqn:Hw.
    + destruct (reject_state p (lit "Connection closed")
                  (clearTimer (timeout x.2) e1)) as (R1 & R2 & R3).
      rewrite R1, R2, R3. rfields. split; [exact IHe|].
      split; [|split; [|exact IH3]].
      * intros Hall. apply IH1. intros kv s Hin. apply Hall. by right.
      * intros (kv & s & Hin & Hkv). apply IH2.
        apply elem_of_cons in Hin as [-> | Hin]; [congruence|].
        by exists kv, s.
    + rfields. split; [exact IHe|]. split; [|split; [done | by right]].
      intros Hall. exfalso. apply (Hall x s); [by left | done].
Qed.

Lemma cleanup_state (e : Engine) :
  emitted (cleanup e) = emitted e
  /\ (no_connect_pending e ->
      conn_state (cleanup e) = conn_state e
      /\ conn_error (cleanup e) = conn_error e)
  /\ (connect_pending e ->
      conn_state (cleanup e) = DISCONNECTED
      /\ conn_error (cleanup e) = Some HANDSHAKE_TIMED_OUT)
  /\ (conn_state (cleanup e) = conn_state e
      \/ conn_state (cleanup e) = DISCONNECTED).
Proof.
  unfold cleanup.
  set (e2 := match reconnectTimer (stopHeartbeat e) with
             | Some t => set_reconnectTimer None (clearTimer t (stopHeartbeat e))
             | None => stopHeartbeat e
             end).
  assert (H2 : pendingRequests e2 = pendingRequests e
               /\ conn_state e2 = conn_state e
               /\ conn_error e2 = conn_error e /\ emitted e2 = emitted e).
  { unfold e2, stopHeartbeat.
    destruct (heartbeatTimer e) as [hb|]; rfields;
      by destruct (reconnectTimer e) as [rc|]. }
  destruct H2 as (Hp & Hs & He & Hem). clearbody e2.
  pose proof (reject_entries_state (map_to_list (pendingRequests e2)) e2)
    as (F0 & F1 & F2 & F3).
  cbv zeta in *. set (e3 := foldr _ e2 _) in *. clearbody e3. rfields.
  split; [congruence|]. split; [|split; [|by rewrite <- Hs]].
  - intros Hnone. rewrite <- Hs, <- He. apply F1. intros [id entry] s Hin Hw.
    apply elem_of_map_to_list in Hin. rewrite Hp in Hin.
    destruct entry as [w t]. simpl in Hw. subst w. by apply (Hnone id s t).
  - intros (id & s & t & Hin). apply F2.
    exists (id, mkPending (W_connect s) t), s. split; [|done].
    apply elem_of_map_to_list. by rewrite Hp.
Qed.

(** ** Steps that only make requests *)

Lemma only_requests_trans (e1 e2 e3 : Engine) :
  only_requests e1 e2 -> only_requests e2 e3 -> only_requests e1 e3.
Proof.
  unfold only_requests. intros H12 H23.
  etransitivity; [exact H23|].
  etransitivity;
    [exact (f_equal
              (fun x =>
                 set_reactions (reactions e3)
                   (set_wire (wire e3)
                      (set_pendingRequests (pendingRequests e3)
                         (set_promises (promises e3)
                            (set_next_promise (next_promise e3)
                               (set_timers (timers e3)
                                  (set_next_timer (next_timer e3) x)))))))
              H12)
    | reflexivity].
Qed.

Lemma request_effects (method : jsstring) (params : Params) (h : Host)
  (n : nat) (e : Engine) :
  let e' := (request method params h n e).2 in
  only_requests e e'
  /\ next_timer e' = S (next_timer e)
  /\ (forall t, (t < next_timer e)%nat -> timers e' !! t = timers e !! t)
  /\ (forall id, id <> randomUUID h n ->
        pendingRequests e' !! id = pendingRequests e !! id).
Proof.
  destruct (socket_open_dec e) as [(sock & Hws & Hopen) | Hclosed].
  - rewrite (request_sent _ _ _ _ _ sock Hws Hopen). cbn [snd].
    split; [reflexivity|]. split; [reflexivity|]. split.
    + intros t Ht. rfields. apply lookup_insert_ne. lia.
    + intros id Hid. rfields. by apply lookup_insert_ne.
  - rewrite (request_unsent _ _ _ _ _ Hclosed). cbn [snd].
    split; [reflexivity|]. split; [reflexivity|]. split.
    + intros t Ht. rfields.
      rewrite lookup_delete_ne, lookup_insert_ne by lia. done.
    + intros id Hid. rfields.
      rewrite lookup_delete_ne, lookup_insert_ne by done. done.
Qed.

Lemma flush_items_effects (k : jsstring) (h : Host) (items : list QueueItem)
  (n : nat) (e : Engine) :
  let e' := flush_items k h n items e in
  only_requests e e'
  /\ (next_timer e <= next_timer e')%nat
  /\ (forall t, (t < next_timer e)%nat -> timers e' !! t = timers e !! t)
  /\ (forall id, (forall i, id <> randomUUID h i) ->
        pendingRequests e' !! id = pendingRequests e !! id).
Proof.
  revert n e. induction items as [|item items IH]; intros n e.
  - by repeat split.
  - cbn [flush_items].
    pose proof (request_effects (lit "chat.send")
                  (P_chat k (text item) (idempotencyKey item)) h n e)
      as (R1 & R2 & R3 & R4).
    cbv zeta in *.
    destruct (request _ _ h n e) as [p e1]. cbn [snd] in *.
    set (e2 := set_reactions (<[p := idempotencyKey item]> (reactions e1)) e1).
    destruct (IH (S n) e2) as (I1 & I2 & I3 & I4).
    assert (H12 : only_requests e e2).
    { unfold only_requests in *. unfold e2.
      etransitivity; [exact (f_equal (set_reactions _) R1) | reflexivity]. }
    split; [by eapply only_requests_trans|].
    assert (N2 : next_timer e2 = next_timer e1) by reflexivity.
    assert (T2 : timers e2 = timers e1) by reflexivity.
    assert (P2 : pendingRequests e2 = pendingRequests e1) by reflexivity.
    clearbody e2.
    split; [lia|]. split.
    + intros t Ht. rewrite I3 by lia. rewrite T2. by apply R3.
    + intros id Hid. rewrite (I4 id Hid), P2. by apply R4.
Qed.

Lemma flushQueue_effects (s : Settings) (h : Host) (e : Engine) :
  let e' := flushQueue s h e in
  only_requests e e'
  /\ (next_timer e <= next_timer e')%nat
  /\ (forall t, (t < next_timer e)%nat -> timers e' !! t = timers e !! t)
  /\ (forall id, (forall i, id <> randomUUID h i) ->
        pendingRequests e' !! id = pendingRequests e !! id).
Proof.
  unfold flushQueue. destruct (pendingQueue e); [by repeat split|].
  apply flush_items_effects.
Qed.

(** ** Closing *)

Lemma wf_closed (e : Engine) (sock : Socket) :
  wf e ->
  wf (set_ws (Some (mkSocket (sock_id sock) WS_CLOSED (sock_settings sock))) e).
Proof. by apply wf_ext. Qed.

(** X14: what the engine with the pending-request table does when its
    socket closes.  In every case the socket is dropped, every pending
    request is rejected, and no entry and no timer is left apart from
    the reconnect timer.  A reconnect is scheduled when the engine was
    CONNECTED, or was CONNECTING with no connect request waiting (the
    socket had not opened yet).  When the socket closes while the
    connect request waits for its answer, rejecting that request puts
    the engine in DISCONNECTED first, so no reconnect is scheduled; nor
    is one scheduled from any other state. *)
Theorem close_policy_of_the_request_engine (e : Engine) (h : Host)
  (sock : Socket) :
  wf e -> ws e = Some sock ->
  let e1 := onclose h e in
  let retry :=
    conn_state e1 = RECONNECTING /\ conn_error e1 = None
    /\ reconnectAttempt e1 = S (reconnectAttempt e)
    /\ exists t,
         reconnectTimer e1 = Some t
         /\ timers e1
            = {[ t := mkTimer (T_reconnect (sock_settings sock))
                        (jittered (backoff (reconnectAttempt e)) (random h)) ]} in
  let rest :=
    conn_state e1 = DISCONNECTED /\ conn_error e1 = None
    /\ reconnectAttempt e1 = reconnectAttempt e
    /\ reconnectTimer e1 = None /\ timers e1 = ∅ in
  ws e1 = None /\ pendingRequests e1 = ∅ /\ heartbeatTimer e1 = None
  /\ pendingQueue e1 = pendingQueue e /\ wire e1 = wire e
  /\ (forall id p t,
        pendingRequests e !! id = Some (mkPending (W_promise p) t) ->
        promises e1 !! p = Some (Rejected CLOSED))
  /\ (conn_state e = CONNECTED -> retry)
  /\ (conn_state e = CONNECTING -> no_connect_pending e -> retry)
  /\ (conn_state e = CONNECTING -> connect_pending e -> rest)
  /\ (conn_state e <> CONNECTED -> conn_state e <> CONNECTING -> rest).
Proof.
  intros Hwf Hws e1 retry rest.
  set (e0 := set_ws (Some (mkSocket (sock_id sock) WS_CLOSED
                             (sock_settings sock))) e).
  assert (He1 : e1 = if bool_decide (conn_state e = CONNECTED)
                        || bool_decide (conn_state (cleanup e0) = CONNECTING)
                     then scheduleReconnect (sock_settings sock) h (cleanup e0)
                     else setState DISCONNECTED None (cleanup e0)).
  { unfold e1, onclose. by rewrite Hws. }
  destruct (cleanup_clears e0 (wf_closed e sock Hwf))
    as (C1 & C2 & C3 & C4 & C5 & C6 & C7 & C8 & C9).
  destruct (cleanup_state e0) as (_ & S1 & S2 & S3).
  cbv zeta in *. set (c := cleanup e0) in *. clearbody c.
  assert (Hretry : forall x, x = scheduleReconnect (sock_settings sock) h c ->
            ws x = None /\ pendingRequests x = ∅ /\ heartbeatTimer x = None
            /\ pendingQueue x = pendingQueue e /\ wire x = wire e
            /\ promises x = promises c
            /\ conn_state x = RECONNECTING /\ conn_error x = None
            /\ reconnectAttempt x = S (reconnectAttempt e)
            /\ exists t,
                 reconnectTimer x = Some t
                 /\ timers x
                    = {[ t := mkTimer (T_reconnect (sock_settings sock))
                                (jittered (backoff (reconnectAttempt e))
                                          (random h)) ]}).
  { intros x ->. unfold scheduleReconnect, getReconnectDelay. rfields.
    rewrite C1, C7. repeat split; try done.
    exists (next_timer c). split; [done|]. apply insert_empty. }
  assert (Hrest : forall x, x = setState DISCONNECTED None c ->
            ws x = None /\ pendingRequests x = ∅ /\ heartbeatTimer x = None
            /\ pendingQueue x = pendingQueue e /\ wire x = wire e
            /\ promises x = promises c
            /\ conn_state x = DISCONNECTED /\ conn_error x = None
            /\ reconnectAttempt x = reconnectAttempt e
            /\ reconnectTimer x = None /\ timers x = ∅).
  { intros x ->. rfields. by repeat split. }
  assert (Hcommon : ws e1 = None /\ pendingRequests e1 = ∅
                    /\ heartbeatTimer e1 = None
                    /\ pendingQueue e1 = pendingQueue e /\ wire e1 = wire e
                    /\ promises e1 = promises c).
  { rewrite He1. destruct (_ || _).
    - destruct (Hretry _ eq_refl) as (H1 & H2 & H3 & H4 & H5 & H6 & _). done.
    - destruct (Hrest _ eq_refl) as (H1 & H2 & H3 & H4 & H5 & H6 & _). done. }
  destruct Hcommon as (K1 & K2 & K3 & K4 & K5 & K6).
  split; [exact K1|]. split; [exact K2|]. split; [exact K3|].
  split; [exact K4|]. split; [exact K5|].
  split; [intros id p t Hid; rewrite K6; by apply (C9 id p t)|].
  split; [|split; [|split]].
  - intros Hc. rewrite (bool_decide_eq_true_2 _ Hc) in He1. cbn [orb] in He1.
    destruct (Hretry _ He1) as (_ & _ & _ & _ & _ & _ & H). exact H.
  - intros Hc Hnone. destruct (S1 Hnone) as [Hs _].
    change (conn_state e0) with (conn_state e) in Hs. rewrite Hc in Hs.
    rewrite (bool_decide_eq_true_2 _ Hs), orb_true_r in He1.
    destruct (Hretry _ He1) as (_ & _ & _ & _ & _ & _ & H). exact H.
  - intros Hc Hsome. destruct (S2 Hsome) as [Hs _].
    rewrite (bool_decide_eq_false_2 (conn_state e = CONNECTED)) in He1
      by congruence.
    rewrite (bool_decide_eq_false_2 (conn_state c = CONNECTING)) in He1
      by congruence.
    destruct (Hrest _ He1) as (_ & _ & _ & _ & _ & _ & H). exact H.
  - intros Hn1 Hn2.
    assert (Hs : conn_state c <> CONNECTING).
    { destruct S3 as [Hs|Hs]; rewrite Hs; [exact Hn2 | done]. }
    rewrite (bool_decide_eq_false_2 (conn_state e = CONNECTED)) in He1 by done.
    rewrite (bool_decide_eq_false_2 (conn_state c = CONNECTING)) in He1 by done.
    destruct (Hrest _ He1) as (_ & _ & _ & _ & _ & _ & H). exact H.
Qed.

(** ** The handshake *)

Lemma onopen_fields (h : Host) (e : Engine) (sock : Socket) :
  ws e = Some sock ->
  onopen h e
  = set_wire (wire e ++ [(sock_id sock,
                          Req (randomUUID h 0) (lit "connect")
                              (P_connect (authToken (sock_settings sock))))])
      (set_pendingRequests
         (<[randomUUID h 0 := mkPending (W_connect (sock_settings sock))
                                (next_timer e)]> (pendingRequests e))
         (set_next_timer (S (next_timer e))
            (set_timers
               (<[next_timer e := mkTimer (T_handshake (randomUUID h 0))
                                    (inject_Z HANDSHAKE_TIMEOUT)]> (timers e))
               (set_ws (Some (mkSocket (sock_id sock) WS_OPEN
                                (sock_settings sock))) e)))).
Proof. intros Hws. unfold onopen, send. rewrite Hws. reflexivity. Qed.

Lemma startHeartbeat_effects (e : Engine) :
  let e' := startHeartbeat e in
  heartbeatTimer e' = Some (next_timer e)
  /\ timers e' !! next_timer e
     = Some (mkTimer T_heartbeat (inject_Z HEARTBEAT_INTERVAL))
  /\ next_timer e' = S (next_timer e)
  /\ (timers e = ∅ -> forall t, t <> next_timer e -> timers e' !! t = None)
  /\ pendingRequests e' = pendingRequests e
  /\ conn_state e' = conn_state e /\ conn_error e' = conn_error e
  /\ reconnectAttempt e' = reconnectAttempt e
  /\ emitted e' = emitted e /\ pendingQueue e' = pendingQueue e
  /\ ws e' = ws e.
Proof.
  unfold startHeartbeat, stopHeartbeat.
  destruct (heartbeatTimer e) as [t0|]; rfields;
    (split; [done|]); (split; [apply lookup_insert_eq|]);
    (split; [done|]); (split; [|done]);
    intros Hempty t Hne; rewrite lookup_insert_ne by done;
    rewrite Hempty, ?delete_empty; apply lookup_empty.
Qed.

(** X15: the handshake of the engine with the pending-request table.
    When the socket opens, the connect request is sent and registered
    under its id with a timeout of 10 s.  An answer with a result and
    without error makes the engine CONNECTED with the attempt counter at
    zero, starts the heartbeat and calls the listeners of [connected];
    any other answer makes it DISCONNECTED with the message of the error
    ("Handshake rejected" when there is none); the timeout makes it
    DISCONNECTED with "Handshake timeout".  A rejected or timed-out
    handshake drops the socket and leaves no timer: it is not retried. *)
Theorem handshake_of_the_request_engine (e : Engine) (h : Host)
  (sock : Socket) :
  ws e = Some sock -> pendingRequests e = ∅ -> timers e = ∅ ->
  let id := randomUUID h 0 in
  let s := sock_settings sock in
  let e1 := onopen h e in
  let failed (msg : jsstring) (e2 : Engine) :=
    conn_state e2 = DISCONNECTED /\ conn_error e2 = Some msg
    /\ ws e2 = None /\ timers e2 = ∅ /\ pendingRequests e2 = ∅
    /\ reconnectTimer e2 = None /\ heartbeatTimer e2 = None
    /\ reconnectAttempt e2 = reconnectAttempt e
    /\ emitted e2 = emitted e in
  pendingRequests e1 = {[ id := mkPending (W_connect s) (next_timer e) ]}
  /\ timers e1
     = {[ next_timer e := mkTimer (T_handshake id) (inject_Z 10000) ]}
  /\ wire e1
     = wire e ++ [(sock_id sock,
                   Req id (lit "connect") (P_connect (authToken s)))]
  /\ (forall f h2,
        ftype f = Some (lit "res") -> fid f = Some id ->
        fresult f = true -> ferror f = None ->
        (forall i, id <> randomUUID h2 i) ->
        let e2 := onmessage f h2 e1 in
        conn_state e2 = CONNECTED /\ conn_error e2 = None
        /\ reconnectAttempt e2 = 0%nat
        /\ pendingRequests e2 !! id = None
        /\ timers e2 !! next_timer e = None
        /\ heartbeatTimer e2 = Some (S (next_timer e))
        /\ timers e2 !! S (next_timer e)
           = Some (mkTimer T_heartbeat (inject_Z 30000))
        /\ emitted e2 = emitted e ++ [(lit "connected", f)]
        /\ pendingQueue e2 = pendingQueue e)
  /\ (forall f h2,
        ftype f = Some (lit "res") -> fid f = Some id ->
        fresult f = false \/ is_Some (ferror f) ->
        failed (or_else (ferror f ≫= message) (lit "Handshake rejected"))
               (onmessage f h2 e1))
  /\ (forall sock' h2,
        failed (lit "Handshake timeout") (fire (next_timer e) sock' h2 e1)).
Proof.
  intros Hws Hp Ht id s e1 failed.
  assert (He1 : e1 = _) by exact (onopen_fields h e sock Hws).
  fold id s in He1. rewrite Hp, Ht in He1.
  assert (P1 : pendingRequests e1
               = {[ id := mkPending (W_connect s) (next_timer e) ]})
    by (rewrite He1; rfields; apply insert_empty).
  assert (T1 : timers e1
               = {[ next_timer e := mkTimer (T_handshake id) (inject_Z 10000) ]})
    by (rewrite He1; rfields; apply insert_empty).
  assert (W1 : ws e1 = Some (mkSocket (sock_id sock) WS_OPEN s))
    by (by rewrite He1).
  assert (F1 : wire e1 = wire e ++ [(sock_id sock,
                 Req id (lit "connect") (P_connect (authToken s)))])
    by (by rewrite He1).
  assert (R1 : reconnectAttempt e1 = reconnectAttempt e
               /\ emitted e1 = emitted e /\ pendingQueue e1 = pendingQueue e
               /\ next_timer e1 = S (next_timer e))
    by (by rewrite He1).
  destruct R1 as (R1 & R2 & R3 & R4). clear He1. clearbody e1.
  (* the state in which the callback of the connect request runs *)
  set (e2 := set_pendingRequests (delete id (pendingRequests e1))
               (clearTimer (next_timer e) e1)).
  assert (P2 : pendingRequests e2 = ∅)
    by (unfold e2; rfields; rewrite P1; apply delete_singleton_eq).
  assert (T2 : timers e2 = ∅)
    by (unfold e2; rfields; rewrite T1; apply delete_singleton_eq).
  assert (K2 : ws e2 = ws e1 /\ reconnectAttempt e2 = reconnectAttempt e1
               /\ emitted e2 = emitted e1 /\ pendingQueue e2 = pendingQueue e1
               /\ next_timer e2 = next_timer e1) by done.
  assert (Hres : forall f h2,
            ftype f = Some (lit "res") -> fid f = Some id ->
            onmessage f h2 e1 = connect_resolved s f h2 e2).
  { intros f h2 Hty Hid. unfold onmessage. rewrite W1.
    unfold handleMessage. rewrite Hty, Hid, eq_lit_Some.
    change (str_eqb (lit "res") (lit "res")) with true.
    cbn [mbind option_bind]. rewrite P1, lookup_singleton_eq.
    reflexivity. }
  assert (Hfire : forall sock' h2,
            fire (next_timer e) sock' h2 e1
            = cleanup (setState DISCONNECTED (Some (lit "Handshake timeout"))
                         e2)).
  { intros sock' h2. unfold fire. rewrite T1, lookup_singleton_eq.
    reflexivity. }
  destruct K2 as (K1 & K2 & K3 & K4 & K5). clearbody e2.
  assert (Hfail : forall msg,
            failed msg (cleanup (setState DISCONNECTED (Some msg) e2))).
  { intros msg. set (e3 := setState DISCONNECTED (Some msg) e2).
    assert (Hwf3 : wf e3) by (by apply wf_blank).
    destruct (cleanup_clears e3 Hwf3)
      as (C1 & C2 & C3 & C4 & C5 & C6 & C7 & C8 & C9).
    destruct (cleanup_state e3) as (S0 & S1 & _).
    destruct S1 as [S1 S2].
    { intros id' s' t'. change (pendingRequests e3) with (pendingRequests e2).
      by rewrite P2, lookup_empty. }
    cbv zeta in *. unfold failed.
    change (conn_state e3) with DISCONNECTED in S1.
    change (conn_error e3) with (Some msg) in S2.
    change (reconnectAttempt e3) with (reconnectAttempt e2) in C7.
    change (emitted e3) with (emitted e2) in S0.
    repeat split; congruence. }
  split; [exact P1|]. split; [exact T1|]. split; [exact F1|].
  split; [|split].
  - intros f h2 Hty Hid Hresult Herr Hfresh e3.
    unfold e3. rewrite (Hres f h2 Hty Hid). unfold connect_resolved.
    rewrite Hresult, Herr.
    rewrite (bool_decide_eq_false_2 (is_Some None))
      by (by intros [? ?]).
    cbn [andb negb].
    set (e4 := setState CONNECTED None (set_reconnectAttempt 0 e2)).
    assert (T4 : timers e4 = ∅) by exact T2.
    pose proof (startHeartbeat_effects e4)
      as (H1 & H2 & H3 & H4 & H5 & H6 & H7 & H8 & H9 & H10 & H11).
    cbv zeta in *.
    change (next_timer e4) with (next_timer e2) in *.
    rewrite K5, R4 in *.
    change (pendingRequests e4) with (pendingRequests e2) in H5.
    change (conn_state e4) with CONNECTED in H6.
    change (conn_error e4) with (@None jsstring) in H7.
    change (reconnectAttempt e4) with 0%nat in H8.
    change (emitted e4) with (emitted e2) in H9.
    change (pendingQueue e4) with (pendingQueue e2) in H10.
    set (e5 := startHeartbeat e4) in *. clearbody e5.
    pose proof (flushQueue_effects s h2 e5) as (Q1 & Q2 & Q3 & Q4).
    pose proof (flushQueue_queue s h2 e5) as Q5.
    cbv zeta in *. set (e6 := flushQueue s h2 e5) in *. clearbody e6.
    unfold emit. rfields. unfold only_requests in Q1.
    split; [rewrite Q1; exact H6|]. split; [rewrite Q1; exact H7|].
    split; [rewrite Q1; exact H8|].
    split; [rewrite (Q4 id Hfresh), H5, P2; apply lookup_empty|].
    split; [rewrite Q3 by lia; apply (H4 T4); lia|].
    split; [rewrite Q1; exact H1|].
    split; [rewrite Q3 by lia; exact H2|].
    split; [|congruence].
    f_equal. transitivity (emitted e5); [rewrite Q1; reflexivity|].
    congruence.
  - intros f h2 Hty Hid Hbad. rewrite (Hres f h2 Hty Hid).
    unfold connect_resolved.
    assert (Htest : fresult f && negb (bool_decide (is_Some (ferror f)))
                    = false).
    { destruct Hbad as [-> | Herr]; [done|].
      rewrite (bool_decide_eq_true_2 _ Herr). apply andb_false_r. }
    rewrite Htest. apply Hfail.
  - intros sock' h2. rewrite Hfire. apply Hfail.
Qed.

(** ** Frames nobody waits for, and the heartbeat *)



(** X17: a request made while the socket is not open fails at once: the
    promise it returns is already rejected with "Not connected", no
    frame is sent, and neither the entry nor the timer it had registered
    is left behind; the other entries and timers, the connection state
    and the offline queue are as before.  [gateway.sendMessage] is such
    a request: the engine does not queue the message itself. *)
Theorem request_without_socket_is_rejected (e : Engine) (h : Host)
  (method : jsstring) (params : Params) (n : nat) :
  (forall sock, ws e = Some sock -> readyState sock <> WS_OPEN) ->
  let p := (request method params h n e).1 in
  let e1 := (request method params h n e).2 in
  p = next_promise e
  /\ promises e1 !! p = Some (Rejected (lit "Not connected"))
  /\ wire e1 = wire e
  /\ pendingRequests e1 !! randomUUID h n = None
  /\ (forall id, id <> randomUUID h n ->
        pendingRequests e1 !! id = pendingRequests e !! id)
  /\ timers e1 !! next_timer e = None
  /\ (forall t, t <> next_timer e -> timers e1 !! t = timers e !! t)
  /\ conn_state e1 = conn_state e /\ pendingQueue e1 = pendingQueue e
  /\ ws e1 = ws e
  /\ (forall msg,
        promises (sendMessage msg h e).2 !! (sendMessage msg h e).1
        = Some (Rejected (lit "Not connected"))
        /\ wire (sendMessage msg h e).2 = wire e
        /\ pendingQueue (sendMessage msg h e).2 = pendingQueue e).
Proof.
  intros Hclosed p e1.
  assert (Hgo : forall m prm k,
            let r := request m prm h k e in
            r.1 = next_promise e
            /\ promises r.2 !! r.1 = Some (Rejected (lit "Not connected"))
            /\ wire r.2 = wire e
            /\ pendingRequests r.2 !! randomUUID h k = None
            /\ (forall id, id <> randomUUID h k ->
                  pendingRequests r.2 !! id = pendingRequests e !! id)
            /\ timers r.2 !! next_timer e = None
            /\ (forall t, t <> next_timer e -> timers r.2 !! t = timers e !! t)
            /\ conn_state r.2 = conn_state e
            /\ pendingQueue r.2 = pendingQueue e /\ ws r.2 = ws e).
  { intros m prm k. rewrite (request_unsent m prm h k e Hclosed).
    cbv zeta. rfields.
    split; [done|]. split; [apply lookup_insert_eq|]. split; [done|].
    split; [apply lookup_delete_eq|]. split.
    { intros id Hid. by rewrite lookup_delete_ne, lookup_insert_ne. }
    split; [apply lookup_delete_eq|]. split; [|done].
    intros t Ht. by rewrite lookup_delete_ne, lookup_insert_ne. }
  destruct (Hgo method params n)
    as (H1 & H2 & H3 & H4 & H5 & H6 & H7 & H8 & H9 & H10).
  cbv zeta in *. fold p e1 in H1, H2, H3, H4, H5, H6, H7, H8, H9, H10.
  repeat (split; [assumption|]).
  intros msg. unfold sendMessage.
  destruct (Hgo (lit "chat.send")
              (P_chat (getSessionKey (agentId (settings e))) msg
                      (randomUUID h 0)) 1%nat)
    as (_ & G2 & G3 & _ & _ & _ & _ & _ & G9 & _).
  done.
Qed.

(** ** Examples *)

Lemma connecting_requests_wf : wf connecting_requests.
Proof. by apply wf_blank. Qed.

Lemma opened_requests_wf : wf opened_requests.
Proof.
  apply (reachable_wf sample_settings).
  apply reach_step; [apply reach_step; [apply reach_initial|]|].
  - apply fresh_host_at. intros i. apply lookup_empty.
  - apply fresh_host_at. intros i.
    assert (Hp : pendingRequests connecting_requests = ∅)
      by (vm_compute; reflexivity).
    rewrite Hp. apply lookup_empty.
Qed.

Lemma close_policy_of_the_request_engine_witness :
  conn_state connecting_requests = CONNECTING
  /\ conn_state (onclose (host_at 80) connecting_requests) = RECONNECTING
  /\ conn_state opened_requests = CONNECTING
  /\ conn_state (onclose (host_at 80) opened_requests) = DISCONNECTED
  /\ reconnectTimer (onclose (host_at 80) opened_requests) = None.
Proof.
  destruct (close_policy_of_the_request_engine connecting_requests
              (host_at 80) (mkSocket 7 WS_CONNECTING sample_settings)
              connecting_requests_wf eq_refl)
    as (_ & _ & _ & _ & _ & _ & _ & Hretry & _).
  destruct (close_policy_of_the_request_engine opened_requests
              (host_at 80) (mkSocket 7 WS_OPEN sample_settings)
              opened_requests_wf eq_refl)
    as (_ & _ & _ & _ & _ & _ & _ & _ & Hrest & _).
  destruct Hretry as (H1 & _); [reflexivity | |].
  { intros id s t. assert (Hp : pendingRequests connecting_requests = ∅)
      by (vm_compute; reflexivity).
    by rewrite Hp, lookup_empty. }
  destruct Hrest as (H2 & _ & _ & H3 & _); [reflexivity | |].
  { exists [65%N], sample_settings, 1%nat. vm_compute. reflexivity. }
  split; [reflexivity|]. split; [exact H1|]. split; [reflexivity|].
  split; [exact H2 | exact H3].
Defined.

Lemma handshake_of_the_request_engine_witness :
  pendingRequests opened_requests
  = {[ [65%N] := mkPending (W_connect sample_settings) 1 ]}
  /\ conn_state (fire 1 (Throw []) (host_at 80) opened_requests) = DISCONNECTED
  /\ conn_error (fire 1 (Throw []) (host_at 80) opened_requests)
     = Some (lit "Handshake timeout")
  /\ timers (fire 1 (Throw []) (host_at 80) opened_requests) = ∅.
Proof.
  destruct (handshake_of_the_request_engine connecting_requests (host_at 65)
              (mkSocket 7 WS_CONNECTING sample_settings))
    as (H1 & _ & _ & _ & _ & Hto).
  - reflexivity.
  - vm_compute. reflexivity.
  - vm_compute. reflexivity.
  - destruct (Hto (Throw []) (host_at 80)) as (H2 & H3 & _ & H4 & _).
    split; [exact H1|]. split; [exact H2|]. split; [exact H3 | exact H4].
Defined.

Lemma request_without_socket_is_rejected_witness :
  let r := sendMessage (lit "hi") (host_at 70) connecting_requests in
  promises r.2 !! r.1 = Some (Rejected (lit "Not connected"))
  /\ wire r.2 = [] /\ pendingQueue r.2 = [].
Proof.
  intros r.
  destruct (request_without_socket_is_rejected connecting_requests
              (host_at 70) [] P_none 0)
    as (_ & _ & _ & _ & _ & _ & _ & _ & _ & _ & H).
  - intros sock [= <-]. discriminate.
  - exact (H (lit "hi")).
Defined.

End RequestApiFacts.

(* ===================================================================== *)
(** * The matcher finds matches *)
(* ===================================================================== *)

Section RegexFacts.
Import RegexSem.

Lemma run_star (input : jsstring) (g : bool) (r1 : regex) (k : continuation)
  (st : mstate) :
  run input (RStar g r1) k st
  = star_loop input r1 g k (S (length (rest st))) st.
Proof. reflexivity. Qed.

Lemma star_loop_sound (input : jsstring) (g : bool) (r1 : regex)
  (k : continuation) :
  (forall k' st res,
     run input r1 k' st = Some res ->
     exists st', matches input r1 st st' /\ k' st' = Some res) ->
  forall fuel st res,
    star_loop input r1 g k fuel st = Some res ->
    exists st', matches input (RStar g r1) st st' /\ k st' = Some res.
Proof.
  intros IH fuel. induction fuel as [|fuel IHf]; intros st res Hrun.
  - exists st. split; [constructor | exact Hrun].
  - cbn [star_loop] in Hrun. fold (star_loop input r1 g k) in Hrun.
    set (again := run input r1 _ st) in Hrun.
    assert (Hagain : forall res', again = Some res' ->
              exists st', matches input (RStar g r1) st st'
                          /\ k st' = Some res').
    { intros res' Ha. apply IH in Ha as (st2 & Hm & Hk).
      destruct (Nat.ltb_spec (length (rest st2)) (length (rest st)))
        as [Hlt|]; [|done].
      apply IHf in Hk as (st3 & Hm3 & Hk3).
      exists st3. split; [|exact Hk3]. by eapply M_star_more. }
    destruct g.
    + destruct again as [res'|] eqn:Ha.
      * injection Hrun as <-. by apply Hagain.
      * exists st. split; [constructor | exact Hrun].
    + destruct (k st) as [res'|] eqn:Hk.
      * injection Hrun as <-. exists st. split; [constructor | exact Hk].
      * by apply Hagain.
Qed.

(** Whatever [run] returns comes from a match of the expression,
    followed by a success of the continuation. *)
Lemma run_sound (input : jsstring) (r : regex) :
  forall k st res,
    run input r k st = Some res ->
    exists st', matches input r st st' /\ k st' = Some res.
Proof.
  induction r as [p| |r1 IH1 r2 IH2|r1 IH1 r2 IH2|g r1 IH1|n r1 IH1| |];
    intros k st res Hrun.
  - cbn [run] in Hrun. destruct (rest st) as [|c s] eqn:Hr; [done|].
    destruct (p c) eqn:Hp; [|done].
    exists (MState s (caps st)). split; [by econstructor | exact Hrun].
  - exists st. split; [constructor | exact Hrun].
  - cbn [run] in Hrun. apply IH1 in Hrun as (st2 & Hm1 & Hrun).
    apply IH2 in Hrun as (st3 & Hm2 & Hk).
    exists st3. split; [by econstructor | exact Hk].
  - cbn [run] in Hrun. destruct (run input r1 k st) as [res'|] eqn:H1.
    + injection Hrun as <-. apply IH1 in H1 as (st' & Hm & Hk).
      exists st'. split; [by apply M_alt_l | exact Hk].
    + apply IH2 in Hrun as (st' & Hm & Hk).
      exists st'. split; [by apply M_alt_r | exact Hk].
  - rewrite run_star in Hrun. by eapply star_loop_sound.
  - cbn [run] in Hrun. apply IH1 in Hrun as (st' & Hm & Hk).
    eexists. split; [by apply M_group | exact Hk].
  - cbn [run] in Hrun.
    destruct (Nat.eqb_spec (length (rest st)) (length input)); [|done].
    exists st. split; [by constructor | exact Hrun].
  - cbn [run] in Hrun. destruct (rest st) eqn:Hr; [|done].
    exists st. split; [by constructor | exact Hrun].
Qed.

(** A match reads a prefix of what was left. *)
Lemma matches_reads (input : jsstring) (r : regex) (st st' : mstate) :
  matches input r st st' -> exists read, rest st = read ++ rest st'.
Proof.
  induction 1 as [p c s st Hr Hp|st|r1 r2 st1 st2 st3 _ [a Ha] _ [b Hb]
                  |r1 r2 st st' _ IH|r1 r2 st st' _ IH|g r st
                  |g r st1 st2 st3 _ [a Ha] _ _ [b Hb]|n r st st' _ [a Ha]
                  |st|st].
  - exists [c]. by rewrite Hr.
  - by exists [].
  - exists (a ++ b). by rewrite Ha, Hb, app_assoc.
  - exact IH.
  - exact IH.
  - by exists [].
  - exists (a ++ b). by rewrite Ha, Hb, app_assoc.
  - by exists a.
  - by exists [].
  - by exists [].
Qed.

Lemma matches_caps (input : jsstring) (r : regex) (st st' : mstate) :
  capture_free r = true -> matches input r st st' -> caps st' = caps st.
Proof.
  intros Hfree Hm. induction Hm; cbn [capture_free] in Hfree;
    try apply andb_true_iff in Hfree as [H1 H2]; try done.
  - by rewrite IHHm2, IHHm1.
  - by apply IHHm.
  - by apply IHHm.
  - by rewrite IHHm2, IHHm1.
Qed.

Lemma consumed_read (st st' : mstate) (read : jsstring) :
  rest st = read ++ rest st' -> consumed st st' = read.
Proof.
  intros Hr. unfold consumed. rewrite Hr, length_app.
  replace (length read + length (rest st') - length (rest st'))%nat
    with (length read) by lia.
  by rewrite take_app_length.
Qed.

(** What a run of a class reads. *)
Lemma matches_class_star (input : jsstring) (g : bool) (p : char16 -> bool)
  (st st' : mstate) :
  matches input (RStar g (RChar p)) st st' ->
  exists read, rest st = read ++ rest st'
               /\ Forall (fun c => p c = true) read /\ caps st' = caps st.
Proof.
  intros Hm. remember (RStar g (RChar p)) as r eqn:Hr.
  induction Hm as [| | | | |g' r' st|g' r' st1 st2 st3 Hm1 _ Hlt Hm2 IH| | |];
    try discriminate.
  - by exists [].
  - injection Hr as -> ->. destruct (IH eq_refl) as (read & Hread & Hall & Hc).
    inversion Hm1 as [p' c s st0 Hrest Hp| | | | | | | | |]; subst.
    cbn [rest caps] in *. exists (c :: read).
    split; [by rewrite Hrest, Hread|]. split; [by constructor | exact Hc].
Qed.

Lemma matches_class_plus (input : jsstring) (g : bool) (p : char16 -> bool)
  (st st' : mstate) :
  matches input (RPlus g (RChar p)) st st' ->
  exists read, rest st = read ++ rest st' /\ read <> []
               /\ Forall (fun c => p c = true) read /\ caps st' = caps st.
Proof.
  intros Hm. unfold RPlus in Hm.
  inversion Hm as [| |r1 r2 st1 st2 st3 Hm1 Hm2| | | | | | |]; subst.
  inversion Hm1 as [p' c s st0 Hrest Hp| | | | | | | | |]; subst.
  apply matches_class_star in Hm2 as (read & Hread & Hall & Hc).
  cbn [rest caps] in *. exists (c :: read).
  split; [by rewrite Hrest, Hread|]. split; [done|].
  split; [by constructor | exact Hc].
Qed.

Lemma matches_seq_inv (input : jsstring) (r1 r2 : regex) (st st'' : mstate) :
  matches input (RSeq r1 r2) st st'' ->
  exists st', matches input r1 st st' /\ matches input r2 st' st''.
Proof. inversion 1; subst. by eexists. Qed.

Lemma matches_class_group (input : jsstring) (n : nat) (g : bool)
  (p : char16 -> bool) (st st' : mstate) :
  matches input (RGroup n (RPlus g (RChar p))) st st' ->
  exists read, (read <> [] /\ Forall (fun c => p c = true) read)
               /\ rest st = read ++ rest st'
               /\ caps st' = (n, read) :: caps st.
Proof.
  intros Hm.
  inversion Hm as [| | | | | | |n' r st0 st1 Hm1| |]; subst.
  apply matches_class_plus in Hm1 as (ds & Hread & Hne & Hall & Hc).
  exists ds. split; [by split|]. cbn [rest caps].
  split; [exact Hread|]. by rewrite (consumed_read _ _ _ Hread), Hc.
Qed.

Lemma search_sound (input : jsstring) (r : regex) (s : jsstring)
  (m : list (nat * jsstring)) :
  search input r s = Some m ->
  exists skipped s' st',
    s = skipped ++ s' /\ matches input r (MState s' []) st' /\ m = caps st'.
Proof.
  induction s as [|c s IH]; cbn [search].
  - destruct (run input r Some (MState [] [])) as [st|] eqn:Hrun; [|done].
    intros [= <-]. apply run_sound in Hrun as (st' & Hm & [= ->]).
    by exists [], [], st.
  - destruct (run input r Some (MState (c :: s) [])) as [st|] eqn:Hrun.
    + intros [= <-]. apply run_sound in Hrun as (st' & Hm & [= ->]).
      by exists [], (c :: s), st.
    + intros (skipped & s' & st' & -> & Hm & ->)%IH.
      by exists (c :: skipped), s', st'.
Qed.

(** What a match of the task pattern captured. *)
Lemma task_line_match (line : jsstring) (m : list (nat * jsstring)) :
  exec Parser.TASK_LINE_PATTERN line = Some m ->
  exists ds mark ts before,
    m = [(3, ts); (2, mark); (1, ds)]%nat
    /\ is_number_text ds
    /\ ts <> [] /\ Forall (fun c => is_line_terminator c = false) ts
    /\ line = before ++ ts.
Proof.
  intros (skipped & s' & st9 & Hline & Hm & ->)%search_sound.
  unfold Parser.TASK_LINE_PATTERN in Hm. cbn [seqs] in Hm.
  apply matches_seq_inv in Hm as (st1 & H1 & Hm).
  apply matches_seq_inv in Hm as (st2 & H2 & Hm).
  apply matches_seq_inv in Hm as (st3 & H3 & Hm).
  apply matches_seq_inv in Hm as (st4 & H4 & Hm).
  apply matches_seq_inv in Hm as (st5 & H5 & Hm).
  apply matches_seq_inv in Hm as (st6 & H6 & Hm).
  apply matches_seq_inv in Hm as (st7 & H7 & Hm).
  apply matches_seq_inv in Hm as (st8 & H8 & H9).
  pose proof (matches_reads _ _ _ _ H1) as [a1 R1].
  pose proof (matches_reads _ _ _ _ H2) as [a2 R2].
  pose proof (matches_reads _ _ _ _ H4) as [a4 R4].
  pose proof (matches_reads _ _ _ _ H5) as [a5 R5].
  pose proof (matches_reads _ _ _ _ H6) as [a6 R6].
  pose proof (matches_reads _ _ _ _ H7) as [a7 R7].
  apply matches_caps in H1 as C1; [|reflexivity].
  apply matches_caps in H2 as C2; [|reflexivity].
  apply matches_class_group in H3 as (ds & Hds & R3 & C3).
  apply matches_caps in H4 as C4; [|reflexivity].
  apply matches_caps in H5 as C5; [|reflexivity].
  inversion H6 as [| | | | | | |n' r' st0 st6' H6'| |]; subst.
  apply matches_caps in H6' as C6; [|reflexivity].
  apply matches_caps in H7 as C7; [|reflexivity].
  apply matches_class_group in H8 as (ts & [Hne Hts] & R8 & C8).
  inversion H9 as [| | | | | | | | |st0 Hend]; subst.
  cbn [rest caps] in *.
  exists ds, (consumed st5 st6'), ts,
    (skipped ++ a1 ++ a2 ++ ds ++ a4 ++ a5 ++ a6 ++ a7).
  split.
  { rewrite C8, C7, C6, C5, C4, C3, C2, C1. reflexivity. }
  split; [exact Hds|]. split; [exact Hne|]. split.
  { eapply Forall_impl; [exact Hts|]. intros c Hc. cbn beta in Hc.
    by apply negb_true_iff. }
  rewrite R1, R2, R3, R4, R5, R6, R7, R8, Hend, app_nil_r.
  by rewrite <- !app_assoc.
Qed.

(** What a match of the stats pattern captured. *)
Lemma stats_match (text : jsstring) (m : list (nat * jsstring)) :
  exec Parser.STATS_PATTERN text = Some m ->
  exists d s h x l,
    m = [(5, l); (4, x); (3, h); (2, s); (1, d)]%nat
    /\ is_number_text d /\ is_number_text s /\ is_number_text h
    /\ is_number_text l
    /\ Forall (fun c => is_digit c = true \/ c = 44%N) x.
Proof.
  intros (skipped & s' & st20 & Htext & Hm & ->)%search_sound.
  unfold Parser.STATS_PATTERN in Hm. cbn [seqs] in Hm.
  apply matches_seq_inv in Hm as (st1 & H1 & Hm).
  apply matches_seq_inv in Hm as (st2 & H2 & Hm).
  apply matches_seq_inv in Hm as (st3 & H3 & Hm).
  apply matches_seq_inv in Hm as (st4 & H4 & Hm).
  apply matches_seq_inv in Hm as (st5 & H5 & Hm).
  apply matches_seq_inv in Hm as (st6 & H6 & Hm).
  apply matches_seq_inv in Hm as (st7 & H7 & Hm).
  apply matches_seq_inv in Hm as (st8 & H8 & Hm).
  apply matches_seq_inv in Hm as (st9 & H9 & Hm).
  apply matches_seq_inv in Hm as (st10 & H10 & Hm).
  apply matches_seq_inv in Hm as (st11 & H11 & Hm).
  apply matches_seq_inv in Hm as (st12 & H12 & Hm).
  apply matches_seq_inv in Hm as (st13 & H13 & Hm).
  apply matches_seq_inv in Hm as (st14 & H14 & Hm).
  apply matches_seq_inv in Hm as (st15 & H15 & Hm).
  apply matches_seq_inv in Hm as (st16 & H16 & Hm).
  apply matches_seq_inv in Hm as (st17 & H17 & Hm).
  apply matches_seq_inv in Hm as (st18 & H18 & Hm).
  apply matches_seq_inv in Hm as (st19 & H19 & H20).
  apply matches_caps in H1 as C1; [|reflexivity].
  apply matches_caps in H2 as C2; [|reflexivity].
  apply matches_class_group in H3 as (d & Hd & _ & C3).
  apply matches_caps in H4 as C4; [|reflexivity].
  apply matches_caps in H5 as C5; [|reflexivity].
  apply matches_caps in H6 as C6; [|reflexivity].
  apply matches_class_group in H7 as (s & Hs & _ & C7).
  apply matches_caps in H8 as C8; [|reflexivity].
  apply matches_caps in H9 as C9; [|reflexivity].
  apply matches_caps in H10 as C10; [|reflexivity].
  apply matches_caps in H11 as C11; [|reflexivity].
  apply matches_class_group in H12 as (h & Hh & _ & C12).
  apply matches_caps in H13 as C13; [|reflexivity].
  apply matches_caps in H14 as C14; [|reflexivity].
  apply matches_caps in H15 as C15; [|reflexivity].
  apply matches_class_group in H16 as (x & [_ Hx] & _ & C16).
  apply matches_caps in H17 as C17; [|reflexivity].
  apply matches_caps in H18 as C18; [|reflexivity].
  apply matches_caps in H19 as C19; [|reflexivity].
  apply matches_class_group in H20 as (l & Hl & _ & C20).
  cbn [caps] in *.
  exists d, s, h, x, l. split.
  { rewrite C20, C19, C18, C17, C16, C15, C14, C13, C12, C11, C10, C9, C8,
      C7, C6, C5, C4, C3, C2, C1. reflexivity. }
  repeat (split; [assumption|]).
  eapply Forall_impl; [exact Hx|]. intros c Hc. cbn beta in Hc.
  apply orb_true_iff in Hc as [Hc|Hc]; [by left|right].
  by apply N.eqb_eq in Hc.
Qed.

Lemma digit_not_space (c : char16) : is_digit c = true -> is_space c = false.
Proof.
  unfold is_digit, is_space. intros [H1 H2]%andb_true_iff.
  apply N.leb_le in H1, H2.
  repeat (apply orb_false_iff; split);
    try (apply andb_false_iff; (left; apply N.leb_gt; lia)
                                || (right; apply N.leb_gt; lia));
    apply N.eqb_neq; lia.
Qed.

Lemma digits_prefix_all (ds : jsstring) :
  Forall (fun c => is_digit c = true) ds -> digits_prefix ds = ds.
Proof.
  induction 1 as [|c ds Hc _ IH]; [done|].
  cbn [digits_prefix]. by rewrite Hc, IH.
Qed.

Lemma digits_value_from (ds : jsstring) (acc : Z) :
  0 <= acc -> 0 <= fold_left (fun acc c => 10 * acc + digit_val c) ds acc.
Proof.
  revert acc. induction ds as [|c ds IH]; intros acc Hacc; [done|].
  cbn [fold_left]. apply IH. unfold digit_val. lia.
Qed.

(** Below 2^53 an integer is its own double; a double of a non-negative
    integer is not negative. *)
Lemma nearest_double_exact (n : Z) :
  n < EXACT_BELOW -> nearest_double n = n.
Proof.
  intros Hn. unfold nearest_double.
  change (2 ^ 53) with EXACT_BELOW.
  destruct (Z.ltb_spec n EXACT_BELOW); [reflexivity | lia].
Qed.

Lemma nearest_double_nonneg (n : Z) : 0 <= n -> 0 <= nearest_double n.
Proof.
  intros Hn. unfold nearest_double.
  destruct (n <? 2 ^ 53); [exact Hn|]. cbv zeta.
  apply Z.shiftl_nonneg.
  assert (Hq : 0 <= Z.shiftr n (Z.log2 n - 52)) by (by apply Z.shiftr_nonneg).
  destruct (_ || _); lia.
Qed.

Lemma to_number_non_negative (z : Z) : 0 <= z -> non_negative (to_number z).
Proof.
  intros Hz. unfold to_number, non_negative.
  rewrite (Z.abs_eq z Hz).
  destruct (Z.ltb_spec z 0); [lia|].
  destruct (nearest_double z <? 2 ^ 1024); [right | by left].
  eexists. split; [reflexivity|]. by apply nearest_double_nonneg.
Qed.

Lemma to_number_exact (z : Z) :
  0 <= z -> z < EXACT_BELOW -> to_number z = Num z.
Proof.
  intros Hz Hlt. unfold to_number.
  rewrite (Z.abs_eq z Hz), (nearest_double_exact z Hlt).
  destruct (Z.ltb_spec z 0); [lia|].
  destruct (Z.ltb_spec z (2 ^ 1024)) as [|Hge]; [reflexivity|].
  exfalso. assert (2 ^ 53 < 2 ^ 1024) by (apply Z.pow_lt_mono_r; lia).
  change (2 ^ 53) with EXACT_BELOW in *. lia.
Qed.

(** [parseInt] of a text of digits is the Number of its value. *)
Lemma parseInt10_number_text (ds : jsstring) :
  is_number_text ds ->
  parseInt10 ds = to_number (digits_value ds) /\ 0 <= digits_value ds.
Proof.
  intros [Hne Hall]. split; [|by apply digits_value_from].
  destruct ds as [|c ds]; [done|]. inversion Hall as [|? ? Hc Hds]; subst.
  unfold parseInt10. cbn [trim_start]. rewrite (digit_not_space _ Hc).
  assert (Hc' := Hc). unfold is_digit in Hc'.
  apply andb_true_iff in Hc' as [H1%N.leb_le H2%N.leb_le].
  destruct (N.eqb_spec c 45); [lia|]. destruct (N.eqb_spec c 43); [lia|].
  rewrite (digits_prefix_all _ Hall). reflexivity.
Qed.

Lemma parseInt10_non_negative (ds : jsstring) :
  is_number_text ds -> non_negative (parseInt10 ds).
Proof.
  intros Hds. destruct (parseInt10_number_text ds Hds) as [-> Hpos].
  by apply to_number_non_negative.
Qed.

(** Below 2^53 the Number is the value itself. *)
Lemma parseInt10_exact (ds : jsstring) :
  is_number_text ds -> digits_value ds < EXACT_BELOW ->
  parseInt10 ds = Num (digits_value ds).
Proof.
  intros Hds Hlt. destruct (parseInt10_number_text ds Hds) as [-> Hpos].
  by apply to_number_exact.
Qed.

Lemma parseInt10_digits (ds : jsstring) :
  Forall (fun c => is_digit c = true) ds ->
  parseInt10 ds = NaN \/ non_negative (parseInt10 ds).
Proof.
  intros Hall. destruct ds as [|c ds]; [by left|]. right.
  by apply parseInt10_non_negative.
Qed.

Lemma remove_commas (x : jsstring) :
  Forall (fun c => is_digit c = true \/ c = 44%N) x ->
  Forall (fun c => is_digit c = true) (remove_all 44%N x).
Proof.
  intros Hx. unfold remove_all. apply Forall_forall. intros c Hc.
  apply list_elem_of_filter in Hc as [Hne Hin].
  rewrite Forall_forall in Hx. by destruct (Hx c Hin).
Qed.

Lemma task_of_line_length (line : jsstring) :
  (length (Parser.task_of_line line) <= 1)%nat.
Proof.
  unfold Parser.task_of_line.
  destruct (exec Parser.TASK_LINE_PATTERN line); cbn; lia.
Qed.

Lemma task_of_line_id (line : jsstring) :
  Forall (fun item => non_negative (Parser.id item))
         (Parser.task_of_line line).
Proof.
  unfold Parser.task_of_line.
  destruct (exec Parser.TASK_LINE_PATTERN line) as [m|] eqn:Hm; [|done].
  apply task_line_match in Hm as (ds & mark & ts & before & -> & Hds & _).
  constructor; [|done]. cbn. by apply parseInt10_non_negative.
Qed.

Lemma task_of_line_terminated (line : jsstring) :
  line = [] \/ ends_with_line_terminator line ->
  Parser.task_of_line line = [].
Proof.
  intros Hline. unfold Parser.task_of_line.
  destruct (exec Parser.TASK_LINE_PATTERN line) as [m|] eqn:Hm; [|done].
  exfalso.
  apply task_line_match in Hm
    as (ds & mark & ts & before & _ & _ & Hne & Hts & ->).
  destruct Hline as [Hnil|(s' & c & Heq & Hc)].
  { apply app_eq_nil in Hnil as [_ ?]. done. }
  destruct (exists_last Hne) as (ts' & c' & ->).
  rewrite app_assoc in Heq. apply app_inj_tail in Heq as [_ ->].
  apply Forall_app in Hts as [_ Hlast]. inversion Hlast; subst. congruence.
Qed.

Lemma flat_map_length_le {A B} (f : A -> list B) (l : list A) :
  (forall a, (length (f a) <= 1)%nat) ->
  (length (flat_map f l) <= length l)%nat.
Proof.
  intros Hf. induction l as [|a l IH]; [done|].
  cbn [flat_map]. rewrite length_app. specialize (Hf a). cbn [length]. lia.
Qed.

Lemma parseTaskMessage_items (text : jsstring) (r : Parser.ParseResult) :
  Parser.parseTaskMessage text = Some r ->
  Parser.items r = flat_map Parser.task_of_line (split_on 10%N text).
Proof.
  unfold Parser.parseTaskMessage. destruct text as [|c text]; [done|].
  destruct (exec Parser.STATS_PATTERN (c :: text));
    destruct (flat_map Parser.task_of_line (split_on 10%N (c :: text)));
    try done; by intros [= <-].
Qed.

(** X18: whatever the text, what [parseTaskMessage] returns holds
    numbers where the patterns captured digits: the id of every item is
    never NaN and never negative (a non-negative integer, or Infinity
    when the digits spell more than a Number holds), and so are the day,
    the streak, the hearts and the level of the stats, which are present
    together or not at all; the xp may be NaN (its group takes commas
    alone) but is never negative; a line gives at most one item; and
    without stats there is at least one item. *)
Theorem parsed_fields_are_numbers (text : jsstring) (r : Parser.ParseResult) :
  Parser.parseTaskMessage text = Some r ->
  Forall (fun item => non_negative (Parser.id item)) (Parser.items r)
  /\ (length (Parser.items r) <= length (split_on 10%N text))%nat
  /\ match Parser.day r, Parser.stats r with
     | Some d, Some s =>
         non_negative d /\ non_negative (Parser.streak s)
         /\ non_negative (Parser.hearts s)
         /\ non_negative (Parser.level s)
         /\ (Parser.xp s = NaN \/ non_negative (Parser.xp s))
     | None, None => Parser.items r <> []
     | _, _ => False
     end.
Proof.
  intros Hparse. pose proof (parseTaskMessage_items _ _ Hparse) as Hi.
  split.
  { rewrite Hi. apply Forall_flat_map, Forall_forall. intros line _.
    apply task_of_line_id. }
  split.
  { rewrite Hi. apply flat_map_length_le, task_of_line_length. }
  unfold Parser.parseTaskMessage in Hparse.
  destruct text as [|c text]; [done|].
  destruct (exec Parser.STATS_PATTERN (c :: text)) as [m|] eqn:Hm.
  - apply stats_match in Hm
      as (d & s & h & x & l & -> & Hd & Hs & Hh & Hl & Hx).
    assert (r = Parser.mkResult
                  (Some (parseInt10 d))
                  (Some (Parser.mkStats (parseInt10 s) (parseInt10 h)
                           (parseInt10 (remove_all 44%N x)) (parseInt10 l)))
                  (Parser.items r)) as ->.
    { rewrite Hi.
      destruct (flat_map Parser.task_of_line (split_on 10%N (c :: text)));
        by injection Hparse as <-. }
    cbn [Parser.day Parser.stats Parser.streak Parser.hearts Parser.level
         Parser.xp].
    repeat (split; [by apply parseInt10_non_negative|]).
    apply parseInt10_digits, remove_commas, Hx.
  - destruct (flat_map Parser.task_of_line (split_on 10%N (c :: text)))
      as [|item its] eqn:Hits; [done|].
    injection Hparse as <-. cbn. done.
Qed.

Lemma parsed_fields_are_numbers_witness :
  let r := Parser.mkResult (Some (Num 42))
             (Some (Parser.mkStats (Num 5) (Num 3) (Num 1250) (Num 7)))
             [ Parser.mkItem (Num 1) (lit "Review PR") true;
               Parser.mkItem (Num 2) (lit "Write tests") false ] in
  Parser.parseTaskMessage Parser.example_buffer = Some r
  /\ Forall (fun item => non_negative (Parser.id item)) (Parser.items r)
  /\ Parser.id <$> Parser.task_of_line (lit "9007199254740993. [x] far")
     = [Num 9007199254740992]
  /\ Parser.id <$> Parser.task_of_line
                     (repeat 57%N 400 ++ lit ". [x] farther")
     = [Infinity false].
Proof.
  intros r. assert (H : Parser.parseTaskMessage Parser.example_buffer = Some r)
    by (vm_compute; reflexivity).
  split; [exact H|].
  split; [exact (proj1 (parsed_fields_are_numbers Parser.example_buffer r H))|].
  split; vm_compute; reflexivity.
Defined.

(** X19: a line that ends in a line terminator is no task line: the dot of
    the pattern does not read a carriage return and its [$] holds at the
    end of the line only.  So a text whose lines all end in one (a text
    with CR LF line ends, say) gives no item, whatever the lines hold. *)
Theorem carriage_return_hides_task_lines (text : jsstring)
  (r : Parser.ParseResult) :
  (forall line, In line (split_on 10%N text) ->
                line = [] \/ ends_with_line_terminator line) ->
  Parser.parseTaskMessage text = Some r ->
  Parser.items r = [].
Proof.
  intros Hlines Hparse. rewrite (parseTaskMessage_items _ _ Hparse).
  induction (split_on 10%N text) as [|line lines IH]; [done|].
  cbn [flat_map]. rewrite task_of_line_terminated.
  - apply IH. intros l Hl. apply Hlines. by right.
  - apply Hlines. by left.
Qed.

Lemma carriage_return_hides_task_lines_witness :
  let text := lit "Day 1 | Streak: 2 | Hearts: 3 | XP: 4 | Level: 5"
              ++ [13; 10]%N ++ lit "1. [x] Review PR" ++ [13; 10]%N in
  exists r, Parser.parseTaskMessage text = Some r /\ Parser.items r = [].
Proof.
  intros text.
  assert (H : Parser.parseTaskMessage text
              = Some (Parser.mkResult (Some (Num 1))
                        (Some (Parser.mkStats (Num 2) (Num 3) (Num 4) (Num 5)))
                        []))
    by (vm_compute; reflexivity).
  eexists. split; [exact H|].
  apply (carriage_return_hides_task_lines text _); [|exact H].
  intros line Hin. vm_compute in Hin.
  destruct Hin as [<-|[<-|[<-|[]]]].
  - right.
    exists (lit "Day 1 | Streak: 2 | Hearts: 3 | XP: 4 | Level: 5"), 13%N.
    split; reflexivity.
  - right. exists (lit "1. [x] Review PR"), 13%N. split; reflexivity.
  - by left.
Defined.

End RegexFacts.

(* ===================================================================== *)
(** * The lines the parser reads *)
(* ===================================================================== *)

Section ReadingFacts.
Import RegexSem.
Variable input : jsstring.

Lemma run_char_ok (p : char16 -> bool) (k : continuation) (c : char16)
  (s : jsstring) (cs : list (nat * jsstring)) :
  p c = true -> run input (RChar p) k (MState (c :: s) cs) = k (MState s cs).
Proof. intros Hp. cbn [run rest caps]. by rewrite Hp. Qed.

Lemma run_char_stops (p : char16 -> bool) (k : continuation)
  (s : jsstring) (cs : list (nat * jsstring)) :
  stops p s -> run input (RChar p) k (MState s cs) = None.
Proof.
  intros Hs. cbn [run rest caps]. destruct s as [|c s]; [done|].
  cbn [stops] in Hs. by rewrite Hs.
Qed.

(** A greedy run of a class reads all the units of the class in front of
    it when what comes after the run then succeeds. *)
Lemma star_loop_munch (p : char16 -> bool) (k : continuation)
  (rest0 : jsstring) (cs : list (nat * jsstring)) (res : mstate) :
  stops p rest0 -> k (MState rest0 cs) = Some res ->
  forall xs fuel,
    Forall (fun c => p c = true) xs -> (length xs < fuel)%nat ->
    star_loop input (RChar p) true k fuel (MState (xs ++ rest0) cs)
    = Some res.
Proof.
  intros Hstop Hk xs. induction xs as [|x xs IH]; intros fuel Hall Hlt.
  - destruct fuel as [|fuel]; [cbn in Hlt; lia|].
    cbn [star_loop app]. by rewrite run_char_stops, Hk.
  - destruct fuel as [|fuel]; [cbn in Hlt; lia|].
    inversion Hall as [|? ? Hx Hxs]; subst.
    cbn [star_loop]. fold (star_loop input (RChar p) true k).
    change ((x :: xs) ++ rest0) with (x :: (xs ++ rest0)).
    rewrite (run_char_ok _ _ _ _ _ Hx). cbn [rest length].
    rewrite (proj2 (Nat.ltb_lt _ _)) by lia.
    rewrite IH; [done|exact Hxs|]. cbn [length] in Hlt. lia.
Qed.

Lemma star_munch (p : char16 -> bool) (k : continuation)
  (xs rest0 : jsstring) (cs : list (nat * jsstring)) (res : mstate) :
  Forall (fun c => p c = true) xs -> stops p rest0 ->
  k (MState rest0 cs) = Some res ->
  run input (RStar true (RChar p)) k (MState (xs ++ rest0) cs) = Some res.
Proof.
  intros Hall Hstop Hk. rewrite run_star.
  apply star_loop_munch; try done. cbn [rest]. rewrite length_app. lia.
Qed.

Lemma plus_munch (p : char16 -> bool) (k : continuation)
  (xs rest0 : jsstring) (cs : list (nat * jsstring)) (res : mstate) :
  xs <> [] -> Forall (fun c => p c = true) xs -> stops p rest0 ->
  k (MState rest0 cs) = Some res ->
  run input (RPlus true (RChar p)) k (MState (xs ++ rest0) cs) = Some res.
Proof.
  intros Hne Hall Hstop Hk. destruct xs as [|x xs]; [done|].
  inversion Hall as [|? ? Hx Hxs]; subst.
  unfold RPlus.
  change (run input (RSeq (RChar p) (RStar true (RChar p))) k
            (MState ((x :: xs) ++ rest0) cs))
    with (run input (RChar p) (run input (RStar true (RChar p)) k)
            (MState (x :: (xs ++ rest0)) cs)).
  rewrite (run_char_ok p _ x (xs ++ rest0) cs Hx).
  by apply star_munch.
Qed.

Lemma group_munch (n : nat) (p : char16 -> bool) (k : continuation)
  (xs rest0 : jsstring) (cs : list (nat * jsstring)) (res : mstate) :
  xs <> [] -> Forall (fun c => p c = true) xs -> stops p rest0 ->
  k (MState rest0 ((n, xs) :: cs)) = Some res ->
  run input (RGroup n (RPlus true (RChar p))) k (MState (xs ++ rest0) cs)
  = Some res.
Proof.
  intros Hne Hall Hstop Hk.
  change (run input (RGroup n (RPlus true (RChar p))) k
            (MState (xs ++ rest0) cs))
    with (run input (RPlus true (RChar p))
            (fun st' => k (MState (rest st')
                             ((n, consumed (MState (xs ++ rest0) cs) st')
                              :: caps st')))
            (MState (xs ++ rest0) cs)).
  apply plus_munch; try done. cbn [rest caps].
  by rewrite (consumed_read (MState (xs ++ rest0) cs) (MState rest0 cs) xs).
Qed.

(** A literal reads itself. *)
Lemma seq_of_read (mk : char16 -> regex) (k : continuation)
  (s rest0 : jsstring) (cs : list (nat * jsstring)) :
  (forall c k' s' cs', run input (mk c) k' (MState (c :: s') cs')
                       = k' (MState s' cs')) ->
  run input (seq_of mk s) k (MState (s ++ rest0) cs) = k (MState rest0 cs).
Proof.
  intros Hmk. revert k cs. induction s as [|c s IH]; intros k cs; [done|].
  destruct s as [|c' s].
  - cbn [seq_of app]. apply Hmk.
  - change (seq_of mk (c :: c' :: s)) with (RSeq (mk c) (seq_of mk (c' :: s))).
    change (run input (RSeq (mk c) (seq_of mk (c' :: s))) k
              (MState ((c :: c' :: s) ++ rest0) cs))
      with (run input (mk c) (run input (seq_of mk (c' :: s)) k)
              (MState (c :: ((c' :: s) ++ rest0)) cs)).
    rewrite Hmk. apply IH.
Qed.

Lemma chr_read (c : char16) (k : continuation) (s : jsstring)
  (cs : list (nat * jsstring)) :
  run input (chr c) k (MState (c :: s) cs) = k (MState s cs).
Proof. apply run_char_ok, N.eqb_refl. Qed.

Lemma chr_i_read (c : char16) (k : continuation) (s : jsstring)
  (cs : list (nat * jsstring)) :
  run input (chr_i c) k (MState (c :: s) cs) = k (MState s cs).
Proof. apply run_char_ok, N.eqb_refl. Qed.

Lemma str_i_read (s : string) (k : continuation) (rest0 : jsstring)
  (cs : list (nat * jsstring)) :
  run input (str_i s) k (MState (lit s ++ rest0) cs) = k (MState rest0 cs).
Proof. apply seq_of_read. intros. apply chr_i_read. Qed.

Lemma seq_read (r1 r2 : regex) (k : continuation) (st : mstate) :
  run input (RSeq r1 r2) k st = run input r1 (run input r2 k) st.
Proof. reflexivity. Qed.

Lemma opt_taken (r : regex) (k : continuation) (st res : mstate) :
  run input r k st = Some res -> run input (ROpt r) k st = Some res.
Proof. intros H. unfold ROpt. cbn [run]. by rewrite H. Qed.

Lemma lazy_stops (r : regex) (k : continuation) (st res : mstate) :
  k st = Some res -> run input (RStar false r) k st = Some res.
Proof. intros H. rewrite run_star. cbn [star_loop]. by rewrite H. Qed.

End ReadingFacts.

Section ParserReadingFacts.
Import RegexSem.

Lemma exec_here (r : regex) (s : jsstring) (st : mstate) :
  run s r Some (MState s []) = Some st -> exec r s = Some (caps st).
Proof. intros H. unfold exec. destruct s; cbn [search]; by rewrite H. Qed.

Lemma stops_head (p : char16 -> bool) (xs r : jsstring) :
  match xs with [] => False | c :: _ => p c = false end ->
  stops p (xs ++ r).
Proof. by destruct xs. Qed.

Lemma number_text_head (p : char16 -> bool) (d : jsstring) :
  is_number_text d -> (forall c, is_digit c = true -> p c = false) ->
  match d with [] => False | c :: _ => p c = false end.
Proof.
  intros [Hne Hall] Hp. destruct d as [|c d]; [done|].
  inversion Hall; subst. by apply Hp.
Qed.

Lemma digit_not_separator (c : char16) :
  is_digit c = true -> N.eqb c 58 || is_space c = false.
Proof.
  intros Hc. rewrite (digit_not_space _ Hc), orb_false_r.
  unfold is_digit in Hc. apply andb_true_iff in Hc as [_ H%N.leb_le].
  apply N.eqb_neq. lia.
Qed.

Lemma grouped_number_class (x : jsstring) :
  is_grouped_number x ->
  x <> [] /\ Forall (fun c => is_digit c || N.eqb c 44 = true) x
  /\ is_number_text (remove_all 44%N x).
Proof.
  intros [Hall Hex]. split; [|split; [|split]].
  - intros ->. by apply Exists_nil in Hex.
  - eapply Forall_impl; [exact Hall|]. intros c [Hc| ->]; cbn beta.
    + by rewrite Hc.
    + by rewrite orb_true_r.
  - apply Exists_exists in Hex as (c & Hin & Hc).
    intros Hnil. assert (Hc' : c ∈ remove_all 44%N x).
    { apply list_elem_of_filter. split; [|done]. intros ->. done. }
    rewrite Hnil in Hc'. by apply not_elem_of_nil in Hc'.
  - by apply remove_commas.
Qed.

Lemma grouped_number_head (x : jsstring) :
  is_grouped_number x ->
  match x with
  | [] => False
  | c :: _ => N.eqb c 58 || is_space c = false
  end.
Proof.
  intros Hx. destruct (grouped_number_class x Hx) as (Hne & _ & _).
  destruct Hx as [Hall _]. destruct x as [|c x]; [done|].
  inversion Hall as [|? ? [Hc| ->] _]; subst; [|done].
  by apply digit_not_separator.
Qed.

(** The captures of the stats pattern on a stats line. *)
Lemma stats_line_captures (d s h x l tail : jsstring) :
  is_number_text d -> is_number_text s -> is_number_text h ->
  is_grouped_number x -> is_number_text l -> stops is_digit tail ->
  exec Parser.STATS_PATTERN (stats_line d s h x l ++ tail)
  = Some [(5, l); (4, x); (3, h); (2, s); (1, d)]%nat.
Proof.
  intros Hd Hs Hh Hx Hl Htail.
  set (input := stats_line d s h x l ++ tail).
  assert (Hin : input =
    lit "Day" ++ [32%N] ++ d
    ++ [32%N] ++ [124%N] ++ [32%N] ++ lit "Streak" ++ [58; 32]%N ++ s
    ++ [32%N] ++ [124%N] ++ [32%N] ++ lit "Heart" ++ [115%N] ++ [58; 32]%N
    ++ h
    ++ [32%N] ++ [124%N] ++ [32%N] ++ lit "XP" ++ [58; 32]%N ++ x
    ++ [32%N] ++ [124%N] ++ [32%N] ++ lit "Level" ++ [58; 32]%N ++ l
    ++ tail).
  { unfold input, stats_line. rewrite <- !app_assoc. reflexivity. }
  destruct (grouped_number_class x Hx) as (Hxne & Hxall & _).
  pose proof (grouped_number_head x Hx) as Hxhead.
  apply (exec_here _ _ (MState tail [(5, l); (4, x); (3, h); (2, s); (1, d)]%nat)).
  fold input. rewrite Hin at 2. clearbody input. clear Hin.
  unfold Parser.STATS_PATTERN, Parser.field_gap, Parser.colon_or_space,
    Parser.digits_or_commas, Parser.number_group.
  cbn [seqs].
  (* Day\s+(\d+) *)
  rewrite seq_read, str_i_read.
  rewrite seq_read. apply plus_munch; [done|by repeat constructor| |].
  { apply stops_head, number_text_head; [done|]. apply digit_not_space. }
  rewrite seq_read. apply group_munch; [apply Hd|apply Hd|done|].
  (* \s*\|?\s*.*?Streak[:\s]+(\d+) *)
  do 2 rewrite seq_read. apply star_munch; [by repeat constructor|done|].
  rewrite seq_read. apply opt_taken. change ([124%N] ++ ?r) with (124%N :: r).
  rewrite chr_read.
  rewrite seq_read. apply star_munch; [by repeat constructor|done|].
  apply lazy_stops. rewrite seq_read, str_i_read.
  rewrite seq_read. apply plus_munch; [done|by repeat constructor| |].
  { apply stops_head, number_text_head; [done|]. apply digit_not_separator. }
  rewrite seq_read. apply group_munch; [apply Hs|apply Hs|done|].
  (* \s*\|?\s*.*?Hearts?[:\s]+(\d+) *)
  do 2 rewrite seq_read. apply star_munch; [by repeat constructor|done|].
  rewrite seq_read. apply opt_taken. change ([124%N] ++ ?r) with (124%N :: r).
  rewrite chr_read.
  rewrite seq_read. apply star_munch; [by repeat constructor|done|].
  apply lazy_stops. rewrite seq_read, str_i_read.
  rewrite seq_read. apply opt_taken.
  change ([115%N] ++ ?r) with (115%N :: r). rewrite chr_i_read.
  rewrite seq_read. apply plus_munch; [done|by repeat constructor| |].
  { apply stops_head, number_text_head; [done|]. apply digit_not_separator. }
  rewrite seq_read. apply group_munch; [apply Hh|apply Hh|done|].
  (* \s*\|?\s*.*?XP[:\s]+([\d,]+) *)
  do 2 rewrite seq_read. apply star_munch; [by repeat constructor|done|].
  rewrite seq_read. apply opt_taken. change ([124%N] ++ ?r) with (124%N :: r).
  rewrite chr_read.
  rewrite seq_read. apply star_munch; [by repeat constructor|done|].
  apply lazy_stops. rewrite seq_read, str_i_read.
  rewrite seq_read. apply plus_munch; [done|by repeat constructor| |].
  { by apply stops_head. }
  rewrite seq_read. apply group_munch; [exact Hxne|exact Hxall|done|].
  (* \s*\|?\s*.*?Level[:\s]+(\d+) *)
  do 2 rewrite seq_read. apply star_munch; [by repeat constructor|done|].
  rewrite seq_read. apply opt_taken. change ([124%N] ++ ?r) with (124%N :: r).
  rewrite chr_read.
  rewrite seq_read. apply star_munch; [by repeat constructor|done|].
  apply lazy_stops. rewrite seq_read, str_i_read.
  rewrite seq_read. apply plus_munch; [done|by repeat constructor| |].
  { apply stops_head, number_text_head; [done|]. apply digit_not_separator. }
  apply group_munch; [apply Hl|apply Hl|exact Htail|reflexivity].
Qed.

(** What [parseInt] makes of a text of digits. *)
Lemma parseInt10_read (ds : jsstring) :
  is_number_text ds ->
  non_negative (parseInt10 ds)
  /\ (digits_value ds < EXACT_BELOW -> parseInt10 ds = Num (digits_value ds)).
Proof.
  intros Hds. split; [by apply parseInt10_non_negative|].
  by apply parseInt10_exact.
Qed.

(** X20: a stats line in the documented format
    [Day d | Streak: s | Hearts: h | XP: x | Level: l] at the start of
    the text is read field by field, whatever the numbers: day, streak,
    hearts and level are what [parseInt] makes of their digits, and the
    xp what it makes of its digits with the grouping commas left out.
    Each is the value the digits spell when that is below 2^53, and a
    Number that is neither NaN nor negative in any case.  What follows
    the line must not start with a digit (it would continue the
    level). *)
Theorem stats_line_is_read (d s h x l tail : jsstring) :
  is_number_text d -> is_number_text s -> is_number_text h ->
  is_grouped_number x -> is_number_text l -> stops is_digit tail ->
  (exists items,
     Parser.parseTaskMessage (stats_line d s h x l ++ tail)
     = Some (Parser.mkResult
               (Some (parseInt10 d))
               (Some (Parser.mkStats (parseInt10 s) (parseInt10 h)
                        (parseInt10 (remove_all 44%N x)) (parseInt10 l)))
               items))
  /\ Forall (fun ds =>
               non_negative (parseInt10 ds)
               /\ (digits_value ds < EXACT_BELOW ->
                   parseInt10 ds = Num (digits_value ds)))
            [d; s; h; remove_all 44%N x; l].
Proof.
  intros Hd Hs Hh Hx Hl Htail.
  pose proof (stats_line_captures d s h x l tail Hd Hs Hh Hx Hl Htail) as Hm.
  destruct (grouped_number_class x Hx) as (_ & _ & Hx').
  split.
  - exists (flat_map Parser.task_of_line
              (split_on 10%N (stats_line d s h x l ++ tail))).
    unfold Parser.parseTaskMessage.
    destruct (stats_line d s h x l ++ tail) as [|c text] eqn:Htext; [done|].
    rewrite Hm.
    set (m := [(5, l); (4, x); (3, h); (2, s); (1, d)]%nat).
    change (Parser.group 1 m) with d. change (Parser.group 2 m) with s.
    change (Parser.group 3 m) with h. change (Parser.group 4 m) with x.
    change (Parser.group 5 m) with l.
    by destruct (flat_map Parser.task_of_line (split_on 10%N (c :: text))).
  - repeat (constructor; [by apply parseInt10_read|]). constructor.
Qed.

Lemma bol_read (input : jsstring) (k : continuation)
  (cs : list (nat * jsstring)) :
  run input RBol k (MState input cs) = k (MState input cs).
Proof. cbn [run rest]. by rewrite Nat.eqb_refl. Qed.

Lemma eol_read (input : jsstring) (k : continuation)
  (cs : list (nat * jsstring)) :
  run input REol k (MState [] cs) = k (MState [] cs).
Proof. reflexivity. Qed.

(** The marker alternatives read each of the markers. *)
Lemma check_marker_read (input : jsstring) (k : continuation)
  (m rest0 : jsstring) (cs : list (nat * jsstring)) (res : mstate) :
  m ∈ markers ->
  (m = Parser.GLYPH_TODO -> stops (N.eqb Parser.GLYPH_TODO_TAIL) rest0) ->
  k (MState rest0 cs) = Some res ->
  run input Parser.check_marker k (MState (m ++ rest0) cs) = Some res.
Proof.
  intros Hm Htail Hk. unfold markers in Hm.
  unfold Parser.check_marker, str.
  change (lit "[x]") with [91; 120; 93]%N in *.
  change (lit "[]") with [91; 93]%N in *.
  change (lit "[ ]") with [91; 32; 93]%N in *.
  repeat (apply elem_of_cons in Hm as [->|Hm]);
    [..|by apply elem_of_nil in Hm]; try (cbn; by rewrite Hk).
  specialize (Htail eq_refl). cbn.
  destruct rest0 as [|c rest0]; [by rewrite Hk|].
  cbn [stops] in Htail. unfold Parser.GLYPH_TODO_TAIL in Htail.
  change (match c with 0%N => false | N.pos q => (184 =? q)%positive end)
    with (N.eqb 184 c).
  by rewrite Htail, Hk.
Qed.

Lemma marker_group_read (input : jsstring) (k : continuation)
  (m rest0 : jsstring) (cs : list (nat * jsstring)) (res : mstate) :
  m ∈ markers ->
  (m = Parser.GLYPH_TODO -> stops (N.eqb Parser.GLYPH_TODO_TAIL) rest0) ->
  k (MState rest0 ((2%nat, m) :: cs)) = Some res ->
  run input (RGroup 2 Parser.check_marker) k (MState (m ++ rest0) cs)
  = Some res.
Proof.
  intros Hm Htail Hk.
  change (run input (RGroup 2 Parser.check_marker) k (MState (m ++ rest0) cs))
    with (run input Parser.check_marker
            (fun st' => k (MState (rest st')
                             ((2%nat, consumed (MState (m ++ rest0) cs) st')
                              :: caps st')))
            (MState (m ++ rest0) cs)).
  apply check_marker_read; try done. cbn [rest caps].
  by rewrite (consumed_read (MState (m ++ rest0) cs) (MState rest0 cs) m).
Qed.

Lemma marker_head (m r : jsstring) :
  m ∈ markers -> stops is_space (m ++ r).
Proof.
  intros Hm. unfold markers in Hm.
  repeat (apply elem_of_cons in Hm as [->|Hm]);
    [..|by apply elem_of_nil in Hm]; reflexivity.
Qed.

(** The captures of the task pattern on a task line. *)
Lemma task_line_captures (ws1 ds ws2 m ws3 text : jsstring) :
  blank ws1 -> is_number_text ds -> blank ws2 -> m ∈ markers ->
  blank ws3 ->
  text <> [] -> Forall (fun c => is_line_terminator c = false) text ->
  stops is_space text ->
  (m = Parser.GLYPH_TODO ->
   stops (N.eqb Parser.GLYPH_TODO_TAIL) (ws3 ++ text)) ->
  exec Parser.TASK_LINE_PATTERN (task_line ws1 ds ws2 m ws3 text)
  = Some [(3, text); (2, m); (1, ds)]%nat.
Proof.
  intros H1 Hds H2 Hm H3 Hne Hdot Htext Htail.
  set (input := task_line ws1 ds ws2 m ws3 text).
  assert (Hin : input = ws1 ++ ds ++ 46%N :: ws2 ++ m ++ ws3 ++ text ++ [])
    by (by rewrite app_nil_r).
  apply (exec_here _ _ (MState [] [(3, text); (2, m); (1, ds)]%nat)).
  fold input. unfold Parser.TASK_LINE_PATTERN, Parser.number_group.
  cbn [seqs]. rewrite seq_read, bol_read.
  rewrite Hin at 2. clearbody input. clear Hin.
  rewrite seq_read. apply star_munch; [exact H1| |].
  { apply stops_head, number_text_head; [done|]. apply digit_not_space. }
  rewrite seq_read. apply group_munch; [apply Hds|apply Hds|done|].
  rewrite seq_read, chr_read.
  rewrite seq_read. apply star_munch; [exact H2|by apply marker_head|].
  rewrite seq_read. apply marker_group_read; [exact Hm| |].
  { intros ->. rewrite app_nil_r. by apply Htail. }
  rewrite seq_read. apply star_munch; [exact H3| |].
  { destruct text; [done|]. exact Htext. }
  rewrite seq_read. apply group_munch; [exact Hne| |done|reflexivity].
  eapply Forall_impl; [exact Hdot|]. intros c Hc. cbn beta. by rewrite Hc.
Qed.

(** The item a task line gives. *)
Lemma task_line_item (ws1 ds ws2 m ws3 text : jsstring) :
  blank ws1 -> is_number_text ds -> blank ws2 -> m ∈ markers ->
  blank ws3 ->
  text <> [] -> Forall (fun c => is_line_terminator c = false) text ->
  stops is_space text ->
  (m = Parser.GLYPH_TODO ->
   stops (N.eqb Parser.GLYPH_TODO_TAIL) (ws3 ++ text)) ->
  Parser.task_of_line (task_line ws1 ds ws2 m ws3 text)
  = [ Parser.mkItem (parseInt10 ds) (trim text) (is_done_marker m) ].
Proof.
  intros H1 Hds H2 Hm H3 Hne Hdot Htext Htail.
  unfold Parser.task_of_line.
  rewrite (task_line_captures ws1 ds ws2 m ws3 text) by done.
  reflexivity.
Qed.



Lemma stats_line_is_read_witness :
  exists items,
    Parser.parseTaskMessage
      (stats_line (lit "42") (lit "5") (lit "3") (lit "1,250") (lit "7")
       ++ 10%N :: lit "1. [x] Review PR")
    = Some (Parser.mkResult (Some (Num 42))
              (Some (Parser.mkStats (Num 5) (Num 3) (Num 1250) (Num 7)))
              items).
Proof.
  refine (proj1 (stats_line_is_read (lit "42") (lit "5") (lit "3")
                   (lit "1,250") (lit "7") (10%N :: lit "1. [x] Review PR")
                   _ _ _ _ _ _)).
  - split; [done|by repeat constructor].
  - split; [done|by repeat constructor].
  - split; [done|by repeat constructor].
  - split.
    + repeat constructor; by (left + right).
    + by constructor.
  - split; [done|by repeat constructor].
  - reflexivity.
Defined.

End ParserReadingFacts.

(* ===================================================================== *)
(** * The signed payload can be read back *)
(* ===================================================================== *)

Section AuthPayloadFacts.
Import DeviceIdentity AuthPayload.

Lemma split_on_free (sep : char16) (p : jsstring) :
  Forall (fun c => c <> sep) p -> split_on sep p = [p].
Proof.
  induction 1 as [|c p Hc _ IH]; [done|].
  cbn [split_on]. destruct (N.eqb_spec c sep); [done|]. by rewrite IH.
Qed.

Lemma split_on_field (sep : char16) (p s : jsstring) :
  Forall (fun c => c <> sep) p ->
  split_on sep (p ++ sep :: s) = p :: split_on sep s.
Proof.
  induction 1 as [|c p Hc _ IH].
  - cbn [app split_on]. by rewrite N.eqb_refl.
  - cbn [app split_on]. destruct (N.eqb_spec c sep); [done|]. by rewrite IH.
Qed.

(** Splitting what [join] made gives the parts back when no part holds
    the separator. *)
Lemma split_on_join (sep : char16) (parts : list jsstring) :
  parts <> [] -> Forall (Forall (fun c => c <> sep)) parts ->
  split_on sep (join [sep] parts) = parts.
Proof.
  intros Hne Hall. induction Hall as [|p parts Hp Hparts IH]; [done|].
  destruct parts as [|q parts].
  - cbn [join]. by apply split_on_free.
  - change (join [sep] (p :: q :: parts))
      with (p ++ sep :: join [sep] (q :: parts)).
    rewrite split_on_field by done. by rewrite IH.
Qed.

Lemma join_free (sep c : char16) (parts : list jsstring) :
  sep <> c -> Forall (Forall (fun d => d <> c)) parts ->
  Forall (fun d => d <> c) (join [sep] parts).
Proof.
  intros Hsep Hall. induction Hall as [|p parts Hp Hparts IH]; [done|].
  destruct parts as [|q parts]; [done|].
  change (join [sep] (p :: q :: parts))
    with (p ++ sep :: join [sep] (q :: parts)).
  apply Forall_app. split; [done|]. by constructor.
Qed.

Lemma dec_digits_free (fuel : nat) (n : N) (acc : jsstring) :
  bar_free acc -> bar_free (dec_digits fuel n acc).
Proof.
  revert n acc. induction fuel as [|fuel IH]; intros n acc Hacc; [done|].
  cbn [dec_digits].
  assert (bar_free ((48 + n mod 10)%N :: acc)).
  { constructor; [|done]. pose proof (N.mod_upper_bound n 10). lia. }
  destruct (n <? 10)%N; [done|]. by apply IH.
Qed.

Lemma payload_is_joined (a : AuthFields) :
  buildDeviceAuthPayload a = join [124%N] (payload_array a).
Proof.
  unfold buildDeviceAuthPayload, payload_array, payload_fields.
  destruct (present (nonce a)); reflexivity.
Qed.

Lemma payload_array_free (a : AuthFields) :
  fields_bar_free a -> Forall bar_free (payload_array a).
Proof.
  intros (H1 & H2 & H3 & H4 & H5 & H6 & H7).
  unfold payload_array, payload_fields.
  assert (bar_free (join (lit ",") (scopes a)))
    by (apply (join_free 44%N 124%N (scopes a)); [done|exact H5]).
  assert (bar_free (String_of_N (signedAtMs a)))
    by (apply dec_digits_free; constructor).
  destruct (present (nonce a)); repeat (constructor; [done|]);
    repeat constructor; done.
Qed.

(** X22: the fields of a payload can be read back from it: when no field
    holds a "|", splitting the payload at "|" gives the array that was
    joined (the version, the seven fields and, in the second form, the
    nonce).  So two payloads that are equal were built from the same
    version, device, client, mode, role, scopes text, signing time and
    token, and the same nonce when there is one. *)
Theorem payload_fields_are_recovered (a : AuthFields) :
  fields_bar_free a ->
  split_on 124%N (buildDeviceAuthPayload a) = payload_array a
  /\ (forall b, fields_bar_free b ->
        buildDeviceAuthPayload b = buildDeviceAuthPayload a ->
        present (nonce b) = present (nonce a)
        /\ payload_fields b = payload_fields a
        /\ (present (nonce a) = true -> nonce b = nonce a)).
Proof.
  intros Ha.
  assert (Hsplit : forall c, fields_bar_free c ->
            split_on 124%N (buildDeviceAuthPayload c) = payload_array c).
  { intros c Hc. rewrite payload_is_joined.
    apply split_on_join; [done|]. by apply payload_array_free. }
  split; [by apply Hsplit|].
  intros b Hb Heq.
  assert (Harr : payload_array b = payload_array a).
  { by rewrite <- (Hsplit a Ha), <- (Hsplit b Hb), Heq. }
  unfold payload_array in Harr.
  pose proof (f_equal (hd []) Harr) as Hv.
  pose proof (f_equal (@tl _) Harr) as Ht. cbn [hd tl] in Hv, Ht.
  destruct (present (nonce a)) eqn:Hpa, (present (nonce b)) eqn:Hpb.
  - apply app_inj_tail in Ht as [Hf Hn].
    split; [done|]. split; [done|]. intros _.
    destruct (nonce a) as [[|]|], (nonce b) as [[|]|]; try done.
    cbn in Hn. by rewrite Hn.
  - exfalso. vm_compute in Hv. discriminate Hv.
  - exfalso. vm_compute in Hv. discriminate Hv.
  - rewrite !app_nil_r in Ht. done.
Qed.

Lemma payload_fields_are_recovered_witness :
  split_on 124%N (buildDeviceAuthPayload (Samples.example_auth (Some (lit "n-1"))))
  = [ lit "v2"; lit "ab12"; lit "webchat"; lit "webchat"; lit "operator";
      lit "operator.read,operator.write,operator.admin";
      lit "1700000000123"; lit "tok"; lit "n-1" ].
Proof.
  refine (proj1 (payload_fields_are_recovered
                   (Samples.example_auth (Some (lit "n-1"))) _)).
  unfold fields_bar_free, bar_free. cbn.
  repeat split; repeat constructor; done.
Defined.

End AuthPayloadFacts.

(* ===================================================================== *)
(** * The task view and the stream of frames *)
(* ===================================================================== *)

Section TasksUiFacts.
Import RegexSem Parser Frames TasksUi.
Variable JSON_stringify : value -> jsstring.
Variable ToString : value -> jsstring.
Variable host_member : list N -> string -> value.
Variable renderFromState : gmap string value -> bool.

Local Abbreviation on_frame := (on_frame JSON_stringify ToString host_member
                              renderFromState).
Local Abbreviation on_done := (on_done JSON_stringify renderFromState).
Local Abbreviation applyParsedTasks := (applyParsedTasks JSON_stringify
                                      renderFromState).
Local Abbreviation frame_text := (frame_text host_member).
Local Abbreviation deliver := (deliver JSON_stringify ToString host_member
                             renderFromState).

Lemma parseTaskMessage_some (text : jsstring) (it : TaskItem)
  (its : list TaskItem) :
  flat_map task_of_line (split_on 10%N text) = it :: its ->
  exists r, parseTaskMessage text = Some r /\ items r = it :: its.
Proof.
  intros Hits. unfold parseTaskMessage. destruct text as [|c text].
  { cbn in Hits. discriminate Hits. }
  rewrite Hits. destruct (exec STATS_PATTERN (c :: text)); by eexists.
Qed.

Lemma parseTaskMessage_no_items (text : jsstring) :
  no_items text ->
  match parseTaskMessage text with
  | Some r => items r = []
  | None => True
  end.
Proof.
  intros Hno. destruct (parseTaskMessage text) as [r|] eqn:Hr; [|done].
  by rewrite (parseTaskMessage_items _ _ Hr).
Qed.

Lemma marker_one_line (m : jsstring) :
  m ∈ markers -> Forall (fun c => c <> 10%N) m.
Proof.
  intros Hm. unfold markers in Hm.
  repeat (apply elem_of_cons in Hm as [->|Hm]);
    [..|by apply elem_of_nil in Hm]; by repeat constructor.
Qed.

Lemma applyParsedTasks_items (parsed : ParseResult) (u : Ui)
  (it : TaskItem) (its : list TaskItem) :
  (forall st, renderFromState st = true) ->
  items parsed = it :: its ->
  exists u',
    applyParsedTasks parsed u = Some u'
    /\ accumulator u' = accumulator u
    /\ stored_items u' = Some (VArr (map item_value (it :: its))).
Proof.
  intros Hrender Hits. unfold applyParsedTasks, render. rewrite Hrender, Hits.
  eexists. split; [reflexivity|]. split; [reflexivity|].
  unfold stored_items. cbn [store StoreApi.get StoreApi.update StoreApi.commit
                             StoreApi.state].
  change (StoreApi.split_path "tasks") with ["tasks"%string].
  cbn [StoreApi.assign_path StoreApi.lookup_path].
  rewrite sets_prototype_other by done.
  rewrite lookup_insert_eq.
  change (own_props (default VUndefined (Some (VObj ?o)))) with o.
  rewrite lookup_insert_ne by done. by rewrite lookup_insert_eq.
Qed.

(** X23: the listener applies a task list the moment the buffer holds a
    task line, and empties the buffer.  So when it is called with the
    first part of a task line it stores the item with the text received
    so far, and when it is called next with the rest of the line (a text
    the parser reads nothing from, in a frame that is no end mark) it
    leaves the store as it is and keeps the rest in the buffer: the two
    parts are never joined.  The id of the item is what [parseInt] makes
    of the digits, their value when that is below 2^53. *)
Theorem split_task_line_is_cut (u : Ui) (frame frame2 : gmap string value)
  (ds m t1 t2 : jsstring) :
  (forall st, renderFromState st = true) ->
  buffer (accumulator u) = [] ->
  is_number_text ds -> m ∈ markers ->
  t1 <> [] -> Forall (fun c => is_line_terminator c = false) t1 ->
  stops is_space t1 ->
  frame_text frame = VStr (task_line [] ds (lit " ") m (lit " ") t1) ->
  frame_text frame2 = VStr t2 -> frame_done frame2 = false ->
  parseTaskMessage t2 = None ->
  exists u1 u2,
    on_frame frame u = Some u1 /\ on_frame frame2 u1 = Some u2
    /\ stored_items u1
       = Some (VArr [ item_value (mkItem (parseInt10 ds) (trim t1)
                                    (is_done_marker m)) ])
    /\ buffer (accumulator u1) = []
    /\ store u2 = store u1
    /\ buffer (accumulator u2) = t2
    /\ (digits_value ds < EXACT_BELOW -> parseInt10 ds = Num (digits_value ds)).
Proof.
  intros Hrender Hbuf Hds Hm Hne Hdot Hhead Htext Htext2 Hdone2 Hnone.
  pose proof (parseInt10_exact ds Hds) as Hexact.
  set (chunk := task_line [] ds (lit " ") m (lit " ") t1) in *.
  set (item := mkItem (parseInt10 ds) (trim t1) (is_done_marker m)).
  assert (Hline : task_of_line chunk = [item]).
  { apply task_line_item; try done; try (by repeat constructor). }
  assert (Hone : split_on 10%N chunk = [chunk]).
  { apply split_on_free. unfold chunk, task_line. cbn [app].
    apply Forall_app. split.
    { destruct Hds as [_ Hall]. eapply Forall_impl; [exact Hall|].
      intros c Hc ->. done. }
    constructor; [done|]. constructor; [done|].
    apply Forall_app. split; [by apply marker_one_line|].
    constructor; [done|]. eapply Forall_impl; [exact Hdot|].
    intros c Hc ->. done. }
  destruct (parseTaskMessage_some chunk item []) as (r & Hr & Hitems).
  { by rewrite Hone; cbn [flat_map]; rewrite Hline. }
  assert (Htruthy : truthy (VStr chunk) = true).
  { unfold chunk, task_line. destruct Hds as [Hds _].
    by destruct ds. }
  set (u0 := mkUi (append_value ToString (VStr chunk) (accumulator u))
               (store u) (rendered u)).
  assert (Hacc : accumulator u0 = mkAcc chunk).
  { unfold u0, append_value, append. cbn. by rewrite Hbuf. }
  destruct (applyParsedTasks_items r u0 item [] Hrender Hitems)
    as (u1' & Happly & Hacc1 & Hstored).
  exists (reset_accumulator u1').
  assert (H1 : on_frame frame u = Some (reset_accumulator u1')).
  { unfold TasksUi.on_frame. rewrite Htext, Htruthy. fold u0.
    unfold parse. cbn [fst]. rewrite Hacc. cbn [buffer].
    rewrite Hr, Hitems. by rewrite Happly. }
  set (u1 := reset_accumulator u1') in *.
  set (u2 := mkUi (append_value ToString (VStr t2) (accumulator u1))
               (store u1) (rendered u1)).
  exists u2. split; [exact H1|]. split.
  { unfold TasksUi.on_frame. rewrite Htext2.
    destruct (truthy (VStr t2)) eqn:Ht2.
    - fold u2. unfold parse. cbn [fst].
      change (buffer (accumulator u2)) with ([] ++ t2). cbn [app].
      rewrite Hnone. unfold TasksUi.on_done. by rewrite Hdone2.
    - unfold TasksUi.on_done. rewrite Hdone2. cbn [andb].
      destruct t2; [|done]. reflexivity. }
  split; [exact Hstored|]. by repeat split.
Qed.

Lemma on_frame_keeps (u : Ui) (frame : gmap string value) (t : jsstring) :
  frame_text frame = VStr t -> frame_done frame = false ->
  no_items (buffer (accumulator u) ++ t) ->
  exists u', on_frame frame u = Some u'
             /\ buffer (accumulator u') = buffer (accumulator u) ++ t
             /\ store u' = store u /\ rendered u' = rendered u.
Proof.
  intros Htext Hdone Hno. unfold TasksUi.on_frame. rewrite Htext.
  destruct (truthy (VStr t)) eqn:Ht.
  - set (u1 := mkUi _ _ _).
    assert (Hb : buffer (accumulator u1) = buffer (accumulator u) ++ t)
      by reflexivity.
    unfold parse. cbn [fst]. rewrite Hb.
    pose proof (parseTaskMessage_no_items _ Hno) as Hp.
    exists u1. unfold TasksUi.on_done. rewrite Hdone. cbn [andb].
    destruct (parseTaskMessage (buffer (accumulator u) ++ t)) as [r|]; [|done].
    by rewrite Hp.
  - exists u. unfold TasksUi.on_done. rewrite Hdone. cbn [andb].
    destruct t; [|done]. by rewrite app_nil_r.
Qed.

(** X24: a frame with an event name (that is neither the challenge nor
    a response) is handed to the listeners twice, under its type and
    under its event name, and the listener of ['*'] runs each time: the
    text of one delta is appended to the buffer twice (when neither the
    first nor the second time the buffer holds a task line, which would
    be applied and empty it).  The only other listener that touches the
    buffer is the one of [connected], so neither name is [connected]
    here; and neither name is ['*'], under which the listener of ['*']
    runs twice in one call. *)
Theorem delta_is_appended_twice (u : Ui) (frame : gmap string value)
  (t : jsstring) :
  is_text (prop frame "event") "connect.challenge" = false ->
  is_text (prop frame "type") "res" = false ->
  is_text (prop frame "type") "connected" = false ->
  is_text (prop frame "event") "connected" = false ->
  is_text (prop frame "type") "*" = false ->
  is_text (prop frame "event") "*" = false ->
  truthy (prop frame "event") = true ->
  frame_text frame = VStr t -> frame_done frame = false ->
  no_items (buffer (accumulator u) ++ t) ->
  no_items (buffer (accumulator u) ++ t ++ t) ->
  wildcard_calls (forwarded frame) = [frame; frame]
  /\ exists u',
       deliver (wildcard_calls (forwarded frame)) u = Some u'
       /\ buffer (accumulator u') = buffer (accumulator u) ++ t ++ t
       /\ store u' = store u.
Proof.
  intros _ _ _ _ Hty Hstar Hev Htext Hdone Hno1 Hno2.
  assert (Hcalls : wildcard_calls (forwarded frame) = [frame; frame]).
  { unfold forwarded, wildcard_calls. rewrite Hev.
    cbn [flat_map fst snd app]. rewrite Hstar.
    assert (Hname : is_text (or_value (prop frame "type")
                               (VStr (lit "message"))) "*" = false).
    { unfold or_value. by destruct (truthy (prop frame "type")). }
    by rewrite Hname. }
  split; [exact Hcalls|]. rewrite Hcalls.
  unfold TasksUi.deliver. cbn [foldl].
  destruct (on_frame_keeps u frame t Htext Hdone Hno1)
    as (u1 & H1 & Hb1 & Hs1 & _).
  cbn [mbind option_bind]. rewrite H1.
  destruct (on_frame_keeps u1 frame t Htext Hdone) as (u2 & H2 & Hb2 & Hs2 & _).
  { by rewrite Hb1, <- app_assoc. }
  exists u2. split; [exact H2|]. split.
  - by rewrite Hb2, Hb1, <- app_assoc.
  - by rewrite Hs2.
Qed.

(** Under the name ['*'] the listener of ['*'] runs twice in each call
    of [emit]. *)
Lemma wildcard_name_doubles (frame : gmap string value) :
  is_text (prop frame "type") "*" = true ->
  is_text (prop frame "event") "*" = true ->
  wildcard_calls (forwarded frame) = [frame; frame; frame; frame].
Proof.
  intros Hty Hev. unfold forwarded, wildcard_calls.
  assert (Ht : truthy (prop frame "type") = true).
  { destruct (prop frame "type") as [| | | |[|c s]| | |]; done. }
  assert (He : truthy (prop frame "event") = true).
  { destruct (prop frame "event") as [| | | |[|c s]| | |]; done. }
  unfold or_value. rewrite Ht, He. cbn [flat_map fst snd app].
  by rewrite Hty, Hev.
Qed.

End TasksUiFacts.

Section TasksUiWitnesses.
Import RegexSem Parser Frames TasksUi.

Lemma split_task_line_is_cut_witness :
  let on_frame :=
    on_frame Store.codec_stringify (fun _ => []) (fun _ _ => VUndefined)
      (fun _ => true) in
  exists u1 u2,
    on_frame {[ "delta" := VStr (lit "1. [x] Review") ]}
      (mkUi createDeltaAccumulator sample_store []) = Some u1
    /\ on_frame {[ "delta" := VStr (lit " PR") ]} u1 = Some u2
    /\ stored_items u1
       = Some (VArr [ item_value (mkItem (Num 1) (lit "Review") true) ])
    /\ buffer (accumulator u1) = []
    /\ store u2 = store u1
    /\ buffer (accumulator u2) = lit " PR".
Proof.
  destruct (split_task_line_is_cut Store.codec_stringify (fun _ => [])
              (fun _ _ => VUndefined) (fun _ => true)
              (mkUi createDeltaAccumulator sample_store [])
              {[ "delta" := VStr (lit "1. [x] Review") ]}
              {[ "delta" := VStr (lit " PR") ]}
              (lit "1") (lit "[x]") (lit "Review") (lit " PR"))
    as (u1 & u2 & H1 & H2 & H3 & H4 & H5 & H6 & _);
    [ done | reflexivity | split; [done|by repeat constructor]
    | unfold markers; set_solver | done | by repeat constructor
    | reflexivity | vm_compute; reflexivity | vm_compute; reflexivity
    | vm_compute; reflexivity | vm_compute; reflexivity | ].
  intros on_frame. by exists u1, u2.
Defined.

Lemma delta_is_appended_twice_witness :
  let frame : gmap string value :=
    {[ "type" := VStr (lit "event"); "event" := VStr (lit "chat.delta");
       "data" := VObj {[ "delta" := VStr (lit "Day 4") ]} ]} in
  exists u',
    deliver Store.codec_stringify (fun _ => []) (fun _ _ => VUndefined)
      (fun _ => true) (wildcard_calls (forwarded frame))
      (mkUi createDeltaAccumulator sample_store []) = Some u'
    /\ buffer (accumulator u') = lit "Day 4Day 4"
    /\ store u' = sample_store.
Proof.
  intros frame.
  refine (proj2 (delta_is_appended_twice Store.codec_stringify (fun _ => [])
                   (fun _ _ => VUndefined) (fun _ => true)
                   (mkUi createDeltaAccumulator sample_store []) frame
                   (lit "Day 4") _ _ _ _ _ _ _ _ _ _ _)).
  all: vm_compute; reflexivity.
Defined.

End TasksUiWitnesses.

(* ===================================================================== *)
(** * What the connect request signs *)
(* ===================================================================== *)

Section SignatureFacts.
Import Connection ConnectionApi.

Tactic Notation "fields" :=
  cbn beta iota zeta delta
    [
      ws heartbeatTimer reconnectTimer connectTimer reconnectAttempt
      authenticated connectSent currentAuthToken connectId
      challengeNonce deviceIdentity lastTick conn_state conn_error
      pendingQueue settings timers next_timer wire emitted signing
      set_ws set_heartbeatTimer set_reconnectTimer set_connectTimer
      set_reconnectAttempt set_authenticated set_connectSent
      set_currentAuthToken set_connectId set_challengeNonce
      set_deviceIdentity set_lastTick set_conn_state set_conn_error
      set_pendingQueue set_settings set_timers set_next_timer set_wire
      set_emitted set_signing
      setState setTimer clearTimer fst snd ].
Tactic Notation "fields" "in" hyp(H) :=
  cbn beta iota zeta delta
    [
      ws heartbeatTimer reconnectTimer connectTimer reconnectAttempt
      authenticated connectSent currentAuthToken connectId
      challengeNonce deviceIdentity lastTick conn_state conn_error
      pendingQueue settings timers next_timer wire emitted signing
      set_ws set_heartbeatTimer set_reconnectTimer set_connectTimer
      set_reconnectAttempt set_authenticated set_connectSent
      set_currentAuthToken set_connectId set_challengeNonce
      set_deviceIdentity set_lastTick set_conn_state set_conn_error
      set_pendingQueue set_settings set_timers set_next_timer set_wire
      set_emitted set_signing
      setState setTimer clearTimer fst snd ] in H.

Lemma sendConnect_signs (h : Host) (e : Engine) (t0 : nat) (ident : Identity) :
  connectSent e = false -> connectTimer e = Some t0 ->
  deviceIdentity e = Some ident ->
  let e' := sendConnect h e in
  signing e'
  = signing e
    ++ [mkJob ident
          (DeviceIdentity.buildDeviceAuthPayload
             (DeviceIdentity.mkAuth (ident_id ident) CLIENT_ID CLIENT_MODE
                ROLE SCOPES (now h) (currentAuthToken e)
                (or_null (challengeNonce e))))
          (now h)]
  /\ connectSent e' = true /\ ws e' = ws e /\ wire e' = wire e
  /\ currentAuthToken e' = currentAuthToken e
  /\ challengeNonce e' = challengeNonce e
  /\ deviceIdentity e' = Some ident.
Proof.
  intros Hs Ht Hid. unfold sendConnect. rewrite Hs. fields. rewrite Ht.
  fields. rewrite Hid. fields. by repeat split.
Qed.

Lemma resumeConnect_sends (sig : jsstring) (h : Host) (e : Engine)
  (job : SignJob) (ident : Identity) (sockid : nat) (s : Settings) :
  signing e = [job] -> deviceIdentity e = Some ident ->
  ws e = Some (mkSocket sockid WS_OPEN s) ->
  wire (resumeConnect sig h e)
  = wire e
    ++ [(sockid,
         ConnectRequest (randomUUID h 0) (currentAuthToken e)
           (Some (mkDevice (ident_id ident) (publicKeyRaw ident) sig
                    (job_signedAt job) (or_null (challengeNonce e)))))].
Proof.
  intros Hsig Hid Hws. unfold resumeConnect, finishConnect, send.
  rewrite Hsig. cbn. rewrite Hid. cbn. by rewrite Hws.
Qed.

(** X25: the nonce in the device block of the connect request is the one
    the engine holds when the signature arrives, while the signed payload
    was built with the one it held when the signing began.  When the
    challenge comes first the two agree.  When the send delay elapses
    first and the challenge comes while the payload is being signed, the
    same request goes out, naming the nonce, over a signature of the
    payload of the first form, which has no nonce. *)
Theorem signature_may_miss_the_nonce (e : Engine) (sockid : nat)
  (s : Settings) (t0 : nat) (d : Q) (ident : Identity) (h1 h2 h3 : Host)
  (n sig : jsstring) :
  ws e = Some (mkSocket sockid WS_OPEN s) -> connectSent e = false ->
  connectTimer e = Some t0 -> timers e !! t0 = Some (mkTimer T_connect d) ->
  signing e = [] -> deviceIdentity e = Some ident ->
  challengeNonce e = None -> n <> [] ->
  let payload nonce :=
    DeviceIdentity.buildDeviceAuthPayload
      (DeviceIdentity.mkAuth (ident_id ident) CLIENT_ID CLIENT_MODE ROLE
         SCOPES (now h1) (currentAuthToken e) nonce) in
  let request :=
    ConnectRequest (randomUUID h3 0) (currentAuthToken e)
      (Some (mkDevice (ident_id ident) (publicKeyRaw ident) sig (now h1)
               (Some n))) in
  let early := run [(h1, EMessage (challenge (Some n)))] e in
  let late := run [(h1, ETimer t0 None (Throw []));
                   (h2, EMessage (challenge (Some n)))] e in
  signing early = [mkJob ident (payload (Some n)) (now h1)]
  /\ wire (step h3 (ESigned sig) early) = wire e ++ [(sockid, request)]
  /\ signing late = [mkJob ident (payload None) (now h1)]
  /\ wire (step h3 (ESigned sig) late) = wire e ++ [(sockid, request)]
  /\ payload None <> payload (Some n).
Proof.
  intros Hws Hs Ht Htm Hsig Hid Hn Hne payload request early late.
  assert (Hor : or_null (Some n) = Some n) by (by destruct n).
  (* the challenge first *)
  assert (Hearly : early = sendConnect h1 (set_challengeNonce (Some n) e)).
  { unfold early. cbn [run step]. unfold onmessage. rewrite Hws.
    cbn [sock_settings]. by rewrite handle_challenge, Hor. }
  destruct (sendConnect_signs h1 (set_challengeNonce (Some n) e) t0 ident)
    as (E1 & E2 & E3 & E4 & E5 & E6 & E7); [done..|].
  cbv zeta in E1, E2, E3, E4, E5, E6, E7. rewrite <- Hearly in *.
  fields in E1. fields in E3. fields in E4. fields in E5. fields in E6.
  rewrite Hsig, Hor in E1. cbn [app] in E1.
  (* the delay first *)
  destruct (sendConnect_signs h1 (clearTimer t0 e) t0 ident)
    as (L1 & L2 & L3 & L4 & L5 & L6 & L7); [done..|].
  cbv zeta in L1, L2, L3, L4, L5, L6, L7.
  set (l1 := sendConnect h1 (clearTimer t0 e)) in *.
  fields in L1. fields in L3. fields in L4. fields in L5. fields in L6.
  rewrite Hsig, Hn in L1. cbn [app or_null] in L1.
  assert (Hlate : late = set_challengeNonce (Some n) l1).
  { unfold late. cbn [run step]. unfold fire. rewrite Htm. cbn [kind].
    fold l1. unfold onmessage. rewrite L3, Hws. cbn [sock_settings].
    rewrite handle_challenge, Hor. by apply sendConnect_sent. }
  split; [exact E1|]. split.
  { cbn [step]. rewrite (resumeConnect_sends sig h3 early _ ident sockid s E1).
    - by rewrite E4, E5, E6, Hor.
    - exact E7.
    - by rewrite E3. }
  split; [by rewrite Hlate|]. split.
  { cbn [step].
    rewrite (resumeConnect_sends sig h3 late
               (mkJob ident (payload None) (now h1)) ident sockid s).
    - rewrite Hlate. fields. by rewrite L4, L5, Hor.
    - by rewrite Hlate.
    - rewrite Hlate. fields. exact L7.
    - rewrite Hlate. fields. by rewrite L3. }
  unfold payload. rewrite !payload_is_joined.
  unfold AuthPayload.payload_array. cbn [DeviceIdentity.nonce].
  destruct n as [|c n]; [done|]. cbn [DeviceIdentity.present].
  intros Heq. vm_compute in Heq. discriminate Heq.
Qed.

Lemma signature_may_miss_the_nonce_witness :
  let e := onopen (connect sample_settings (Some sample_identity)
                     (Return 7%nat) (initial sample_settings)) in
  let late := run [(host_at 65, ETimer 1 None (Throw []));
                   (host_at 66, EMessage (challenge (Some (lit "n-1"))))] e in
  job_payload <$> signing late
  = [lit "v1|ab12|webchat|webchat|operator|operator.read,operator.write,operator.admin|1700000000000|tok"]
  /\ wire (step (host_at 67) (ESigned (lit "sig")) late)
     = [(7%nat,
         ConnectRequest [67%N] (Some (lit "tok"))
           (Some (mkDevice (lit "ab12") (lit "pk") (lit "sig")
                    1700000000000%N (Some (lit "n-1")))))].
Proof.
  intros e late.
  destruct (signature_may_miss_the_nonce e 7 sample_settings 1
              (inject_Z CONNECT_SEND_DELAY) sample_identity
              (host_at 65) (host_at 66) (host_at 67) (lit "n-1") (lit "sig"))
    as (_ & _ & H3 & H4 & _); try reflexivity; [done|].
  cbv zeta in H3, H4. fold e late in H3, H4. split.
  - rewrite H3. vm_compute. reflexivity.
  - rewrite H4. vm_compute. reflexivity.
Defined.

End SignatureFacts.

(* ===================================================================== *)
(** * The connection test *)
(* ===================================================================== *)

Section ConnectionTestFacts.
Import Frames ConnectionTest.
Variable host_member : list N -> string -> value.

Local Abbreviation step := (ConnectionTest.step host_member).
Local Abbreviation run := (ConnectionTest.run host_member).
Local Abbreviation onmessage := (ConnectionTest.onmessage host_member).
Local Abbreviation error_message := (ConnectionTest.error_message host_member).
Local Abbreviation error_code := (ConnectionTest.error_code host_member).
Local Abbreviation plain_error := (ConnectionTest.plain_error host_member).

Lemma call_doSendConnect_keeps (h : Host) (t : Test) :
  timer (call_doSendConnect h t) = timer t
  /\ verdicts (call_doSendConnect h t) = verdicts t
  /\ closes (call_doSendConnect h t) = closes t.
Proof.
  unfold call_doSendConnect, finish.
  destruct t as [i tk tm [[]|] st s]; destruct s, i; cbn; done.
Qed.

Lemma resume_keeps (r : completion jsstring) (h : Host) (t : Test) :
  timer (resume r h t) = timer t /\ verdicts (resume r h t) = verdicts t.
Proof.
  unfold resume, finish.
  destruct t as [i tk tm [[]|] st s n c [|j js]]; destruct r, i; cbn; done.
Qed.

Lemma alive_resolve (v : Verdict) (t : Test) : alive (resolve v t).
Proof. right. cbn. by destruct (verdicts t). Qed.

Lemma onmessage_alive (frame : gmap string value) (h : Host) (t : Test) :
  plain_error frame -> alive t -> alive (onmessage frame h t).
Proof.
  intros [s Hs] Ht. unfold ConnectionTest.onmessage.
  destruct (is_text (prop frame "event") "connect.challenge").
  { destruct (call_doSendConnect_keeps h
                (set_testNonce
                   (or_value (opt_member host_member (prop frame "payload")
                                "nonce") VNull)
                   match sendTimer t with
                   | Some _ => set_sendTimer (Some false) t
                   | None => t
                   end)) as (H1 & H2 & _).
    unfold alive. rewrite H1, H2. by destruct (sendTimer t). }
  destruct (is_text (prop frame "type") "res"
            && id_matches (prop frame "id") (testConnectId t)); [|exact Ht].
  destruct (negb _ && negb _); [apply alive_resolve|].
  destruct (is_text _ "NOT_PAIRED"); [apply alive_resolve|].
  rewrite Hs. cbn [includes_method].
  destruct (includes s (lit "NOT_PAIRED")); apply alive_resolve.
Qed.

Lemma step_alive (h : Host) (ev : Event) (t : Test) :
  match frame_of ev with Some f => plain_error f | None => True end ->
  alive t -> alive (step h ev t).
Proof.
  intros Hev Ht. destruct ev as [| |frame|r| | |]; cbn [ConnectionTest.step].
  - by destruct (socket t) as [[]|].
  - destruct (sendTimer t) as [[]|]; try done.
    destruct (call_doSendConnect_keeps h (set_sendTimer (Some false) t))
      as (H1 & H2 & _).
    unfold alive. by rewrite H1, H2.
  - destruct (socket t); [|done]. by apply onmessage_alive.
  - destruct (resume_keeps r h t) as (H1 & H2). unfold alive.
    by rewrite H1, H2.
  - destruct (socket t); [|done]. apply alive_resolve.
  - destruct (timer t) eqn:Htm; [|done]. apply alive_resolve.
  - by destruct (socket t).
Qed.

Lemma run_alive (evs : list (Host * Event)) (t : Test) :
  Forall (fun hev => match frame_of hev.2 with
                     | Some f => plain_error f
                     | None => True
                     end) evs ->
  alive t -> alive (run evs t).
Proof.
  intros Hevs. revert t. induction Hevs as [|[h ev] evs Hev _ IH]; intros t Ht.
  - exact Ht.
  - cbn [ConnectionTest.run]. apply IH. by apply step_alive.
Qed.

Lemma step_verdicts (h : Host) (ev : Event) (t : Test) :
  exists more, verdicts (step h ev t) = verdicts t ++ more.
Proof.
  destruct ev as [| |frame|r| | |]; cbn [ConnectionTest.step].
  - exists []. rewrite app_nil_r. by destruct (socket t) as [[]|].
  - exists []. rewrite app_nil_r. destruct (sendTimer t) as [[]|]; try done.
    by destruct (call_doSendConnect_keeps h (set_sendTimer (Some false) t))
      as (_ & -> & _).
  - destruct (socket t) as [rs|] eqn:Hsock; [|exists []; by rewrite app_nil_r].
    unfold ConnectionTest.onmessage.
    destruct (is_text (prop frame "event") "connect.challenge").
    { exists []. rewrite app_nil_r.
      match goal with
      | |- verdicts (call_doSendConnect h ?x) = _ =>
          destruct (call_doSendConnect_keeps h x) as (_ & -> & _)
      end.
      by destruct (sendTimer t). }
    destruct (is_text (prop frame "type") "res"
              && id_matches (prop frame "id") (testConnectId t));
      [|exists []; by rewrite app_nil_r].
    assert (Hc : verdicts (close (set_timer false t)) = verdicts t).
    { unfold close. cbn. by rewrite Hsock. }
    destruct (negb _ && negb _); [eexists; cbn; by rewrite Hc|].
    destruct (is_text _ "NOT_PAIRED"); [eexists; cbn; by rewrite Hc|].
    destruct (includes_method _ _) as [[]|];
      [eexists; cbn; by rewrite Hc..|exists []; by rewrite app_nil_r].
  - exists []. rewrite app_nil_r. by destruct (resume_keeps r h t) as (_ & ->).
  - destruct (socket t); [by eexists|exists []; by rewrite app_nil_r].
  - destruct (timer t); [|exists []; by rewrite app_nil_r].
    exists [Failed TIMEOUT_MESSAGE]. unfold resolve, close. cbn.
    by destruct (socket t).
  - exists []. rewrite app_nil_r. by destruct (socket t).
Qed.

Lemma run_outcome (evs : list (Host * Event)) (t : Test) (v : Verdict) :
  outcome t = Some v -> outcome (run evs t) = Some v.
Proof.
  revert t. induction evs as [|[h ev] evs IH]; intros t Ht; [exact Ht|].
  cbn [ConnectionTest.run]. apply IH.
  destruct (step_verdicts h ev t) as [more Hmore].
  unfold outcome in *. rewrite Hmore.
  destruct (verdicts t); [done|exact Ht].
Qed.

Lemma run_app (evs evs' : list (Host * Event)) (t : Test) :
  run (evs ++ evs') t = run evs' (run evs t).
Proof.
  revert t. induction evs as [|[h ev] evs IH]; intros t; [done|].
  cbn [app ConnectionTest.run]. apply IH.
Qed.

(** X26: the connection test answers in time: whatever the socket and the
    gateway do, as long as the promise is not settled the 5 s timer is
    pending, so when the 5 s have elapsed the promise is settled; and
    what it was first settled with stays.  This holds when the error
    message of every frame, if it has one, is a string. *)
Theorem test_settles_in_time (ident : option Connection.Identity)
  (token : jsstring) (sock : completion unit) (evs more : list (Host * Event))
  (h : Host) :
  Forall (fun hev => match frame_of hev.2 with
                     | Some f => plain_error f
                     | None => True
                     end) evs ->
  let t := run evs (start ident token sock) in
  (timer t = true \/ outcome t <> None)
  /\ outcome (step h TTimeout t) <> None
  /\ (forall v, outcome t = Some v -> outcome (run more t) = Some v).
Proof.
  intros Hevs t.
  assert (Ht : alive t).
  { apply run_alive; [exact Hevs|]. unfold start.
    destruct sock; [by left|apply alive_resolve]. }
  assert (Hout : forall t', alive t' -> timer t' = true \/ outcome t' <> None).
  { intros t' [H|H]; [by left|right]. unfold outcome.
    by destruct (verdicts t'). }
  split; [by apply Hout|]. split; [|intros v; apply run_outcome].
  cbn [ConnectionTest.step]. destruct (timer t) eqn:Htm.
  - unfold outcome, resolve. cbn. unfold close. cbn.
    destruct (socket t); cbn; by destruct (verdicts t).
  - destruct (Hout t Ht) as [H|H]; [congruence|exact H].
Qed.

(** X27: a response whose error message is neither a string nor an array
    stops the test without an answer: the handler clears the 5 s timer
    and closes the socket, then throws at [errMsg.includes], before it
    resolves.  The timer never fires after that, so the promise stays
    unsettled unless it was settled before or the socket reports an
    error. *)
Theorem odd_error_hangs_the_test (t : Test) (frame : gmap string value)
  (h h' : Host) :
  socket t <> None ->
  is_text (prop frame "event") "connect.challenge" = false ->
  is_text (prop frame "type") "res" = true ->
  id_matches (prop frame "id") (testConnectId t) = true ->
  truthy (prop frame "error") = true ->
  is_text (error_code frame) "NOT_PAIRED" = false ->
  includes_method (error_message frame) "NOT_PAIRED" = None ->
  let t1 := step h (TMessage frame) t in
  timer t1 = false /\ verdicts t1 = verdicts t /\ closes t1 = S (closes t)
  /\ step h' TTimeout t1 = t1.
Proof.
  intros Hsock Hev Hty Hid Herr Hcode Hinc t1.
  assert (Ht1 : t1 = close (set_timer false t)).
  { unfold t1. cbn [ConnectionTest.step].
    destruct (socket t) eqn:Hs; [|done].
    unfold ConnectionTest.onmessage. rewrite Hev, Hty, Hid, Herr.
    cbn [andb negb]. rewrite andb_false_r. by rewrite Hcode, Hinc. }
  rewrite Ht1. unfold close. cbn.
  destruct (socket t) eqn:Hs; [|done]. cbn. done.
Qed.

(** X28: once the connect request of the test was sent, a challenge makes
    the test forget the id of the request ([testConnectId] becomes
    undefined, the value the second call of [doSendConnect] returns).
    From then on a frame that carries an id is not taken for the answer,
    so the answer of the gateway is ignored and the test ends with the
    timeout. *)
Theorem late_challenge_loses_the_answer (t : Test) (h h' h'' : Host)
  (nonce id : jsstring) (frame : gmap string value) :
  socket t <> None -> sent t = true -> timer t = true -> verdicts t = [] ->
  is_text (prop frame "event") "connect.challenge" = false ->
  prop frame "id" = VStr id ->
  let t1 := step h (TMessage (challenge_frame nonce)) t in
  testConnectId t1 = None /\ wire t1 = wire t
  /\ step h' (TMessage frame) t1 = t1
  /\ outcome (run [(h', TMessage frame); (h'', TTimeout)] t1)
     = Some (Failed TIMEOUT_MESSAGE).
Proof.
  intros Hsock Hsent Htm Hv Hev Hid t1.
  destruct (socket t) as [rs|] eqn:Hs; [|done].
  assert (Ht1 : t1 = set_testConnectId None
                       (set_testNonce (or_value (VStr nonce) VNull)
                          match sendTimer t with
                          | Some _ => set_sendTimer (Some false) t
                          | None => t
                          end)).
  { unfold t1. cbn [ConnectionTest.step]. rewrite Hs.
    unfold ConnectionTest.onmessage.
    change (is_text (prop (challenge_frame nonce) "event") "connect.challenge")
      with true. cbn iota.
    change (opt_member host_member (prop (challenge_frame nonce) "payload")
              "nonce") with (VStr nonce).
    unfold call_doSendConnect.
    by destruct (sendTimer t); cbn [sent set_testNonce set_sendTimer];
      rewrite Hsent. }
  assert (Hstep : step h' (TMessage frame) t1 = t1).
  { rewrite Ht1 at 1. cbn [ConnectionTest.step].
    assert (socket (set_testConnectId None
                      (set_testNonce (or_value (VStr nonce) VNull)
                         match sendTimer t with
                         | Some _ => set_sendTimer (Some false) t
                         | None => t
                         end)) = Some rs) as -> by (by destruct (sendTimer t)).
    unfold ConnectionTest.onmessage. rewrite Hev, Hid. cbn [testConnectId
      set_testConnectId id_matches]. rewrite andb_false_r. by rewrite Ht1. }
  split; [by rewrite Ht1|]. split; [by rewrite Ht1; destruct (sendTimer t)|].
  split; [exact Hstep|].
  cbn [ConnectionTest.run]. rewrite Hstep. cbn [ConnectionTest.step].
  assert (timer t1 = true) as -> by (by rewrite Ht1; destruct (sendTimer t)).
  assert (verdicts t1 = []) as Hv1 by (by rewrite Ht1; destruct (sendTimer t)).
  unfold outcome, resolve. cbn [verdicts].
  assert (verdicts (close (set_timer false t1)) = []) as ->; [|done].
  unfold close. cbn [socket set_timer]. by destruct (socket t1).
Qed.

End ConnectionTestFacts.

Section ConnectionTestWitnesses.
Import Frames ConnectionTest.

Lemma test_settles_in_time_witness :
  let host_member : list N -> string -> value := fun _ _ => VUndefined in
  let t := ConnectionTest.run host_member
             [ (host_at 65, TOpen); (host_at 66, TDelay);
               (host_at 67, TMessage (answer_frame [66%N])) ]
             (start None (lit "tok") (Return tt)) in
  outcome t = Some Passed
  /\ outcome (ConnectionTest.run host_member [(host_at 68, TTimeout)] t)
     = Some Passed.
Proof.
  intros host_member t.
  assert (Ht : outcome t = Some Passed) by (vm_compute; reflexivity).
  split; [exact Ht|].
  refine (proj2 (proj2 (test_settles_in_time host_member None (lit "tok")
                          (Return tt) _ [(host_at 68, TTimeout)] (host_at 68) _))
            Passed Ht).
  repeat constructor. exists (lit "Auth rejected"). vm_compute. reflexivity.
Defined.

Lemma odd_error_hangs_the_test_witness :
  let host_member : list N -> string -> value := fun _ _ => VUndefined in
  let t := ConnectionTest.run host_member
             [ (host_at 65, TOpen); (host_at 66, TDelay) ]
             (start None (lit "tok") (Return tt)) in
  let frame : gmap string value :=
    {[ "type" := VStr (lit "res"); "id" := VStr [66%N];
       "error" := VObj {[ "message" := VNum (Num 42) ]} ]} in
  let t1 := ConnectionTest.step host_member (host_at 67) (TMessage frame) t in
  timer t1 = false /\ verdicts t1 = [] /\ closes t1 = 1%nat
  /\ ConnectionTest.step host_member (host_at 68) TTimeout t1 = t1.
Proof.
  intros host_member t frame t1.
  apply (odd_error_hangs_the_test host_member t frame (host_at 67)
           (host_at 68)); try (vm_compute; reflexivity).
  vm_compute. discriminate.
Defined.

Lemma late_challenge_loses_the_answer_witness :
  let host_member : list N -> string -> value := fun _ _ => VUndefined in
  let t := ConnectionTest.run host_member
             [ (host_at 65, TOpen); (host_at 66, TDelay) ]
             (start None (lit "tok") (Return tt)) in
  let t1 := ConnectionTest.step host_member (host_at 67)
              (TMessage (challenge_frame (lit "n-1"))) t in
  wire t = [mkTestRequest [66%N] (lit "tok") None]
  /\ testConnectId t = Some [66%N]
  /\ testConnectId t1 = None
  /\ outcome (ConnectionTest.run host_member
                [ (host_at 68, TMessage (answer_frame [66%N]));
                  (host_at 69, TTimeout) ] t1)
     = Some (Failed TIMEOUT_MESSAGE).
Proof.
  intros host_member t t1.
  split; [vm_compute; reflexivity|]. split; [vm_compute; reflexivity|].
  destruct (late_challenge_loses_the_answer host_member t (host_at 67)
              (host_at 68) (host_at 69) (lit "n-1") [66%N]
              (answer_frame [66%N]))
    as (H1 & _ & _ & H4); try (vm_compute; reflexivity).
  { vm_compute. discriminate. }
  split; [exact H1|exact H4].
Defined.

End ConnectionTestWitnesses.
